(* ===== verification/_CoqProject ===== *)
-Q . S2P
Prelude.v
Errors.v
GoStd.v
Model.v
Clone.v
Rules.v
Schedule.v
Store.v
Repo.v
Txn.v
Frame.v
Devices.v
Plans.v
Automations.v
Outbox.v
Password.v
Auth.v
Batch.v
Alerts.v
Telemetry.v
Statements.v
Schema.v
Analytics.v
Circuit.v
Gateway.v
Transport.v
Http.v
Middleware.v
Maintenance.v
Worker.v
Supervisor.v
Domain.v
Config.v
Queries.v
Sql.v
Migrations.v
Observability.v
System.v
Delivery.v
Process.v
