(* ===== verification/Prelude.v ===== *)
(** * Smart Home Operations: verification development

    The repository is a Go service that runs smart homes for many households: an HTTP
    API over PostgreSQL (devices, telemetry, energy plans, automations, members and
    sessions) and background workers that execute automation runs, deliver outbox
    messages to a webhook and clean up.  This library translates its Go code into
    definitions and proves what makes it correct.  Go names are kept; where two packages
    share a name the later one carries a prefix ([DB_Health], [Registry_Counter]).

    ** How the program is modelled

    - Errors are values of [Errors.error], functions that may fail return [result A]
      ([Ok] or [Fail]).  Integers are [Z] with the wrap-around of int64 written out
      ([wrap64]) where the code computes with unbounded values; float64 is binary64 of
      the library's SpecFloat; strings are byte strings; [time.Time] and
      [time.Duration] are nanoseconds.
    - The database is a record of tables ([Store.Database]), finite maps from
      identifiers to rows, plus the sequences.  A SQL statement is a function on it that
      checks the constraints the migrations declare; stateful code runs in the monad [M]
      of [Store], which threads the database together with a schedule: before every
      statement other clients may act (an arbitrary function, restrained by a rely
      condition), the statement may fail before or after taking effect, and [WithTx]
      rolls back.  [guarantees R m] says that the code, under a rely [R], only moves the
      database along the two-state relation [R]; [Frame] proves such facts table by table.
      [triple R F m G] adds what holds before and after, for facts that survive [R].
    - Goroutines that share memory (the circuit breaker, the idempotent dispatcher, the
      semaphore, the supervised loops, the process) are step relations over critical
      sections.
    - Time, random draws, identifiers and what a context reports are arguments.

    ** The files, bottom up

    - [Prelude], [Errors], [GoStd]: shared lemmas and tactics; error values with
      [errors.Is], [errors.As] and the classification tables of repo/errors.go,
      service/errors.go and httpapi/errors.go; the parts of the Go library that are used.
    - [Model], [Clone], [Rules], [Schedule]: internal/model and internal/domain (rules.go,
      schedule.go, timewindow.go); [Clone] keeps [Device.Clone] on a heap of pointers.
    - [Store], [Repo], [Txn], [Frame], [Statements], [Schema], [Queries], [Sql],
      [Migrations]: internal/db and internal/repo.  [Repo] has one definition per method; its writing
      statements are named ([update_device_state], [claim_run], ...), [Statements.sql]
      lists them all; [Schema] is the invariant they keep and how identifiers are given
      out ([sequenced], [numbered]).
      [Sql] has the query texts that are put together at run time.  [Txn] tells which transaction a context selects; [Migrations] is [Migrate].
    - [Devices], [Plans], [Automations], [Password], [Auth], [Batch], [Alerts],
      [Telemetry], [Maintenance]: internal/service, one section per service against a
      class of the repository methods it calls ([DeviceRepository], [PlanRepository],
      [AutomationRepository], [AuthRepository], ...) whose laws [Repo] discharges.  Each
      also states the history of its table: [device_history], [plan_history],
      [automation_history], [run_history], [alert_history].
    - [Outbox], [Worker], [Supervisor]: repo/outbox.go with [OutboxRunner], and the rest of
      internal/worker: one poll of the automation runner, backoff, retries, health
      checks; the goroutines of supervised jobs and of [Runner.Run].
    - [Circuit], [Gateway], [Transport]: internal/integration and internal/transport.
    - [Analytics], [Domain], [Config], [Observability]: the packages of those names and
      the small components of internal/domain and internal/service.
    - [Http], [Middleware]: internal/httpapi, the routes and handlers as commands of [M]
      that always answer, and the response writers around them.
    - [System]: the whole program against one database: requests, polls and maintenance
      cycles of any number of instances, interleaved statement by statement ([reaches]).
      [Delivery]: the same parts when all goes well, in every database [reachable] from
      the empty one: from a queued run to its receiver.
    - [Process]: cmd/server/main.go with the ticker loops, [Lifecycle] and the publisher:
      how the process starts, what it runs and how it ends.

    A request goes [Middleware.chain], [Http.serve], a service, [Repo], [Store]; services
    enqueue outbox messages and runs as rows, which [Worker.Runner_process] and
    [Outbox.process] claim; [Process.Publish] hands a message to [Transport.SendWithKey].

    ** What the theorems show

    - Lifecycles: [device_transitions_refine_table], [plan_operations_refine_table],
      [stale_version_rejected], [Start_needs_ready_devices]: operations move rows exactly
      along the declared tables, with the right error otherwise.
    - The whole system: [schema_kept] (every CHECK, UNIQUE and foreign key holds in every
      reachable database), [tenancy_kept] (plans and automations only link devices of their
      household), [program_keeps_histories], [operations_write_legally] and
      [succeeded_runs_dispatched] (the work of every run that has succeeded is in the
      outbox and in the audit).
    - Runs and messages: [ExecuteAutomationRun_all_or_nothing], [run_dispatched_once],
      [QueueRun_idempotent], [process_settles_run], [runs_stay_well_formed], [claim_lease],
      [process_outcome], [outbox_gives_up], [outbox_drains], [messages_stay_well_formed],
      [deliveries_identified]; from end to end [commands_delivered]: the commands of a run
      that succeeded reach the publisher, and [queued_run_delivered]: a queued run whose
      devices are ready is executed and its commands delivered in order.
    - Access: [tenant_isolation], [login_grants_access], [logout_is_final],
      [Authorize_spec], [password_round_trip].
    - Outgoing calls: [one_probe], [circuit_protocol], [commands_sent_once], [Do_retries].
    - Data: [telemetry_round_trip], [Capacity_all_instants], [Backoff_bounded],
      [batch_dispatches_own_command], [ExecuteBatch_order_independent], and the theorems
      on windows, pages, buckets, configuration and validation beside their definitions.
    - Queries: [device_query_faithful], [outbox_query_faithful]: the built texts ask for
      what the filters say, and callers cannot write into them.
    - Operation: [main_runs_configured], [chain_answers], [Wait_protocol],
      [Runner_Run_returns], [AccessLog_counts], [maintenance_settles],
      [Migrate_resumes], [transactions_atomic], [shutdown_protocol].
    - Flaws: [shutdown_cuts_requests], [serializable_misses_repository],
      [Dispatch_audit_rejected], and the examples [Bucketize_extra_bucket],
      [late_success_closes], [Backoff_before_first].

    ** Bounds and fuel

    Loops are structural recursion: on the list they range over, on the remaining
    attempts ([Transport.attempt_loop], as many as the client's limit), on the doublings
    of [Worker.double] (one per attempt below the requested one) and on the wake-ups of a
    ticker ([Process.ticker_loop]: any finite prefix of an endless loop).  No definition
    runs out of fuel: where a count is an argument it is the one the code computes.
    Theorems on int64 counters assume they have not reached 2^63-1.

    ** What is taken as given

    Each is a class with the documented laws it needs, instantiated in the witnesses:
    PostgreSQL's rounding, casts, text search and transaction merge ([Postgres],
    [PostgresText], [Serializable]); Unicode case mapping, PBKDF2, the time zone database,
    encoding/json of request bodies and payloads, net/url, RFC 3339, [time.ParseDuration];
    [sort.Slice] is any permutation the comparison accepts.  lib/pq sends a nil payload
    as an empty text, which JSONB rejects.

    ** Not modelled

    The text of log lines; sockets, the HTTP wire format and what the limits of the
    connection pool do to waiting callers; [RealClock], whose readings are arguments; the
    constructors that only fill a struct; [scanNullableTime], which nothing calls.  Of
    the services of [Server], those that no handler compares with nil are taken as there:
    main configures all of them. *)

From stdpp Require Export base tactics list gmap strings pretty sorting.
From Stdlib Require Export ZArith Lia.

#[export] Set Default Goal Selector "!".

Open Scope Z_scope.
Open Scope bool_scope.

(** ** Results

    A Go function returning [(T, error)] is a function into [result E T]: [Ok]
    when the error is nil and [Fail] otherwise.  A function returning only an
    [error] is a function into [option E], [None] standing for nil. *)
Inductive result (E A : Type) : Type :=
| Ok (a : A)
| Fail (e : E).
Arguments Ok {E A} a.
Arguments Fail {E A} e.

Definition is_ok {E A} (r : result E A) : bool :=
  match r with Ok _ => true | Fail _ => false end.

Definition result_bind {E A B} (r : result E A) (k : A -> result E B) : result E B :=
  match r with Ok a => k a | Fail e => Fail e end.

(** [check e k]: Go's [if err := e; err != nil { return err }; k]. *)
Definition check {E A} (e : option E) (k : result E A) : result E A :=
  match e with Some err => Fail err | None => k end.

Declare Scope go_scope.
Delimit Scope go_scope with go.
Notation "'let?' x ':=' r 'in' k" := (result_bind r (fun x => k))
  (at level 10, x pattern, r at level 100, k at level 200) : go_scope.

Lemma result_bind_Ok {E A B} (r : result E A) (k : A -> result E B) b :
  result_bind r k = Ok b -> exists a, r = Ok a /\ k a = Ok b.
Proof. destruct r; naive_solver. Qed.

(** ** Machine integers: Go's [int64], and [int] on a 64-bit platform *)
Definition int64_min : Z := - 2 ^ 63.
Definition int64_max : Z := 2 ^ 63 - 1.
Definition wrap64 (z : Z) : Z := (z + 2 ^ 63) mod 2 ^ 64 - 2 ^ 63.
Definition is_int64 (z : Z) : Prop := int64_min <= z <= int64_max.

Lemma wrap64_small z : is_int64 z -> wrap64 z = z.
Proof.
  unfold is_int64, int64_min, int64_max, wrap64; intros ?.
  rewrite Z.mod_small; lia.
Qed.

Lemma wrap64_range z : is_int64 (wrap64 z).
Proof.
  unfold is_int64, int64_min, int64_max, wrap64.
  pose proof (Z.mod_pos_bound (z + 2 ^ 63) (2 ^ 64) ltac:(lia)). lia.
Qed.

(** ** Boolean guards

    [bsimp] turns the boolean tests of the code into propositions, in every
    hypothesis; [guards] splits the [if]s and [match]es of a hypothesis and
    closes the contradictory branches. *)
Ltac bsimp := repeat
  match goal with
  | H : _ && _ = true |- _ => apply andb_true_iff in H; destruct H
  | H : _ || _ = false |- _ => apply orb_false_iff in H; destruct H
  | H : _ && _ = false |- _ => apply andb_false_iff in H
  | H : _ || _ = true |- _ => apply orb_true_iff in H
  | H : negb _ = true |- _ => apply negb_true_iff in H
  | H : negb _ = false |- _ => apply negb_false_iff in H
  | H : (_ <? _) = true |- _ => apply Z.ltb_lt in H
  | H : (_ <? _) = false |- _ => apply Z.ltb_ge in H
  | H : (_ <=? _) = true |- _ => apply Z.leb_le in H
  | H : (_ <=? _) = false |- _ => apply Z.leb_gt in H
  | H : (_ =? _) = true |- _ => apply Z.eqb_eq in H
  | H : (_ =? _) = false |- _ => apply Z.eqb_neq in H
  | H : bool_decide _ = true |- _ => apply bool_decide_eq_true in H
  | H : bool_decide _ = false |- _ => apply bool_decide_eq_false in H
  end.

(** [bsimp] followed by a case analysis on the disjunctions it finds. *)
Ltac bcases := repeat (progress (bsimp; destruct_or?)).

Ltac guards H := repeat
  match type of H with
  | context [if ?b then _ else _] => destruct b eqn:?
  | context [match ?x with _ => _ end] => destruct x eqn:?
  end; try discriminate H; bsimp.

(** Membership in a concrete list, by evaluation. *)
Ltac mem := apply (bool_decide_unpack _); vm_compute; exact I.

Lemma Z_ltb_bool_decide x y : (x <? y) = bool_decide (x < y).
Proof. case_bool_decide; lia. Qed.

(** ** Sorting with a [less] callback

    [stable_sort] is [sort.SliceStable]: insertion from the right keeps equal
    elements in their order.  [sort.Slice] makes no promise about equal
    elements, so its users are verified against the class [SliceSort] below. *)
Class StrictWeak {A} (less : A -> A -> bool) : Prop := {
  less_asym x y : less x y = true -> less y x = false;
  less_cotrans x y z : less x z = true -> less x y = true \/ less y z = true
}.

Definition not_after {A} (less : A -> A -> bool) (x y : A) : Prop := less y x = false.

Fixpoint insert_by {A} (less : A -> A -> bool) (x : A) (l : list A) : list A :=
  match l with
  | [] => [x]
  | y :: l' => if less y x then y :: insert_by less x l' else x :: l
  end.

Fixpoint stable_sort {A} (less : A -> A -> bool) (l : list A) : list A :=
  match l with
  | [] => []
  | x :: l' => insert_by less x (stable_sort less l')
  end.

Section sorting.
Context {A : Type} (less : A -> A -> bool) `{!StrictWeak less}.

Lemma less_irrefl x : less x x = false.
Proof. destruct (less x x) eqn:E; [|done]. by rewrite (less_asym x x E) in E. Qed.

#[export] Instance not_after_trans : Transitive (not_after less).
Proof.
  unfold not_after; intros x y z Hxy Hyz.
  destruct (less z x) eqn:E; [|done].
  destruct (less_cotrans z y x E) as [H|H]; congruence.
Qed.

Lemma insert_by_perm x l : insert_by less x l ≡ₚ x :: l.
Proof.
  induction l as [|y l IH]; simpl; [done|].
  destruct (less y x); [|done]. rewrite IH. apply Permutation_swap.
Qed.

Lemma stable_sort_perm l : stable_sort less l ≡ₚ l.
Proof. induction l as [|x l IH]; simpl; [done|]. by rewrite insert_by_perm, IH. Qed.

Lemma insert_by_sorted x l :
  StronglySorted (not_after less) l -> StronglySorted (not_after less) (insert_by less x l).
Proof.
  induction 1 as [|y l Hl IH Hy]; simpl; [by repeat constructor|].
  destruct (less y x) eqn:E.
  - constructor; [done|]. rewrite insert_by_perm. constructor; [|done].
    by apply less_asym.
  - constructor; [by constructor|]. constructor; [done|].
    eapply Forall_impl; [done|]. intros z Hz. by transitivity y.
Qed.

Lemma stable_sort_sorted l : StronglySorted (not_after less) (stable_sort less l).
Proof. induction l; simpl; [constructor | by apply insert_by_sorted]. Qed.

(** Stability: the elements equivalent to any [x] keep their order. *)
Definition same_key (x y : A) : bool := negb (less x y) && negb (less y x).

Lemma insert_by_stable x y l :
  List.filter (same_key x) (insert_by less y l) =
  (if same_key x y then [y] else []) ++ List.filter (same_key x) l.
Proof.
  induction l as [|z l IH]; simpl; [by destruct (same_key x y)|].
  destruct (less z y) eqn:Ezy; simpl; [|by destruct (same_key x y)].
  rewrite IH. destruct (same_key x z) eqn:Ez, (same_key x y) eqn:Ey; try done.
  unfold same_key in *; bsimp.
  destruct (less_cotrans z x y Ezy) as [?|?]; congruence.
Qed.

Lemma stable_sort_stable x l :
  List.filter (same_key x) (stable_sort less l) = List.filter (same_key x) l.
Proof.
  induction l as [|y l IH]; simpl; [done|].
  rewrite insert_by_stable, IH. by destruct (same_key x y).
Qed.

Lemma stable_sort_id l :
  StronglySorted (not_after less) l -> stable_sort less l = l.
Proof.
  induction 1 as [|y l Hl IH Hy]; simpl; [done|]. rewrite IH.
  destruct Hy as [|z l Hz Hl']; simpl; [done|]. by rewrite Hz.
Qed.
End sorting.

(** What [sort.Slice] documents: the result holds the same elements, in an
    order the callback accepts. *)
Class SliceSort := {
  sort_Slice {A} : (A -> A -> bool) -> list A -> list A;
  sort_Slice_perm {A} (less : A -> A -> bool) l : sort_Slice less l ≡ₚ l;
  sort_Slice_sorted {A} (less : A -> A -> bool) l :
    StrictWeak less -> StronglySorted (not_after less) (sort_Slice less l)
}.

#[export, refine] Instance stable_SliceSort : SliceSort | 100 :=
  {| sort_Slice := @stable_sort |}.
Proof.
  - intros. apply stable_sort_perm.
  - intros. by apply stable_sort_sorted.
Defined.

(** Ordering by an integer key, the usual callback. *)
Definition less_by {A} (key : A -> Z) (x y : A) : bool := key x <? key y.

#[export] Instance less_by_StrictWeak {A} (key : A -> Z) : StrictWeak (less_by key).
Proof.
  split; unfold less_by.
  - intros x y ?; bsimp. apply Z.ltb_ge. lia.
  - intros x y z ?; bsimp. destruct (key x <? key y) eqn:?; [by left|right]. bsimp; lia.
Qed.

(** ** Loops with a [seen] map

    Several Go loops walk a slice, reject a malformed element, reject a key
    met before, record the key and then possibly reject the element again. *)
Section scan_seen.
Context {A K E : Type} `{Countable K}.
Context (key : A -> K) (pre post : A -> option E) (dup : A -> E).

Fixpoint scan_seen (seen : gset K) (l : list A) : option E :=
  match l with
  | [] => None
  | x :: l' =>
      match pre x with
      | Some e => Some e
      | None =>
          if bool_decide (key x ∈ seen) then Some (dup x)
          else match post x with
               | Some e => Some e
               | None => scan_seen ({[key x]} ∪ seen) l'
               end
      end
  end.

Lemma scan_seen_None seen l :
  scan_seen seen l = None <->
  Forall (fun x => pre x = None /\ post x = None) l /\ NoDup (key <$> l) /\
  Forall (fun x => key x ∉ seen) l.
Proof.
  revert seen; induction l as [|x l IH]; intros seen; simpl.
  { split; [|done]. intros _. repeat constructor. }
  rewrite !Forall_cons, NoDup_cons.
  destruct (pre x) eqn:Hpre.
  { split; [done|]. by intros ([[? ?] ?] & _). }
  case_bool_decide as Hseen.
  { split; [done|]. by intros (_ & _ & [? ?]). }
  destruct (post x) eqn:Hpost.
  { split; [done|]. by intros ([[? ?] ?] & _). }
  rewrite IH, list_elem_of_fmap, !Forall_forall. split.
  - intros (Hl & Hnd & Hfresh). split_and!; try done.
    + intros (y & Hk & Hy). apply (Hfresh y Hy). rewrite Hk. set_solver.
    + intros y Hy Hin. apply (Hfresh y Hy). set_solver.
  - intros ([_ Hl] & [Hk Hnd] & [_ Hfresh]). split_and!; try done.
    intros y Hy. specialize (Hfresh y Hy). intros [?%elem_of_singleton|?]%elem_of_union;
      [|done]. apply Hk. by exists y.
Qed.
End scan_seen.
