(* ===== verification/Errors.v ===== *)
(** * Go errors as data

    The [error] values the program builds: sentinels ([model.ErrNotFound],
    [sql.ErrNoRows], [context.Canceled], ...), plain texts ([errors.New]),
    [fmt.Errorf] wrappers, [errors.Join], the driver's [*pq.Error], the
    repository's [classifiedError] and the service's [AppError]; [errors.Is]
    and [errors.As] over them; and the three tables that interpret errors:
    [repo/errors.go], [httpapi/errors.go] and [service/errors.go]. *)
From S2P Require Import Prelude.

(** Package-level error values the program compares against. *)
Inductive sentinel :=
| ErrNotFound | ErrConflict | ErrInvalid | ErrForbidden | ErrBusy
| ErrNoRows | Canceled | DeadlineExceeded | EOF.

#[export] Instance sentinel_eq_dec : EqDecision sentinel.
Proof. solve_decision. Defined.

Inductive error :=
| Sentinel (s : sentinel)
| New (text : string)
| Errorf (text : string) (wrapped : error)
| Join1 (e : error)
| Join2 (e1 e2 : error)
| PqError (code message : string)
| Classified (public cause : error)
| AppError (code op : string) (wrapped : error).

#[export] Instance error_eq_dec : EqDecision error.
Proof. solve_decision. Defined.

Abbreviation result := (Prelude.result error).

Definition sentinel_text (s : sentinel) : string :=
  match s with
  | ErrNotFound => "record not found"
  | ErrConflict => "record conflict"
  | ErrInvalid => "invalid request"
  | ErrForbidden => "operation forbidden"
  | ErrBusy => "resource busy"
  | ErrNoRows => "sql: no rows in result set"
  | Canceled => "context canceled"
  | DeadlineExceeded => "context deadline exceeded"
  | EOF => "EOF"
  end.

Definition newline : string := String (Ascii.ascii_of_nat 10) "".

(** [err.Error()].  An [Errorf] carries its formatted text. *)
Fixpoint Error (e : error) : string :=
  match e with
  | Sentinel s => sentinel_text s
  | New text => text
  | Errorf text _ => text
  | Join1 e => Error e
  | Join2 e1 e2 => Error e1 +:+ newline +:+ Error e2
  | PqError _ message => "pq: " +:+ message
  | Classified public _ => Error public
  | AppError code op e => code +:+ ": " +:+ op +:+ ": " +:+ Error e
  end.

(** [fmt.Errorf("<prefix>: %w", err)] and [fmt.Errorf("%w: <suffix>", err)]. *)
Definition wrap_prefix (prefix : string) (e : error) : error :=
  Errorf (prefix +:+ ": " +:+ Error e) e.
Definition wrap_suffix (e : error) (suffix : string) : error :=
  Errorf (Error e +:+ ": " +:+ suffix) e.

(** [errors.Is(err, s)] for a sentinel. *)
Fixpoint Is (e : error) (s : sentinel) : bool :=
  match e with
  | Sentinel s' => bool_decide (s' = s)
  | New _ | PqError _ _ => false
  | Errorf _ e | Join1 e | AppError _ _ e => Is e s
  | Join2 e1 e2 => Is e1 s || Is e2 s
  | Classified public cause => Is public s || Is cause s
  end.

(** [errors.As(err, **pq.Error)]: the first driver error of the tree, with its
    SQLSTATE code. *)
Fixpoint AsPq (e : error) : option string :=
  match e with
  | PqError code _ => Some code
  | Sentinel _ | New _ => None
  | Errorf _ e | Join1 e | AppError _ _ e => AsPq e
  | Join2 e1 e2 => match AsPq e1 with Some c => Some c | None => AsPq e2 end
  | Classified public cause => match AsPq public with Some c => Some c | None => AsPq cause end
  end.

(** [errors.As(err, **AppError)]: its code. *)
Fixpoint AsApp (e : error) : option string :=
  match e with
  | AppError code _ _ => Some code
  | Sentinel _ | New _ | PqError _ _ => None
  | Errorf _ e | Join1 e => AsApp e
  | Join2 e1 e2 => match AsApp e1 with Some c => Some c | None => AsApp e2 end
  | Classified public cause => match AsApp public with Some c => Some c | None => AsApp cause end
  end.

(** ** [context.Context]: what [ctx.Err()] returns at a point in time *)
Inductive Ctx := Live | CtxCanceled | CtxDeadline.

Definition ctx_Err (c : Ctx) : option error :=
  match c with
  | Live => None
  | CtxCanceled => Some (Sentinel Canceled)
  | CtxDeadline => Some (Sentinel DeadlineExceeded)
  end.

(** The test [errors.Is(err, context.Canceled) || errors.Is(err, context.DeadlineExceeded)],
    which the source writes in several packages. *)
Definition is_ctx_error (e : error) : bool := Is e Canceled || Is e DeadlineExceeded.

(** ** repo/errors.go *)
Definition classifyWriteError (e : error) : error :=
  match AsPq e with
  | None => e
  | Some code =>
      if bool_decide (code ∈ ["23505"; "23503"; "40001"; "40P01"]%string)
      then Classified (Sentinel ErrConflict) e
      else if bool_decide (code ∈ ["23502"; "23514"; "22001"; "22P02"]%string)
      then Classified (Sentinel ErrInvalid) e
      else e
  end.

Definition classifyReadError (e : error) : error :=
  if Is e ErrNoRows then Classified (Sentinel ErrNotFound) e else classifyWriteError e.

(** ** httpapi/errors.go *)
Definition ErrorCode (e : error) : string :=
  if Is e ErrInvalid then "invalid_request"
  else if Is e ErrForbidden then "forbidden"
  else if Is e ErrNotFound then "not_found"
  else if Is e ErrConflict then "conflict"
  else "internal_error".

Definition ErrorStatus (e : error) : Z :=
  let code := ErrorCode e in
  if bool_decide (code = "invalid_request"%string) then 400
  else if bool_decide (code = "forbidden"%string) then 403
  else if bool_decide (code = "not_found"%string) then 404
  else if bool_decide (code = "conflict"%string) then 409
  else 500.

(** ** service/errors.go *)
Definition ErrorValidation : string := "validation".
Definition ErrorConflict : string := "conflict".
Definition ErrorDependency : string := "dependency".
Definition ErrorInternal : string := "internal".

Definition Wrap (code op : string) (e : option error) : option error :=
  match e with None => None | Some e => Some (AppError code op e) end.

Definition IsCode (e : error) (code : string) : bool :=
  match AsApp e with Some c => bool_decide (c = code) | None => false end.

(** [errorString] of worker/recovery.go. *)
Definition errorString (e : option error) : string :=
  match e with None => "" | Some e => Error e end.

(** ** domain/concurrency.go: combining errors *)
Fixpoint FirstError (errs : list (option error)) : option error :=
  match errs with
  | [] => None
  | Some e :: _ => Some e
  | None :: errs' => FirstError errs'
  end.

(** [errors.Join(a, b)] drops nil arguments. *)
Definition errors_Join (a b : option error) : option error :=
  match a, b with
  | None, None => None
  | Some e, None | None, Some e => Some (Join1 e)
  | Some a, Some b => Some (Join2 a b)
  end.

Fixpoint RequireAll_loop (combined : option error) (errs : list (option error)) : option error :=
  match errs with
  | [] => combined
  | Some e :: errs' => RequireAll_loop (errors_Join combined (Some e)) errs'
  | None :: errs' => RequireAll_loop combined errs'
  end.
Definition RequireAll (errs : list (option error)) : option error := RequireAll_loop None errs.

(** ** Lemmas *)
Lemma Is_wrap_prefix p e s : Is (wrap_prefix p e) s = Is e s.
Proof. done. Qed.
Lemma Is_wrap_suffix t e s : Is (wrap_suffix e t) s = Is e s.
Proof. done. Qed.

Lemma classifyWriteError_keeps e s : Is e s = true -> Is (classifyWriteError e) s = true.
Proof.
  intros He. unfold classifyWriteError. repeat case_match; simpl; rewrite ?He; auto using orb_true_r.
Qed.

Lemma classifyWriteError_cases e :
  classifyWriteError e = e \/
  classifyWriteError e = Classified (Sentinel ErrConflict) e \/
  classifyWriteError e = Classified (Sentinel ErrInvalid) e.
Proof. unfold classifyWriteError. repeat case_match; auto. Qed.

Lemma RequireAll_loop_Is combined errs s :
  match RequireAll_loop combined errs with Some e => Is e s | None => false end =
  match combined with Some e => Is e s | None => false end ||
  existsb (fun o => match o with Some e => Is e s | None => false end) errs.
Proof.
  revert combined; induction errs as [|[e|] errs IH]; intros combined; simpl.
  - by rewrite orb_false_r.
  - rewrite IH. destruct combined; simpl; by rewrite ?orb_assoc.
  - done.
Qed.

Lemma RequireAll_loop_None combined errs :
  RequireAll_loop combined errs = None <-> combined = None /\ Forall (.= None) errs.
Proof.
  revert combined; induction errs as [|[e|] errs IH]; intros combined; simpl.
  - naive_solver.
  - rewrite IH, Forall_cons. destruct combined; naive_solver.
  - rewrite IH, Forall_cons. naive_solver.
Qed.

Lemma FirstError_None errs : FirstError errs = None <-> Forall (.= None) errs.
Proof. induction errs as [|[e|] errs IH]; simpl; rewrite ?Forall_cons; naive_solver. Qed.
