(* ===== verification/GoStd.v ===== *)
(** * The parts of Go and its standard library the program computes with

    [time.Time] and [time.Duration] as nanosecond counts, byte strings with the
    functions of package [strings] and [strconv], and [float64] as IEEE 754
    binary64 (the executable [SpecFloat] of the library, no axioms). *)
From S2P Require Import Prelude Errors.
From Stdlib Require Export SpecFloat.
From Stdlib Require Import Ascii.

(** ** Time

    An instant is its distance in nanoseconds from Go's zero time (January 1,
    year 1, UTC), so [IsZero] is [= 0].  [Sub] saturates at the range of a
    [Duration], an int64 of nanoseconds, as the library does. *)
Definition Time := Z.
Definition Duration := Z.

Definition Millisecond : Duration := 10 ^ 6.
Definition Second : Duration := 10 ^ 9.
Definition Minute : Duration := 60 * Second.
Definition Hour : Duration := 60 * Minute.

Definition zeroTime : Time := 0.
Definition IsZero (t : Time) : bool := t =? 0.
Definition Before (t u : Time) : bool := t <? u.
Definition After (t u : Time) : bool := u <? t.
Definition Equal (t u : Time) : bool := t =? u.
Definition Sub (t u : Time) : Duration := Z.max int64_min (Z.min int64_max (t - u)).
Definition Add (t : Time) (d : Duration) : Time := t + d.

(** [time.Time.Format(time.RFC3339Nano)] in UTC. *)
Class TimeFormat := { RFC3339Nano : Time -> string }.

(** [time.Time.MarshalJSON] has no text for years outside [0, 9999]; year 0 has 366 days
    and the years 1 to 9999 have 3652059. *)
Definition Day : Duration := 24 * Hour.
Definition year_in_range (t : Time) : bool := (- 366 * Day <=? t) && (t <? 3652059 * Day).

Ltac time_simpl :=
  unfold IsZero, Before, After, Equal, Add, zeroTime, Time, Duration in *.
(** Solves goals about instants: the comparisons are those of [Z]. *)
Ltac time_solve := time_simpl; bsimp; try lia.

Lemma Sub_small t u : is_int64 (t - u) -> Sub t u = t - u.
Proof. unfold Sub, is_int64, int64_min, int64_max. lia. Qed.

Lemma Sub_le_iff t u d : int64_min <= d < int64_max -> Sub t u <= d <-> t - u <= d.
Proof. unfold Sub, int64_min, int64_max. lia. Qed.

(** ** Strings: byte strings, as in Go *)
Definition code (c : ascii) : Z := Z.of_N (N_of_ascii c).
Definition bytes (s : string) : list ascii := String.list_ascii_of_string s.
Definition of_bytes (l : list ascii) : string := String.string_of_list_ascii l.
(** Go's [len(s)]. *)
Definition len (s : string) : Z := Z.of_nat (String.length s).

(** The UTF-8 encodings of the code points [unicode.IsSpace] accepts, by length. *)
Definition space1 (a : ascii) : bool :=
  bool_decide (code a ∈ [9; 10; 11; 12; 13; 32]).
Definition space2 (a b : ascii) : bool :=
  (code a =? 0xC2) && bool_decide (code b ∈ [0x85; 0xA0]).
Definition space3 (a b c : ascii) : bool :=
  (code a =? 0xE1) && (code b =? 0x9A) && (code c =? 0x80)
  || (code a =? 0xE2) && (code b =? 0x80) &&
     ((0x80 <=? code c) && (code c <=? 0x8A) || bool_decide (code c ∈ [0xA8; 0xA9; 0xAF]))
  || (code a =? 0xE2) && (code b =? 0x81) && (code c =? 0x9F)
  || (code a =? 0xE3) && (code b =? 0x80) && (code c =? 0x80).

(** Drops the encodings at the head of a list of bytes, where [p2] and [p3]
    recognise the two- and three-byte ones in the order the bytes come. *)
Fixpoint trim_with (p2 : ascii -> ascii -> bool) (p3 : ascii -> ascii -> ascii -> bool)
    (l : list ascii) : list ascii :=
  match l with
  | [] => []
  | a :: l1 =>
      if space1 a then trim_with p2 p3 l1
      else match l1 with
           | [] => l
           | b :: l2 =>
               if p2 a b then trim_with p2 p3 l2
               else match l2 with
                    | [] => l
                    | c :: l3 => if p3 a b c then trim_with p2 p3 l3 else l
                    end
           end
  end.

Definition trim_left (l : list ascii) : list ascii := trim_with space2 space3 l.
Definition trim_right (l : list ascii) : list ascii :=
  rev (trim_with (fun a b => space2 b a) (fun a b c => space3 c b a) (rev l)).
Definition TrimSpace (s : string) : string := of_bytes (trim_right (trim_left (bytes s))).

Definition is_ascii (c : ascii) : bool := code c <? 128.
Definition lower_ascii (c : ascii) : ascii :=
  if (65 <=? code c) && (code c <=? 90) then ascii_of_N (Z.to_N (code c + 32)) else c.

(** [strings.ToLower] takes the ASCII path below; on other strings it consults
    the Unicode case tables, a parameter here. *)
Class Unicode := { unicode_lower : string -> string }.
Definition ToLower `{Unicode} (s : string) : string :=
  if forallb is_ascii (bytes s) then of_bytes (map lower_ascii (bytes s)) else unicode_lower s.

(** The instance for ASCII inputs, used to evaluate examples. *)
Definition ascii_only : Unicode := {| unicode_lower s := s |}.

(** ** Values of a context: a key is an interface value, that is its type and its text;
    [ctx.Value(key).(string)] is empty when there is none. *)
Notation Values := (gmap (string * string) string).
Definition WithValue (type key value : string) (ctx : Values) : Values := <[(type, key) := value]> ctx.
Definition Value (type key : string) (ctx : Values) : string := default ""%string (ctx !! (type, key)).

Lemma Value_WithValue type key value ctx : Value type key (WithValue type key value ctx) = value.
Proof. unfold Value, WithValue. by rewrite lookup_insert_eq. Qed.
Lemma Value_other type key type' key' value ctx :
  (type, key) <> (type', key') -> Value type key (WithValue type' key' value ctx) = Value type key ctx.
Proof. intros Hne. unfold Value, WithValue. by rewrite lookup_insert_ne by done. Qed.

(** [strings.LastIndexByte]: -1 when the byte is absent. *)
Fixpoint last_index_from (i found : Z) (c : ascii) (l : list ascii) : Z :=
  match l with
  | [] => found
  | a :: l' => last_index_from (i + 1) (if bool_decide (a = c) then i else found) c l'
  end.
Definition LastIndexByte (s : string) (c : ascii) : Z := last_index_from 0 (-1) c (bytes s).

(** [strings.ContainsAny(s, chars)] for ASCII [chars]. *)
Definition ContainsAny (s : string) (chars : list Z) : bool :=
  existsb (fun c => bool_decide (code c ∈ chars)) (bytes s).

(** The rune loops [r < ' ' || r == 0x7f]: only single-byte runes can match. *)
Definition has_control (s : string) : bool :=
  existsb (fun c => (code c <? 32) || (code c =? 127)) (bytes s).

(** [strings.Split(s, sep)] for a one-byte separator. *)
Fixpoint split_bytes (sep : ascii) (l acc : list ascii) : list string :=
  match l with
  | [] => [of_bytes (rev acc)]
  | a :: l' => if bool_decide (a = sep) then of_bytes (rev acc) :: split_bytes sep l' []
               else split_bytes sep l' (a :: acc)
  end.
Definition Split (s : string) (sep : ascii) : list string := split_bytes sep (bytes s) [].

(** [strings.TrimRight(s, cutset)] for a one-byte cutset. *)
Fixpoint drop_byte (c : ascii) (l : list ascii) : list ascii :=
  match l with a :: l' => if bool_decide (a = c) then drop_byte c l' else l | [] => [] end.
Definition TrimRight (s : string) (c : ascii) : string :=
  of_bytes (rev (drop_byte c (rev (bytes s)))).

(** ** strconv: [Atoi] and [ParseInt(s, 10, 64)]; [None] is a syntax or range error *)
Definition digit (c : ascii) : option Z :=
  if (48 <=? code c) && (code c <=? 57) then Some (code c - 48) else None.
Fixpoint digits (acc : Z) (l : list ascii) : option Z :=
  match l with
  | [] => Some acc
  | c :: l' => match digit c with Some d => digits (10 * acc + d) l' | None => None end
  end.
Definition in_int64 (z : Z) : option Z :=
  if (int64_min <=? z) && (z <=? int64_max) then Some z else None.
Definition ParseInt (s : string) : option Z :=
  match bytes s with
  | [] => None
  | c :: l =>
      if code c =? 45 then
        match l with [] => None | _ => match digits 0 l with Some z => in_int64 (- z) | None => None end end
      else if code c =? 43 then
        match l with [] => None | _ => match digits 0 l with Some z => in_int64 z | None => None end end
      else match digits 0 (c :: l) with Some z => in_int64 z | None => None end
  end.
Definition Atoi (s : string) : option Z := ParseInt s.

(** [fmt.Sprint(n)] and the verb [%d]. *)
Definition Sprint (n : Z) : string := pretty n.

(** ** float64 *)
Definition float64 := spec_float.
Definition fadd : float64 -> float64 -> float64 := SFadd 53 1024.
Definition fmul : float64 -> float64 -> float64 := SFmul 53 1024.
Definition fdiv : float64 -> float64 -> float64 := SFdiv 53 1024.
Definition flt (x y : float64) : bool := SFltb x y.
Definition fle (x y : float64) : bool := SFleb x y.
Definition f0 : float64 := S754_zero false.
Definition f1 : float64 := binary_normalize 53 1024 1 0 false.
Definition f2 : float64 := binary_normalize 53 1024 2 0 false.
(** [float64(n)] for an integer. *)
Definition of_int (n : Z) : float64 := binary_normalize 53 1024 n 0 false.
Definition IsNaN (x : float64) : bool := match x with S754_nan => true | _ => false end.
Definition IsInf (x : float64) : bool := match x with S754_infinity _ => true | _ => false end.

#[export] Instance spec_float_eq_dec : EqDecision spec_float.
Proof. solve_decision. Defined.

(** ** Lemmas *)
Definition leads (p2 : ascii -> ascii -> bool) (p3 : ascii -> ascii -> ascii -> bool)
    (l : list ascii) : bool :=
  match l with
  | [] => false
  | a :: l1 => space1 a || match l1 with
                           | [] => false
                           | b :: l2 => p2 a b || match l2 with [] => false | c :: _ => p3 a b c end
                           end
  end.

Lemma trim_with_spec p2 p3 l :
  leads p2 p3 (trim_with p2 p3 l) = false /\ exists q, l = q ++ trim_with p2 p3 l.
Proof.
  remember (length l) as n eqn:Hn.
  assert (length l <= n)%nat as Hle by lia. clear Hn. revert l Hle.
  induction n as [|n IH]; intros [|a l1] Hle; simpl in Hle; try lia;
    try (split; [done | by exists []]).
  simpl. destruct (space1 a) eqn:Ha.
  { destruct (IH l1) as [? [q Hq]]; [lia|]. split; [done|]. exists (a :: q); simpl; congruence. }
  destruct l1 as [|b l2]; [split; [simpl; by rewrite Ha | by exists []]|].
  destruct (p2 a b) eqn:Hab.
  { destruct (IH l2) as [? [q Hq]]; [simpl in *; lia|].
    split; [done|]. exists (a :: b :: q); simpl; congruence. }
  destruct l2 as [|c l3]; [split; [simpl; by rewrite Ha, Hab | by exists []]|].
  destruct (p3 a b c) eqn:Habc; [|split; [simpl; by rewrite Ha, Hab, Habc | by exists []]].
  destruct (IH l3) as [? [q Hq]]; [simpl in *; lia|].
  split; [done|]. exists (a :: b :: c :: q); simpl; congruence.
Qed.

Lemma trim_with_id p2 p3 l : leads p2 p3 l = false -> trim_with p2 p3 l = l.
Proof.
  destruct l as [|a [|b [|c l]]]; simpl; intros ?; bsimp; repeat case_match; try done; congruence.
Qed.

Lemma leads_prefix p2 p3 l q : leads p2 p3 (l ++ q) = false -> leads p2 p3 l = false.
Proof.
  destruct l as [|a [|b [|c l]]]; simpl; intros ?; bsimp; try done;
    repeat match goal with H : ?b = false |- _ => rewrite H end; done.
Qed.

Lemma of_bytes_bytes s : of_bytes (bytes s) = s.
Proof. apply String.string_of_list_ascii_of_string. Qed.
Lemma bytes_of_bytes l : bytes (of_bytes l) = l.
Proof. apply String.list_ascii_of_string_of_list_ascii. Qed.

(** Trimming is idempotent: the normalised strings the services store are fixed
    points of the normalisation. *)
Lemma TrimSpace_idem s : TrimSpace (TrimSpace s) = TrimSpace s.
Proof.
  unfold TrimSpace. rewrite bytes_of_bytes. f_equal.
  set (l := trim_left (bytes s)).
  assert (leads space2 space3 l = false) as Hl by apply trim_with_spec.
  unfold trim_right at 2.
  set (p2 := fun a b => space2 b a). set (p3 := fun a b c => space3 c b a).
  destruct (trim_with_spec p2 p3 (rev l)) as [Hr [q Hq]].
  set (r := trim_with p2 p3 (rev l)) in *.
  assert (leads space2 space3 (rev r) = false) as Hrr.
  { apply (leads_prefix _ _ _ (rev q)). rewrite <-rev_app_distr, <-Hq, rev_involutive. done. }
  unfold trim_left. rewrite (trim_with_id _ _ _ Hrr). unfold trim_right.
  rewrite rev_involutive. fold p2 p3. by rewrite trim_with_id.
Qed.

Lemma ParseInt_int64 s z : ParseInt s = Some z -> is_int64 z.
Proof.
  unfold ParseInt, in_int64, is_int64. intros H. guards H; simplify_eq; lia.
Qed.
