(* ===== verification/Model.v ===== *)
(** * package model: the data of the system and its validation methods

    Records follow the structs of [model/model.go]; a nullable column
    ([*time.Time], [*int64], [*string]) is an [option].  The string enumerations
    stay byte strings, since requests and rows may hold any string.  The second
    half is [model/clone.go]; cloning itself is in [Clone]. *)
From S2P Require Import Prelude Errors GoStd.

(** ** Enumerations *)
Definition Role := string.
Definition RoleOwner : Role := "owner".
Definition RoleOperator : Role := "operator".
Definition RoleViewer : Role := "viewer".

Definition DeviceKind := string.
Definition KindSensor : DeviceKind := "sensor".
Definition KindLight : DeviceKind := "light".
Definition KindThermostat : DeviceKind := "thermostat".
Definition KindMeter : DeviceKind := "meter".
Definition KindLock : DeviceKind := "lock".
Definition KindController : DeviceKind := "controller".

Definition DeviceState := string.
Definition DevicePending : DeviceState := "pending".
Definition DevicePaired : DeviceState := "paired".
Definition DeviceEnabled : DeviceState := "enabled".
Definition DeviceDisabled : DeviceState := "disabled".
Definition DeviceRetired : DeviceState := "retired".

Definition PlanState := string.
Definition PlanDraft : PlanState := "draft".
Definition PlanScheduled : PlanState := "scheduled".
Definition PlanRunning : PlanState := "running".
Definition PlanCompleted : PlanState := "completed".
Definition PlanCancelled : PlanState := "cancelled".

Definition AutomationState := string.
Definition AutomationDraft : AutomationState := "draft".
Definition AutomationActive : AutomationState := "active".
Definition AutomationPaused : AutomationState := "paused".
Definition AutomationArchived : AutomationState := "archived".

Definition RunState := string.
Definition RunQueued : RunState := "queued".
Definition RunRunning : RunState := "running".
Definition RunSucceeded : RunState := "succeeded".
Definition RunFailed : RunState := "failed".
Definition RunCancelled : RunState := "cancelled".

(** JSON values: alert details, audit and outbox payloads ([JSONB] columns).  A
    [[]byte] field holding a JSON document is an [option json], [None] being the
    empty slice. *)
Inductive json :=
| JNull | JBool (b : bool) | JInt (z : Z) | JFloat (f : float64) | JString (s : string)
| JArray (l : list json) | JObject (fields : list (string * json)).

(** [json.Marshal] fails on the floats JSON has no number for; the fields of an
    object are encoded in key order, the order they are listed in here. *)
Definition UnsupportedValue (text : string) : error := New ("json: unsupported value: " +:+ text).
Fixpoint Marshal_error (j : json) : option error :=
  match j with
  | JFloat S754_nan => Some (UnsupportedValue "NaN")
  | JFloat (S754_infinity negative) => Some (UnsupportedValue (if negative then "-Inf" else "+Inf"))
  | JArray l => FirstError (map Marshal_error l)
  | JObject fields => FirstError (map (fun kv => Marshal_error kv.2) fields)
  | _ => None
  end.

(** The text [json.Marshal] writes for a value it can encode, and what
    [json.Unmarshal] into an [any] makes of a text: the program only sends, compares and
    measures these texts. *)
Class JSONText := { json_text : json -> string }.
Class JSONRead := {
  Unmarshal_error : string -> option error;
  Unmarshal_empty : Unmarshal_error "" = Some (New "unexpected end of JSON input")
}.

(** The bytes of a [[]byte] field that holds a JSON document. *)
Definition payload_text `{JSONText} (payload : option json) : string :=
  match payload with Some p => json_text p | None => "" end.

(** ** Records

    [r_ErrorText] is the nullable column [error_text]; no query of the program
    scans it back into the Go field. *)
Record Household := mkHousehold {
  h_ID : Z; h_Name : string; h_Timezone : string; h_MonthlyBudgetCents : Z; h_CreatedAt : Time }.
Record Member := mkMember {
  m_ID : Z; m_HouseholdID : Z; m_Email : string; m_Role : Role; m_Active : bool; m_CreatedAt : Time }.
Record Session := mkSession {
  s_ID : string; s_MemberID : Z; s_ExpiresAt : Time; s_RevokedAt : option Time; s_CreatedAt : Time }.
Record Device := mkDevice {
  d_ID : Z; d_HouseholdID : Z; d_ExternalID : string; d_Kind : DeviceKind; d_State : DeviceState;
  d_Firmware : string; d_Version : Z; d_LastSeenAt : option Time; d_CreatedAt : Time }.
Record Telemetry := mkTelemetry {
  t_ID : Z; t_DeviceID : Z; t_Sequence : Z; t_PowerWatts : float64; t_TemperatureC : option float64;
  t_MeasuredAt : Time; t_ReceivedAt : Time }.
Record EnergyPlan := mkEnergyPlan {
  p_ID : Z; p_HouseholdID : Z; p_Name : string; p_State : PlanState; p_BudgetCents : Z;
  p_StartsAt : Time; p_EndsAt : Time; p_CreatedAt : Time }.
Record PlanDevice := mkPlanDevice { pd_PlanID : Z; pd_DeviceID : Z; pd_TargetWatts : float64 }.
Record Automation := mkAutomation {
  a_ID : Z; a_HouseholdID : Z; a_Name : string; a_State : AutomationState; a_TriggerKind : string;
  a_CreatedAt : Time }.
Record AutomationAction := mkAction {
  aa_ID : Z; aa_AutomationID : Z; aa_DeviceID : Z; aa_Action : string; aa_Ordinal : Z }.
Record AutomationRun := mkRun {
  r_ID : Z; r_AutomationID : Z; r_IdempotencyKey : string; r_State : RunState; r_ErrorText : option string;
  r_StartedAt : option Time; r_FinishedAt : option Time }.
Record Alert := mkAlert {
  al_ID : Z; al_HouseholdID : Z; al_DeviceID : option Z; al_Severity : string; al_Code : string;
  al_State : string; al_Details : option json; al_CreatedAt : Time; al_ResolvedAt : option Time }.
Record AuditEvent := mkAudit {
  ae_ID : Z; ae_HouseholdID : Z; ae_ActorMemberID : option Z; ae_RequestID : string;
  ae_ObjectType : string; ae_ObjectID : string; ae_Action : string; ae_Payload : option json;
  ae_CreatedAt : Time }.
Record OutboxMessage := mkOutbox {
  o_ID : Z; o_HouseholdID : Z; o_Topic : string; o_Payload : option json; o_Attempts : Z;
  o_AvailableAt : Time; o_LockedAt : option Time; o_DeliveredAt : option Time;
  o_FailedAt : option Time; o_FailureReason : option string }.

(** ** clone.go *)

(** [Telemetry.Validate]. *)
Definition Telemetry_Validate (t : Telemetry) (now : Time) : option error :=
  if (t_DeviceID t <=? 0) || (t_Sequence t <=? 0) || IsZero (t_MeasuredAt t) || IsZero (t_ReceivedAt t)
  then Some (New "telemetry identity and timestamps are required")
  else if After (t_MeasuredAt t) (Add now (5 * Minute))
  then Some (New "measurement is too far in the future")
  else if flt (t_PowerWatts t) f0 then Some (New "power must be non-negative")
  else None.

(** [AutomationAction.Validate]. *)
Definition AutomationAction_Validate (a : AutomationAction) : option error :=
  if (aa_AutomationID a <=? 0) || (aa_DeviceID a <=? 0)
     || bool_decide (TrimSpace (aa_Action a) = "") || (aa_Ordinal a <? 0)
  then Some (New "invalid automation action") else None.

(** [OutboxMessage.Validate]. *)
Definition OutboxMessage_Validate `{JSONText} `{JSONRead} (m : OutboxMessage) : option error :=
  if (o_HouseholdID m <=? 0) || bool_decide (TrimSpace (o_Topic m) = "") || IsZero (o_AvailableAt m)
  then Some (New "invalid outbox message")
  else if Z.of_nat (String.length (payload_text (o_Payload m))) >? Z.shiftl 1 20
  then Some (New "outbox payload too large")
  else Unmarshal_error (payload_text (o_Payload m)).

Definition NormalizeRole `{Unicode} (role : Role) : result Role :=
  let role := ToLower (TrimSpace role) in
  if bool_decide (role ∈ [RoleOwner; RoleOperator; RoleViewer]) then Ok role
  else Fail (New "unknown role").

(** [Session.ActiveAt]. *)
Definition Session_ActiveAt (s : Session) (now : Time) : bool :=
  negb (bool_decide (s_ID s = "")) && (0 <? s_MemberID s) && negb (IsZero (s_CreatedAt s))
  && negb (IsZero (s_ExpiresAt s)) && negb (After (s_CreatedAt s) now)
  && bool_decide (s_RevokedAt s = None) && Before now (s_ExpiresAt s).

(** [EnergyPlan.Within]. *)
Definition EnergyPlan_Within (p : EnergyPlan) (now : Time) : bool :=
  negb (After (p_StartsAt p) now) && After (p_EndsAt p) now
  && negb (bool_decide (p_State p = PlanCancelled)) && negb (bool_decide (p_State p = PlanCompleted)).

(** [AuditEvent.Complete]. *)
Definition AuditEvent_Complete (a : AuditEvent) : bool :=
  (0 <? ae_HouseholdID a) && negb (bool_decide (ae_RequestID a = ""))
  && negb (bool_decide (ae_ObjectType a = "")) && negb (bool_decide (ae_ObjectID a = ""))
  && negb (bool_decide (ae_Action a = "")).

(** The [levels] map of [Member.Can], and the same [rank] map of [EnsureRole] in
    service/auth.go. *)
Definition role_rank (r : Role) : option Z :=
  if bool_decide (r = RoleViewer) then Some 1
  else if bool_decide (r = RoleOperator) then Some 2
  else if bool_decide (r = RoleOwner) then Some 3
  else None.

(** [Member.Can]. *)
Definition Member_Can (m : Member) (role : Role) : bool :=
  m_Active m && match role_rank (m_Role m), role_rank role with
                | Some actual, Some required => required <=? actual
                | _, _ => false
                end.

(** [Device.Operational]. *)
Definition Device_Operational (d : Device) : bool :=
  (0 <? d_ID d) && bool_decide (d_State d = DeviceEnabled) && (0 <? d_Version d).

(** [Household.BudgetAvailable]. *)
Definition Household_BudgetAvailable (h : Household) (spent : Z) : bool :=
  (0 <=? h_MonthlyBudgetCents h) && (0 <=? spent) && (spent <=? h_MonthlyBudgetCents h).

(** ** Lemmas *)

(** A message that passes has an owner, a topic, a due time and a document, of at most a
    mebibyte. *)
Lemma OutboxMessage_Validate_spec `{JSONText} `{JSONRead} m :
  OutboxMessage_Validate m = None ->
  0 < o_HouseholdID m /\ TrimSpace (o_Topic m) <> ""%string /\ o_AvailableAt m <> zeroTime /\
  exists p, o_Payload m = Some p /\ Z.of_nat (String.length (json_text p)) <= 2 ^ 20 /\
    Unmarshal_error (json_text p) = None.
Proof.
  unfold OutboxMessage_Validate, IsZero. intros Hv. guards Hv. rewrite Z.gtb_ltb in *. bsimp.
  split; [lia|]. split; [done|]. split; [done|]. destruct (o_Payload m) as [p|]; simpl in *.
  - exists p. split; [done|]. split; [|done]. change (Z.shiftl 1 20) with (2 ^ 20) in *. lia.
  - by rewrite Unmarshal_empty in Hv.
Qed.
