(* ===== verification/Clone.v ===== *)
(** * Device.Clone and CloneDevices of model/clone.go

    The one place of package model where pointers matter: [LastSeenAt] points into a
    heap of times, and a copy of a device shares that time unless it is cloned.  In the
    other files a device is a value. *)
From S2P Require Import Prelude GoStd Model.

Notation Heap := (gmap nat Time).
Definition alloc (t : Time) (h : Heap) : nat * Heap := let l := fresh (dom h) in (l, <[l := t]> h).

(** A device as the program holds it: [dv_rest] are its fields but [LastSeenAt], which
    is a pointer. *)
Record DeviceRef := mkDeviceRef { dv_rest : Device; dv_LastSeenAt : option nat }.
(** What it reads as; a pointer outside the heap, which no program has, as the zero
    time. *)
Definition deref (h : Heap) (d : DeviceRef) : Device :=
  let r := dv_rest d in
  mkDevice (d_ID r) (d_HouseholdID r) (d_ExternalID r) (d_Kind r) (d_State r) (d_Firmware r) (d_Version r)
    ((fun l => default zeroTime (h !! l)) <$> dv_LastSeenAt d) (d_CreatedAt r).
Definition pointers (l : list DeviceRef) : list nat := omap dv_LastSeenAt l.
Definition allocated (h : Heap) (l : list DeviceRef) : Prop := Forall (fun p => p ∈ dom h) (pointers l).

(** [Device.Clone]. *)
Definition Clone (d : DeviceRef) (h : Heap) : DeviceRef * Heap :=
  match dv_LastSeenAt d with
  | None => (d, h)
  | Some l =>
      let '(l', h) := alloc (default zeroTime (h !! l)) h in (mkDeviceRef (dv_rest d) (Some l'), h)
  end.

(** [CloneDevices]; a nil slice stays nil. *)
Fixpoint clone_each (input : list DeviceRef) (h : Heap) : list DeviceRef * Heap :=
  match input with
  | [] => ([], h)
  | d :: rest => let '(d', h) := Clone d h in let '(out, h) := clone_each rest h in (d' :: out, h)
  end.
Definition CloneDevices (input : option (list DeviceRef)) (h : Heap) : option (list DeviceRef) * Heap :=
  match input with
  | None => (None, h)
  | Some input => let '(out, h) := clone_each input h in (Some out, h)
  end.

(** ** Lemmas *)
Lemma deref_weaken h h' d : h ⊆ h' -> (forall l, dv_LastSeenAt d = Some l -> l ∈ dom h) -> deref h' d = deref h d.
Proof.
  intros Hh Hd. unfold deref. destruct (dv_LastSeenAt d) as [l|]; simpl; [|done].
  destruct (proj1 (elem_of_dom h l) (Hd l eq_refl)) as [t Ht]. by rewrite Ht, (lookup_weaken _ _ _ _ Ht Hh).
Qed.

Lemma Clone_spec d h : let '(d', h') := Clone d h in
  h ⊆ h' /\ deref h' d' = deref h d /\
  match dv_LastSeenAt d' with Some l => l ∉ dom h /\ dom h' = {[l]} ∪ dom h | None => h' = h end.
Proof.
  unfold Clone. destruct (dv_LastSeenAt d) as [l|] eqn:E; simpl; [|by rewrite E].
  pose proof (is_fresh (dom h)) as Hf. apply not_elem_of_dom in Hf as Hn. split_and!.
  - by apply insert_subseteq.
  - unfold deref. simpl. by rewrite E, lookup_insert_eq.
  - done.
  - by rewrite dom_insert_L.
Qed.

Lemma clone_each_spec input h : allocated h input -> let '(out, h') := clone_each input h in
  h ⊆ h' /\ map (deref h') out = map (deref h) input /\
  NoDup (pointers out) /\ Forall (fun l => l ∈ dom h' /\ l ∉ dom h) (pointers out).
Proof.
  revert h. induction input as [|d input IH]; intros h Ha; simpl.
  { split_and!; [done|done|constructor|constructor]. }
  pose proof (Clone_spec d h) as Hc. destruct (Clone d h) as [d' h1]. destruct Hc as (Hs & Hd & Hp).
  assert (allocated h input /\ forall l, dv_LastSeenAt d = Some l -> l ∈ dom h) as [Ha' _].
  { unfold allocated, pointers in *. simpl in Ha. destruct (dv_LastSeenAt d); [|done].
    apply Forall_cons in Ha as [Ha ?]. split; [done|]. by intros ? [= <-]. }
  assert (allocated h1 input) as Ha1.
  { eapply Forall_impl; [exact Ha'|]. simpl. intros p Hin. by apply (subseteq_dom _ _ Hs). }
  specialize (IH h1 Ha1). destruct (clone_each input h1) as [out h2]. destruct IH as (Hs2 & Hm & Hn & Hf).
  split_and!.
  - by etrans.
  - simpl. f_equal.
    + rewrite <- Hd. apply deref_weaken; [done|]. intros l Hl. rewrite Hl in Hp. set_solver.
    + rewrite Hm. apply list_fmap_ext. intros i x Hx. apply deref_weaken; [done|]. intros l Hl.
      unfold allocated in Ha'. rewrite Forall_forall in Ha'. apply Ha'. unfold pointers.
      apply list_elem_of_omap. exists x. split; [by eapply list_elem_of_lookup_2|done].
  - unfold pointers. simpl. destruct (dv_LastSeenAt d') as [l|]; [|done]. constructor; [|done].
    intros Hin. rewrite Forall_forall in Hf. destruct (Hf l Hin) as [_ Hout]. set_solver.
  - assert (Forall (fun l => l ∈ dom h2 /\ l ∉ dom h) (pointers out)) as Ho.
    { eapply Forall_impl; [exact Hf|]. simpl. intros p [Hp1 Hp2]. split; [done|].
      intros Hin. apply Hp2. by apply (subseteq_dom _ _ Hs). }
    unfold pointers in *. simpl. destruct (dv_LastSeenAt d') as [l|]; [|done].
    constructor; [|done]. destruct Hp as [Hp Hdom]. split; [|done]. apply (subseteq_dom _ _ Hs2). set_solver.
Qed.

(** Clones are deep: they read as the devices they were made from, share no time with
    them nor with each other, and a write through a clone changes no original. *)
Theorem CloneDevices_deep input h : allocated h input ->
  let '(out, h') := CloneDevices (Some input) h in
  exists clones, out = Some clones /\ map (deref h') clones = map (deref h) input /\
    NoDup (pointers clones) /\ (forall l, l ∈ pointers clones -> l ∉ pointers input) /\
    forall l t, l ∈ pointers clones -> map (deref (<[l := t]> h')) input = map (deref h) input.
Proof.
  intros Ha. unfold CloneDevices. pose proof (clone_each_spec input h Ha) as Hc.
  destruct (clone_each input h) as [out h']. destruct Hc as (Hs & Hm & Hn & Hf). exists out.
  unfold allocated in Ha. rewrite Forall_forall in Ha, Hf. split_and!; try done.
  - intros l Hl Hin. by apply (proj2 (Hf l Hl)), Ha.
  - intros l t Hl. apply list_fmap_ext. intros i x Hx. apply deref_weaken.
    + apply map_subseteq_spec. intros k y Hk. rewrite lookup_insert_ne; [by eapply lookup_weaken|].
      intros ->. apply (proj2 (Hf k Hl)). by apply elem_of_dom.
    + intros k Hk. apply Ha, list_elem_of_omap. exists x. split; [by eapply list_elem_of_lookup_2|done].
Qed.
