(* ===== verification/Rules.v ===== *)
(** * domain/rules.go: the validation rules of the domain *)
From S2P Require Import Prelude Errors GoStd Model.
From Stdlib Require Import Ascii.

(** ** Device lifecycle *)

(** The [allowed] table of [ValidateTransition]. *)
Definition allowed_transitions : list (DeviceState * list DeviceState) :=
  [ (DevicePending, [DevicePaired; DeviceRetired]);
    (DevicePaired, [DeviceEnabled; DeviceRetired]);
    (DeviceEnabled, [DeviceDisabled; DeviceRetired]);
    (DeviceDisabled, [DeviceEnabled; DeviceRetired]);
    (DeviceRetired, []) ].

Definition allowed (current next : DeviceState) : bool :=
  existsb (fun row => bool_decide (row.1 = current) && bool_decide (next ∈ row.2)) allowed_transitions.

Definition ValidateTransition (current next : DeviceState) : option error :=
  if allowed current next then None
  else Some (wrap_suffix (Sentinel ErrConflict)
               ("device " +:+ current +:+ " cannot become " +:+ next)).

(** ** Plans *)
Definition ValidatePlanWindow (start end_ now : Time) : option error :=
  if IsZero start || IsZero end_ || negb (Before start end_) then Some (Sentinel ErrInvalid)
  else if 31 * 24 * Hour <? Sub end_ start then Some (New "plan window exceeds one month")
  else if Before end_ now then Some (New "plan window is in the past")
  else None.

(** ** Identities *)
Definition at_sign : ascii := "@"%char.

Definition ValidateEmail (email : string) : option error :=
  let email := TrimSpace email in
  let at_ := LastIndexByte email at_sign in
  if (at_ <? 1) || (at_ =? len email - 1) || ContainsAny email [13; 10; 9; 32]
  then Some (Sentinel ErrInvalid) else None.

Definition ValidateExternalID (id : string) : option error :=
  if bool_decide (id = "") || (128 <? len id) then Some (Sentinel ErrInvalid)
  else if has_control id then Some (Sentinel ErrInvalid)
  else None.

(** ** Capabilities and actions *)
Definition RequiredCapabilities (kind : DeviceKind) : list string :=
  if bool_decide (kind = KindThermostat) then ["power"; "temperature"]
  else if bool_decide (kind = KindLight) then ["power"]
  else if bool_decide (kind = KindLock) then ["lock"]
  else if bool_decide (kind = KindMeter) then ["power"]
  else [].

Definition HasCapabilities (required actual : list string) : bool :=
  let set : gset string := list_to_set actual in
  forallb (fun v => bool_decide (v ∈ set)) required.

Definition CompatibleAction (kind : DeviceKind) (action : string) : bool :=
  if bool_decide (kind = KindLight) then
    bool_decide (action = "on") || bool_decide (action = "off")
  else if bool_decide (kind = KindThermostat) then
    bool_decide (action = "heat") || bool_decide (action = "cool")
  else if bool_decide (kind = KindLock) then
    bool_decide (action = "lock") || bool_decide (action = "unlock")
  else false.

(** ** Power *)
Definition ClampPower (watts limit : float64) : float64 :=
  if flt watts f0 then f0
  else if fle f0 limit && flt limit watts then limit
  else watts.

Definition SumPower (rows : list PlanDevice) : float64 :=
  fold_left (fun total row => fadd total (pd_TargetWatts row)) rows f0.

(** ** Ordering and uniqueness *)
Definition telemetry_less (a b : Telemetry) : bool :=
  if Equal (t_MeasuredAt a) (t_MeasuredAt b) then t_Sequence a <? t_Sequence b
  else Before (t_MeasuredAt a) (t_MeasuredAt b).

Definition SortByTime (rows : list Telemetry) : list Telemetry := stable_sort telemetry_less rows.

Definition EnsureUnique {T} `{Countable T} (values : list T) : option error :=
  scan_seen (fun v => v) (fun _ => None) (fun _ => None)
    (fun _ => wrap_suffix (Sentinel ErrInvalid) "duplicate value") ∅ values.

(** ** Lemmas *)
Lemma allowed_source current next : allowed current next = true ->
  current ∈ [DevicePending; DevicePaired; DeviceEnabled; DeviceDisabled].
Proof.
  unfold allowed; simpl. repeat case_bool_decide; subst; simpl; try done;
    intros _; set_solver.
Qed.

Lemma allowed_retired next : allowed DeviceRetired next = false.
Proof. unfold allowed; simpl. repeat case_bool_decide; try done; set_solver. Qed.

Lemma allowed_target current next : allowed current next = true ->
  next ∈ [DevicePaired; DeviceEnabled; DeviceDisabled; DeviceRetired].
Proof.
  unfold allowed; simpl. repeat case_bool_decide; subst; simpl; try done; set_solver.
Qed.

#[export] Instance telemetry_less_StrictWeak : StrictWeak telemetry_less.
Proof.
  split; unfold telemetry_less, Equal, Before.
  - intros x y H. guards H; repeat case_match; bsimp; lia.
  - intros x y z H. guards H.
    all: destruct (t_MeasuredAt x =? t_MeasuredAt y) eqn:?, (t_MeasuredAt y =? t_MeasuredAt z) eqn:?;
      bsimp; try lia.
    all: try (destruct (t_Sequence x <? t_Sequence y) eqn:?); try (destruct (t_MeasuredAt x <? t_MeasuredAt y) eqn:?);
      bsimp; rewrite ?Z.ltb_lt; auto; right; lia.
Qed.

Lemma HasCapabilities_spec required actual :
  HasCapabilities required actual = true <-> required ⊆ actual.
Proof.
  unfold HasCapabilities. rewrite forallb_forall. split.
  - intros H v Hv. specialize (H v). rewrite bool_decide_eq_true, elem_of_list_to_set in H.
    apply H. by apply list_elem_of_In.
  - intros H v Hv. rewrite bool_decide_eq_true, elem_of_list_to_set.
    apply H. by apply list_elem_of_In.
Qed.

Lemma EnsureUnique_None {T} `{Countable T} (values : list T) :
  EnsureUnique values = None <-> NoDup values.
Proof.
  unfold EnsureUnique. rewrite scan_seen_None, list_fmap_id. split; [by intros (_ & ? & _)|].
  intros ?. split_and!; [by apply Forall_true | done | apply Forall_true; set_solver].
Qed.
