(* ===== verification/Schedule.v ===== *)
(** * domain/schedule.go and domain/timewindow.go: windows of time

    [Conflicts] and [Capacity] over the load windows of devices, [MergeWindows]
    over plain windows. *)
From S2P Require Import Prelude Errors GoStd.

Record ScheduleWindow := mkScheduleWindow {
  sw_DeviceID : Z; sw_Start : Time; sw_End : Time; sw_Watts : float64 }.

(** [ScheduleWindow.Valid]. *)
Definition ScheduleWindow_Valid (w : ScheduleWindow) : option error :=
  if (sw_DeviceID w <=? 0) || negb (Before (sw_Start w) (sw_End w)) || flt (sw_Watts w) f0
  then Some (Sentinel ErrInvalid) else None.

Definition Overlap (a b : ScheduleWindow) : bool :=
  (sw_DeviceID a =? sw_DeviceID b) && Before (sw_Start a) (sw_End b) && Before (sw_Start b) (sw_End a).

(** The inner loop of [Conflicts]: scan the later windows, stop at the first one
    that starts after [a] ends. *)
Fixpoint conflicts_with (a : ScheduleWindow) (rest : list ScheduleWindow) : list ScheduleWindow :=
  match rest with
  | [] => []
  | b :: rest' =>
      if After (sw_Start b) (sw_End a) then []
      else if Overlap a b then b :: conflicts_with a rest' else conflicts_with a rest'
  end.

Fixpoint conflicts_loop (rows : list ScheduleWindow) : list ScheduleWindow :=
  match rows with
  | [] => []
  | a :: rest => conflicts_with a rest ++ conflicts_loop rest
  end.

Definition Conflicts (rows : list ScheduleWindow) : list ScheduleWindow :=
  conflicts_loop (stable_sort (less_by sw_Start) rows).

(** ** Capacity *)
Fixpoint validate_rows (rows : list ScheduleWindow) : option error :=
  match rows with
  | [] => None
  | w :: rows' => match ScheduleWindow_Valid w with Some e => Some e | None => validate_rows rows' end
  end.

(** The sum of the watts of the windows open at [point], in row order. *)
Definition load_at (rows : list ScheduleWindow) (point : Time) : float64 :=
  fold_left (fun sum row => if negb (Before point (sw_Start row)) && Before point (sw_End row)
                            then fadd sum (sw_Watts row) else sum) rows f0.

Fixpoint check_points (rows : list ScheduleWindow) (limit : float64) (points : list Time) : option error :=
  match points with
  | [] => None
  | point :: points' =>
      if flt limit (load_at rows point) then Some (New "schedule exceeds household capacity")
      else check_points rows limit points'
  end.

Definition capacity_points (rows : list ScheduleWindow) : list Time :=
  concat (map (fun row => [sw_Start row; sw_End row]) rows).

Definition Capacity `{SliceSort} (rows : list ScheduleWindow) (limit : float64) : option error :=
  if flt limit f0 then Some (Sentinel ErrInvalid)
  else match validate_rows rows with
       | Some e => Some e
       | None => check_points rows limit (sort_Slice Before (capacity_points rows))
       end.

(** ** timewindow.go.  [Zone] is nil or the name of a location; [In] does not
    change the instant. *)
Record TimeWindow := mkTimeWindow { w_Start : Time; w_End : Time; w_Zone : option string }.

(** [TimeWindow.Validate]. *)
Definition TimeWindow_Validate (w : TimeWindow) (max : Duration) : option error :=
  if IsZero (w_Start w) || IsZero (w_End w) || bool_decide (w_Zone w = None)
     || negb (Before (w_Start w) (w_End w)) || (max <=? 0) || (max <? Sub (w_End w) (w_Start w))
  then Some (New "invalid time window") else None.

(** [TimeWindow.Contains]. *)
Definition TimeWindow_Contains (w : TimeWindow) (at_ : Time) : bool :=
  if IsZero (w_Start w) || IsZero (w_End w) || bool_decide (w_Zone w = None) then false
  else negb (Before at_ (w_Start w)) && Before at_ (w_End w).

Fixpoint validate_windows (ws : list TimeWindow) : option error :=
  match ws with
  | [] => None
  | w :: ws' => match TimeWindow_Validate w (366 * 24 * Hour) with
                | Some e => Some e | None => validate_windows ws' end
  end.

(** The body of the merging loop; [merged] holds the slice in reverse, so its
    head is [last]. *)
Definition merge_step (merged : list TimeWindow) (window : TimeWindow) : list TimeWindow :=
  match merged with
  | [] => [window]
  | last :: before =>
      if negb (After (w_Start window) (w_End last)) then
        (if After (w_End window) (w_End last)
         then mkTimeWindow (w_Start last) (w_End window) (w_Zone last) else last) :: before
      else window :: merged
  end.

Definition MergeWindows `{SliceSort} (windows : list TimeWindow) : result (list TimeWindow) :=
  match validate_windows windows with
  | Some e => Fail e
  | None => Ok (rev (fold_left merge_step (sort_Slice (less_by w_Start) windows) []))
  end.

(** ** Lemmas: conflicts *)
Lemma Overlap_sym a b : Overlap a b = Overlap b a.
Proof.
  unfold Overlap. rewrite (Z.eqb_sym (sw_DeviceID a)).
  by destruct (_ =? _), (Before (sw_Start a) _), (Before (sw_Start b) _).
Qed.

(** The early [break] loses nothing on rows sorted by start. *)
Lemma conflicts_with_filter a rest :
  StronglySorted (not_after (less_by sw_Start)) rest ->
  conflicts_with a rest = List.filter (Overlap a) rest.
Proof.
  induction 1 as [|b rest Hrest IH Hb]; simpl; [done|].
  destruct (After (sw_Start b) (sw_End a)) eqn:E; [|by rewrite IH].
  symmetry. assert (Forall (fun c => Overlap a c = false) (b :: rest)) as Hno.
  { constructor.
    - unfold Overlap. rewrite andb_false_iff. right. time_solve.
    - eapply Forall_impl; [exact Hb|]. intros c Hc. unfold not_after, less_by in Hc.
      unfold Overlap. rewrite andb_false_iff. right. time_solve. }
  clear -Hno. change (List.filter (Overlap a) (b :: rest) = []).
  induction Hno as [|c l Hc Hl IH]; simpl; [done|]. by rewrite Hc.
Qed.

(** All pairs of positions [i < j]. *)
Fixpoint pairs_of {A} (l : list A) : list (A * A) :=
  match l with [] => [] | a :: rest => map (pair a) rest ++ pairs_of rest end.

Definition overlapping (p : ScheduleWindow * ScheduleWindow) : bool := Overlap p.1 p.2.

Lemma conflicts_loop_pairs rows :
  StronglySorted (not_after (less_by sw_Start)) rows ->
  conflicts_loop rows = map snd (List.filter overlapping (pairs_of rows)).
Proof.
  induction 1 as [|a rest Hrest IH Ha]; simpl; [done|].
  rewrite List.filter_app, map_app, <-IH, conflicts_with_filter by done. f_equal.
  clear. induction rest as [|b rest IH]; simpl; [done|].
  unfold overlapping at 1; simpl. destruct (Overlap a b); simpl; by rewrite IH.
Qed.

Lemma pairs_of_perm l1 l2 : l1 ≡ₚ l2 ->
  length (List.filter overlapping (pairs_of l1)) = length (List.filter overlapping (pairs_of l2)).
Proof.
  assert (forall a l l', l ≡ₚ l' ->
            length (List.filter overlapping (map (pair a) l)) =
            length (List.filter overlapping (map (pair a) l'))) as Hmap.
  { intros a l l' Hp. induction Hp as [| |b c l|]; simpl; [done| | |congruence].
    - case_match; simpl; congruence.
    - by repeat case_match. }
  induction 1 as [|a l l' Hp IH|a b l|]; simpl; [done| | |congruence].
  - rewrite !List.filter_app, !length_app, IH, (Hmap a _ _ Hp). done.
  - assert (overlapping (a, b) = overlapping (b, a)) as -> by apply Overlap_sym.
    destruct (overlapping (b, a)); 
      repeat (progress rewrite ?List.filter_app, ?length_app || simpl); lia.
Qed.

(** ** Lemmas: capacity *)
Lemma validate_rows_None rows :
  validate_rows rows = None <-> Forall (fun w => ScheduleWindow_Valid w = None) rows.
Proof.
  induction rows as [|w rows IH]; simpl; [done|]. rewrite Forall_cons, <-IH.
  destruct (ScheduleWindow_Valid w); naive_solver.
Qed.

Lemma check_points_None rows limit points :
  check_points rows limit points = None <->
  Forall (fun p => flt limit (load_at rows p) = false) points.
Proof.
  induction points as [|p points IH]; simpl; [done|]. rewrite Forall_cons, <-IH.
  destruct (flt limit _); naive_solver.
Qed.

Definition open_at (row : ScheduleWindow) (t : Time) : bool :=
  negb (Before t (sw_Start row)) && Before t (sw_End row).

Lemma load_at_ext rows t u :
  Forall (fun row => open_at row t = open_at row u) rows -> load_at rows t = load_at rows u.
Proof.
  unfold load_at. generalize f0. induction rows as [|row rows IH]; intros acc; simpl; [done|].
  intros [Hr Hrs]%Forall_cons. unfold open_at in Hr. rewrite Hr. by apply IH.
Qed.

Lemma load_at_none rows t : Forall (fun row => open_at row t = false) rows -> load_at rows t = f0.
Proof.
  unfold load_at. generalize f0. induction rows as [|row rows IH]; intros acc; simpl; [done|].
  intros [Hr Hrs]%Forall_cons. unfold open_at in Hr. rewrite Hr. by apply IH.
Qed.

(** The latest of the points up to [t]. *)
Lemma latest_point (points : list Time) t :
  (forall q, q ∈ points -> t < q) \/
  exists p, p ∈ points /\ p <= t /\ forall q, q ∈ points -> q <= t -> q <= p.
Proof.
  induction points as [|q points [IH|(p & Hp & Hpt & Hmax)]]; [left; set_solver| |].
  - destruct (Z.le_gt_cases q t).
    + right. exists q. split_and!; [set_solver|done|]. intros q' [->|Hq']%elem_of_cons ?; [lia|].
      specialize (IH _ Hq'). lia.
    + left. intros q' [->|Hq']%elem_of_cons; [lia|auto].
  - right. destruct (decide (q <= t /\ p < q)) as [[? ?]|Hn].
    + exists q. split_and!; [set_solver|done|]. intros q' [->|Hq']%elem_of_cons ?; [lia|].
      specialize (Hmax _ Hq'). lia.
    + exists p. split_and!; [set_solver|done|]. intros q' [->|Hq']%elem_of_cons ?; [lia|auto].
Qed.

(** No window opens or closes strictly between the latest point and [t]. *)
Lemma open_at_latest rows t p :
  p ∈ capacity_points rows -> p <= t ->
  (forall q, q ∈ capacity_points rows -> q <= t -> q <= p) ->
  Forall (fun row => open_at row p = open_at row t) rows.
Proof.
  intros _ Hpt Hmax. apply Forall_forall. intros row Hrow.
  assert (forall q, q ∈ [sw_Start row; sw_End row] -> q ∈ capacity_points rows) as Hin.
  { intros q Hq. unfold capacity_points. rewrite list_elem_of_In, in_concat.
    exists [sw_Start row; sw_End row]. rewrite <-!list_elem_of_In. split; [|done].
    apply list_elem_of_fmap. by exists row. }
  pose proof (Hmax _ (Hin (sw_Start row) ltac:(set_solver))) as Hs.
  pose proof (Hmax _ (Hin (sw_End row) ltac:(set_solver))) as He.
  unfold open_at, Before, Time in *.
  destruct (p <? sw_Start row) eqn:?, (t <? sw_Start row) eqn:?, (p <? sw_End row) eqn:?,
    (t <? sw_End row) eqn:?; bsimp; simpl; try done; lia.
Qed.

Lemma load_at_points rows limit t :
  flt limit f0 = false ->
  Forall (fun p => flt limit (load_at rows p) = false) (capacity_points rows) ->
  flt limit (load_at rows t) = false.
Proof.
  intros Hl Hps. destruct (latest_point (capacity_points rows) t) as [Hnone|(p & Hp & Hpt & Hmax)].
  - rewrite load_at_none; [done|]. apply Forall_forall. intros row Hrow.
    assert (t < sw_Start row); [|unfold open_at; apply andb_false_iff; left; time_solve].
    apply Hnone. unfold capacity_points. rewrite list_elem_of_In, in_concat.
    exists [sw_Start row; sw_End row]. rewrite <-!list_elem_of_In. split; [|set_solver].
    apply list_elem_of_fmap. by exists row.
  - rewrite <-(load_at_ext rows p t) by (by apply open_at_latest).
    rewrite Forall_forall in Hps. by apply Hps.
Qed.

(** ** Lemmas: merging *)
Definition well_formed (w : TimeWindow) : Prop :=
  w_Start w <> 0 /\ w_End w <> 0 /\ w_Zone w <> None /\ w_Start w < w_End w.

Lemma TimeWindow_Validate_wf w max : TimeWindow_Validate w max = None -> well_formed w.
Proof.
  unfold TimeWindow_Validate, well_formed. intros H. guards H. time_simpl; bsimp. done.
Qed.

Lemma validate_windows_None ws :
  validate_windows ws = None <->
  Forall (fun w => TimeWindow_Validate w (366 * 24 * Hour) = None) ws.
Proof.
  induction ws as [|w ws IH]; cbn [validate_windows]; [done|]. rewrite Forall_cons, <-IH.
  destruct (TimeWindow_Validate w _); naive_solver.
Qed.

Lemma Contains_wf w t : well_formed w ->
  TimeWindow_Contains w t = (w_Start w <=? t) && (t <? w_End w).
Proof.
  intros (Hs & He & Hz & _). unfold TimeWindow_Contains, IsZero, Before.
  rewrite (proj2 (Z.eqb_neq _ _) Hs), (proj2 (Z.eqb_neq _ _) He), bool_decide_eq_false_2 by done.
  simpl. by rewrite Z.ltb_antisym, negb_involutive.
Qed.

(** The instants a list of windows covers. *)
Definition covers (ws : list TimeWindow) (t : Time) : bool :=
  existsb (fun w => TimeWindow_Contains w t) ws.

Lemma covers_app ws1 ws2 t : covers (ws1 ++ ws2) t = covers ws1 t || covers ws2 t.
Proof. apply existsb_app. Qed.

Lemma covers_perm ws1 ws2 t : ws1 ≡ₚ ws2 -> covers ws1 t = covers ws2 t.
Proof.
  induction 1; simpl; [done|congruence| |congruence].
  by rewrite !orb_assoc, (orb_comm (TimeWindow_Contains y t)).
Qed.

Definition gap (a b : TimeWindow) : Prop := w_End a < w_Start b.

(** The loop invariant: separated well-formed windows, all starting before the
    windows still to come. *)
Record merge_inv (merged ws : list TimeWindow) : Prop := {
  mi_wf : Forall well_formed merged;
  mi_gap : StronglySorted (flip gap) merged;
  mi_next : Forall (fun w => Forall (fun m => w_Start m <= w_Start w) merged) ws
}.

Lemma merge_step_inv merged w ws :
  merge_inv merged (w :: ws) -> well_formed w ->
  Forall (not_after (less_by w_Start) w) ws -> merge_inv (merge_step merged w) ws.
Proof.
  intros [Hwf Hgap [Hw Hnext]%Forall_cons] Hww Hsort.
  assert (Forall (fun v => w_Start w <= w_Start v) ws) as Hle.
  { eapply Forall_impl; [exact Hsort|]. unfold not_after, less_by; intros; bsimp; done. }
  destruct merged as [|last before]; simpl.
  { split; [by constructor | by repeat constructor |].
    eapply Forall_impl; [exact Hle|]; eauto. }
  apply Forall_cons in Hwf as [Hl Hb], Hw as [Hwl Hwb]; apply StronglySorted_inv in Hgap as [Hgap Hgl].
  assert (Forall (fun v => Forall (fun m => w_Start m <= w_Start v) before) ws /\
          Forall (fun v => w_Start last <= w_Start v) ws) as [Hnb Hnl].
  { split; (eapply Forall_impl; [exact Hnext|]); by intros v [? ?]%Forall_cons. }
  destruct (After (w_Start w) (w_End last)) eqn:E; simpl.
  - split; [by constructor; [|constructor]| |].
    + constructor; [by constructor|]. unfold flip, gap in *. time_simpl; bsimp.
      constructor; [done|]. eapply Forall_impl; [exact Hgl|]. simpl; intros; unfold Time in *; lia.
    + rewrite Forall_forall in *. intros v Hv. repeat constructor; auto.
  - assert (well_formed (if After (w_End w) (w_End last)
              then mkTimeWindow (w_Start last) (w_End w) (w_Zone last) else last)) as Hwf'.
    { case_match; [|done]. destruct Hl as (?&?&?&?), Hww as (?&?&?&?). time_simpl; bsimp.
      split_and!; simpl; try done. lia. }
    split; [by constructor| |].
    + constructor; [done|]. by case_match.
    + rewrite Forall_forall in *. intros v Hv. constructor; [case_match; simpl|]; auto.
Qed.

Lemma merge_step_covers merged w ws t :
  merge_inv merged (w :: ws) -> well_formed w ->
  covers (merge_step merged w) t = covers merged t || TimeWindow_Contains w t.
Proof.
  intros [Hwf _ [Hw _]%Forall_cons] Hww.
  destruct merged as [|last before]; simpl; [by rewrite orb_false_r|].
  apply Forall_cons in Hwf as [Hl _], Hw as [Hwl _].
  destruct (After (w_Start w) (w_End last)) eqn:E; simpl; [by rewrite orb_comm, <-orb_assoc|].
  rewrite <-orb_assoc, (orb_comm (covers before t)), orb_assoc. f_equal.
  assert (well_formed (mkTimeWindow (w_Start last) (w_End w) (w_Zone last)) \/
          After (w_End w) (w_End last) = false) as Hwf'.
  { destruct (After (w_End w) (w_End last)) eqn:E'; [left|by right].
    destruct Hl as (?&?&?&?), Hww as (?&?&?&?). time_simpl; bsimp.
    split_and!; simpl; try done. lia. }
  destruct (After (w_End w) (w_End last)) eqn:E'; [destruct Hwf' as [Hwf'|]; [|done]|];
    rewrite !Contains_wf by done; simpl; time_simpl; bsimp;
    destruct Hl as (_&_&_&?), Hww as (_&_&_&?);
    apply eq_bool_prop_intro; rewrite ?orb_True, ?andb_True, ?Is_true_true, ?Z.leb_le, ?Z.ltb_lt; lia.
Qed.

Lemma merge_fold merged ws :
  merge_inv merged ws -> Forall well_formed ws -> StronglySorted (not_after (less_by w_Start)) ws ->
  merge_inv (fold_left merge_step ws merged) [] /\
  forall t, covers (fold_left merge_step ws merged) t = covers merged t || covers ws t.
Proof.
  revert merged; induction ws as [|w ws IH]; intros merged Hinv Hwf Hsort; simpl.
  { split; [done|]. intros t. by rewrite orb_false_r. }
  apply Forall_cons in Hwf as [Hw Hws]. apply StronglySorted_inv in Hsort as [Hsort Hhd].
  destruct (IH (merge_step merged w)) as [Hi Hc]; [by apply merge_step_inv | done | done |].
  split; [done|]. intros t. rewrite Hc, (merge_step_covers _ _ ws) by done. by rewrite <-orb_assoc.
Qed.

Lemma StronglySorted_rev {A} (R : A -> A -> Prop) l :
  StronglySorted (flip R) l -> StronglySorted R (rev l).
Proof.
  induction 1 as [|x l Hl IH Hx]; simpl; [constructor|].
  apply StronglySorted_app_2; [|done|by repeat constructor].
  intros y z Hy ->%list_elem_of_singleton. rewrite Forall_forall in Hx. apply Hx.
  rewrite list_elem_of_In in Hy |- *. by apply in_rev.
Qed.

(** ** Properties *)

(** [Conflicts] reports, in order, the later window of every overlapping pair
    of the rows sorted by start (its early [break] skips none), so it reports as
    many windows as there are overlapping pairs in the input. *)
Theorem Conflicts_complete rows :
  Conflicts rows =
    map snd (List.filter overlapping (pairs_of (stable_sort (less_by sw_Start) rows))) /\
  length (Conflicts rows) = length (List.filter overlapping (pairs_of rows)).
Proof.
  unfold Conflicts. rewrite conflicts_loop_pairs by apply stable_sort_sorted, _.
  split; [done|]. rewrite length_map. apply pairs_of_perm, stable_sort_perm.
Qed.

(** C40: [Capacity], which only samples the starts and the ends of the windows,
    accepts exactly the schedules of valid windows whose load exceeds the limit
    at no instant at all, whatever order [sort.Slice] leaves equal points in. *)
Theorem Capacity_all_instants `{SliceSort} rows limit :
  Capacity rows limit = None <->
  flt limit f0 = false /\ Forall (fun w => ScheduleWindow_Valid w = None) rows /\
  forall t, flt limit (load_at rows t) = false.
Proof.
  unfold Capacity. destruct (flt limit f0) eqn:Hl; [naive_solver|].
  rewrite <-validate_rows_None. destruct (validate_rows rows); [naive_solver|].
  rewrite check_points_None, sort_Slice_perm. split.
  - intros Hps. split_and!; [done|done|]. intros t. by apply load_at_points.
  - intros (_ & _ & Hall). apply Forall_forall; auto.
Qed.

(** [MergeWindows] rejects any invalid window; otherwise it returns windows in
    increasing order with a gap between consecutive ones, covering exactly the
    instants the input covers. *)
Theorem MergeWindows_correct `{SliceSort} ws :
  match MergeWindows ws with
  | Fail _ => exists w, w ∈ ws /\ TimeWindow_Validate w (366 * 24 * Hour) <> None
  | Ok out => Forall (fun w => TimeWindow_Validate w (366 * 24 * Hour) = None) ws /\
              Forall (fun w => w_Start w < w_End w) out /\ StronglySorted gap out /\
              forall t, covers out t = covers ws t
  end.
Proof.
  unfold MergeWindows. destruct (validate_windows ws) eqn:Hv.
  { assert (validate_windows ws <> None) as Hn by congruence.
    rewrite validate_windows_None in Hn.
    apply not_Forall_Exists in Hn; [|apply _]. by apply Exists_exists. }
  apply validate_windows_None in Hv.
  assert (Forall well_formed (sort_Slice (less_by w_Start) ws)) as Hwf.
  { rewrite sort_Slice_perm. eapply Forall_impl; [exact Hv|].
    intros w. apply TimeWindow_Validate_wf. }
  assert (merge_inv [] (sort_Slice (less_by w_Start) ws)) as Hinv
    by (split; [constructor | constructor | by apply Forall_true]).
  destruct (merge_fold _ _ Hinv Hwf (sort_Slice_sorted _ _ _)) as [[Hw Hg _] Hc].
  split_and!; [done| | |].
  - apply Forall_rev. eapply Forall_impl; [exact Hw|]. by intros w (_ & _ & _ & ?).
  - by apply StronglySorted_rev.
  - intros t. specialize (Hc t). simpl in Hc.
    rewrite <-(covers_perm (sort_Slice (less_by w_Start) ws) ws) by apply sort_Slice_perm.
    rewrite <-Hc.
    apply covers_perm. symmetry. apply Permutation_rev.
Qed.
