(* ===== verification/Store.v ===== *)
(** * The database: PostgreSQL tables, statements, faults and transactions

    The tables of [db/migrations/*.sql] as finite maps; SQL statements as
    functions on them, each checking the constraints the migrations declare in
    PostgreSQL's order (CHECK, unique indexes, foreign keys); a schedule of
    events that interleaves other clients and makes statements fail; and
    [WithTx] of [db/db.go]. *)
From S2P Require Import Prelude Errors GoStd Model.

(** ** PostgreSQL's side

    How the server stores a timestamp parameter ([TIMESTAMPTZ] keeps
    microseconds), a [NUMERIC(p,3)] parameter ([None]: it overflows the precision)
    and a [UUID] parameter ([None]: a syntax error), and the text of its messages. *)
Class Postgres := {
  ts_in : Time -> Time;
  numeric_in : Z -> float64 -> option float64;
  uuid_in : string -> option string;
  pq_message : string -> string
}.

(** A server that stores every parameter as given, used to evaluate examples. *)
Definition exact_postgres : Postgres :=
  {| ts_in t := t; numeric_in _ f := Some f; uuid_in s := Some s; pq_message c := c |}.

Definition pq `{Postgres} (code : string) : error := PqError code (pq_message code).

(** ** Tables

    One map per table, keyed by its primary key; [seqs] holds the next value of
    every [BIGSERIAL] sequence (1 when absent). *)
Record MemberRow := mkMemberRow { mr_member : Member; mr_password_hash : string }.

Record Database := mkDatabase {
  households : gmap Z Household;
  members : gmap Z MemberRow;
  sessions : gmap string Session;
  devices : gmap Z Device;
  device_capabilities : gset (Z * string);
  telemetry : gmap Z Telemetry;
  energy_plans : gmap Z EnergyPlan;
  plan_devices : gmap (Z * Z) PlanDevice;
  automations : gmap Z Automation;
  automation_actions : gmap Z AutomationAction;
  automation_runs : gmap Z AutomationRun;
  alerts : gmap Z Alert;
  audit_events : gmap Z AuditEvent;
  outbox_messages : gmap Z OutboxMessage;
  seqs : gmap string Z }.

Definition empty_database : Database :=
  mkDatabase ∅ ∅ ∅ ∅ ∅ ∅ ∅ ∅ ∅ ∅ ∅ ∅ ∅ ∅ ∅.

Definition set_households (v : gmap Z Household) (d : Database) : Database :=
  mkDatabase v (members d) (sessions d) (devices d) (device_capabilities d) (telemetry d)
    (energy_plans d) (plan_devices d) (automations d) (automation_actions d) (automation_runs d)
    (alerts d) (audit_events d) (outbox_messages d) (seqs d).
Definition set_members (v : gmap Z MemberRow) (d : Database) : Database :=
  mkDatabase (households d) v (sessions d) (devices d) (device_capabilities d) (telemetry d)
    (energy_plans d) (plan_devices d) (automations d) (automation_actions d) (automation_runs d)
    (alerts d) (audit_events d) (outbox_messages d) (seqs d).
Definition set_sessions (v : gmap string Session) (d : Database) : Database :=
  mkDatabase (households d) (members d) v (devices d) (device_capabilities d) (telemetry d)
    (energy_plans d) (plan_devices d) (automations d) (automation_actions d) (automation_runs d)
    (alerts d) (audit_events d) (outbox_messages d) (seqs d).
Definition set_devices (v : gmap Z Device) (d : Database) : Database :=
  mkDatabase (households d) (members d) (sessions d) v (device_capabilities d) (telemetry d)
    (energy_plans d) (plan_devices d) (automations d) (automation_actions d) (automation_runs d)
    (alerts d) (audit_events d) (outbox_messages d) (seqs d).
Definition set_device_capabilities (v : gset (Z * string)) (d : Database) : Database :=
  mkDatabase (households d) (members d) (sessions d) (devices d) v (telemetry d)
    (energy_plans d) (plan_devices d) (automations d) (automation_actions d) (automation_runs d)
    (alerts d) (audit_events d) (outbox_messages d) (seqs d).
Definition set_telemetry (v : gmap Z Telemetry) (d : Database) : Database :=
  mkDatabase (households d) (members d) (sessions d) (devices d) (device_capabilities d) v
    (energy_plans d) (plan_devices d) (automations d) (automation_actions d) (automation_runs d)
    (alerts d) (audit_events d) (outbox_messages d) (seqs d).
Definition set_energy_plans (v : gmap Z EnergyPlan) (d : Database) : Database :=
  mkDatabase (households d) (members d) (sessions d) (devices d) (device_capabilities d)
    (telemetry d) v (plan_devices d) (automations d) (automation_actions d) (automation_runs d)
    (alerts d) (audit_events d) (outbox_messages d) (seqs d).
Definition set_plan_devices (v : gmap (Z * Z) PlanDevice) (d : Database) : Database :=
  mkDatabase (households d) (members d) (sessions d) (devices d) (device_capabilities d)
    (telemetry d) (energy_plans d) v (automations d) (automation_actions d) (automation_runs d)
    (alerts d) (audit_events d) (outbox_messages d) (seqs d).
Definition set_automations (v : gmap Z Automation) (d : Database) : Database :=
  mkDatabase (households d) (members d) (sessions d) (devices d) (device_capabilities d)
    (telemetry d) (energy_plans d) (plan_devices d) v (automation_actions d) (automation_runs d)
    (alerts d) (audit_events d) (outbox_messages d) (seqs d).
Definition set_automation_actions (v : gmap Z AutomationAction) (d : Database) : Database :=
  mkDatabase (households d) (members d) (sessions d) (devices d) (device_capabilities d)
    (telemetry d) (energy_plans d) (plan_devices d) (automations d) v (automation_runs d)
    (alerts d) (audit_events d) (outbox_messages d) (seqs d).
Definition set_automation_runs (v : gmap Z AutomationRun) (d : Database) : Database :=
  mkDatabase (households d) (members d) (sessions d) (devices d) (device_capabilities d)
    (telemetry d) (energy_plans d) (plan_devices d) (automations d) (automation_actions d) v
    (alerts d) (audit_events d) (outbox_messages d) (seqs d).
Definition set_alerts (v : gmap Z Alert) (d : Database) : Database :=
  mkDatabase (households d) (members d) (sessions d) (devices d) (device_capabilities d)
    (telemetry d) (energy_plans d) (plan_devices d) (automations d) (automation_actions d)
    (automation_runs d) v (audit_events d) (outbox_messages d) (seqs d).
Definition set_audit_events (v : gmap Z AuditEvent) (d : Database) : Database :=
  mkDatabase (households d) (members d) (sessions d) (devices d) (device_capabilities d)
    (telemetry d) (energy_plans d) (plan_devices d) (automations d) (automation_actions d)
    (automation_runs d) (alerts d) v (outbox_messages d) (seqs d).
Definition set_outbox_messages (v : gmap Z OutboxMessage) (d : Database) : Database :=
  mkDatabase (households d) (members d) (sessions d) (devices d) (device_capabilities d)
    (telemetry d) (energy_plans d) (plan_devices d) (automations d) (automation_actions d)
    (automation_runs d) (alerts d) (audit_events d) v (seqs d).
Definition set_seqs (v : gmap string Z) (d : Database) : Database :=
  mkDatabase (households d) (members d) (sessions d) (devices d) (device_capabilities d)
    (telemetry d) (energy_plans d) (plan_devices d) (automations d) (automation_actions d)
    (automation_runs d) (alerts d) (audit_events d) (outbox_messages d) v.

(** ** Stores and the schedule

    Before a statement outside a transaction, other clients may have changed the
    database ([ev_env]) and time has passed ([ev_elapsed]).  A statement may
    fail before it takes effect, or take effect and lose its reply. *)
Inductive fault := NoFault | FailBefore (e : error) | FailAfter (e : error).

Record event := mkEvent { ev_env : Database -> Database; ev_elapsed : Duration; ev_fault : fault }.
Definition quiet : event := mkEvent id 0 NoFault.

Record Store := mkStore { db : Database; clock : Time; in_tx : bool; schedule : list event }.

(** Commands of the program against the store. *)
Definition M (A : Type) : Type := Store -> result A * Store.

#[export] Instance M_ret : MRet M := fun A a s => (Ok a, s).
#[export] Instance M_bind : MBind M := fun A B k m s =>
  match m s with
  | (Ok a, s') => k a s'
  | (Fail e, s') => (Fail e, s')
  end.
Definition mfail {A} (e : error) : M A := fun s => (Fail e, s).
(** [if err != nil { return ..., f(err) }]. *)
Definition map_err {A} (f : error -> error) (m : M A) : M A := fun s =>
  match m s with
  | (Fail e, s') => (Fail (f e), s')
  | r => r
  end.
(** [if guard { return ErrX }]. *)
Definition guard_fail (b : bool) (e : error) : M unit := if b then mfail e else mret tt.
Definition lift {A} (r : result A) : M A := fun s => (r, s).
Definition lift_err (e : option error) : M unit :=
  match e with Some e => mfail e | None => mret tt end.

Definition with_db (s : Store) (d : Database) : Store :=
  mkStore d (clock s) (in_tx s) (schedule s).

(** The next event: time passes and other clients act only between
    transactions; PostgreSQL's [now()] is fixed inside one. *)
Definition advance (s : Store) : fault * Store :=
  match schedule s with
  | [] => (NoFault, s)
  | ev :: rest =>
      (ev_fault ev,
       if in_tx s then mkStore (db s) (clock s) true rest
       else mkStore (ev_env ev (db s)) (clock s + ev_elapsed ev) false rest)
  end.

(** A store that no one else uses and where nothing fails. *)
Definition quiet_store (d : Database) (now : Time) : Store := mkStore d now false [].

Lemma with_quiet d t d' : with_db (quiet_store d t) d' = quiet_store d' t.
Proof. done. Qed.

(** A statement computes a reply and a new database from the database and
    [now()]. *)
Definition statement {A} (f : Database -> Time -> result A * Database) : M A := fun s =>
  let '(fault, s) := advance s in
  match fault with
  | NoFault => let '(r, d) := f (db s) (clock s) in (r, with_db s d)
  | FailBefore e => (Fail e, s)
  | FailAfter e => (Fail e, with_db s (f (db s) (clock s)).2)
  end.

Lemma statement_quiet {A} (f : Database -> Time -> result A * Database) d t :
  statement f (quiet_store d t) = ((f d t).1, quiet_store (f d t).2 t).
Proof. unfold statement; simpl. by destruct (f d t). Qed.

Lemma statement_Ok {A} (f : Database -> Time -> result A * Database) s a s' :
  statement f s = (Ok a, s') ->
  exists s0, (advance s).2 = s0 /\ f (db s0) (clock s0) = (Ok a, db s').
Proof.
  unfold statement. destruct (advance s) as [[| |] s0]; simpl; try discriminate.
  destruct (f (db s0) (clock s0)) as [r d] eqn:E. intros [= -> <-]. by exists s0.
Qed.

(** ROLLBACK undoes the tables; sequences are not transactional. *)
Definition rollback (before after : Store) : Store :=
  mkStore (set_seqs (seqs (db after)) (db before)) (clock after) false (schedule after).

Definition begin_tx (s : Store) : Store := mkStore (db s) (clock s) true (schedule s).
Definition end_tx (s : Store) : Store := mkStore (db s) (clock s) false (schedule s).

(** [db.WithTx]. *)
Definition WithTx {A} (fn : M A) : M A := fun s =>
  let '(fault, s0) := advance s in
  match fault with
  | FailBefore e | FailAfter e => (Fail (wrap_prefix "begin transaction" e), s0)
  | NoFault =>
      let '(r, s1) := fn (begin_tx s0) in
      match r with
      | Fail e => (Fail e, rollback s0 s1)
      | Ok a =>
          let '(fault, s2) := advance (begin_tx s1) in
          match fault with
          | NoFault => (Ok a, end_tx s2)
          | FailBefore e => (Fail (wrap_prefix "commit transaction" e), rollback s0 s2)
          | FailAfter e => (Fail (wrap_prefix "commit transaction" e), end_tx s2)
          end
      end
  end.

(** *** Successful commands, backwards *)
Lemma bind_Ok {A B} (m : M A) (k : A -> M B) s b s' :
  (m ≫= k) s = (Ok b, s') -> exists a s1, m s = (Ok a, s1) /\ k a s1 = (Ok b, s').
Proof. unfold mbind, M_bind. destruct (m s) as [[a|e] s1]; [by eauto|done]. Qed.

Lemma bind_run {A B} (m : M A) (k : A -> M B) s :
  (m ≫= k) s = match m s with (Ok a, s') => k a s' | (Fail e, s') => (Fail e, s') end.
Proof. done. Qed.
Lemma map_err_run {A} f (m : M A) s :
  map_err f m s = match m s with (Ok a, s') => (Ok a, s') | (Fail e, s') => (Fail (f e), s') end.
Proof. unfold map_err. by destruct (m s) as [[a|e] s']. Qed.

Lemma map_err_Ok {A} f (m : M A) s a s' : map_err f m s = (Ok a, s') -> m s = (Ok a, s').
Proof. unfold map_err. by destruct (m s) as [[x|e] s1]; [intros [= -> ->]|]. Qed.

Lemma guard_fail_Ok b e s a s' : guard_fail b e s = (Ok a, s') -> b = false /\ s' = s.
Proof. destruct b; [done|]. by intros [= _ ->]. Qed.

(** Inside a transaction nobody else acts and time stands still. *)
Lemma tx_statement_Ok {A} (f : Database -> Time -> result A * Database) s a s' :
  in_tx s = true -> statement f s = (Ok a, s') ->
  f (db s) (clock s) = (Ok a, db s') /\ in_tx s' = true /\ clock s' = clock s.
Proof.
  intros Htx. unfold statement, advance. rewrite Htx.
  destruct (schedule s) as [|[env el [|e|e]] rest]; simpl; try discriminate;
    destruct (f (db s) (clock s)) as [r d] eqn:E; by intros [= -> <-].
Qed.

(** [WithTx] is all or nothing: either the callback succeeded on the database the
    transaction saw and its result is what remains (the reply of the commit may be
    lost), or only sequences moved. *)
Lemma WithTx_inv {A} (fn : M A) s r s' : WithTx fn s = (r, s') ->
  let s0 := (advance s).2 in
  ((exists e, r = Fail e) /\ exists q, db s' = set_seqs q (db s0)) \/
  exists a s1, fn (begin_tx s0) = (Ok a, s1) /\ db s' = db s1 /\
               (r = Ok a \/ exists e, r = Fail (wrap_prefix "commit transaction" e)).
Proof.
  unfold WithTx. destruct (advance s) as [ft s0]; simpl.
  assert (db s0 = set_seqs (seqs (db s0)) (db s0)) as Hid by (by destruct (db s0)).
  destruct ft; [|intros [= <- <-]; left; eauto..].
  destruct (fn _) as [[a|e] s1]; [|intros [= <- <-]; left; simpl; eauto].
  assert (db (advance (begin_tx s1)).2 = db s1) as Hdb by (unfold advance; simpl; by destruct (schedule s1)).
  destruct (advance (begin_tx s1)) as [ft s2]; simpl in *.
  destruct ft; intros [= <- <-]; [right|left; simpl; eauto|right];
    exists a, s1; (split; [done|]); (split; [done|]); eauto.
Qed.

(** *** Commands on an undisturbed store: nobody else acts and nothing fails *)
Definition undisturbed {A} (m : M A) : Prop := forall s,
  schedule s = [] -> schedule (m s).2 = [] /\ clock (m s).2 = clock s.

Lemma statement_undisturbed_run {A} (f : Database -> Time -> result A * Database) s :
  schedule s = [] -> statement f s = ((f (db s) (clock s)).1, with_db s (f (db s) (clock s)).2).
Proof. intros Hs. unfold statement, advance. rewrite Hs. by destruct (f (db s) (clock s)). Qed.

Create HintDb undisturbed discriminated.

Lemma undisturbed_statement {A} (f : Database -> Time -> result A * Database) : undisturbed (statement f).
Proof. intros s Hs. by rewrite statement_undisturbed_run. Qed.
Lemma undisturbed_ret {A} (a : A) : undisturbed (mret a).
Proof. by intros s. Qed.
Lemma undisturbed_fail {A} e : undisturbed (mfail (A := A) e).
Proof. by intros s. Qed.
Lemma undisturbed_guard b e : undisturbed (guard_fail b e).
Proof. by destruct b; intros s. Qed.
Lemma undisturbed_bind {A B} (m : M A) (k : A -> M B) :
  undisturbed m -> (forall a, undisturbed (k a)) -> undisturbed (m ≫= k).
Proof.
  intros Hm Hk s Hs. rewrite bind_run. destruct (Hm s Hs) as [H1 H2].
  destruct (m s) as [[a|e] s']; [|done]. simpl in *. destruct (Hk a s' H1). split; [done|congruence].
Qed.
Lemma undisturbed_map_err {A} f (m : M A) : undisturbed m -> undisturbed (map_err f m).
Proof. intros Hm s Hs. rewrite map_err_run. specialize (Hm s Hs). by destruct (m s) as [[] ?]. Qed.
Lemma WithTx_undisturbed_run {A} (fn : M A) s : schedule s = [] -> undisturbed fn ->
  WithTx fn s = match fn (begin_tx s) with
                | (Ok a, s1) => (Ok a, end_tx s1)
                | (Fail e, s1) => (Fail e, rollback s s1)
                end.
Proof.
  intros Hs Hfn. unfold WithTx, advance. rewrite Hs.
  destruct (Hfn (begin_tx s) Hs) as [H1 H2]. destruct (fn (begin_tx s)) as [[a|e] s1]; simpl in *; [|done].
  by rewrite H1.
Qed.
Lemma undisturbed_WithTx {A} (fn : M A) : undisturbed fn -> undisturbed (WithTx fn).
Proof.
  intros Hfn s Hs. rewrite WithTx_undisturbed_run by done. destruct (Hfn (begin_tx s) Hs).
  by destruct (fn (begin_tx s)) as [[] ?].
Qed.
#[export] Hint Resolve undisturbed_statement undisturbed_ret undisturbed_fail undisturbed_guard undisturbed_bind
  undisturbed_map_err undisturbed_WithTx : undisturbed.

(** ** Tables with a BIGSERIAL key

    [row_check] is the conjunction of the table's CHECK constraints, [row_id] the
    key column. *)
Class Table (R : Type) := {
  seq_name : string;
  row_id : R -> Z;
  rows : Database -> gmap Z R;
  set_rows : gmap Z R -> Database -> Database;
  row_check : R -> bool;
  rows_set v d : rows (set_rows v d) = v;
  rows_seqs q d : rows (set_seqs q d) = rows d;
  seqs_set v d : seqs (set_rows v d) = seqs d
}.

Definition device_kinds : list string :=
  [KindSensor; KindLight; KindThermostat; KindMeter; KindLock; KindController].
Definition device_states : list string :=
  [DevicePending; DevicePaired; DeviceEnabled; DeviceDisabled; DeviceRetired].
Definition plan_states : list string :=
  [PlanDraft; PlanScheduled; PlanRunning; PlanCompleted; PlanCancelled].
Definition automation_states : list string :=
  [AutomationDraft; AutomationActive; AutomationPaused; AutomationArchived].
Definition run_states : list string :=
  [RunQueued; RunRunning; RunSucceeded; RunFailed; RunCancelled].
Definition roles : list string := [RoleOwner; RoleOperator; RoleViewer].

#[export] Instance Household_table : Table Household :=
  { seq_name := "households"; row_id := h_ID; rows := households; set_rows := set_households;
    row_check h := 0 <=? h_MonthlyBudgetCents h;
    rows_set _ _ := eq_refl; rows_seqs _ _ := eq_refl; seqs_set _ _ := eq_refl }.
#[export] Instance Member_table : Table MemberRow :=
  { seq_name := "members"; row_id := m_ID ∘ mr_member; rows := members; set_rows := set_members;
    row_check m := bool_decide (m_Role (mr_member m) ∈ roles);
    rows_set _ _ := eq_refl; rows_seqs _ _ := eq_refl; seqs_set _ _ := eq_refl }.
#[export] Instance Device_table : Table Device :=
  { seq_name := "devices"; row_id := d_ID; rows := devices; set_rows := set_devices;
    row_check d := bool_decide (d_Kind d ∈ device_kinds) && bool_decide (d_State d ∈ device_states);
    rows_set _ _ := eq_refl; rows_seqs _ _ := eq_refl; seqs_set _ _ := eq_refl }.
#[export] Instance Telemetry_table : Table Telemetry :=
  { seq_name := "telemetry"; row_id := t_ID; rows := telemetry; set_rows := set_telemetry; row_check _ := true;
    rows_set _ _ := eq_refl; rows_seqs _ _ := eq_refl; seqs_set _ _ := eq_refl }.
#[export] Instance EnergyPlan_table : Table EnergyPlan :=
  { seq_name := "energy_plans"; row_id := p_ID; rows := energy_plans; set_rows := set_energy_plans;
    row_check p := bool_decide (p_State p ∈ plan_states) && (0 <=? p_BudgetCents p);
    rows_set _ _ := eq_refl; rows_seqs _ _ := eq_refl; seqs_set _ _ := eq_refl }.
#[export] Instance Automation_table : Table Automation :=
  { seq_name := "automations"; row_id := a_ID; rows := automations; set_rows := set_automations;
    row_check a := bool_decide (a_State a ∈ automation_states);
    rows_set _ _ := eq_refl; rows_seqs _ _ := eq_refl; seqs_set _ _ := eq_refl }.
#[export] Instance Action_table : Table AutomationAction :=
  { seq_name := "automation_actions"; row_id := aa_ID; rows := automation_actions;
    set_rows := set_automation_actions; row_check a := 0 <=? aa_Ordinal a;
    rows_set _ _ := eq_refl; rows_seqs _ _ := eq_refl; seqs_set _ _ := eq_refl }.
#[export] Instance Run_table : Table AutomationRun :=
  { seq_name := "automation_runs"; row_id := r_ID; rows := automation_runs; set_rows := set_automation_runs;
    row_check r := bool_decide (r_State r ∈ run_states);
    rows_set _ _ := eq_refl; rows_seqs _ _ := eq_refl; seqs_set _ _ := eq_refl }.
#[export] Instance Alert_table : Table Alert :=
  { seq_name := "alerts"; row_id := al_ID; rows := alerts; set_rows := set_alerts;
    row_check a := bool_decide (al_Severity a ∈ ["info"; "warning"; "critical"]%string)
                   && bool_decide (al_State a ∈ ["open"; "acknowledged"; "resolved"]%string);
    rows_set _ _ := eq_refl; rows_seqs _ _ := eq_refl; seqs_set _ _ := eq_refl }.
#[export] Instance Audit_table : Table AuditEvent :=
  { seq_name := "audit_events"; row_id := ae_ID; rows := audit_events; set_rows := set_audit_events;
    row_check _ := true;
    rows_set _ _ := eq_refl; rows_seqs _ _ := eq_refl; seqs_set _ _ := eq_refl }.
#[export] Instance Outbox_table : Table OutboxMessage :=
  { seq_name := "outbox_messages"; row_id := o_ID; rows := outbox_messages; set_rows := set_outbox_messages;
    row_check m := (0 <=? o_Attempts m)
                   && (bool_decide (o_DeliveredAt m = None) || bool_decide (o_FailedAt m = None));
    rows_set _ _ := eq_refl; rows_seqs _ _ := eq_refl; seqs_set _ _ := eq_refl }.

(** ** Statements on such a table *)
Section statements.
Context `{Postgres} {R : Type} `{Table R}.

Definition nextval (d : Database) : Z := default 1 (seqs d !! seq_name).

(** [INSERT ... RETURNING]: [mk] builds the row from its new id and [now()];
    [constraints] finds a violated NOT NULL, unique or foreign key constraint. *)
Definition insert_row (mk : Z -> Time -> R) (constraints : Database -> R -> option string)
    (d : Database) (now : Time) : result R * Database :=
  let id := nextval d in
  let row := mk id now in
  let d' := set_seqs (<[seq_name := id + 1]> (seqs d)) d in
  if negb (row_check row) then (Fail (pq "23514"), d')
  else if bool_decide (is_Some (rows d !! id)) then (Fail (pq "23505"), d')
  else match constraints d row with
       | Some code => (Fail (pq code), d')
       | None => (Ok row, set_rows (<[id := row]> (rows d)) d')
       end.

Lemma insert_row_Ok mk constraints d now row d' :
  insert_row mk constraints d now = (Ok row, d') ->
  row = mk (nextval d) now /\ rows d !! nextval d = None /\
  d' = set_rows (<[nextval d := row]> (rows d)) (set_seqs (<[seq_name := nextval d + 1]> (seqs d)) d).
Proof.
  unfold insert_row. case_match; [done|]. case_bool_decide as Hn; [done|]. case_match; [done|].
  intros [= <- <-]. split_and!; [done| |done].
  destruct (rows d !! nextval d); [|done]. by destruct Hn.
Qed.

(** [SELECT ... WHERE id = $1], one row. *)
Definition select_row (id : Z) (d : Database) (now : Time) : result R * Database :=
  match rows d !! id with
  | Some row => (Ok row, d)
  | None => (Fail (Sentinel ErrNoRows), d)
  end.

(** [UPDATE ... SET ... WHERE id = $1 AND cond], with the number of rows
    affected.  [upd] may fail on a numeric overflow. *)
Definition update_row (id : Z) (cond : Database -> R -> bool) (upd : R -> Time -> result R)
    (d : Database) (now : Time) : result Z * Database :=
  match rows d !! id with
  | Some row =>
      if cond d row then
        match upd row now with
        | Ok row' => if row_check row' then (Ok 1, set_rows (<[id := row']> (rows d)) d)
                     else (Fail (pq "23514"), d)
        | Fail e => (Fail e, d)
        end
      else (Ok 0, d)
  | None => (Ok 0, d)
  end.

(** [UPDATE ... SET ... WHERE cond] over the table. *)
Definition update_rows (cond : R -> bool) (upd : R -> Time -> R)
    (d : Database) (now : Time) : result Z * Database :=
  let hit := filter (fun kv => cond kv.2 = true) (rows d) in
  let d' := set_rows ((fun r => if cond r then upd r now else r) <$> rows d) d in
  if bool_decide (map_Forall (fun _ r => row_check (upd r now) = true) hit)
  then (Ok (Z.of_nat (size hit)), d') else (Fail (pq "23514"), d).

(** The rows of the table in primary key order. *)
Definition rows_by_id (d : Database) : list R :=
  map snd (stable_sort (less_by fst) (map_to_list (rows d))).

(** [WITH candidate AS (SELECT id ... WHERE cond ORDER BY id FOR UPDATE SKIP
    LOCKED LIMIT 1) UPDATE ... RETURNING]: the first row [cond] accepts that no
    other transaction has locked. *)
Definition candidate (locked : gset Z) (cond : R -> bool) (d : Database) : option (Z * R) :=
  head (stable_sort (less_by fst)
          (map_to_list (filter (fun kv => cond kv.2 = true /\ kv.1 ∉ locked) (rows d)))).

Definition claim_row (locked : gset Z) (cond : R -> Time -> bool) (upd : R -> Time -> result R)
    (d : Database) (now : Time) : result R * Database :=
  match candidate locked (fun r => cond r now) d with
  | None => (Fail (Sentinel ErrNoRows), d)
  | Some (id, row) =>
      match upd row now with
      | Ok row' => if row_check row' then (Ok row', set_rows (<[id := row']> (rows d)) d)
                   else (Fail (pq "23514"), d)
      | Fail e => (Fail e, d)
      end
  end.
End statements.

(** [affected, err := result.RowsAffected(); if affected != 1 { return e }]. *)
Definition require_one (e : error) (m : M Z) : M unit :=
  n ← m; if n =? 1 then mret tt else mfail e.
(** The same with the test [n == 0]. *)
Definition require_some (e : error) (m : M Z) : M unit :=
  n ← m; if n =? 0 then mfail e else mret tt.

Lemma undisturbed_require_one e m : undisturbed m -> undisturbed (require_one e m).
Proof. intros Hm. apply undisturbed_bind; [done|]. intros n. case_match; by intros s. Qed.
#[export] Hint Resolve undisturbed_require_one : undisturbed.

(** ** Two-state reasoning under interference

    [guarantees R m]: if every other client only moves the database along [R],
    then so does [m], whatever fails.  [R] is a preorder that lets sequences advance, also
    as far as an undone part of the history did. *)
Definition sequences_advance (q q' : gmap string Z) : Prop :=
  forall name, default 1 (q !! name) <= default 1 (q' !! name).
#[export] Instance sequences_advance_PreOrder : PreOrder sequences_advance.
Proof.
  split; [by intros q name|]. intros q1 q2 q3 H12 H23 name. by etransitivity; [apply H12|apply H23].
Qed.

Class TwoState (R : Database -> Database -> Prop) : Prop := {
  two_state_preorder :: PreOrder R;
  two_state_seqs d q : sequences_advance (seqs d) q -> R d (set_seqs q d);
  two_state_undo d d' : R d d' -> R d (set_seqs (seqs d') d)
}.

(** Most relations do not look at sequences at all. *)
Lemma two_state_any R : PreOrder R -> (forall d q, R d (set_seqs q d)) -> TwoState R.
Proof. intros HR Hq. by split. Qed.

Definition rely (R : Database -> Database -> Prop) (s : Store) : Prop :=
  Forall (fun ev => forall d, R d (ev_env ev d)) (schedule s).

Definition guarantees {A} (R : Database -> Database -> Prop) (m : M A) : Prop :=
  forall s, rely R s -> R (db s) (db (m s).2) /\ rely R (m s).2.

Create HintDb repo discriminated.

Section guarantees.
Context (R : Database -> Database -> Prop) `{!TwoState R}.

Lemma guarantees_ret {A} (a : A) : guarantees R (mret a).
Proof. intros s Hs. by split. Qed.
Lemma guarantees_fail {A} e : guarantees R (mfail (A := A) e).
Proof. intros s Hs. by split. Qed.
Lemma guarantees_lift {A} (r : result A) : guarantees R (lift r).
Proof. intros s Hs. by split. Qed.
Lemma guarantees_lift_err e : guarantees R (lift_err e).
Proof. destruct e; intros s Hs; by split. Qed.
Lemma guarantees_guard b e : guarantees R (guard_fail b e).
Proof. destruct b; intros s Hs; by split. Qed.

Lemma guarantees_bind {A B} (m : M A) (k : A -> M B) :
  guarantees R m -> (forall a, guarantees R (k a)) -> guarantees R (m ≫= k).
Proof.
  intros Hm Hk s Hs. unfold mbind, M_bind. destruct (Hm s Hs) as [H1 H2].
  destruct (m s) as [[a|e] s']; [|done]. destruct (Hk a s' H2) as [H3 H4].
  split; [by etransitivity | done].
Qed.

Lemma guarantees_map_err {A} f (m : M A) : guarantees R m -> guarantees R (map_err f m).
Proof.
  intros Hm s Hs. unfold map_err. specialize (Hm s Hs). by destruct (m s) as [[a|e] s'].
Qed.

Lemma advance_rely s : rely R s -> R (db s) (db (advance s).2) /\ rely R (advance s).2.
Proof.
  unfold advance, rely. destruct (schedule s) as [|ev rest] eqn:E; simpl.
  - intros _. rewrite E. by split.
  - intros [He Hr]%Forall_cons. by destruct (in_tx s).
Qed.

Lemma guarantees_statement {A} (f : Database -> Time -> result A * Database) :
  (forall d now, R d (f d now).2) -> guarantees R (statement f).
Proof.
  intros Hf s Hs. unfold statement. destruct (advance_rely s Hs) as [H1 H2].
  destruct (advance s) as [ft s0]; simpl in *. specialize (Hf (db s0) (clock s0)).
  destruct ft; simpl; [|done|]; [destruct (f _ _) as [r d]|]; split; try done; by etransitivity.
Qed.

Lemma rollback_rel s before after :
  R (db s) (db before) -> R (db before) (db after) -> R (db s) (db (rollback before after)).
Proof. intros Hb Ha. etransitivity; [exact Hb|]. by apply two_state_undo. Qed.

Lemma guarantees_WithTx {A} (fn : M A) : guarantees R fn -> guarantees R (WithTx fn).
Proof.
  intros Hfn s Hs. unfold WithTx. destruct (advance_rely s Hs) as [H1 H2].
  destruct (advance s) as [ft s0]; simpl in *. destruct ft; [|done..].
  destruct (Hfn (begin_tx s0) H2) as [H3 H4]; simpl in *.
  destruct (fn _) as [[a|e] s1]; simpl in *.
  - destruct (advance_rely (begin_tx s1) H4) as [H5 H6]. destruct (advance (begin_tx s1)) as [ft s2]; simpl in *.
    destruct ft; simpl; (split; [|done]); try (by do 2 (etransitivity; [done|]));
      (apply rollback_rel; [done|by etransitivity]).
  - split; [|done]. by apply rollback_rel.
Qed.

Lemma guarantees_require_one e m : guarantees R m -> guarantees R (require_one e m).
Proof.
  intros Hm. apply guarantees_bind; [done|]. intros n.
  case_match; [apply guarantees_ret | apply guarantees_fail].
Qed.
Lemma guarantees_require_some e m : guarantees R m -> guarantees R (require_some e m).
Proof.
  intros Hm. apply guarantees_bind; [done|]. intros n.
  case_match; [apply guarantees_fail | apply guarantees_ret].
Qed.
End guarantees.

#[export] Hint Resolve guarantees_ret guarantees_fail guarantees_lift guarantees_lift_err
  guarantees_guard guarantees_bind guarantees_map_err guarantees_WithTx guarantees_require_one
  guarantees_require_some : repo.
#[export] Hint Extern 0 (TwoState _) => apply _ : repo.
#[export] Hint Extern 0 (PreOrder _) => apply _ : repo.

(** Walks through a command: [g_bind] leaves the continuation, [g_statement] the
    relation between the databases around a statement. *)
Ltac g_bind := apply guarantees_bind; [apply _|try solve [eauto with repo]|intros ?].
Ltac g_statement := apply guarantees_statement; [apply _|].

(** *** Triples: the same from states that satisfy [F], and what then holds of the result

    [F] must survive what the other clients do: it is [stable]. *)
Definition stable (R : Database -> Database -> Prop) (F : Database -> Prop) : Prop := forall d d', R d d' -> F d -> F d'.
Definition triple {A} (R : Database -> Database -> Prop) (F : Database -> Prop) (m : M A) (G : A -> Database -> Prop) : Prop :=
  forall s, rely R s -> F (db s) ->
    R (db s) (db (m s).2) /\ rely R (m s).2 /\ forall a, (m s).1 = Ok a -> G a (db (m s).2).

Lemma stable_and R F F' : stable R F -> stable R F' -> stable R (fun d => F d /\ F' d).
Proof. intros H H' d d' Hd [? ?]. split; eauto. Qed.

Section triples.
Context (R : Database -> Database -> Prop) `{!TwoState R}.

Lemma triple_guarantees {A} (m : M A) G : triple R (fun _ => True) m G -> guarantees R m.
Proof. intros Hm s Hs. by destruct (Hm s Hs I) as (? & ? & _). Qed.
Lemma guarantees_triple {A} F (m : M A) : stable R F -> guarantees R m -> triple R F m (fun _ => F).
Proof. intros HF Hm s Hs Hd. destruct (Hm s Hs). split_and!; [done..|]. intros _ _. by eapply HF. Qed.
Lemma triple_weaken {A} F (m : M A) G G' : triple R F m G -> (forall a d, G a d -> G' a d) -> triple R F m G'.
Proof. intros Hm HG s Hs Hd. destruct (Hm s Hs Hd) as (? & ? & ?). split_and!; eauto. Qed.
Lemma triple_pre {A} (F F' : Database -> Prop) (m : M A) G : (forall d, F d -> F' d) -> triple R F' m G -> triple R F m G.
Proof. intros HF Hm s Hs Hd. apply Hm; auto. Qed.
Lemma triple_ex {A B} (F : B -> Database -> Prop) (m : M A) G :
  (forall b, triple R (F b) m G) -> triple R (fun d => exists b, F b d) m G.
Proof. intros Hm s Hs [b Hd]. by apply (Hm b). Qed.
(** A stable fact can be carried along. *)
Lemma triple_keep {A} (I F : Database -> Prop) (m : M A) G : stable R I -> triple R F m G ->
  triple R (fun d => I d /\ F d) m (fun a d => I d /\ G a d).
Proof.
  intros HI Hm s Hs [Hi Hd]. destruct (Hm s Hs Hd) as (? & ? & ?). split_and!; [done..|].
  intros a Ha. split; eauto.
Qed.

Lemma triple_ret {A} F (a : A) G : (forall d, F d -> G a d) -> triple R F (mret a) G.
Proof. intros HG s Hs Hd. split_and!; [done..|]. intros ? [= <-]. by apply HG. Qed.
Lemma triple_fail {A} F e G : triple R F (mfail (A := A) e) G.
Proof. intros s Hs Hd. by split_and!. Qed.
Lemma triple_guard F b e : triple R F (guard_fail b e) (fun _ d => b = false /\ F d).
Proof. destruct b; [apply triple_fail|by apply triple_ret]. Qed.
Lemma triple_bind {A B} F (m : M A) (k : A -> M B) G H :
  triple R F m G -> (forall a, triple R (G a) (k a) H) -> triple R F (m ≫= k) H.
Proof.
  intros Hm Hk s Hs Hd. unfold mbind, M_bind. destruct (Hm s Hs Hd) as (H1 & H2 & H3).
  destruct (m s) as [[a|e] s']; [|done]. destruct (Hk a s' H2) as (H4 & H5 & H6); [by apply H3|].
  split_and!; [by etransitivity | done..].
Qed.
Lemma triple_map_err {A} F f (m : M A) G : triple R F m G -> triple R F (map_err f m) G.
Proof. intros Hm s Hs Hd. unfold map_err. specialize (Hm s Hs Hd). destruct (m s) as [[a|e] s']; [done|]. naive_solver. Qed.
Lemma triple_require_one F e m G : triple R F m (fun _ => G) -> triple R F (require_one e m) (fun _ => G).
Proof.
  intros Hm. eapply triple_bind; [exact Hm|]. intros n. case_match; [by apply triple_ret|apply triple_fail].
Qed.
Lemma triple_statement {A} F (f : Database -> Time -> result A * Database) G :
  stable R F -> (forall d now, F d -> R d (f d now).2 /\ forall a, (f d now).1 = Ok a -> G a (f d now).2) ->
  triple R F (statement f) G.
Proof.
  intros HF Hf s Hs Hd. unfold statement. destruct (advance_rely R s Hs) as [H1 H2].
  destruct (advance s) as [ft s0]; simpl in *. specialize (Hf (db s0) (clock s0) (HF _ _ H1 Hd)) as [Hr Hg].
  destruct ft; simpl; [|by split_and!|by split_and!; [etransitivity| |]].
  destruct (f _ _) as [r d]. simpl in *. split_and!; [by etransitivity|done..].
Qed.
End triples.
