(* ===== verification/Repo.v ===== *)
(** * package repo: the repository

    One definition per method of [Repository], its SQL statements as statements
    of [Store].  A cancelled [context.Context] shows up as a fault of the
    schedule carrying [Canceled] or [DeadlineExceeded]; [locked] arguments are
    the rows that concurrent transactions hold, which [SKIP LOCKED] passes over. *)
From S2P Require Import Prelude Errors GoStd Model Store.

Section repo.
Context `{PG : Postgres}.

Definition exists_row {R} `{Table R} (id : Z) (d : Database) : bool :=
  bool_decide (is_Some (rows (R := R) d !! id)).

(** A violated constraint: [None] when [ok]. *)
Definition require (ok : bool) (sqlstate : string) : option string :=
  if ok then None else Some sqlstate.
Definition first_violation (a b : option string) : option string :=
  match a with Some c => Some c | None => b end.

(** ** repo.go: households and members *)
Definition insert_household (name timezone : string) (budget : Z) : Database -> Time -> result Household * Database :=
  insert_row (fun id now => mkHousehold id name timezone budget now) (fun _ _ => None).

Definition CreateHousehold (name timezone : string) (budget : Z) : M Household :=
  if bool_decide (name = "") || bool_decide (timezone = "") || (budget <? 0)
  then mfail (Sentinel ErrInvalid)
  else map_err classifyWriteError (statement (insert_household name timezone budget)).

(** UNIQUE(household_id, email), then the foreign key. *)
Definition member_constraints (d : Database) (row : MemberRow) : option string :=
  first_violation
    (require (bool_decide (map_Forall (fun _ r => ~ (m_HouseholdID (mr_member r) = m_HouseholdID (mr_member row)
        /\ m_Email (mr_member r) = m_Email (mr_member row))) (members d))) "23505")
    (require (exists_row (R := Household) (m_HouseholdID (mr_member row)) d) "23503").

Definition insert_member (householdID : Z) (email hash : string) (role : Role) : Database -> Time -> result MemberRow * Database :=
  insert_row (fun id now => mkMemberRow (mkMember id householdID email role true now) hash)
    member_constraints.

Definition AddMember (householdID : Z) (email hash : string) (role : Role) : M Member :=
  map_err classifyWriteError
    (row ← statement (insert_member householdID email hash role); mret (mr_member row)).

Definition CreateHouseholdWithOwner (name timezone : string) (budget : Z) (email hash : string)
    : M (Household * Member) :=
  WithTx (
    household ← map_err (wrap_prefix "create household") (CreateHousehold name timezone budget);
    owner ← map_err (wrap_prefix "create owner") (AddMember (h_ID household) email hash RoleOwner);
    mret (household, owner)).

(** The first row a unique condition selects. *)
Definition select_where {R} `{Table R} (cond : R -> bool) (d : Database) (now : Time) : result R * Database :=
  match List.filter cond (rows_by_id d) with
  | row :: _ => (Ok row, d)
  | [] => (Fail (Sentinel ErrNoRows), d)
  end.

Definition FindMember (householdID : Z) (email : string) : M (Member * string) :=
  map_err classifyReadError
    (row ← statement (select_where (R := MemberRow) (fun r => (m_HouseholdID (mr_member r) =? householdID)
        && bool_decide (m_Email (mr_member r) = email)));
     mret (mr_member row, mr_password_hash row)).

Definition MemberByID (id : Z) : M Member :=
  map_err classifyReadError (row ← statement (select_row (R := MemberRow) id); mret (mr_member row)).

(** members.go *)
Definition with_active (active : bool) (r : MemberRow) : MemberRow :=
  let m := mr_member r in
  mkMemberRow (mkMember (m_ID m) (m_HouseholdID m) (m_Email m) (m_Role m) active (m_CreatedAt m))
    (mr_password_hash r).

Definition update_member_active (id : Z) (active : bool) : Database -> Time -> result Z * Database :=
  update_row id (fun _ _ => true) (fun r _ => Ok (with_active active r)).

Definition SetMemberActive (id : Z) (active : bool) : M unit :=
  require_one (Sentinel ErrNotFound) (statement (update_member_active id active)).

Definition Members (household : Z) : M (list Member) :=
  statement (fun d now =>
    (Ok (List.filter (fun m => m_HouseholdID m =? household) (map mr_member (rows_by_id d))), d)).

(** ** repo.go: sessions.  The key is a UUID; the server reads any of its spellings. *)
Definition insert_session (s : Session) (d : Database) (now : Time) : result unit * Database :=
  match uuid_in (s_ID s) with
  | None => (Fail (pq "22P02"), d)
  | Some id =>
      if bool_decide (is_Some (sessions d !! id)) then (Fail (pq "23505"), d)
      else if negb (exists_row (R := MemberRow) (s_MemberID s) d) then (Fail (pq "23503"), d)
      else (Ok tt, set_sessions (<[id := mkSession id (s_MemberID s) (ts_in (s_ExpiresAt s)) None now]> (sessions d)) d)
  end.

Definition CreateSession (s : Session) : M unit :=
  map_err classifyWriteError (statement (insert_session s)).

Definition select_session (id : string) (d : Database) (now : Time) : result Session * Database :=
  match uuid_in id with
  | None => (Fail (pq "22P02"), d)
  | Some id => match sessions d !! id with
               | Some s => (Ok s, d)
               | None => (Fail (Sentinel ErrNoRows), d)
               end
  end.

Definition GetSession (id : string) : M Session :=
  map_err classifyReadError (statement (select_session id)).

Definition revoke_session (id : string) (at_ : Time) (d : Database) (now : Time) : result Z * Database :=
  match uuid_in id with
  | None => (Fail (pq "22P02"), d)
  | Some id =>
      match sessions d !! id with
      | Some s =>
          if bool_decide (s_RevokedAt s = None)
          then (Ok 1, set_sessions (<[id := mkSession (s_ID s) (s_MemberID s) (s_ExpiresAt s)
                         (Some (ts_in at_)) (s_CreatedAt s)]> (sessions d)) d)
          else (Ok 0, d)
      | None => (Ok 0, d)
      end
  end.

Definition RevokeSession (id : string) (now : Time) : M unit :=
  require_some (Sentinel ErrNotFound) (map_err classifyWriteError (statement (revoke_session id now))).

(** queries.go *)
Definition session_dead (now : Time) (s : Session) : bool :=
  (s_ExpiresAt s <=? now) || negb (bool_decide (s_RevokedAt s = None)).

Definition delete_sessions (at_ : Time) (d : Database) (now : Time) : result Z * Database :=
  let dead := filter (fun kv => session_dead (ts_in at_) kv.2 = true) (sessions d) in
  (Ok (Z.of_nat (size dead)),
   set_sessions (filter (fun kv => session_dead (ts_in at_) kv.2 = false) (sessions d)) d).

Definition DeleteExpiredSessions (now : Time) : M Z :=
  if IsZero now then mfail (Sentinel ErrInvalid) else statement (delete_sessions now).

(** transaction.go *)
Definition VacuumSessions (now : Time) : M Z := DeleteExpiredSessions now.

(** members.go *)
Definition SessionCount (member : Z) (now : Time) : M Z :=
  statement (fun d _ => (Ok (Z.of_nat (size (filter (fun kv : string * Session =>
    s_MemberID kv.2 = member /\ s_RevokedAt kv.2 = None /\ ts_in now < s_ExpiresAt kv.2) (sessions d)))), d)).

(** ** repo.go: devices *)
Definition device_constraints (d : Database) (row : Device) : option string :=
  first_violation
    (require (bool_decide (map_Forall (fun _ r => ~ (d_HouseholdID r = d_HouseholdID row
        /\ d_ExternalID r = d_ExternalID row)) (devices d))) "23505")
    (require (exists_row (R := Household) (d_HouseholdID row) d) "23503").

Definition insert_device (dev : Device) : Database -> Time -> result Device * Database :=
  insert_row (fun id now => mkDevice id (d_HouseholdID dev) (d_ExternalID dev) (d_Kind dev)
                DevicePending (d_Firmware dev) 1 None now) device_constraints.

Definition insert_capability (id : Z) (capability : string) (d : Database) (now : Time) : result unit * Database :=
  if bool_decide ((id, capability) ∈ device_capabilities d) then (Fail (pq "23505"), d)
  else if negb (exists_row (R := Device) id d) then (Fail (pq "23503"), d)
  else (Ok tt, set_device_capabilities ({[(id, capability)]} ∪ device_capabilities d) d).

Fixpoint insert_capabilities (id : Z) (capabilities : list string) : M unit :=
  match capabilities with
  | [] => mret tt
  | capability :: rest =>
      _ ← map_err classifyWriteError (statement (insert_capability id capability));
      insert_capabilities id rest
  end.

Definition CreateDevice (dev : Device) (capabilities : list string) : M Device :=
  WithTx (
    out ← map_err classifyWriteError (statement (insert_device dev));
    _ ← insert_capabilities (d_ID out) capabilities;
    mret out).

Definition GetDevice (id : Z) : M Device :=
  map_err classifyReadError (statement (select_row (R := Device) id)).

(** [SET state=$2, version=version+1]; BIGINT overflow is SQLSTATE 22003. *)
Definition set_device_state (to : DeviceState) (r : Device) : result Device :=
  if d_Version r =? int64_max then Fail (pq "22003")
  else Ok (mkDevice (d_ID r) (d_HouseholdID r) (d_ExternalID r) (d_Kind r) to (d_Firmware r)
             (d_Version r + 1) (d_LastSeenAt r) (d_CreatedAt r)).

Definition update_device_state (id : Z) (from to : DeviceState) (expectedVersion : Z)
    : Database -> Time -> result Z * Database :=
  update_row id (fun _ r => bool_decide (d_State r = from) && (d_Version r =? expectedVersion))
    (fun r _ => set_device_state to r).

Definition TransitionDevice (id : Z) (from to : DeviceState) (expectedVersion : Z) : M unit :=
  require_some (Sentinel ErrConflict)
    (map_err classifyWriteError (statement (update_device_state id from to expectedVersion))).

Definition with_last_seen (when : Time) (r : Device) : Device :=
  mkDevice (d_ID r) (d_HouseholdID r) (d_ExternalID r) (d_Kind r) (d_State r) (d_Firmware r)
    (d_Version r) (Some (ts_in when)) (d_CreatedAt r).

Definition touch_device (id : Z) (when : Time) : Database -> Time -> result Z * Database :=
  update_row id (fun _ _ => true) (fun r _ => Ok (with_last_seen when r)).

Definition TouchDevice (id : Z) (when : Time) : M unit :=
  require_some (Sentinel ErrNotFound) (map_err classifyWriteError (statement (touch_device id when))).

Definition upsert_capability (id : Z) (capability : string) (d : Database) (now : Time) : result unit * Database :=
  if bool_decide ((id, capability) ∈ device_capabilities d) then (Ok tt, d)
  else if negb (exists_row (R := Device) id d) then (Fail (pq "23503"), d)
  else (Ok tt, set_device_capabilities ({[(id, capability)]} ∪ device_capabilities d) d).

Definition AddCapability (id : Z) (capability : string) : M unit :=
  if bool_decide (capability = "") then mfail (Sentinel ErrInvalid)
  else map_err classifyWriteError (statement (upsert_capability id capability)).

(** ** repo.go: telemetry *)
Definition telemetry_constraints (d : Database) (row : Telemetry) : option string :=
  require (bool_decide (map_Forall (fun _ r => ~ (t_DeviceID r = t_DeviceID row
      /\ t_Sequence r = t_Sequence row)) (telemetry d))) "23505".

(** [INSERT ... SELECT ... FROM devices WHERE id=$1 AND state='enabled']: the
    number of rows inserted.  The casts of the parameters come first. *)
Definition temperature_in (t : option float64) : option (option float64) :=
  match t with None => Some None | Some f => Some <$> numeric_in 8 f end.

Definition insert_telemetry (t : Telemetry) (d : Database) (now : Time) : result Z * Database :=
  match numeric_in 12 (t_PowerWatts t), temperature_in (t_TemperatureC t) with
  | Some watts, Some temperature =>
      match devices d !! t_DeviceID t with
      | Some dev =>
          if bool_decide (d_State dev = DeviceEnabled) then
            let '(r, d') := insert_row (fun id now => mkTelemetry id (t_DeviceID t) (t_Sequence t)
                watts temperature (ts_in (t_MeasuredAt t)) now) telemetry_constraints d now in
            (result_bind r (fun _ => Ok 1), d')
          else (Ok 0, d)
      | None => (Ok 0, d)
      end
  | _, _ => (Fail (pq "22003"), d)
  end.

Definition InsertTelemetry (t : Telemetry) : M unit :=
  require_one (wrap_suffix (Sentinel ErrConflict) "telemetry device is not enabled")
    (map_err classifyWriteError (statement (insert_telemetry t))).

Definition telemetry_order (a b : Telemetry) : bool :=
  (t_MeasuredAt a <? t_MeasuredAt b)
  || ((t_MeasuredAt a =? t_MeasuredAt b) && (t_Sequence a <? t_Sequence b)).

Definition TelemetryWindow `{SliceSort} (deviceID : Z) (start end_ : Time) : M (list Telemetry) :=
  statement (fun d _ =>
    (Ok (sort_Slice telemetry_order (List.filter (fun t => (t_DeviceID t =? deviceID)
       && (ts_in start <=? t_MeasuredAt t) && (t_MeasuredAt t <? ts_in end_)) (rows_by_id d))), d)).

(** stats.go *)
Definition delete_telemetry (cutoff : Time) (d : Database) (now : Time) : result Z * Database :=
  let old := filter (fun kv : Z * Telemetry => t_MeasuredAt kv.2 < ts_in cutoff) (telemetry d) in
  (Ok (Z.of_nat (size old)),
   set_telemetry (filter (fun kv => ~ t_MeasuredAt kv.2 < ts_in cutoff) (telemetry d)) d).

Definition DeleteTelemetryBefore (cutoff : Time) : M Z := statement (delete_telemetry cutoff).

(** ** repo.go and plans.go: energy plans *)
Definition insert_plan (p : EnergyPlan) : Database -> Time -> result EnergyPlan * Database :=
  insert_row (fun id now => mkEnergyPlan id (p_HouseholdID p) (p_Name p) PlanDraft (p_BudgetCents p)
                (ts_in (p_StartsAt p)) (ts_in (p_EndsAt p)) now)
    (fun d row => require (exists_row (R := Household) (p_HouseholdID row) d) "23503").

(** [INSERT INTO plan_devices SELECT $1,id,$3 FROM devices WHERE id=$2 AND
    household_id=$4 AND state='enabled'] *)
Definition insert_plan_device (planID household : Z) (pd : PlanDevice) (d : Database) (now : Time)
    : result Z * Database :=
  match numeric_in 12 (pd_TargetWatts pd) with
  | None => (Fail (pq "22003"), d)
  | Some watts =>
      match devices d !! pd_DeviceID pd with
      | Some dev =>
          if (d_HouseholdID dev =? household) && bool_decide (d_State dev = DeviceEnabled) then
            if flt watts f0 then (Fail (pq "23514"), d)
            else if bool_decide (is_Some (plan_devices d !! (planID, pd_DeviceID pd))) then (Fail (pq "23505"), d)
            else if negb (exists_row (R := EnergyPlan) planID d) then (Fail (pq "23503"), d)
            else (Ok 1, set_plan_devices (<[(planID, pd_DeviceID pd) := mkPlanDevice planID (pd_DeviceID pd) watts]>
                          (plan_devices d)) d)
          else (Ok 0, d)
      | None => (Ok 0, d)
      end
  end.

Definition not_enabled_in (what : string) (deviceID householdID : Z) : error :=
  wrap_suffix (Sentinel ErrConflict)
    (what +:+ " " +:+ Sprint deviceID +:+ " is not enabled in household " +:+ Sprint householdID).

Fixpoint insert_plan_devices (planID household : Z) (pds : list PlanDevice) : M unit :=
  match pds with
  | [] => mret tt
  | pd :: rest =>
      _ ← require_one (not_enabled_in "plan device" (pd_DeviceID pd) household)
            (map_err classifyWriteError (statement (insert_plan_device planID household pd)));
      insert_plan_devices planID household rest
  end.

Definition CreatePlan (p : EnergyPlan) (pds : list PlanDevice) : M EnergyPlan :=
  WithTx (
    out ← map_err classifyWriteError (statement (insert_plan p));
    _ ← insert_plan_devices (p_ID out) (p_HouseholdID p) pds;
    mret out).

Definition GetPlan (id : Z) : M EnergyPlan :=
  map_err classifyReadError (statement (select_row (R := EnergyPlan) id)).

Definition with_plan_state (state : PlanState) (p : EnergyPlan) : EnergyPlan :=
  mkEnergyPlan (p_ID p) (p_HouseholdID p) (p_Name p) state (p_BudgetCents p) (p_StartsAt p)
    (p_EndsAt p) (p_CreatedAt p).

(** The [NOT EXISTS] subquery of [SetPlanState]: every device linked to the plan is
    enabled and of the plan's household. *)
Definition plan_devices_ready (d : Database) (p : EnergyPlan) (id : Z) : bool :=
  forallb (fun kv : (Z * Z) * PlanDevice =>
    negb (kv.1.1 =? id) ||
    match devices d !! kv.1.2 with
    | Some dev => bool_decide (d_State dev = DeviceEnabled) && (d_HouseholdID dev =? p_HouseholdID p)
    | None => true
    end) (map_to_list (plan_devices d)).

Definition update_plan_state (id : Z) (from to : PlanState) : Database -> Time -> result Z * Database :=
  update_row id (fun d p => bool_decide (p_State p = from)
       && (negb (bool_decide (to = PlanRunning)) || plan_devices_ready d p id))
    (fun p _ => Ok (with_plan_state to p)).

Definition SetPlanState (id : Z) (from to : PlanState) : M unit :=
  require_some (Sentinel ErrConflict) (statement (update_plan_state id from to)).

Definition expire_plans (at_ : Time) : Database -> Time -> result Z * Database :=
  update_rows (fun p => bool_decide (p_State p ∈ [PlanDraft; PlanScheduled]) && (p_EndsAt p <? ts_in at_))
    (fun p _ => with_plan_state PlanCancelled p).

Definition ExpirePlans (now : Time) : M Z := statement (expire_plans now).

Definition PlanDevices (planID : Z) : M (list PlanDevice) :=
  statement (fun d _ => (Ok (stable_sort (less_by pd_DeviceID)
    (map snd (map_to_list (filter (fun kv => kv.1.1 = planID) (plan_devices d))))), d)).

(** ** repo.go and automation.go: automations and their runs *)
Definition insert_automation (a : Automation) : Database -> Time -> result Automation * Database :=
  insert_row (fun id now => mkAutomation id (a_HouseholdID a) (a_Name a) AutomationDraft
                (a_TriggerKind a) now)
    (fun d row => require (exists_row (R := Household) (a_HouseholdID row) d) "23503").

(** UNIQUE(automation_id, ordinal), then the foreign keys. *)
Definition action_constraints (d : Database) (row : AutomationAction) : option string :=
  first_violation
    (require (bool_decide (map_Forall (fun _ r => ~ (aa_AutomationID r = aa_AutomationID row
        /\ aa_Ordinal r = aa_Ordinal row)) (automation_actions d))) "23505")
    (require (exists_row (R := Automation) (aa_AutomationID row) d) "23503").

(** [INSERT INTO automation_actions SELECT $1,id,$3,$4 FROM devices WHERE id=$2
    AND household_id=$5 AND state='enabled'] *)
Definition insert_action (automationID household : Z) (action : AutomationAction)
    (d : Database) (now : Time) : result Z * Database :=
  match devices d !! aa_DeviceID action with
  | Some dev =>
      if (d_HouseholdID dev =? household) && bool_decide (d_State dev = DeviceEnabled) then
        let '(r, d') := insert_row (fun id _ => mkAction id automationID (aa_DeviceID action)
            (aa_Action action) (aa_Ordinal action)) action_constraints d now in
        (result_bind r (fun _ => Ok 1), d')
      else (Ok 0, d)
  | None => (Ok 0, d)
  end.

Fixpoint insert_actions (automationID household : Z) (actions : list AutomationAction) : M unit :=
  match actions with
  | [] => mret tt
  | action :: rest =>
      _ ← require_one (not_enabled_in "automation device" (aa_DeviceID action) household)
            (map_err classifyWriteError (statement (insert_action automationID household action)));
      insert_actions automationID household rest
  end.

Definition CreateAutomation (a : Automation) (actions : list AutomationAction) : M Automation :=
  WithTx (
    out ← map_err classifyWriteError (statement (insert_automation a));
    _ ← insert_actions (a_ID out) (a_HouseholdID a) actions;
    mret out).

Definition GetAutomation (id : Z) : M Automation :=
  map_err classifyReadError (statement (select_row (R := Automation) id)).

Definition update_automation_state (id : Z) (from to : AutomationState) : Database -> Time -> result Z * Database :=
  update_row id (fun _ a => bool_decide (a_State a = from))
    (fun a _ => Ok (mkAutomation (a_ID a) (a_HouseholdID a) (a_Name a) to (a_TriggerKind a) (a_CreatedAt a))).

Definition SetAutomationState (id : Z) (from to : AutomationState) : M unit :=
  require_one (Sentinel ErrConflict) (statement (update_automation_state id from to)).

(** [ORDER BY ordinal]: a unique key of the automation. *)
Definition actions_of (id : Z) (d : Database) : list AutomationAction :=
  stable_sort (less_by aa_Ordinal) (List.filter (fun a => aa_AutomationID a =? id) (rows_by_id d)).

Definition Actions (id : Z) : M (list AutomationAction) :=
  statement (fun d _ => (Ok (actions_of id d), d)).

(** [INSERT ... SELECT ... FROM automations WHERE id=$1 AND state='active'
    ON CONFLICT(automation_id,idempotency_key) DO UPDATE ... RETURNING]: the new
    run or the one that holds the key. *)
Definition queue_run (automationID : Z) (key : string) (d : Database) (now : Time)
    : result AutomationRun * Database :=
  match automations d !! automationID with
  | Some a =>
      if bool_decide (a_State a = AutomationActive) then
        match List.filter (fun r => (r_AutomationID r =? automationID)
                 && bool_decide (r_IdempotencyKey r = key)) (rows_by_id d) with
        | run :: _ => (Ok run, set_seqs (<["automation_runs"%string := nextval (R := AutomationRun) d + 1]> (seqs d)) d)
        | [] => insert_row (fun id _ => mkRun id automationID key RunQueued None None None)
                  (fun _ _ => None) d now
        end
      else (Fail (Sentinel ErrNoRows), d)
  | None => (Fail (Sentinel ErrNoRows), d)
  end.

(** Only [id], [automation_id], [idempotency_key] and [state] are returned. *)
Definition returned_run (r : AutomationRun) : AutomationRun :=
  mkRun (r_ID r) (r_AutomationID r) (r_IdempotencyKey r) (r_State r) None None None.

Definition QueueRun (automationID : Z) (key : string) : M AutomationRun :=
  map_err (fun e => if Is e ErrNoRows then Sentinel ErrConflict else classifyWriteError e)
    (r ← statement (queue_run automationID key); mret (returned_run r)).

Definition with_run_state (state : RunState) (text : option string) (started finished : option Time)
    (r : AutomationRun) : AutomationRun :=
  mkRun (r_ID r) (r_AutomationID r) (r_IdempotencyKey r) state text started finished.

Definition claim_run (locked : gset Z) : Database -> Time -> result AutomationRun * Database :=
  claim_row locked (fun r _ => bool_decide (r_State r = RunQueued))
    (fun r now => Ok (with_run_state RunRunning (r_ErrorText r) (Some now) (r_FinishedAt r) r)).

Definition ClaimRun (locked : gset Z) : M AutomationRun := statement (claim_run locked).

Definition is_running (r : AutomationRun) : bool := bool_decide (r_State r = RunRunning).

Definition finish_run (id : Z) (state : RunState) (cause : string) (at_ : Time)
    : Database -> Time -> result Z * Database :=
  update_row id (fun _ => is_running)
    (fun r _ => Ok (with_run_state state (Some cause) (r_StartedAt r) (Some (ts_in at_)) r)).

Definition FinishRun (id : Z) (state : RunState) (cause : string) (now : Time) : M unit :=
  require_one (Sentinel ErrConflict) (map_err classifyWriteError (statement (finish_run id state cause now))).

Definition requeue_run (id : Z) : Database -> Time -> result Z * Database :=
  update_row id (fun _ => is_running) (fun r _ => Ok (with_run_state RunQueued None None None r)).

Definition RequeueRun (id : Z) : M unit :=
  require_one (Sentinel ErrConflict) (map_err classifyWriteError (statement (requeue_run id))).

(** [started_at < $1] is not true of a NULL. *)
Definition stale (cutoff : Time) (r : AutomationRun) : bool :=
  is_running r && match r_StartedAt r with Some t => t <? ts_in cutoff | None => false end.

Definition finish_stale_runs (cutoff : Time) : Database -> Time -> result Z * Database :=
  update_rows (stale cutoff)
    (fun r now => with_run_state RunFailed (Some "worker timeout"%string) (r_StartedAt r) (Some now) r).

Definition FinishStaleRuns (cutoff : Time) : M Z := statement (finish_stale_runs cutoff).

(** ** repo.go: audit and outbox.  An empty payload is not a JSON document. *)
Definition not_json (payload : option json) : option string :=
  match payload with None => Some "22P02"%string | Some _ => None end.

Definition insert_audit (e : AuditEvent) (d : Database) (now : Time) : result AuditEvent * Database :=
  match not_json (ae_Payload e) with
  | Some c => (Fail (pq c), d)
  | None => insert_row (fun id now => mkAudit id (ae_HouseholdID e) (ae_ActorMemberID e)
              (ae_RequestID e) (ae_ObjectType e) (ae_ObjectID e) (ae_Action e) (ae_Payload e) now)
      (fun d row => first_violation
         (require (exists_row (R := Household) (ae_HouseholdID row) d) "23503")
         (match ae_ActorMemberID row with
          | Some m => require (exists_row (R := MemberRow) m d) "23503"
          | None => None
          end)) d now
  end.

Definition AddAudit (e : AuditEvent) : M unit :=
  map_err classifyWriteError (_ ← statement (insert_audit e); mret tt).

Definition insert_outbox (m : OutboxMessage) (d : Database) (now : Time) : result OutboxMessage * Database :=
  match not_json (o_Payload m) with
  | Some c => (Fail (pq c), d)
  | None => insert_row (fun id _ => mkOutbox id (o_HouseholdID m) (o_Topic m) (o_Payload m) 0
              (ts_in (o_AvailableAt m)) None None None None)
      (fun d row => require (exists_row (R := Household) (o_HouseholdID row) d) "23503") d now
  end.

Definition AddOutbox (m : OutboxMessage) : M unit :=
  map_err classifyWriteError (_ ← statement (insert_outbox m); mret tt).

(** [WHERE delivered_at IS NULL AND failed_at IS NULL] *)
Definition pending (m : OutboxMessage) : bool :=
  bool_decide (o_DeliveredAt m = None) && bool_decide (o_FailedAt m = None).

Definition claimable (m : OutboxMessage) (now : Time) : bool :=
  pending m && (o_AvailableAt m <=? now)
  && match o_LockedAt m with None => true | Some t => t <? now - 5 * Minute end.

(** [attempts=attempts+1] overflows an INT at 2^31. *)
Definition claim_outbox (m : OutboxMessage) (now : Time) : result OutboxMessage :=
  if o_Attempts m =? 2 ^ 31 - 1 then Fail (pq "22003")
  else Ok (mkOutbox (o_ID m) (o_HouseholdID m) (o_Topic m) (o_Payload m) (o_Attempts m + 1)
             (o_AvailableAt m) (Some now) (o_DeliveredAt m) (o_FailedAt m) (o_FailureReason m)).

Definition claim_message (locked : gset Z) : Database -> Time -> result OutboxMessage * Database :=
  claim_row locked claimable claim_outbox.

Definition ClaimOutbox (locked : gset Z) : M OutboxMessage := statement (claim_message locked).

Definition deliver (m : OutboxMessage) (now : Time) : OutboxMessage :=
  mkOutbox (o_ID m) (o_HouseholdID m) (o_Topic m) (o_Payload m) (o_Attempts m) (o_AvailableAt m)
    None (Some now) (o_FailedAt m) (o_FailureReason m).
Definition release (next : Time) (m : OutboxMessage) : OutboxMessage :=
  mkOutbox (o_ID m) (o_HouseholdID m) (o_Topic m) (o_Payload m) (o_Attempts m) (ts_in next)
    None (o_DeliveredAt m) (o_FailedAt m) (o_FailureReason m).
Definition fail_message (reason : string) (m : OutboxMessage) (now : Time) : OutboxMessage :=
  mkOutbox (o_ID m) (o_HouseholdID m) (o_Topic m) (o_Payload m) (o_Attempts m) (o_AvailableAt m)
    None (o_DeliveredAt m) (Some now) (Some reason).

Definition mark_outbox (id : Z) (delivered : bool) (next : Time) : Database -> Time -> result Z * Database :=
  if delivered then update_row id (fun _ => pending) (fun m now => Ok (deliver m now))
  else update_row id (fun _ => pending) (fun m _ => Ok (release next m)).

Definition MarkOutbox (id : Z) (delivered : bool) (next : Time) : M unit :=
  require_one (Sentinel ErrConflict) (statement (mark_outbox id delivered next)).

(** outbox.go *)
Definition fail_outbox (id : Z) (reason : string) : Database -> Time -> result Z * Database :=
  update_row id (fun _ => pending) (fun m now => Ok (fail_message reason m now)).

Definition MarkOutboxFailed (id : Z) (reason : string) : M unit :=
  require_one (Sentinel ErrConflict) (statement (fail_outbox id reason)).

(** The [||] operator of [jsonb]. *)
Definition json_concat (a b : json) : json :=
  match a, b with
  | JObject f, JObject g => JObject (List.filter (fun kv => negb (bool_decide (kv.1 ∈ g.*1))) f ++ g)
  | JArray l, JArray m => JArray (l ++ m)
  | JArray l, x => JArray (l ++ [x])
  | x, JArray m => JArray (x :: m)
  | x, y => JArray [x; y]
  end.

Definition retry_payload (attempt : Z) (err : option error) : json :=
  JObject [("attempt"%string, JInt attempt); ("error"%string, JString (errorString err))].

Definition reschedule (attempt : Z) (next : Time) (err : option error) (m : OutboxMessage) : OutboxMessage :=
  mkOutbox (o_ID m) (o_HouseholdID m) (o_Topic m)
    ((fun p => json_concat p (retry_payload attempt err)) <$> o_Payload m)
    attempt (ts_in next) None (o_DeliveredAt m) (o_FailedAt m) (o_FailureReason m).

Definition reschedule_outbox (id attempt : Z) (next : Time) (err : option error)
    : Database -> Time -> result Z * Database :=
  update_row id (fun _ => pending) (fun m _ => Ok (reschedule attempt next err m)).

Definition RescheduleOutbox (id attempt : Z) (next : Time) (err : option error) : M unit :=
  require_one (Sentinel ErrConflict) (statement (reschedule_outbox id attempt next err)).

Record OutboxFilter := mkOutboxFilter { of_Topic : string; of_Before : Time; of_Limit : Z }.

(** [ORDER BY available_at,id]. *)
Definition outbox_order (a b : OutboxMessage) : bool :=
  (o_AvailableAt a <? o_AvailableAt b)
  || ((o_AvailableAt a =? o_AvailableAt b) && (o_ID a <? o_ID b)).

(** The optional conditions; [Sql] relates them to the text of the query. *)
Definition outbox_matches (f : OutboxFilter) (m : OutboxMessage) : bool :=
  (bool_decide (of_Topic f = "") || bool_decide (o_Topic m = of_Topic f))
  && (IsZero (of_Before f) || (o_AvailableAt m <=? ts_in (of_Before f))).
Definition outbox_limit (f : OutboxFilter) : Z :=
  if (of_Limit f <=? 0) || (500 <? of_Limit f) then 100 else of_Limit f.

Definition ListOutbox (f : OutboxFilter) : M (list OutboxMessage) :=
  statement (fun d _ =>
    (Ok (take (Z.to_nat (outbox_limit f))
           (stable_sort outbox_order (List.filter (fun m => pending m && outbox_matches f m) (rows_by_id d)))), d)).

(** queries.go *)
Definition ReplayableOutbox (before : Time) (limit : Z) : M (list OutboxMessage) :=
  if IsZero before || (limit <=? 0) || (500 <? limit) then mfail (Sentinel ErrInvalid)
  else statement (fun d _ =>
    (Ok (take (Z.to_nat limit) (stable_sort outbox_order
       (List.filter (fun m => pending m && (o_AvailableAt m <=? ts_in before)) (rows_by_id d)))), d)).

(** ** automation.go: [ExecuteAutomationRun] *)
Definition lock_run (runID : Z) (d : Database) (now : Time) : result (Z * Z) * Database :=
  match automation_runs d !! runID with
  | Some r =>
      if is_running r then
        match automations d !! r_AutomationID r with
        | Some a => (Ok (r_AutomationID r, a_HouseholdID a), d)
        | None => (Fail (Sentinel ErrNoRows), d)
        end
      else (Fail (Sentinel ErrNoRows), d)
  | None => (Fail (Sentinel ErrNoRows), d)
  end.

Record LoadedAction := mkLoaded {
  la_deviceID : Z; la_action : string; la_ordinal : Z; la_household : Z; la_state : DeviceState }.

(** [automation_actions JOIN devices ... ORDER BY actions.ordinal] *)
Definition loaded_actions (automationID : Z) (d : Database) : list LoadedAction :=
  omap (fun a => (fun dev => mkLoaded (aa_DeviceID a) (aa_Action a) (aa_Ordinal a)
                     (d_HouseholdID dev) (d_State dev)) <$> devices d !! aa_DeviceID a)
    (actions_of automationID d).

Definition load_actions (automationID : Z) (d : Database) (now : Time) : result (list LoadedAction) * Database :=
  (Ok (loaded_actions automationID d), d).

Definition command_payload (automationID runID : Z) (item : LoadedAction) : json :=
  JObject [("automation_id"%string, JInt automationID); ("run_id"%string, JInt runID);
           ("device_id"%string, JInt (la_deviceID item)); ("action"%string, JString (la_action item));
           ("ordinal"%string, JInt (la_ordinal item))].

Definition command_message (householdID automationID runID : Z) (finishedAt : Time) (item : LoadedAction)
    : OutboxMessage :=
  mkOutbox 0 householdID "device.command" (Some (command_payload automationID runID item)) 0 finishedAt
    None None None None.

Fixpoint enqueue_actions (householdID automationID runID : Z) (finishedAt : Time)
    (items : list LoadedAction) : M unit :=
  match items with
  | [] => mret tt
  | item :: rest =>
      if negb (la_household item =? householdID) || negb (bool_decide (la_state item = DeviceEnabled))
      then mfail (not_enabled_in "automation device" (la_deviceID item) householdID)
      else
        _ ← map_err (wrap_prefix "enqueue automation action")
              (statement (insert_outbox (command_message householdID automationID runID finishedAt item)));
        enqueue_actions householdID automationID runID finishedAt rest
  end.

Definition dispatched_audit (householdID runID : Z) (count : nat) : AuditEvent :=
  mkAudit 0 householdID None ("automation-run-" +:+ Sprint runID) "automation_run" (Sprint runID)
    "dispatched" (Some (JObject [("action_count"%string, JInt (Z.of_nat count))])) 0.

Definition finish_succeeded (finishedAt : Time) (r : AutomationRun) : AutomationRun :=
  with_run_state RunSucceeded None (r_StartedAt r) (Some (ts_in finishedAt)) r.

Definition complete_run (runID : Z) (finishedAt : Time) : Database -> Time -> result Z * Database :=
  update_row runID (fun _ => is_running) (fun r _ => Ok (finish_succeeded finishedAt r)).

Definition execute_run (runID : Z) (finishedAt : Time) : M unit :=
  '(automationID, householdID) ← map_err (wrap_prefix "lock automation run") (statement (lock_run runID));
  actions ← map_err (wrap_prefix "load automation actions") (statement (load_actions automationID));
  _ ← guard_fail (bool_decide (actions = [])) (wrap_suffix (Sentinel ErrConflict) "automation has no actions");
  _ ← enqueue_actions householdID automationID runID finishedAt actions;
  _ ← map_err (wrap_prefix "audit automation run")
        (statement (insert_audit (dispatched_audit householdID runID (length actions))));
  require_one (Sentinel ErrConflict)
    (map_err (wrap_prefix "finish automation run")
       (statement (complete_run runID finishedAt))).

Definition ExecuteAutomationRun (runID : Z) (finishedAt : Time) : M unit :=
  if (runID <=? 0) || IsZero finishedAt then mfail (Sentinel ErrInvalid)
  else WithTx (execute_run runID finishedAt).

(** ** alerts.go *)
Definition insert_alert (a : Alert) (d : Database) (now : Time) : result Alert * Database :=
  insert_row (fun id now => mkAlert id (al_HouseholdID a) (al_DeviceID a) (al_Severity a) (al_Code a)
                "open" (Some (default (JObject []) (al_Details a))) now None)
    (fun d row => first_violation
       (require (exists_row (R := Household) (al_HouseholdID row) d) "23503")
       (match al_DeviceID row with
        | Some dev => require (exists_row (R := Device) dev d) "23503"
        | None => None
        end)) d now.

Definition CreateAlert (a : Alert) : M Alert :=
  map_err classifyWriteError (statement (insert_alert a)).

Definition GetAlert (id : Z) : M Alert :=
  map_err classifyReadError (statement (select_row (R := Alert) id)).

Definition with_alert_state (to : string) (at_ : Time) (a : Alert) : Alert :=
  mkAlert (al_ID a) (al_HouseholdID a) (al_DeviceID a) (al_Severity a) (al_Code a) to (al_Details a)
    (al_CreatedAt a) (if bool_decide (to = "resolved") then Some (ts_in at_) else al_ResolvedAt a).

Definition update_alert_state (id : Z) (from to : string) (at_ : Time) : Database -> Time -> result Z * Database :=
  update_row id (fun _ a => bool_decide (al_State a = from)) (fun a _ => Ok (with_alert_state to at_ a)).

Definition TransitionAlert (id : Z) (from to : string) (now : Time) : M unit :=
  require_some (Sentinel ErrConflict) (statement (update_alert_state id from to now)).

(** ** transaction.go *)
Record TransactionalDeviceUpdate := mkDeviceUpdate {
  u_DeviceID : Z; u_From : DeviceState; u_To : DeviceState; u_Version : Z;
  u_Audit : AuditEvent; u_Outbox : OutboxMessage }.

Definition TransitionWithAudit (u : TransactionalDeviceUpdate) : M unit :=
  WithTx (
    _ ← require_one (Sentinel ErrConflict) (map_err (wrap_prefix "update device state")
          (statement (update_device_state (u_DeviceID u) (u_From u) (u_To u) (u_Version u))));
    _ ← map_err (wrap_prefix "write audit") (AddAudit (u_Audit u));
    if bool_decide (o_Topic (u_Outbox u) = "") then mret tt
    else map_err (wrap_prefix "write outbox") (AddOutbox (u_Outbox u))).

Definition AuditAndMessage (a : AuditEvent) (m : OutboxMessage) : M unit :=
  WithTx (
    _ ← AddAudit a;
    if bool_decide (o_Topic m = "") then mret tt else AddOutbox m).

Definition RollbackProof (household : Z) : M unit :=
  WithTx (_ ← CreateHousehold "rollback-proof" "UTC" 100; mfail (Sentinel ErrConflict)).

(** queries.go *)
Definition AppendAuditAndOutbox (event : AuditEvent) (outbox : OutboxMessage) : M unit :=
  if (ae_HouseholdID event <=? 0) || bool_decide (ae_RequestID event = "")
     || bool_decide (ae_ObjectID event = "") || bool_decide (ae_Action event = "")
  then mfail (Sentinel ErrInvalid)
  else WithTx (
    _ ← map_err (wrap_prefix "audit") (AddAudit event);
    if bool_decide (o_Topic outbox = "") then mret tt
    else map_err (wrap_prefix "outbox") (AddOutbox outbox)).

(** ** scope.go *)
Definition resourceHousehold {R} `{Table R} (household : R -> Z) (id : Z) : M Z :=
  if id <=? 0 then mfail (Sentinel ErrInvalid)
  else map_err (fun e => if Is e ErrNoRows then Sentinel ErrNotFound else e)
         (row ← statement (select_row (R := R) id); mret (household row)).

Definition DeviceHousehold (id : Z) : M Z := resourceHousehold d_HouseholdID id.
Definition PlanHousehold (id : Z) : M Z := resourceHousehold p_HouseholdID id.
Definition AutomationHousehold (id : Z) : M Z := resourceHousehold a_HouseholdID id.
End repo.
