(* ===== verification/Txn.v ===== *)
(** * Transactions and the contexts that carry them: db.go, repo/transaction.go, health.go

    The other files run [WithTx] on one database with one transaction at a time, which
    is how the repository uses it.  Here the server keeps any number of open
    transactions and a statement goes where the context of its caller sends it:
    [Executor] looks for a transaction under one key, [ExecInTransaction] under another. *)
From S2P Require Import Prelude Errors GoStd Model Store Repo.

(** What the server decides: whether transaction [t] may begin, and what becomes of its
    work at the commit, from the database it started on, its own version of it, and the
    one committed meanwhile ([Fail]: a serialization failure). *)
Class Serializable := {
  begins : nat -> option error;
  merge : nat -> Database -> Database -> Database -> result Database;
  (* its errors: a statement after a failed one, a write in a read-only transaction,
     the commit of a failed transaction *)
  failed_transaction : error;
  read_only_transaction : error;
  could_not_complete : error
}.

(** An open transaction; after an error the server refuses its further statements. *)
Record Tx := mkTx { tx_base : Database; tx_view : Database; tx_readonly : bool; tx_aborted : bool }.
Record Server := mkServer { sv_committed : Database; sv_open : gmap nat Tx; sv_next : nat }.
(** The values of a context under [txKey] and [serialTxKey]. *)
Record Keys := mkKeys { key_tx : option nat; key_serial : option nat }.

Definition statement_of (A : Type) : Type := Database -> result A * Database.
Definition T (A : Type) : Type := Keys -> Server -> result A * Server.

(** [sql.ErrTxDone]. *)
Definition ErrTxDone : error := New "sql: transaction has already been committed or rolled back".

Section txn.
Context `{Serializable}.

(** A statement on the pool commits by itself; in a transaction it works on that
    transaction's version.  [writes] tells whether it is a writing statement. *)
Definition statement_on {A} (conn : option nat) (writes : bool) (f : statement_of A) (s : Server) : result A * Server :=
  match conn with
  | None =>
      let '(r, d) := f (sv_committed s) in
      (r, match r with Ok _ => mkServer d (sv_open s) (sv_next s) | Fail _ => s end)
  | Some t =>
      match sv_open s !! t with
      | None => (Fail ErrTxDone, s)
      | Some tx =>
          let set tx := mkServer (sv_committed s) (<[t := tx]> (sv_open s)) (sv_next s) in
          let abort := mkTx (tx_base tx) (tx_view tx) (tx_readonly tx) true in
          if tx_aborted tx then (Fail failed_transaction, s)
          else if tx_readonly tx && writes then (Fail read_only_transaction, set abort)
          else match f (tx_view tx) with
               | (Ok a, d) => (Ok a, set (mkTx (tx_base tx) d (tx_readonly tx) false))
               | (Fail e, _) => (Fail e, set abort)
               end
      end
  end.

(** [db.Executor]: where the statements of the repository's methods go. *)
Definition Executor (k : Keys) : option nat := key_tx k.
Definition repository {A} (writes : bool) (f : statement_of A) : T A := fun k => statement_on (Executor k) writes f.
(** [Repository.ExecInTransaction]. *)
Definition ExecInTransaction {A} (f : statement_of A) : T A := fun k => statement_on (key_serial k) true f.

Definition begin (readonly : bool) (s : Server) : result nat * Server :=
  let t := sv_next s in
  match begins t with
  | Some e => (Fail e, mkServer (sv_committed s) (sv_open s) (S t))
  | None => let tx := mkTx (sv_committed s) (sv_committed s) readonly false in
            (Ok t, mkServer (sv_committed s) (<[t := tx]> (sv_open s)) (S t))
  end.
Definition close_tx (t : nat) (s : Server) : Server :=
  mkServer (sv_committed s) (delete t (sv_open s)) (sv_next s).
Definition commit (t : nat) (s : Server) : option error * Server :=
  match sv_open s !! t with
  | None => (Some ErrTxDone, s)
  | Some tx =>
      if tx_aborted tx then (Some could_not_complete, close_tx t s)
      else match merge t (tx_base tx) (tx_view tx) (sv_committed s) with
           | Ok d => (None, mkServer d (delete t (sv_open s)) (sv_next s))
           | Fail e => (Some e, close_tx t s)
           end
  end.

(** What the three callers share: begin, the callback, and its commit or the deferred
    rollback. *)
Definition in_transaction (readonly : bool) (begun committed : error -> error) (fn : nat -> T unit) : T unit := fun k s =>
  match begin readonly s with
  | (Fail e, s) => (Fail (begun e), s)
  | (Ok t, s) =>
      match fn t k s with
      | (Fail e, s) => (Fail e, close_tx t s)
      | (Ok _, s) => let '(e, s) := commit t s in
                     (match e with Some e => Fail (committed e) | None => Ok tt end, s)
      end
  end.

(** [DB.WithTx], [Repository.WithSerializable] and [DB.WithReadOnlyTx]: the first two
    put the transaction in the context of the callback, each under its own key; the
    last one hands it over. *)
Definition DB_WithTx (fn : T unit) : T unit :=
  in_transaction false (wrap_prefix "begin transaction") (wrap_prefix "commit transaction")
    (fun t k => fn (mkKeys (Some t) (key_serial k))).
Definition WithSerializable (fn : T unit) : T unit :=
  in_transaction false (fun e => e) (fun e => e) (fun t k => fn (mkKeys (key_tx k) (Some t))).
Definition WithReadOnlyTx (fn : nat -> T unit) : T unit := in_transaction true (fun e => e) (fun e => e) fn.

(** ** Callbacks *)
Definition tret {A} (a : A) : T A := fun _ s => (Ok a, s).
Definition tfail {A} (e : error) : T A := fun _ s => (Fail e, s).
Definition tbind {A B} (m : T A) (f : A -> T B) : T B := fun k s =>
  match m k s with (Ok a, s) => f a k s | (Fail e, s) => (Fail e, s) end.

(** A callback that touches no committed row when its context satisfies [P]. *)
Definition confined {A} (P : Keys -> Prop) (m : T A) : Prop :=
  forall k s, P k -> sv_committed (m k s).2 = sv_committed s.

Lemma confined_ret {A} P (a : A) : confined P (tret a).
Proof. done. Qed.
Lemma confined_fail {A} P e : confined P (tfail (A := A) e).
Proof. done. Qed.
Lemma confined_bind {A B} P (m : T A) (f : A -> T B) :
  confined P m -> (forall a, confined P (f a)) -> confined P (tbind m f).
Proof.
  intros Hm Hf k s Hk. unfold tbind. specialize (Hm k s Hk). destruct (m k s) as [[a|e] s1]; simpl in *; [|done].
  by rewrite Hf, Hm.
Qed.
Lemma statement_on_tx {A} t writes (f : statement_of A) s :
  sv_committed (statement_on (Some t) writes f s).2 = sv_committed s.
Proof. simpl. destruct (sv_open s !! t) as [tx|]; [|done]. destruct (tx_aborted tx), (tx_readonly tx && writes); try done.
  by destruct (f (tx_view tx)) as [[] ?]. Qed.
(** Methods of the repository are confined where [WithTx] has put a transaction, and
    [ExecInTransaction] where [WithSerializable] has. *)
Lemma confined_repository {A} writes (f : statement_of A) : confined (fun k => key_tx k <> None) (repository writes f).
Proof. intros k s Hk. unfold repository, Executor. destruct (key_tx k); [apply statement_on_tx|done]. Qed.
Lemma confined_ExecInTransaction {A} (f : statement_of A) :
  confined (fun k => key_serial k <> None) (ExecInTransaction f).
Proof. intros k s Hk. unfold ExecInTransaction. destruct (key_serial k); [apply statement_on_tx|done]. Qed.

Lemma commit_spec t s : let '(e, s') := commit t s in
  match e with
  | Some _ => sv_committed s' = sv_committed s
  | None => exists tx, sv_open s !! t = Some tx /\ tx_aborted tx = false /\
      merge t (tx_base tx) (tx_view tx) (sv_committed s) = Ok (sv_committed s')
  end.
Proof.
  unfold commit. destruct (sv_open s !! t) as [tx|]; [|done]. destruct (tx_aborted tx) eqn:Ha; [done|].
  destruct (merge _ _ _ _) as [d|e] eqn:E; [|done]. eauto.
Qed.

(** A transaction around a confined callback is all or nothing. *)
Lemma in_transaction_atomic readonly b c fn k s :
  (forall t, sv_committed (fn t k (begin readonly s).2).2 = sv_committed s) ->
  let '(r, s') := in_transaction readonly b c fn k s in
  match r with
  | Fail _ => sv_committed s' = sv_committed s
  | Ok _ => exists tx s1, sv_open s1 !! sv_next s = Some tx /\ tx_aborted tx = false /\
      merge (sv_next s) (tx_base tx) (tx_view tx) (sv_committed s) = Ok (sv_committed s')
  end.
Proof.
  intros Hfn. unfold in_transaction, begin in *. destruct (begins _); [done|]. cbn [snd] in *.
  specialize (Hfn (sv_next s)). destruct (fn _ _ _) as [[[]|e] s1]; simpl in *; [|done].
  pose proof (commit_spec (sv_next s) s1) as Hc. destruct (commit _ _) as [[e|] s2]; [by rewrite Hc|].
  destruct Hc as (tx & Hs & Ha & Hm). exists tx, s1. by rewrite <- Hfn.
Qed.

(** ** Properties *)


(** [WithSerializable] does not cover the repository: a method called in its
    callback runs in no transaction, and what it wrote stays when the callback fails;
    only [ExecInTransaction], which [WithTx] in turn does not cover, is rolled back. *)
Theorem serializable_misses_repository {A} (f : statement_of A) a d e s :
  begins (sv_next s) = None -> f (sv_committed s) = (Ok a, d) ->
  let outside := mkKeys None None in
  let then_fail (m : T A) : T unit := tbind m (fun _ => tfail e) in
  sv_committed (WithSerializable (then_fail (repository true f)) outside s).2 = d /\
  sv_committed (WithSerializable (then_fail (ExecInTransaction f)) outside s).2 = sv_committed s /\
  sv_committed (DB_WithTx (then_fail (repository true f)) outside s).2 = sv_committed s /\
  sv_committed (DB_WithTx (then_fail (ExecInTransaction f)) outside s).2 = d.
Proof.
  intros Hb Hf outside then_fail. unfold WithSerializable, DB_WithTx, in_transaction, begin. rewrite Hb.
  unfold then_fail, tbind, repository, ExecInTransaction, Executor, statement_on. simpl.
  rewrite !lookup_insert_eq. simpl. rewrite Hf. done.
Qed.

(** A read-only transaction changes nothing. *)
Lemma read_only_writes_nothing {A} (f : statement_of A) s :
  begins (sv_next s) = None ->
  WithReadOnlyTx (fun t _ => fun s => match statement_on (Some t) true f s with (Ok _, s) => (Ok tt, s) | (Fail e, s) => (Fail e, s) end)
    (mkKeys None None) s = (Fail read_only_transaction, mkServer (sv_committed s) (delete (sv_next s) (sv_open s)) (S (sv_next s))).
Proof.
  intros Hb. unfold WithReadOnlyTx, in_transaction, begin. rewrite Hb. simpl. rewrite lookup_insert_eq. simpl.
  unfold close_tx. simpl. by rewrite insert_insert_eq, delete_insert_eq.
Qed.
End txn.

(** ** Witnesses: a household is inserted and given up *)
#[local] Existing Instance exact_postgres.
#[local] Instance lone_client : Serializable :=
  {| begins _ := None; merge _ _ view _ := Ok view; failed_transaction := New "25P02";
     read_only_transaction := New "25006"; could_not_complete := New "failed" |}.
Definition new_household : statement_of Household := fun d => insert_household "home" "UTC" 500 d 7.
Definition idle : Server := mkServer empty_database ∅ 0.


Lemma serializable_misses_repository_witness :
  let fn := tbind (repository true new_household) (fun _ => tfail (New "given up")) in
  h_Name <$> households (sv_committed (WithSerializable fn (mkKeys None None) idle).2) !! 1 = Some "home"%string.
Proof.
  intros fn. destruct (new_household empty_database) as [[h|e] d] eqn:E; [|by vm_compute in E].
  destruct (@serializable_misses_repository lone_client _ new_household h d (New "given up") idle eq_refl E) as (H & _).
  unfold fn. rewrite H. vm_compute in E. injection E as <- <-. reflexivity.
Defined.
