(* ===== verification/Frame.v ===== *)
(** * How rows evolve: frame and update lemmas for the two-state relations

    [evolve Init Q] says of a table that no row disappears, that a row only
    changes along [Q], and that a new row started as [Init] allows.  Every
    statement of the repository either leaves the table alone or is an insert, an
    update or a claim on it; the lemmas below discharge each case. *)
From S2P Require Import Prelude Errors GoStd Model Store Repo.

Create HintDb sql.
#[export] Hint Unfold insert_row select_row update_row update_rows claim_row select_where
  insert_household insert_member insert_session select_session revoke_session delete_sessions
  insert_device insert_capability upsert_capability update_device_state insert_telemetry
  insert_plan insert_plan_device insert_automation insert_action queue_run insert_audit
  insert_outbox lock_run load_actions insert_alert update_member_active touch_device delete_telemetry
  update_plan_state expire_plans update_automation_state claim_run finish_run requeue_run finish_stale_runs
  complete_run claim_message mark_outbox fail_outbox reschedule_outbox update_alert_state : sql.

(** Closes the goals saying that a statement leaves a table alone. *)
Ltac frame := intros; autounfold with sql; repeat case_match; simplify_eq/=; reflexivity.

(** ** Reading tables *)
Lemma rows_by_id_elem {R} `{Table R} d (r : R) : r ∈ rows_by_id d <-> exists id, rows d !! id = Some r.
Proof.
  unfold rows_by_id. rewrite list_elem_of_In, in_map_iff. split.
  - intros ([id x] & <- & Hin). rewrite <-list_elem_of_In, stable_sort_perm, elem_of_map_to_list in Hin.
    by exists id.
  - intros [id Hr]. exists (id, r). split; [done|].
    by rewrite <-list_elem_of_In, stable_sort_perm, elem_of_map_to_list.
Qed.

Lemma filter_nil {A} (P : A -> bool) l : List.filter P l = [] <-> forall x, x ∈ l -> P x = false.
Proof.
  split.
  - intros E x Hx. destruct (P x) eqn:HP; [|done].
    assert (x ∈ List.filter P l) as Hin by (apply list_elem_of_In, filter_In; by rewrite <-list_elem_of_In).
    rewrite E in Hin. by apply elem_of_nil in Hin.
  - induction l as [|x l IH]; intros H; simpl; [done|].
    rewrite (H x) by left. apply IH. intros y Hy. apply H. by right.
Qed.

Section evolve.
Context {R : Type} `{Table R} (Init : Z -> R -> Prop) (Q : R -> R -> Prop) `{!PreOrder Q}.

Record evolve (d d' : Database) : Prop := {
  evolve_old id r : rows d !! id = Some r -> exists r', rows d' !! id = Some r' /\ Q r r';
  evolve_new id r' : rows d' !! id = Some r' -> rows d !! id = None -> exists r, Init id r /\ Q r r'
}.

Lemma evolve_same d d' : rows d' = rows d -> evolve d d'.
Proof.
  intros E. split; rewrite E.
  - intros id r Hr. by exists r.
  - intros id r' Hr Hn. congruence.
Qed.

#[export] Instance evolve_TwoState : TwoState evolve.
Proof.
  apply two_state_any; [split|].
  - intros d. by apply evolve_same.
  - intros d1 d2 d3 [O1 N1] [O2 N2]. split.
    + intros id r (r2 & Hr2 & Q12)%O1. destruct (O2 _ _ Hr2) as (r3 & Hr3 & Q23).
      exists r3. split; [done | by transitivity r2].
    + intros id r3 Hr3 Hn. destruct (rows d2 !! id) as [r2|] eqn:Hr2.
      * destruct (N1 _ _ Hr2 Hn) as (r & ? & ?). destruct (O2 _ _ Hr2) as (r3' & ? & ?).
        simplify_eq. exists r. split; [done | by transitivity r2].
      * by apply N2.
  - intros d q. apply evolve_same, rows_seqs.
Qed.

Lemma evolve_update d id r r' :
  rows d !! id = Some r -> Q r r' -> evolve d (set_rows (<[id := r']> (rows d)) d).
Proof.
  intros Hr HQ. split; rewrite rows_set.
  - intros i ri Hi. destruct (decide (id = i)) as [->|?].
    + exists r'. rewrite lookup_insert_eq. naive_solver.
    + exists ri. by rewrite lookup_insert_ne.
  - intros i ri Hi Hn. destruct (decide (id = i)) as [->|?]; [congruence|].
    rewrite lookup_insert_ne in Hi by done. congruence.
Qed.

Lemma insert_row_evolve `{Postgres} mk constraints :
  (forall id now, Init id (mk id now)) ->
  forall d now, evolve d (insert_row mk constraints d now).2.
Proof.
  intros HI d now. unfold insert_row.
  repeat case_match; simpl; try (apply evolve_same, rows_seqs).
  case_bool_decide as Hn; [done|].
  assert (rows d !! nextval d = None) as Hnone by (destruct (rows d !! nextval d); [|done]; by destruct Hn).
  split; rewrite rows_set.
  - intros i ri Hi. exists ri. rewrite lookup_insert_ne by congruence. done.
  - intros i ri Hi Hni. destruct (decide (nextval d = i)) as [<-|?].
    + rewrite lookup_insert_eq in Hi. simplify_eq. eexists; split; [apply HI | done].
    + rewrite lookup_insert_ne in Hi by done. congruence.
Qed.

Lemma update_row_evolve `{Postgres} id cond upd :
  (forall d r r' now, cond d r = true -> upd r now = Ok r' -> Q r r') ->
  forall d now, evolve d (update_row id cond upd d now).2.
Proof.
  intros HQ d now. unfold update_row. repeat case_match; simpl; try done.
  eapply evolve_update; eauto.
Qed.

Lemma update_rows_evolve `{Postgres} cond upd :
  (forall r now, cond r = true -> Q r (upd r now)) ->
  forall d now, evolve d (update_rows cond upd d now).2.
Proof.
  intros HQ d now. unfold update_rows. case_bool_decide; simpl; [|done].
  split; rewrite rows_set.
  - intros id r Hr. rewrite lookup_fmap, Hr; simpl. eexists; split; [done|].
    destruct (cond r) eqn:?; [by apply HQ | done].
  - intros id r'. rewrite lookup_fmap. by destruct (rows d !! id).
Qed.

Lemma candidate_Some locked cond d id r :
  candidate locked cond d = Some (id, r) ->
  rows d !! id = Some r /\ cond r = true /\ id ∉ locked.
Proof.
  unfold candidate. intros Hh.
  set (l := stable_sort _ _) in Hh.
  assert ((id, r) ∈ l) as Hin by (destruct l; simplify_eq/=; left).
  unfold l in Hin. rewrite stable_sort_perm in Hin.
  apply elem_of_map_to_list, map_lookup_filter_Some in Hin. naive_solver.
Qed.

(** The row a claim takes is the first one, and it takes none only when all are held. *)
Lemma candidate_spec locked cond d :
  match candidate locked cond d with
  | Some (id, r) => rows d !! id = Some r /\ cond r = true /\ ~ (id ∈ locked) /\
      forall j x, rows d !! j = Some x -> cond x = true -> ~ (j ∈ locked) -> id <= j
  | None => forall j x, rows d !! j = Some x -> cond x = true -> j ∈ locked
  end.
Proof.
  assert (forall id r, (id, r) ∈ map_to_list (filter (fun kv : Z * R => cond kv.2 = true /\ (kv.1 ∉ locked)) (rows d)) <->
            rows d !! id = Some r /\ cond r = true /\ ~ (id ∈ locked)) as Hin
    by (intros id r; by rewrite elem_of_map_to_list, map_lookup_filter_Some).
  unfold candidate. set (l := map_to_list _) in *.
  pose proof (stable_sort_sorted (less_by fst) l) as Hs. pose proof (stable_sort_perm (less_by fst) l) as Hp.
  destruct (stable_sort (less_by fst) l) as [|[id r] l'] eqn:E; simpl.
  - intros j x Hx Hc. destruct (decide (j ∈ locked)) as [|Hl]; [done|]. exfalso.
    specialize (proj2 (Hin j x) (conj Hx (conj Hc Hl))). rewrite <-Hp. apply not_elem_of_nil.
  - assert ((id, r) ∈ l) as Hmem by (rewrite <-Hp; by left).
    apply Hin in Hmem as (Hr & Hc & Hl). split_and!; try done.
    intros j x Hx Hcx Hlx. specialize (proj2 (Hin j x) (conj Hx (conj Hcx Hlx))).
    rewrite <-Hp. intros [[= -> ->]|Hj]%elem_of_cons; [lia|].
    apply StronglySorted_inv in Hs as [_ Hs]. rewrite Forall_forall in Hs. specialize (Hs _ Hj).
    unfold not_after, less_by in Hs. simpl in Hs. by bsimp.
Qed.

Lemma claim_row_evolve `{Postgres} locked cond upd :
  (forall r r' now, cond r now = true -> upd r now = Ok r' -> Q r r') ->
  forall d now, evolve d (claim_row locked cond upd d now).2.
Proof.
  intros HQ d now. unfold claim_row.
  destruct (candidate _ _ d) as [[id r]|] eqn:Hc; simpl; [|done].
  apply candidate_Some in Hc as (Hr & Hcond & _).
  repeat case_match; simpl; try done. eapply evolve_update; eauto.
Qed.

Lemma guarantees_frame {A} (f : Database -> Time -> result A * Database) :
  (forall d now, rows (f d now).2 = rows d) -> guarantees evolve (statement f).
Proof. intros Hf. apply guarantees_statement; [apply _|]. intros. by apply evolve_same. Qed.
End evolve.

(** The statements of each relation are solved by the lemma of their shape. *)
#[export] Hint Extern 2 (guarantees (evolve _ _) (statement (insert_row _ _))) =>
  g_statement; apply insert_row_evolve; [apply _|] : repo.
#[export] Hint Extern 5 (guarantees (evolve _ _) (statement _)) =>
  apply guarantees_frame; [apply _|frame] : repo.

(** ** Invariants of one table, as two-state relations *)
Section keeps.
Context {R : Type} `{Table R} (I : gmap Z R -> Prop).

Definition keeps (d d' : Database) : Prop := I (rows d) -> I (rows d').

#[export] Instance keeps_TwoState : TwoState keeps.
Proof.
  apply two_state_any; [split|].
  - intros d. unfold keeps. done.
  - unfold keeps. intros d1 d2 d3. auto.
  - intros d q. unfold keeps. by rewrite rows_seqs.
Qed.

Lemma guarantees_keeps_frame {A} (f : Database -> Time -> result A * Database) :
  (forall d now, rows (f d now).2 = rows d) -> guarantees keeps (statement f).
Proof. intros Hf. apply guarantees_statement; [apply _|]. intros d now. unfold keeps. by rewrite Hf. Qed.
End keeps.

Definition both (R1 R2 : Database -> Database -> Prop) (d d' : Database) : Prop := R1 d d' /\ R2 d d'.

#[export] Instance both_TwoState R1 R2 : TwoState R1 -> TwoState R2 -> TwoState (both R1 R2).
Proof.
  intros [[? ?] Hq1 Hu1] [[? ?] Hq2 Hu2]. unfold both. split; [split| |].
  - intros d. by split.
  - intros d1 d2 d3 [? ?] [? ?]. split; by etransitivity.
  - auto.
  - intros d d' [? ?]. auto.
Qed.

Lemma rely_both R1 R2 s : rely (both R1 R2) s <-> rely R1 s /\ rely R2 s.
Proof.
  unfold rely, both. rewrite !Forall_forall. split.
  - intros H. split; intros x Hx d; by destruct (H x Hx d).
  - intros [H1 H2] x Hx d. auto.
Qed.

Lemma guarantees_both {A} R1 R2 (m : M A) :
  guarantees R1 m -> guarantees R2 m -> guarantees (both R1 R2) m.
Proof.
  intros H1 H2 s [Hs1 Hs2]%rely_both. destruct (H1 s Hs1), (H2 s Hs2).
  split; [done|]. by apply rely_both.
Qed.

#[export] Hint Extern 5 (guarantees (keeps _) (statement _)) =>
  apply guarantees_keeps_frame; frame : repo.
#[export] Hint Extern 1 (guarantees (both _ _) _) => apply guarantees_both : repo.
