(* ===== verification/Devices.v ===== *)
(** * service/devices.go: device enrolment and lifecycle

    [DeviceRepository] is the interface the service declares, with what it relies
    on; [Repo] implements it.  [device_history] is the abstract specification:
    how a device row may change over time, whoever acts on it. *)
From S2P Require Import Prelude Errors GoStd Model Rules Store Repo Frame.

(** ** The specification of a device's history *)
Definition same_device (r r' : Device) : Prop :=
  d_ID r' = d_ID r /\ d_HouseholdID r' = d_HouseholdID r /\ d_ExternalID r' = d_ExternalID r /\
  d_Kind r' = d_Kind r /\ d_Firmware r' = d_Firmware r /\ d_CreatedAt r' = d_CreatedAt r.

Definition known_state (r : Device) : Prop := d_State r ∈ device_states.

(** The version counts the transitions, each one allowed by [ValidateTransition]. *)
Definition device_evolves (r r' : Device) : Prop :=
  same_device r r' /\
  (known_state r -> exists n : nat, d_Version r' = d_Version r + Z.of_nat n /\
     nsteps (fun a b => ValidateTransition a b = None) n (d_State r) (d_State r')).

Definition new_device (id : Z) (r : Device) : Prop :=
  d_ID r = id /\ d_State r = DevicePending /\ d_Version r = 1 /\ d_LastSeenAt r = None.

Definition device_history : Database -> Database -> Prop := evolve new_device device_evolves.

#[export] Instance same_device_PreOrder : PreOrder same_device.
Proof.
  split; [done|]. unfold same_device; intros x y z (?&?&?&?&?&?) (?&?&?&?&?&?); split_and!; congruence.
Qed.
Lemma ValidateTransition_allowed a b : ValidateTransition a b = None <-> allowed a b = true.
Proof. unfold ValidateTransition. by destruct (allowed a b). Qed.

Lemma nsteps_known n a b :
  nsteps (fun a b => ValidateTransition a b = None) n a b -> a ∈ device_states -> b ∈ device_states.
Proof.
  induction 1 as [|n a b c Hab Hbc IH]; [done|]. intros _. apply IH.
  apply ValidateTransition_allowed, allowed_target in Hab. set_solver.
Qed.

#[export] Instance device_evolves_PreOrder : PreOrder device_evolves.
Proof.
  split.
  - intros r. split; [done|]. exists 0%nat. split; [lia | constructor].
  - intros r1 r2 r3 [S12 H12] [S23 H23]. split; [by etransitivity|].
    intros Hk. destruct (H12 Hk) as (n & Hn & Ht).
    destruct (H23 (nsteps_known _ _ _ Ht Hk)) as (m & Hm & Ht').
    exists (n + m)%nat. split; [lia | by eapply nsteps_trans].
Qed.
#[export] Instance device_history_TwoState : TwoState device_history.
Proof. apply evolve_TwoState, _. Qed.

(** ** The interface *)
Class DeviceRepository := {
  CreateDevice : Device -> list string -> M Device;
  GetDevice : Z -> M Device;
  TransitionDevice : Z -> DeviceState -> DeviceState -> Z -> M unit;
  TouchDevice : Z -> Time -> M unit;
  CreateDevice_history dev caps : guarantees device_history (CreateDevice dev caps);
  GetDevice_history id : guarantees device_history (GetDevice id);
  TransitionDevice_history id from to v :
    (from ∈ device_states -> ValidateTransition from to = None) ->
    guarantees device_history (TransitionDevice id from to v);
  TouchDevice_history id when : guarantees device_history (TouchDevice id when);
  (** Reading returns the row of a moment of the call. *)
  GetDevice_row id s dev s' :
    GetDevice id s = (Ok dev, s') -> devices (db s') !! id = Some dev;
  (** A successful transition found the state and version it expected, and changed
      that row only. *)
  TransitionDevice_row id from to v s s' :
    rely device_history s -> TransitionDevice id from to v s = (Ok tt, s') ->
    exists d0 dev, device_history (db s) d0 /\ devices d0 !! id = Some dev /\
      d_State dev = from /\ d_Version dev = v /\
      exists dev', same_device dev dev' /\ d_State dev' = to /\ d_Version dev' = v + 1 /\
        d_LastSeenAt dev' = d_LastSeenAt dev /\ devices (db s') = <[id := dev']> (devices d0)
}.

Section service.
Context `{Unicode} `{DeviceRepository}.

Definition validKind (k : DeviceKind) : bool := bool_decide (k ∈ device_kinds).

(** The normalisation loop of [Enroll]. *)
Fixpoint normalize_capabilities (seen : gset string) (caps : list string) : result (list string) :=
  match caps with
  | [] => Ok []
  | capability :: rest =>
      let capability := ToLower (TrimSpace capability) in
      if bool_decide (capability = "") then Fail (Sentinel ErrInvalid)
      else if bool_decide (capability ∈ seen)
      then Fail (wrap_suffix (Sentinel ErrInvalid) ("duplicate capability " +:+ capability))
      else result_bind (normalize_capabilities ({[capability]} ∪ seen) rest)
             (fun normalized => Ok (capability :: normalized))
  end.

Definition Enroll (household : Z) (external : string) (kind : DeviceKind) (firmware : string)
    (caps : list string) : M Device :=
  let external := TrimSpace external in
  let firmware := TrimSpace firmware in
  if (household <=? 0) || negb (bool_decide (ValidateExternalID external = None))
     || bool_decide (firmware = "") || negb (validKind kind)
  then mfail (Sentinel ErrInvalid)
  else
    normalized ← lift (normalize_capabilities ∅ caps);
    if negb (HasCapabilities (RequiredCapabilities kind) normalized)
    then mfail (wrap_suffix (Sentinel ErrInvalid) "required device capabilities are missing")
    else CreateDevice (mkDevice 0 household external kind "" firmware 0 None 0) normalized.

Definition conflict (text : string) : error := wrap_suffix (Sentinel ErrConflict) text.

Definition Pair (id : Z) : M unit :=
  d ← GetDevice id;
  if negb (bool_decide (d_State d = DevicePending)) then mfail (conflict "device is not pending")
  else TransitionDevice id DevicePending DevicePaired (d_Version d).

Definition Enable (id : Z) : M unit :=
  d ← GetDevice id;
  if negb (bool_decide (d_State d = DevicePaired)) && negb (bool_decide (d_State d = DeviceDisabled))
  then mfail (conflict "device cannot be enabled")
  else TransitionDevice id (d_State d) DeviceEnabled (d_Version d).

Definition Disable (id : Z) : M unit :=
  d ← GetDevice id;
  if negb (bool_decide (d_State d = DeviceEnabled)) then mfail (conflict "device cannot be disabled")
  else TransitionDevice id (d_State d) DeviceDisabled (d_Version d).

Definition Retire (id : Z) : M unit :=
  d ← GetDevice id;
  if bool_decide (d_State d = DeviceRetired) then mfail (Sentinel ErrConflict)
  else TransitionDevice id (d_State d) DeviceRetired (d_Version d).

(** [now] is the reading of the service's clock. *)
Definition Touch (id : Z) (now : Time) : M unit :=
  d ← GetDevice id;
  if Before now (d_CreatedAt d) then mfail (Sentinel ErrInvalid) else TouchDevice id now.

Definition DeviceFresh (d : Device) (now : Time) (ttl : Duration) : bool :=
  (0 <? ttl) && match d_LastSeenAt d with
                | None => false
                | Some seen => negb (After seen now) && (Sub now seen <=? ttl)
                end.
End service.

(** ** The service respects the history *)
Section service_proofs.
Context `{Unicode} `{DR : DeviceRepository}.

#[local] Hint Resolve CreateDevice_history GetDevice_history TouchDevice_history : repo.

Lemma Retire_allowed from : from ∈ device_states -> from <> DeviceRetired ->
  ValidateTransition from DeviceRetired = None.
Proof.
  rewrite ValidateTransition_allowed. unfold device_states. rewrite !elem_of_cons.
  intros [->|[->|[->|[->|[->|?]]]]] ?; try done. set_solver.
Qed.

Lemma Enroll_history h e k f caps : guarantees device_history (Enroll h e k f caps).
Proof.
  unfold Enroll. case_match; [eauto with repo|]. g_bind. case_match; eauto with repo.
Qed.

Lemma transition_history id (test : Device -> bool) (e : error) (from : Device -> DeviceState) to :
  (forall d, test d = false -> from d ∈ device_states -> ValidateTransition (from d) to = None) ->
  guarantees device_history
    (d ← GetDevice id; if test d then mfail e else TransitionDevice id (from d) to (d_Version d)).
Proof.
  intros Hok. g_bind. destruct (test _) eqn:?; [eauto with repo|]. apply TransitionDevice_history; auto.
Qed.

Lemma Pair_history id : guarantees device_history (Pair id).
Proof. by apply (transition_history id _ _ (fun _ => DevicePending)). Qed.
Lemma Enable_history id : guarantees device_history (Enable id).
Proof.
  apply (transition_history id _ _ d_State). intros d Ht _. bsimp.
  destruct Ht as [Ht|Ht]; bsimp; by rewrite Ht.
Qed.
Lemma Disable_history id : guarantees device_history (Disable id).
Proof. apply (transition_history id _ _ d_State). intros d Ht _. bsimp. by rewrite Ht. Qed.
Lemma Retire_history id : guarantees device_history (Retire id).
Proof. apply (transition_history id _ _ d_State). intros d Ht Hk. bsimp. by apply Retire_allowed. Qed.
Lemma Touch_history id now : guarantees device_history (Touch id now).
Proof. unfold Touch. g_bind. case_match; eauto with repo. Qed.
End service_proofs.

(** ** The repository implements the interface *)
Section implementation.
Context `{PG : Postgres}.

Lemma set_device_state_spec to r r' : set_device_state to r = Ok r' ->
  same_device r r' /\ d_State r' = to /\ d_Version r' = d_Version r + 1 /\
  d_LastSeenAt r' = d_LastSeenAt r.
Proof. unfold set_device_state. intros H. guards H. by simplify_eq. Qed.

Lemma update_device_state_history id from to v :
  (from ∈ device_states -> ValidateTransition from to = None) ->
  guarantees device_history (statement (update_device_state id from to v)).
Proof.
  intros Hok. g_statement. apply update_row_evolve; [apply _|].
  intros d r r' now Hc Hr. bsimp. apply set_device_state_spec in Hr as (Hs & Hst & Hv & _).
  split; [done|]. intros Hk. exists 1%nat. split; [done|]. apply nsteps_once.
  unfold known_state in Hk. rewrite Hst. subst. auto.
Qed.

Lemma insert_device_history dev : guarantees device_history (statement (insert_device dev)).
Proof. g_statement. apply insert_row_evolve; [apply _|done]. Qed.

Lemma touch_device_history id when : guarantees device_history (Repo.TouchDevice id when).
Proof.
  unfold Repo.TouchDevice. apply guarantees_require_some, guarantees_map_err; [apply _|].
  g_statement. apply update_row_evolve; [apply _|].
  intros d r r' now _ [= <-]. split; [done|]. intros _. exists 0%nat. split; [simpl; lia | constructor].
Qed.

Lemma insert_capabilities_history id caps : guarantees device_history (insert_capabilities id caps).
Proof.
  unfold device_history. induction caps as [|c caps IH]; cbn [insert_capabilities]; [eauto with repo|]. by g_bind.
Qed.

#[export, refine] Instance Repository_devices : DeviceRepository := {|
  CreateDevice := Repo.CreateDevice;
  GetDevice := Repo.GetDevice;
  TransitionDevice := Repo.TransitionDevice;
  TouchDevice := Repo.TouchDevice
|}.
Proof.
  - intros dev caps. apply guarantees_WithTx; [apply _|].
    g_bind; [by apply guarantees_map_err, insert_device_history|].
    g_bind; [apply insert_capabilities_history|]. eauto with repo.
  - intros id. unfold Repo.GetDevice, device_history. eauto with repo.
  - intros id from to v Hok. apply guarantees_require_some, guarantees_map_err; [apply _|].
    by apply update_device_state_history.
  - intros id when. apply touch_device_history.
  - intros id s dev s'. unfold Repo.GetDevice, map_err.
    destruct (statement _ s) as [[d|e] s1] eqn:E; [|done]. intros [= -> ->].
    apply statement_Ok in E as (s0 & _ & E). unfold select_row in E.
    destruct (rows (db s0) !! id) eqn:Hr; [|done]. injection E as -> E. by rewrite <-E.
  - intros id from to v s s' Hrely. unfold Repo.TransitionDevice, require_some, map_err.
    unfold mbind, M_bind.
    destruct (statement _ s) as [[n|e] s1] eqn:E; [|done].
    destruct (n =? 0) eqn:Hn; [done|]. unfold mret, M_ret. intros [= ->].
    apply statement_Ok in E as (s0 & Hs0 & E). exists (db s0).
    unfold update_device_state, update_row in E.
    destruct (rows (db s0) !! id) as [dev|] eqn:Hr; [|by simplify_eq].
    destruct (_ && _) eqn:Hc; [|by simplify_eq]. bsimp.
    destruct (set_device_state to dev) as [dev'|] eqn:Hd; [|done].
    destruct (row_check dev'); [|done]. injection E as _ E.
    destruct (set_device_state_spec _ _ _ Hd) as (?&?&?&?).
    exists dev. split_and!; try done.
    + rewrite <-Hs0. exact (proj1 (advance_rely _ s Hrely)).
    + exists dev'. split_and!; try done; [congruence|]. by rewrite <-E.
Defined.
End implementation.

(** ** Properties *)

(** The row after a transition to [to]. *)
Definition moved (to : DeviceState) (r : Device) : Device :=
  mkDevice (d_ID r) (d_HouseholdID r) (d_ExternalID r) (d_Kind r) to (d_Firmware r)
    (d_Version r + 1) (d_LastSeenAt r) (d_CreatedAt r).

Definition service_transitions `{Postgres} : list ((Z -> M unit) * DeviceState) :=
  [(Pair, DevicePaired); (Enable, DeviceEnabled); (Disable, DeviceDisabled); (Retire, DeviceRetired)].

(** Evaluates a goal about a device in each state of the schema. *)
Ltac device_state_cases H :=
  unfold device_states in H; rewrite !elem_of_cons in H;
  destruct H as [E|[E|[E|[E|[E|E]]]]]; [..|by apply elem_of_nil in E]; rewrite E.

Section properties.
Context `{PG : Postgres}.

Lemma transition_quiet id to (test : Device -> bool) e (from : Device -> DeviceState) d now r :
  devices d !! id = Some r -> to ∈ device_states -> row_check r = true ->
  d_Version r < int64_max -> (test r = false -> from r = d_State r) ->
  (d ← Repo.GetDevice id; if test d then mfail e else Repo.TransitionDevice id (from d) to (d_Version d))
    (quiet_store d now) =
  if test r then (Fail e, quiet_store d now)
  else (Ok tt, quiet_store (set_devices (<[id := moved to r]> (devices d)) d) now).
Proof.
  intros Hr Hto Hchk Hv Hfrom. unfold Repo.GetDevice, Repo.TransitionDevice, map_err, require_some.
  unfold mbind, M_bind, statement, advance; simpl. unfold select_row; simpl. rewrite Hr.
  destruct (test r); [done|]. unfold mbind, M_bind; simpl.
  unfold update_device_state, update_row; simpl. rewrite Hr, Hfrom by done.
  rewrite bool_decide_eq_true_2, Z.eqb_refl by done. simpl. unfold set_device_state.
  rewrite (proj2 (Z.eqb_neq _ _)) by lia. simpl in *. bsimp.
  by rewrite !bool_decide_eq_true_2 by done.
Qed.

Lemma transition_case id to (test : Device -> bool) (e : error) (from : Device -> DeviceState) d now r :
  devices d !! id = Some r -> to ∈ device_states -> row_check r = true ->
  d_Version r < int64_max -> ErrorStatus e = 409 ->
  test r = negb (allowed (d_State r) to) -> (test r = false -> from r = d_State r) ->
  let m := d ← Repo.GetDevice id; if test d then mfail e else Repo.TransitionDevice id (from d) to (d_Version d) in
  match ValidateTransition (d_State r) to with
  | None => m (quiet_store d now) =
              (Ok tt, quiet_store (set_devices (<[id := moved to r]> (devices d)) d) now)
  | Some _ => exists e, m (quiet_store d now) = (Fail e, quiet_store d now) /\ ErrorStatus e = 409
  end.
Proof.
  intros Hr Hto Hchk Hv He Htest Hfrom m. subst m.
  rewrite (transition_quiet id to test e from d now r) by done. unfold ValidateTransition.
  rewrite Htest. destruct (allowed _ _); simpl; [done | by exists e].
Qed.

(** Every lifecycle operation reads the row, tests its state and asks for the
    transition, and its test agrees with the table. *)
Lemma service_shape op to : (op, to) ∈ service_transitions ->
  exists (test : Device -> bool) e (from : Device -> DeviceState),
    to ∈ device_states /\ ErrorStatus e = 409 /\
    (forall r, d_State r ∈ device_states ->
       test r = negb (allowed (d_State r) to) /\ (test r = false -> from r = d_State r)) /\
    op = fun id => d ← Repo.GetDevice id;
                   if test d then mfail e else Repo.TransitionDevice id (from d) to (d_Version d).
Proof.
  unfold service_transitions. rewrite !elem_of_cons.
  intros [[= -> ->]|[[= -> ->]|[[= -> ->]|[[= -> ->]|Hop]]]]; [..|by apply elem_of_nil in Hop].
  - exists (fun d => negb (bool_decide (d_State d = DevicePending))), (conflict "device is not pending"),
      (fun _ => DevicePending).
    split_and!; [mem|done| |done]. intros r Hr. by device_state_cases Hr.
  - exists (fun d => negb (bool_decide (d_State d = DevicePaired))
             && negb (bool_decide (d_State d = DeviceDisabled))), (conflict "device cannot be enabled"), d_State.
    split_and!; [mem|done| |done]. intros r Hr. by device_state_cases Hr.
  - exists (fun d => negb (bool_decide (d_State d = DeviceEnabled))), (conflict "device cannot be disabled"), d_State.
    split_and!; [mem|done| |done]. intros r Hr. by device_state_cases Hr.
  - exists (fun d => bool_decide (d_State d = DeviceRetired)), (Sentinel ErrConflict), d_State.
    split_and!; [mem|done| |done]. intros r Hr. by device_state_cases Hr.
Qed.

(** C1: [Pair], [Enable], [Disable] and [Retire] implement the transition table of
    [ValidateTransition]: on a device of the schema they move it, counting the
    version, exactly when the table allows the move, and otherwise change nothing
    and report a conflict; an unknown device is reported as not found. *)
Theorem device_transitions_refine_table op to id d now :
  (op, to) ∈ service_transitions ->
  match devices d !! id with
  | None => exists e, op id (quiet_store d now) = (Fail e, quiet_store d now) /\ ErrorStatus e = 404
  | Some r =>
      row_check r = true -> d_Version r < int64_max ->
      match ValidateTransition (d_State r) to with
      | None => op id (quiet_store d now) =
                  (Ok tt, quiet_store (set_devices (<[id := moved to r]> (devices d)) d) now)
      | Some _ => exists e, op id (quiet_store d now) = (Fail e, quiet_store d now) /\
                            ErrorStatus e = 409
      end
  end.
Proof.
  intros (test & e & from & Hto & He & Htest & ->)%service_shape.
  destruct (devices d !! id) as [r|] eqn:Hr.
  - intros Hchk Hv. assert (d_State r ∈ device_states) as Hst by (simpl in Hchk; bsimp; done).
    destruct (Htest r Hst). by apply transition_case.
  - exists (Classified (Sentinel ErrNotFound) (Sentinel ErrNoRows)). split; [|done].
    unfold mbind, M_bind, Repo.GetDevice, map_err, statement, select_row; simpl. by rewrite Hr.
Qed.
End properties.

(** What [Enroll] asks of a request. *)
Definition normalize_capability `{Unicode} (c : string) : string := ToLower (TrimSpace c).

Definition enroll_ok `{Unicode} (household : Z) (external : string) (kind : DeviceKind)
    (firmware : string) (caps : list string) : Prop :=
  0 < household /\ ValidateExternalID (TrimSpace external) = None /\ TrimSpace firmware <> "" /\
  kind ∈ device_kinds /\ NoDup (map normalize_capability caps) /\
  ~ ("" ∈ map normalize_capability caps) /\ RequiredCapabilities kind ⊆ map normalize_capability caps.

Section enroll.
Context `{Unicode} `{DR : DeviceRepository}.

Lemma normalize_capabilities_spec seen caps :
  match normalize_capabilities seen caps with
  | Ok out => out = map normalize_capability caps /\ NoDup out /\ ~ ("" ∈ out) /\
              Forall (fun c => c ∉ seen) out
  | Fail e => ErrorStatus e = 400 /\
              ~ (NoDup (map normalize_capability caps) /\ ~ ("" ∈ map normalize_capability caps) /\
                 Forall (fun c => c ∉ seen) (map normalize_capability caps))
  end.
Proof.
  revert seen. induction caps as [|c caps IH]; intros seen; cbn [normalize_capabilities].
  { split_and!; [done|constructor|set_solver|constructor]. }
  change (ToLower (TrimSpace c)) with (normalize_capability c). rewrite map_cons.
  case_bool_decide as He; [split; [done|rewrite He; set_solver]|].
  case_bool_decide as Hs.
  { split; [done|]. by intros (_ & _ & [? ?]%Forall_cons). }
  specialize (IH ({[normalize_capability c]} ∪ seen)).
  destruct (normalize_capabilities _ caps) as [out|e]; simpl.
  - destruct IH as (-> & Hnd & Hne & Hf). rewrite NoDup_cons, Forall_cons, Forall_forall in *.
    split_and!; try done; [|set_solver|set_solver].
    intros Hin. specialize (Hf _ Hin). set_solver.
  - destruct IH as [He' IH]. split; [done|]. rewrite NoDup_cons, Forall_cons, Forall_forall in *.
    intros ([Hnin Hnd] & Hne & _ & Hf). apply IH. split_and!; [done|set_solver|].
    intros x Hx. specialize (Hf x Hx). set_solver.
Qed.

(** [Enroll] accepts exactly the requests with a positive household, a valid
    external id, a firmware, a known kind and distinct non-empty capabilities
    that include those the kind requires; it then creates the device with every
    field normalised, and otherwise answers 400 without touching the store. *)
Theorem Enroll_validates household external kind firmware caps s :
  (enroll_ok household external kind firmware caps ->
   Enroll household external kind firmware caps s =
   CreateDevice (mkDevice 0 household (TrimSpace external) kind "" (TrimSpace firmware) 0 None 0)
     (map normalize_capability caps) s) /\
  (~ enroll_ok household external kind firmware caps ->
   exists e, Enroll household external kind firmware caps s = (Fail e, s) /\ ErrorStatus e = 400).
Proof.
  unfold Enroll, enroll_ok, validKind.
  pose proof (normalize_capabilities_spec ∅ caps) as Hn.
  destruct (_ || _) eqn:Hg.
  { split; [|intros _; by eexists]. intros (Hh & He & Hf & Hk & _). exfalso.
    rewrite He, !bool_decide_eq_true_2, bool_decide_eq_false_2 in Hg by done.
    repeat (bsimp; destruct_or? Hg; simpl in Hg); try done. lia. }
  bsimp. unfold mbind, M_bind, lift.
  destruct (normalize_capabilities ∅ caps) as [out|e].
  - destruct Hn as (-> & Hnd & Hne & _).
    destruct (HasCapabilities _ _) eqn:Hc; simpl.
    + apply HasCapabilities_spec in Hc. split; [done|]. intros Hno. exfalso. apply Hno. done.
    + split; [|intros _; by eexists]. intros (_&_&_&_&_&_&Hr).
      apply HasCapabilities_spec in Hr. congruence.
  - destruct Hn as [He Hn]. split; [|intros _; by eexists].
    intros (_&_&_&_&Hnd&Hne&_). exfalso. apply Hn. split_and!; try done. apply Forall_true; set_solver.
Qed.

(** C18: optimistic locking loses no update: once a transition from version [v] of a
    device has been applied, any later transition that expects version [v] fails,
    whatever the other clients and the network did in between. *)
Theorem stale_version_rejected id from to from' to' v s s1 s2 :
  rely device_history s -> from ∈ device_states -> ValidateTransition from to = None ->
  TransitionDevice id from to v s = (Ok tt, s1) ->
  device_history (db s1) (db s2) -> rely device_history s2 ->
  exists e, (TransitionDevice id from' to' v s2).1 = Fail e.
Proof.
  intros Hs Hfrom Hval Hone H12 Hs2.
  destruct (TransitionDevice id from' to' v s2) as [[[]|e] s3] eqn:Htwo; [|by eexists]. exfalso.
  apply TransitionDevice_row in Hone as (d0 & dev & _ & _ & _ & _ & dev1 & _ & Hto & Hv1 & _ & E1); [|done].
  apply TransitionDevice_row in Htwo as (d2 & dev2 & H20 & Hr2 & _ & Hv2 & _); [|done].
  assert (devices (db s1) !! id = Some dev1) as Hr1 by (rewrite E1; apply lookup_insert_eq).
  destruct (evolve_old _ _ _ _ (transitivity H12 H20) id dev1 Hr1) as (dev2' & Hr2' & _ & Hev).
  simpl in Hr2'. simplify_eq.
  assert (known_state dev1) as Hk.
  { apply ValidateTransition_allowed, allowed_target in Hval. unfold known_state. set_solver. }
  destruct (Hev Hk) as (n & ? & _). lia.
Qed.
End enroll.

Lemma stale_version_rejected_witness :
  let _ := exact_postgres in
  let row := mkDevice 7 1 "lamp" KindLight DevicePending "1.0" 1 None 5 in
  let s := quiet_store (set_devices {[7 := row]} empty_database) 10 in
  exists s1 e, TransitionDevice 7 DevicePending DevicePaired 1 s = (Ok tt, s1) /\
    (TransitionDevice 7 DevicePending DeviceRetired 1 s1).1 = Fail e.
Proof.
  intros PG row s. eexists. 
  destruct (stale_version_rejected 7 DevicePending DevicePaired DevicePending DeviceRetired 1 s
    (quiet_store (set_devices {[7 := moved DevicePaired row]} empty_database) 10)
    (quiet_store (set_devices {[7 := moved DevicePaired row]} empty_database) 10)) as [e He];
    [by constructor|mem|done|vm_compute; reflexivity|reflexivity|by constructor|].
  exists e. split; [|exact He]. vm_compute; reflexivity.
Defined.

Lemma Enroll_validates_witness :
  let _ := exact_postgres in let _ := ascii_only in
  let s := quiet_store (set_households {[1 := mkHousehold 1 "home" "UTC" 0 0]} empty_database) 10 in
  (exists s', Enroll 1 " lamp " KindLight "1.0" [" Power"; "dim"] s =
    (Ok (mkDevice 1 1 "lamp" KindLight DevicePending "1.0" 1 None 10), s')) /\
  exists e, Enroll 1 "lamp" KindLight "1.0" ["dim"] s = (Fail e, s) /\ ErrorStatus e = 400.
Proof.
  intros PG U s. split.
  - eexists. rewrite (proj1 (Enroll_validates 1 " lamp " KindLight "1.0" [" Power"; "dim"] s)).
    + vm_compute; reflexivity.
    + split_and!; try mem; done.
  - apply Enroll_validates. intros (_&_&_&_&_&_&H). specialize (H "power" ltac:(mem)). revert H. by apply (bool_decide_unpack _); vm_compute.
Defined.

Lemma device_transitions_refine_table_witness :
  let _ := exact_postgres in
  let row st v := mkDevice 7 1 "lamp" KindLight st "1.0" v None 5 in
  let db st v := set_devices {[7 := row st v]} empty_database in
  Enable 7 (quiet_store (db DevicePaired 2) 10) = (Ok tt, quiet_store (db DeviceEnabled 3) 10) /\
  exists e, Pair 7 (quiet_store (db DevicePaired 2) 10) = (Fail e, quiet_store (db DevicePaired 2) 10) /\
            ErrorStatus e = 409.
Proof.
  intros PG row db. split.
  - rewrite (device_transitions_refine_table Enable DeviceEnabled 7 (db DevicePaired 2) 10); try done.
    right; left.
  - exact (device_transitions_refine_table Pair DevicePaired 7 (db DevicePaired 2) 10 ltac:(left) eq_refl eq_refl).
Defined.
