(* ===== verification/Plans.v ===== *)
(** * service/energy.go: energy plans

    [PlanRepository] is what the service relies on, [Repository_plans] the
    repository's implementation of it, [plan_history] the abstract specification:
    a plan only moves along [plan_step] and never changes otherwise. *)
From S2P Require Import Prelude Errors GoStd Model Store Repo Frame.

(** ** The specification of a plan's history *)
Definition plan_steps : list (PlanState * PlanState) :=
  [ (PlanDraft, PlanScheduled); (PlanScheduled, PlanRunning); (PlanRunning, PlanCompleted);
    (PlanDraft, PlanCancelled); (PlanScheduled, PlanCancelled) ].
Definition plan_step (a b : PlanState) : Prop := (a, b) ∈ plan_steps.

#[export] Instance plan_step_dec a b : Decision (plan_step a b).
Proof. unfold plan_step. apply _. Defined.

Definition plan_evolves (r r' : EnergyPlan) : Prop :=
  r' = with_plan_state (p_State r') r /\ rtc plan_step (p_State r) (p_State r').
Definition new_plan (id : Z) (r : EnergyPlan) : Prop := p_ID r = id /\ p_State r = PlanDraft.
Definition plan_history : Database -> Database -> Prop := evolve new_plan plan_evolves.

Lemma with_plan_state_id r : with_plan_state (p_State r) r = r.
Proof. by destruct r. Qed.

#[export] Instance plan_evolves_PreOrder : PreOrder plan_evolves.
Proof.
  split.
  - intros r. split; [by rewrite with_plan_state_id | constructor].
  - intros r1 r2 r3 [E12 H12] [E23 H23]. split; [|by etransitivity].
    rewrite E23, E12. by destruct r1.
Qed.
#[export] Instance plan_history_TwoState : TwoState plan_history.
Proof. apply evolve_TwoState, _. Qed.

Lemma plan_evolves_step r to : plan_step (p_State r) to -> plan_evolves r (with_plan_state to r).
Proof. intros Hs. split; [done | by apply rtc_once]. Qed.

(** A plan that is completed or cancelled stays as it is. *)
Lemma plan_step_terminal a b : plan_step a b -> a <> PlanCompleted /\ a <> PlanCancelled.
Proof.
  unfold plan_step, plan_steps. rewrite !elem_of_cons.
  intros [?|[?|[?|[?|[?|H]]]]]; [..|by apply elem_of_nil in H]; simplify_eq; done.
Qed.
Lemma plan_evolves_terminal r r' :
  plan_evolves r r' -> p_State r = PlanCompleted \/ p_State r = PlanCancelled -> r' = r.
Proof.
  intros [E Hs] Ht. remember (p_State r) as a eqn:Ea. destruct Hs as [|a b c Hab _].
  - rewrite E, Ea. apply with_plan_state_id.
  - apply plan_step_terminal in Hab. naive_solver.
Qed.

(** ** The interface *)
Class PlanRepository := {
  CreatePlan : EnergyPlan -> list PlanDevice -> M EnergyPlan;
  GetPlan : Z -> M EnergyPlan;
  SetPlanState : Z -> PlanState -> PlanState -> M unit;
  CreatePlan_history p pds : guarantees plan_history (CreatePlan p pds);
  GetPlan_history id : guarantees plan_history (GetPlan id);
  SetPlanState_history id from to :
    plan_step from to -> guarantees plan_history (SetPlanState id from to);
  (** A plan starts only when its devices are ready at that moment. *)
  SetPlanState_row id from to s s' :
    rely plan_history s -> SetPlanState id from to s = (Ok tt, s') ->
    exists d0 r, plan_history (db s) d0 /\ energy_plans d0 !! id = Some r /\ p_State r = from /\
      (to = PlanRunning -> plan_devices_ready d0 r id = true) /\
      db s' = set_energy_plans (<[id := with_plan_state to r]> (energy_plans d0)) d0
}.

Section service.
Context `{PlanRepository}.

(** The checks of [Draft], the loop over the devices included. *)
Definition check_plan_devices (devices : list PlanDevice) : option error :=
  scan_seen pd_DeviceID
    (fun d => if (pd_DeviceID d <=? 0) || flt (pd_TargetWatts d) f0 then Some (Sentinel ErrInvalid) else None)
    (fun _ => None)
    (fun _ => wrap_suffix (Sentinel ErrInvalid) "plan contains a device more than once") ∅ devices.

Definition trimmed_plan (p : EnergyPlan) : EnergyPlan :=
  mkEnergyPlan (p_ID p) (p_HouseholdID p) (TrimSpace (p_Name p)) (p_State p) (p_BudgetCents p)
    (p_StartsAt p) (p_EndsAt p) (p_CreatedAt p).

(** [now] is the reading of the service's clock. *)
Definition Draft (p : EnergyPlan) (devices : list PlanDevice) (now : Time) : M EnergyPlan :=
  let p := trimmed_plan p in
  if (p_HouseholdID p <=? 0) || bool_decide (p_Name p = "") || (p_BudgetCents p <? 0)
     || negb (Before (p_StartsAt p) (p_EndsAt p)) || negb (Before now (p_StartsAt p))
     || (31 * 24 * Hour <? Sub (p_EndsAt p) (p_StartsAt p))
  then mfail (Sentinel ErrInvalid)
  else if bool_decide (devices = [])
  then mfail (wrap_suffix (Sentinel ErrInvalid) "plan needs devices")
  else match check_plan_devices devices with
       | Some e => mfail e
       | None => CreatePlan p devices
       end.

Definition Schedule (id : Z) (now : Time) : M unit :=
  plan ← GetPlan id;
  if negb (bool_decide (p_State plan = PlanDraft)) || negb (Before now (p_StartsAt plan))
  then mfail (Sentinel ErrConflict)
  else SetPlanState id PlanDraft PlanScheduled.

Definition Start (id : Z) (now : Time) : M unit :=
  plan ← GetPlan id;
  if negb (bool_decide (p_State plan = PlanScheduled)) || Before now (p_StartsAt plan)
     || negb (Before now (p_EndsAt plan))
  then mfail (Sentinel ErrConflict)
  else SetPlanState id PlanScheduled PlanRunning.

Definition Complete (id : Z) : M unit :=
  plan ← GetPlan id;
  if negb (bool_decide (p_State plan = PlanRunning)) then mfail (Sentinel ErrConflict)
  else SetPlanState id PlanRunning PlanCompleted.

Definition Cancel (id : Z) : M unit :=
  plan ← GetPlan id;
  if negb (bool_decide (p_State plan = PlanDraft)) && negb (bool_decide (p_State plan = PlanScheduled))
  then mfail (Sentinel ErrConflict)
  else SetPlanState id (p_State plan) PlanCancelled.

(** ** The service respects the history *)
#[local] Hint Resolve CreatePlan_history GetPlan_history : repo.

Lemma Draft_history p pds now : guarantees plan_history (Draft p pds now).
Proof. unfold Draft. repeat case_match; eauto with repo. Qed.
Lemma Schedule_history id now : guarantees plan_history (Schedule id now).
Proof. unfold Schedule. g_bind. case_match; [eauto with repo|]. apply SetPlanState_history. mem. Qed.
Lemma Start_history id now : guarantees plan_history (Start id now).
Proof. unfold Start. g_bind. case_match; [eauto with repo|]. apply SetPlanState_history. mem. Qed.
Lemma Complete_history id : guarantees plan_history (Complete id).
Proof. unfold Complete. g_bind. case_match; [eauto with repo|]. apply SetPlanState_history. mem. Qed.
Lemma Cancel_history id : guarantees plan_history (Cancel id).
Proof.
  unfold Cancel. g_bind. case_match eqn:E; [eauto with repo|]. apply SetPlanState_history.
  bsimp. destruct E as [E|E]; bsimp; rewrite E; mem.
Qed.
End service.

(** ** The repository implements the interface *)
Section implementation.
Context `{PG : Postgres}.

Lemma insert_plan_devices_history id h pds : guarantees plan_history (insert_plan_devices id h pds).
Proof.
  unfold plan_history. induction pds as [|pd pds IH]; cbn [insert_plan_devices]; [eauto with repo|].
  by g_bind.
Qed.

#[export, refine] Instance Repository_plans : PlanRepository := {|
  CreatePlan := Repo.CreatePlan;
  GetPlan := Repo.GetPlan;
  SetPlanState := Repo.SetPlanState
|}.
Proof.
  - intros p pds. apply guarantees_WithTx; [apply _|].
    g_bind; [apply guarantees_map_err; g_statement; apply insert_row_evolve; [apply _|done]|].
    g_bind; [apply insert_plan_devices_history|]. eauto with repo.
  - intros id. unfold Repo.GetPlan, plan_history. eauto with repo.
  - intros id from to Hstep. apply guarantees_require_some; [apply _|]. g_statement.
    apply update_row_evolve; [apply _|]. intros d r r' now Hc [= <-]. bsimp.
    apply plan_evolves_step. congruence.
  - intros id from to s s' Hrely. unfold Repo.SetPlanState, require_some. intros H.
    apply bind_Ok in H as (n & s1 & H & Hn). destruct (n =? 0) eqn:En; [done|].
    injection Hn as <-. apply statement_Ok in H as (s0 & Hs0 & E). exists (db s0).
    unfold update_plan_state, update_row in E. destruct (rows (db s0) !! id) as [r|] eqn:Hr; [|by simplify_eq].
    destruct (_ && _) eqn:Hc; [|by simplify_eq]. destruct (row_check _); [|done].
    injection E as _ E. bsimp. exists r. split_and!; try done.
    + rewrite <-Hs0. exact (proj1 (advance_rely _ s Hrely)).
    + intros ->. naive_solver.
Defined.

Lemma ExpirePlans_history now : guarantees plan_history (ExpirePlans now).
Proof.
  unfold ExpirePlans, expire_plans. g_statement. apply update_rows_evolve; [apply _|].
  intros r _ Hc. bsimp. apply plan_evolves_step.
  repeat match goal with H : _ ∈ _ |- _ => rewrite !elem_of_cons in H; destruct H as [H|[H|H]] end;
    [rewrite H; mem..|by apply elem_of_nil in H].
Qed.
End implementation.

(** ** Properties *)

(** The lifecycle as a table: where an operation takes a plan at a given instant. *)
Inductive plan_op := OpSchedule | OpStart | OpComplete | OpCancel.

Definition run_plan_op `{PlanRepository} (op : plan_op) (id : Z) (now : Time) : M unit :=
  match op with
  | OpSchedule => Schedule id now
  | OpStart => Start id now
  | OpComplete => Complete id
  | OpCancel => Cancel id
  end.

Definition plan_target (op : plan_op) (r : EnergyPlan) (now : Time) : option PlanState :=
  match op with
  | OpSchedule => if decide (p_State r = PlanDraft /\ now < p_StartsAt r) then Some PlanScheduled else None
  | OpStart => if decide (p_State r = PlanScheduled /\ p_StartsAt r <= now < p_EndsAt r)
               then Some PlanRunning else None
  | OpComplete => if decide (p_State r = PlanRunning) then Some PlanCompleted else None
  | OpCancel => if decide (p_State r = PlanDraft \/ p_State r = PlanScheduled)
                then Some PlanCancelled else None
  end.

Section properties.
Context `{PG : Postgres}.

Lemma GetPlan_quiet id d now : Repo.GetPlan id (quiet_store d now) =
  (match energy_plans d !! id with
   | Some r => Ok r
   | None => Fail (Classified (Sentinel ErrNotFound) (Sentinel ErrNoRows))
   end, quiet_store d now).
Proof.
  unfold Repo.GetPlan, map_err, statement, select_row; simpl. by destruct (energy_plans d !! id).
Qed.

Lemma SetPlanState_quiet id r to d now :
  energy_plans d !! id = Some r -> row_check r = true -> to ∈ plan_states ->
  Repo.SetPlanState id (p_State r) to (quiet_store d now) =
  if negb (bool_decide (to = PlanRunning)) || plan_devices_ready d r id
  then (Ok tt, quiet_store (set_energy_plans (<[id := with_plan_state to r]> (energy_plans d)) d) now)
  else (Fail (Sentinel ErrConflict), quiet_store d now).
Proof.
  intros Hr Hchk Hto. unfold Repo.SetPlanState, require_some, mbind, M_bind, statement, advance; simpl.
  unfold update_plan_state, update_row; simpl. rewrite Hr, bool_decide_eq_true_2 by done. simpl.
  destruct (negb _ || _); [|done]. simpl in Hchk. bsimp.
  rewrite bool_decide_eq_true_2 by done. by rewrite (proj2 (Z.leb_le _ _)).
Qed.

(** Every operation reads the row, tests it against the table and asks for the move. *)
Lemma plan_op_shape op now :
  exists (test : EnergyPlan -> bool) (from : EnergyPlan -> PlanState) to,
    to ∈ plan_states /\
    (forall r, plan_target op r now = (if test r then None else Some to) /\
               (test r = false -> from r = p_State r)) /\
    forall id, run_plan_op op id now =
      (p ← Repo.GetPlan id;
       if test p then mfail (Sentinel ErrConflict) else Repo.SetPlanState id (from p) to).
Proof.
  destruct op; simpl.
  - exists (fun p => negb (bool_decide (p_State p = PlanDraft)) || negb (Before now (p_StartsAt p))),
      (fun _ => PlanDraft), PlanScheduled.
    split_and!; [mem| |done]. intros r.
    unfold Before, Time in *.
    case_decide; case_match; bcases; naive_solver lia.
  - exists (fun p => negb (bool_decide (p_State p = PlanScheduled)) || Before now (p_StartsAt p)
                     || negb (Before now (p_EndsAt p))), (fun _ => PlanScheduled), PlanRunning.
    split_and!; [mem| |done]. intros r.
    unfold Before, Time in *.
    case_decide; case_match; bcases; naive_solver lia.
  - exists (fun p => negb (bool_decide (p_State p = PlanRunning))), (fun _ => PlanRunning), PlanCompleted.
    split_and!; [mem| |done]. intros r. case_decide; case_match; bcases; naive_solver.
  - exists (fun p => negb (bool_decide (p_State p = PlanDraft))
                     && negb (bool_decide (p_State p = PlanScheduled))), p_State, PlanCancelled.
    split_and!; [mem| |done]. intros r. case_decide; case_match; bcases; naive_solver.
Qed.

(** C12: [Schedule], [Start], [Complete] and [Cancel] implement the lifecycle table: on
    a plan of the schema the operation moves exactly the plan's state when the table
    allows it at that instant (a start also needs every device of the plan enabled
    in the plan's household), and otherwise changes nothing and reports a conflict;
    an unknown plan is reported as not found. *)
Theorem plan_operations_refine_table op id d now at_ :
  match energy_plans d !! id with
  | None => exists e, run_plan_op op id at_ (quiet_store d now) = (Fail e, quiet_store d now) /\
                      ErrorStatus e = 404
  | Some r =>
      row_check r = true ->
      match plan_target op r at_ with
      | Some to =>
          if decide (to = PlanRunning /\ plan_devices_ready d r id = false)
          then run_plan_op op id at_ (quiet_store d now) = (Fail (Sentinel ErrConflict), quiet_store d now)
          else run_plan_op op id at_ (quiet_store d now) =
               (Ok tt, quiet_store (set_energy_plans (<[id := with_plan_state to r]> (energy_plans d)) d) now)
      | None => run_plan_op op id at_ (quiet_store d now) = (Fail (Sentinel ErrConflict), quiet_store d now)
      end
  end.
Proof.
  destruct (plan_op_shape op at_) as (test & from & to & Hto & Htest & Hop). rewrite Hop.
  unfold mbind, M_bind. rewrite GetPlan_quiet.
  destruct (energy_plans d !! id) as [r|] eqn:Hr; [|by eexists].
  intros Hchk. destruct (Htest r) as [-> Hfrom]. destruct (test r); [done|].
  rewrite Hfrom, SetPlanState_quiet by done.
  destruct (bool_decide _) eqn:Hb, (plan_devices_ready d r id); bsimp; simpl; case_decide; naive_solver.
Qed.


(** A plan that is completed or cancelled never changes again, along any history
    the operations of the program can produce. *)
Theorem finished_plan_is_final d d' id r :
  plan_history d d' -> energy_plans d !! id = Some r ->
  p_State r = PlanCompleted \/ p_State r = PlanCancelled ->
  energy_plans d' !! id = Some r.
Proof.
  intros Hh Hr Hst. destruct (evolve_old _ _ _ _ Hh id r Hr) as (r' & Hr' & Hev).
  by rewrite (plan_evolves_terminal r r' Hev Hst) in Hr'.
Qed.
End properties.

(** What [Draft] asks of a request. *)
Definition draft_ok (p : EnergyPlan) (devices : list PlanDevice) (now : Time) : Prop :=
  0 < p_HouseholdID p /\ TrimSpace (p_Name p) <> "" /\ 0 <= p_BudgetCents p /\
  now < p_StartsAt p < p_EndsAt p /\ p_EndsAt p - p_StartsAt p <= 31 * 24 * Hour /\
  devices <> [] /\ NoDup (map pd_DeviceID devices) /\
  Forall (fun d => 0 < pd_DeviceID d /\ flt (pd_TargetWatts d) f0 = false) devices.

(** [Draft] accepts exactly the plans with a household, a name, a budget, a window
    of at most 31 days that has not begun, and at least one device, each named once
    with a load that is not negative; it then stores the plan with its name trimmed,
    and otherwise answers 400 without touching the store. *)
Theorem Draft_validates `{PlanRepository} p devices now s :
  (draft_ok p devices now -> Draft p devices now s = CreatePlan (trimmed_plan p) devices s) /\
  (~ draft_ok p devices now -> exists e, Draft p devices now s = (Fail e, s) /\ ErrorStatus e = 400).
Proof.
  unfold Draft, draft_ok. cbn [trimmed_plan p_HouseholdID p_Name p_BudgetCents p_StartsAt p_EndsAt].
  assert (31 * 24 * Hour < int64_max) by done.
  pose proof (Sub_le_iff (p_EndsAt p) (p_StartsAt p) (31 * 24 * Hour) ltac:(done)) as Hsub.
  destruct (_ || _) eqn:Hg.
  { split; [|intros _; by eexists]. intros (Hh & Hn & Hb & [Hs He] & Hw & _). exfalso.
    unfold Before, Time in *. bcases; try lia; done. }
  unfold Before, Time in *. bsimp.
  case_bool_decide as Hnil; [split; [naive_solver|intros _; by eexists]|].
  destruct (check_plan_devices devices) as [e|] eqn:Hd.
  - assert (check_plan_devices devices <> None) as Hd' by congruence.
    unfold check_plan_devices in Hd'. rewrite scan_seen_None in Hd'. split.
    + intros (_&_&_&_&_&_&Hnd&Hall). exfalso. apply Hd'.
      split_and!; [|done|apply Forall_true; set_solver].
      eapply Forall_impl; [exact Hall|]. intros x [Hx ->]. simpl.
      by rewrite (proj2 (Z.leb_gt _ _) Hx).
    + intros _. exists e. split; [done|]. clear -Hd. unfold check_plan_devices in Hd.
      revert Hd. generalize (∅ : gset Z). induction devices as [|x l IH]; simpl; [done|].
      intros seen. repeat case_match; naive_solver.
  - unfold check_plan_devices in Hd. rewrite scan_seen_None in Hd. destruct Hd as (Hall & Hnd & _).
    split; [done|]. intros Hno. exfalso. apply Hno. split_and!; try done; try lia.
    eapply Forall_impl; [exact Hall|]. intros x [Hx _]. by guards Hx.
Qed.

(** ** Examples *)
Definition example_plan (state : PlanState) : EnergyPlan := mkEnergyPlan 4 1 "eco" state 100 50 90 7.
Definition example_plans (state : PlanState) : Database :=
  set_devices {[3 := mkDevice 3 1 "lamp" KindLight DeviceEnabled "1.0" 3 None 5]}
    (set_plan_devices {[(4, 3) := mkPlanDevice 4 3 f1]}
       (set_energy_plans {[4 := example_plan state]} empty_database)).

Lemma plan_operations_refine_table_witness :
  let _ := exact_postgres in
  Start 4 60 (quiet_store (example_plans PlanScheduled) 60) =
    (Ok tt, quiet_store (example_plans PlanRunning) 60).
Proof.
  intros PG. rewrite (plan_operations_refine_table OpStart 4 (example_plans PlanScheduled) 60 60 eq_refl).
  reflexivity.
Defined.


Lemma finished_plan_is_final_witness :
  let _ := exact_postgres in
  energy_plans (db (ExpirePlans 100 (quiet_store (example_plans PlanCompleted) 100)).2) !! 4
    = Some (example_plan PlanCompleted).
Proof.
  intros PG.
  apply (finished_plan_is_final (example_plans PlanCompleted)); [|reflexivity|by left].
  apply (ExpirePlans_history 100 (quiet_store (example_plans PlanCompleted) 100)). constructor.
Defined.

Lemma Draft_validates_witness :
  let _ := exact_postgres in
  let s := quiet_store (example_plans PlanRunning) 10 in
  Draft (mkEnergyPlan 0 1 " eco " "" 100 50 90 0) [mkPlanDevice 0 3 f1] 10 s =
    Repo.CreatePlan (mkEnergyPlan 0 1 "eco" "" 100 50 90 0) [mkPlanDevice 0 3 f1] s /\
  exists e, Draft (mkEnergyPlan 0 1 " eco " "" 100 50 90 0) [] 10 s = (Fail e, s) /\ ErrorStatus e = 400.
Proof.
  intros PG s. split.
  - rewrite (proj1 (Draft_validates (mkEnergyPlan 0 1 " eco " "" 100 50 90 0) [mkPlanDevice 0 3 f1] 10 s)).
    + vm_compute; reflexivity.
    + split_and!; simpl; try done; repeat constructor; set_solver.
  - apply (Draft_validates (mkEnergyPlan 0 1 " eco " "" 100 50 90 0) [] 10 s). by intros (_&_&_&_&_&?&_).
Defined.
