(* ===== verification/Automations.v ===== *)
(** * service/automation.go and the execution of automation runs

    [AutomationRepository] is what the service relies on; [Repo] implements it.
    [automation_history] and [run_history] are the abstract specifications of
    the two tables: the automation lifecycle, and the queue of runs with
    [run_step] as its transitions. *)
From S2P Require Import Prelude Errors GoStd Model Rules Store Repo Frame.

(** ** The specification of an automation's history *)
Definition automation_steps : list (AutomationState * AutomationState) :=
  [ (AutomationDraft, AutomationActive); (AutomationActive, AutomationPaused) ].
Definition automation_step (a b : AutomationState) : Prop := (a, b) ∈ automation_steps.

#[export] Instance automation_step_dec a b : Decision (automation_step a b).
Proof. unfold automation_step. apply _. Defined.

Definition with_automation_state (to : AutomationState) (a : Automation) : Automation :=
  mkAutomation (a_ID a) (a_HouseholdID a) (a_Name a) to (a_TriggerKind a) (a_CreatedAt a).

Definition automation_evolves (r r' : Automation) : Prop :=
  r' = with_automation_state (a_State r') r /\ rtc automation_step (a_State r) (a_State r').
Definition new_automation (id : Z) (r : Automation) : Prop := a_ID r = id /\ a_State r = AutomationDraft.
Definition automation_history : Database -> Database -> Prop := evolve new_automation automation_evolves.

#[export] Instance automation_evolves_PreOrder : PreOrder automation_evolves.
Proof.
  split.
  - intros r. split; [by destruct r | constructor].
  - intros r1 r2 r3 [E12 H12] [E23 H23]. split; [|by etransitivity].
    rewrite E23, E12. by destruct r1.
Qed.
#[export] Instance automation_history_TwoState : TwoState automation_history.
Proof. apply evolve_TwoState, _. Qed.

(** ** The specification of the runs *)
Definition final_states : list RunState := [RunSucceeded; RunFailed; RunCancelled].

Inductive run_step : AutomationRun -> AutomationRun -> Prop :=
| step_claim r t : r_State r = RunQueued ->
    run_step r (with_run_state RunRunning (r_ErrorText r) (Some t) (r_FinishedAt r) r)
| step_requeue r : r_State r = RunRunning ->
    run_step r (with_run_state RunQueued None None None r)
| step_finish r state text t : r_State r = RunRunning -> state ∈ final_states ->
    run_step r (with_run_state state text (r_StartedAt r) (Some t) r).

Definition new_run (id : Z) (r : AutomationRun) : Prop :=
  exists automation key, r = mkRun id automation key RunQueued None None None.

(** The ids are the keys of the table, and an automation has one run per key. *)
Definition runs_keyed (runs : gmap Z AutomationRun) : Prop :=
  (forall id r, runs !! id = Some r -> r_ID r = id) /\
  (forall i j r r', runs !! i = Some r -> runs !! j = Some r' ->
     r_AutomationID r = r_AutomationID r' -> r_IdempotencyKey r = r_IdempotencyKey r' -> i = j).

Definition run_history : Database -> Database -> Prop :=
  both (evolve new_run (rtc run_step)) (keeps runs_keyed).

#[export] Instance run_history_TwoState : TwoState run_history.
Proof. unfold run_history. apply _. Qed.

(** Timestamps agree with the state. *)
Definition run_wf (r : AutomationRun) : Prop :=
  r_State r ∈ run_states /\
  (r_StartedAt r = None <-> r_State r = RunQueued) /\
  (r_FinishedAt r <> None <-> r_State r ∈ final_states).

Lemma run_step_key r r' : run_step r r' ->
  r_ID r' = r_ID r /\ r_AutomationID r' = r_AutomationID r /\ r_IdempotencyKey r' = r_IdempotencyKey r.
Proof. by destruct 1. Qed.

Lemma run_steps_key r r' : rtc run_step r r' ->
  r_ID r' = r_ID r /\ r_AutomationID r' = r_AutomationID r /\ r_IdempotencyKey r' = r_IdempotencyKey r.
Proof.
  induction 1 as [|r1 r2 r3 Hs _ IH]; [done|]. apply run_step_key in Hs. intuition congruence.
Qed.

Lemma run_step_wf r r' : run_step r r' -> run_wf r -> run_wf r'.
Proof.
  unfold run_wf. destruct 1 as [r t Hst|r Hst|r state text t Hst Hfin]; intros (Hk & Hs & Hf); simpl.
  - rewrite Hst in *. split_and!; [mem|naive_solver|]. rewrite Hf.
    split; intros H; exfalso; revert H; apply (bool_decide_unpack _); by vm_compute.
  - split_and!; [mem|naive_solver|]. split; [done|]. intros H; exfalso; revert H.
    apply (bool_decide_unpack _); by vm_compute.
  - split_and!; [|split|by split].
    + unfold final_states, run_states in *. set_solver.
    + rewrite Hs, Hst. done.
    + intros ->. exfalso. revert Hfin. apply (bool_decide_unpack _); by vm_compute.
Qed.

Lemma run_final r r' : rtc run_step r r' -> r_State r ∈ final_states -> r' = r.
Proof.
  intros Hs Hf. destruct Hs as [|r r2 r3 Hs _]; [done|]. exfalso. revert Hf.
  destruct Hs as [r t ->|r ->|r st tx t -> _]; apply (bool_decide_unpack _); by vm_compute.
Qed.

(** ** Statements on the runs *)
Section run_statements.
Context `{PG : Postgres}.

Lemma runs_keyed_update runs id r r' :
  runs !! id = Some r -> run_step r r' -> runs_keyed runs -> runs_keyed (<[id := r']> runs).
Proof.
  intros Hr (Ei & Ea & Ek)%run_step_key [Hid Huniq].
  assert (forall j x, <[id := r']> runs !! j = Some x ->
    exists y, runs !! j = Some y /\ r_ID x = r_ID y /\ r_AutomationID x = r_AutomationID y /\
              r_IdempotencyKey x = r_IdempotencyKey y) as Hold.
  { intros j x. destruct (decide (id = j)) as [->|?].
    - rewrite lookup_insert_eq. intros [= <-]. by exists r.
    - rewrite lookup_insert_ne by done. by exists x. }
  split.
  - intros j x (y & Hy & -> & _)%Hold. by apply Hid.
  - intros i j x x' (y & Hy & _ & -> & ->)%Hold (y' & Hy' & _ & -> & ->)%Hold. by apply (Huniq i j).
Qed.

Lemma guarantees_run_history_evolve {A} (f : Database -> Time -> result A * Database) :
  (forall d now, evolve new_run (rtc run_step) d (f d now).2) ->
  (forall d now, keeps runs_keyed d (f d now).2) -> guarantees run_history (statement f).
Proof. intros H1 H2. apply guarantees_both; apply guarantees_statement; done || apply _. Qed.

Lemma runs_update_row id cond upd :
  (forall d r r' now, cond d r = true -> upd r now = Ok r' -> run_step r r') ->
  guarantees run_history (statement (update_row id cond upd)).
Proof.
  intros Hu. apply guarantees_run_history_evolve.
  - apply update_row_evolve; [apply _|]. intros. apply rtc_once. eauto.
  - intros d now. unfold keeps, update_row. destruct (rows d !! id) as [r|] eqn:Hr; [|done].
    repeat case_match; simpl; try done. apply (runs_keyed_update _ _ _ _ Hr). eauto.
Qed.

Lemma runs_claim_row locked cond upd :
  (forall r r' now, cond r now = true -> upd r now = Ok r' -> run_step r r') ->
  guarantees run_history (statement (claim_row locked cond upd)).
Proof.
  intros Hu. apply guarantees_run_history_evolve.
  - apply claim_row_evolve; [apply _|]. intros. apply rtc_once. eauto.
  - intros d now. unfold keeps, claim_row.
    destruct (candidate _ _ d) as [[id r]|] eqn:Hc; [|done].
    apply candidate_Some in Hc as (Hr & Hcond & _). repeat case_match; simpl; try done.
    apply (runs_keyed_update _ _ _ _ Hr). eauto.
Qed.

Lemma runs_update_rows cond upd :
  (forall r now, cond r = true -> run_step r (upd r now)) ->
  guarantees run_history (statement (update_rows cond upd)).
Proof.
  intros Hu. apply guarantees_run_history_evolve.
  - apply update_rows_evolve; [apply _|]. intros. apply rtc_once. eauto.
  - intros d now. unfold keeps, update_rows. case_bool_decide; simpl; [|done].
    intros [Hid Huniq].
    assert (forall j x, ((fun r => if cond r then upd r now else r) <$> automation_runs d) !! j = Some x ->
      exists y, automation_runs d !! j = Some y /\ r_ID x = r_ID y /\
        r_AutomationID x = r_AutomationID y /\ r_IdempotencyKey x = r_IdempotencyKey y) as Hold.
    { intros j x. rewrite lookup_fmap. destruct (automation_runs d !! j) as [y|]; [|done]. simpl.
      intros [= <-]. exists y. split; [done|]. destruct (cond y) eqn:Hc; [|done].
      exact (run_step_key _ _ (Hu y now Hc)). }
    split.
    + intros j x (y & Hy & -> & _)%Hold. by apply Hid.
    + intros i j x x' (y & Hy & _ & -> & ->)%Hold (y' & Hy' & _ & -> & ->)%Hold. by apply (Huniq i j).
Qed.

(** Inserting a run whose key is free keeps the table keyed. *)
Lemma queue_run_keeps a key d now : runs_keyed (automation_runs d) ->
  runs_keyed (automation_runs (queue_run a key d now).2).
Proof.
  intros [Hid Huniq]. unfold queue_run.
  destruct (automations d !! a) as [au|]; [|done]. case_match; [|done].
  destruct (List.filter _ _) as [|run rest] eqn:Hf; [|done].
  unfold insert_row. repeat case_match; simpl; try done.
  case_bool_decide as Hn; [done|].
  assert (forall x, x ∈ rows_by_id d -> r_AutomationID x = a -> r_IdempotencyKey x = key -> False) as Hfree.
  { intros x Hx Ha Hk. apply (proj1 (filter_nil _ _) Hf) in Hx.
    rewrite Ha, Hk, Z.eqb_refl, bool_decide_eq_true_2 in Hx by done. done. }
  set (n := nextval d) in *.
  split.
  - intros j x. destruct (decide (n = j)) as [<-|?];
      [rewrite lookup_insert_eq; by intros [= <-] | rewrite lookup_insert_ne by done; apply Hid].
  - intros i j x x'. destruct (decide (n = i)) as [<-|?], (decide (n = j)) as [<-|?]; [done| | |];
      rewrite ?lookup_insert_eq, ?lookup_insert_ne by done.
    + intros [= <-] Hx' Ha Hk. destruct (Hfree x'); [apply rows_by_id_elem; by exists j|done|done].
    + intros Hx [= <-] Ha Hk. destruct (Hfree x); [apply rows_by_id_elem; by exists i|done|done].
    + apply Huniq.
Qed.

Lemma queue_run_history a key : guarantees run_history (statement (queue_run a key)).
Proof.
  apply guarantees_run_history_evolve.
  - intros d now. unfold queue_run. destruct (automations d !! a); [|by apply evolve_same; [apply _|]].
    case_match; [|by apply evolve_same; [apply _|]].
    case_match; [|by apply evolve_same; [apply _|]]. apply insert_row_evolve; [apply _|].
    intros id t. by eexists _, _.
  - intros d now. unfold keeps. apply queue_run_keeps.
Qed.
End run_statements.

(** ** The interface *)
Definition automations_history : Database -> Database -> Prop := both automation_history run_history.

#[export] Instance automations_history_TwoState : TwoState automations_history.
Proof. unfold automations_history. apply _. Qed.

Class AutomationRepository := {
  CreateAutomation : Automation -> list AutomationAction -> M Automation;
  GetAutomation : Z -> M Automation;
  GetDevice : Z -> M Device;
  SetAutomationState : Z -> AutomationState -> AutomationState -> M unit;
  QueueRun : Z -> string -> M AutomationRun;
  ExecuteAutomationRun : Z -> Time -> M unit;
  CreateAutomation_history a acts : guarantees automations_history (CreateAutomation a acts);
  GetAutomation_history id : guarantees automations_history (GetAutomation id);
  GetDevice_history id : guarantees automations_history (GetDevice id);
  SetAutomationState_history id from to :
    automation_step from to -> guarantees automations_history (SetAutomationState id from to);
  QueueRun_history id key : guarantees automations_history (QueueRun id key);
  ExecuteAutomationRun_history id t : guarantees automations_history (ExecuteAutomationRun id t);
  (** The run returned is a row of the automation with that key. *)
  QueueRun_row id key s run s' :
    rely automations_history s -> runs_keyed (automation_runs (db s)) ->
    QueueRun id key s = (Ok run, s') ->
    exists r, automation_runs (db s') !! r_ID run = Some r /\ run = returned_run r /\
              r_AutomationID r = id /\ r_IdempotencyKey r = key
}.

Section service.
Context `{AutomationRepository}.

(** [AutomationService.ValidateAction]. *)
Definition ValidateAction (kind : DeviceKind) (action : string) : option error :=
  if bool_decide (kind = KindLight) then
    if negb (bool_decide (action = "on")) && negb (bool_decide (action = "off"))
    then Some (Sentinel ErrInvalid) else None
  else if bool_decide (kind = KindThermostat) then
    if negb (bool_decide (action = "heat")) && negb (bool_decide (action = "cool"))
    then Some (Sentinel ErrInvalid) else None
  else if bool_decide (kind = KindLock) then
    if negb (bool_decide (action = "lock")) && negb (bool_decide (action = "unlock"))
    then Some (Sentinel ErrInvalid) else None
  else Some (wrap_suffix (Sentinel ErrInvalid) "device kind is not commandable").

(** The loop of [Create]: [seen] holds the ordinals met, the result the actions with
    their text trimmed, as the loop leaves them in the slice. *)
Fixpoint check_actions (household : Z) (seen : gset Z) (actions : list AutomationAction)
    : M (list AutomationAction) :=
  match actions with
  | [] => mret []
  | a :: rest =>
      let action := mkAction (aa_ID a) (aa_AutomationID a) (aa_DeviceID a) (TrimSpace (aa_Action a)) (aa_Ordinal a) in
      if (aa_DeviceID action <=? 0) || bool_decide (aa_Action action = "") || (aa_Ordinal action <? 0)
         || bool_decide (aa_Ordinal action ∈ seen)
      then mfail (Sentinel ErrInvalid)
      else
        device ← GetDevice (aa_DeviceID action);
        if negb (d_HouseholdID device =? household) || negb (bool_decide (d_State device = DeviceEnabled))
        then mfail (Sentinel ErrConflict)
        else match ValidateAction (d_Kind device) (aa_Action action) with
             | Some e => mfail e
             | None =>
                 rest' ← check_actions household ({[aa_Ordinal action]} ∪ seen) rest;
                 mret (action :: rest')
             end
  end.

Definition Create (a : Automation) (actions : list AutomationAction) : M Automation :=
  let a := mkAutomation (a_ID a) (a_HouseholdID a) (TrimSpace (a_Name a)) (a_State a)
             (TrimSpace (a_TriggerKind a)) (a_CreatedAt a) in
  if (a_HouseholdID a <=? 0) || bool_decide (a_Name a = "") || bool_decide (a_TriggerKind a = "")
     || bool_decide (actions = [])
  then mfail (Sentinel ErrInvalid)
  else
    actions ← check_actions (a_HouseholdID a) ∅ actions;
    CreateAutomation a actions.

Definition Queue (automationID : Z) (key : string) : M AutomationRun :=
  if (automationID <=? 0) || bool_decide (TrimSpace key = "") then mfail (Sentinel ErrInvalid)
  else
    automation ← GetAutomation automationID;
    if negb (bool_decide (a_State automation = AutomationActive)) then mfail (Sentinel ErrConflict)
    else QueueRun automationID key.

Definition Activate (automationID : Z) : M unit :=
  if automationID <=? 0 then mfail (Sentinel ErrInvalid)
  else SetAutomationState automationID AutomationDraft AutomationActive.

Definition Pause (automationID : Z) : M unit :=
  if automationID <=? 0 then mfail (Sentinel ErrInvalid)
  else SetAutomationState automationID AutomationActive AutomationPaused.

(** [now] is the reading of the service's clock, [ctx] the state of the context. *)
Definition Execute (ctx : Ctx) (runID : Z) (now : Time) : M unit :=
  if runID <=? 0 then mfail (Sentinel ErrInvalid)
  else match ctx_Err ctx with
       | Some e => mfail e
       | None => ExecuteAutomationRun runID now
       end.

(** ** The service respects the histories *)
#[local] Hint Resolve CreateAutomation_history GetAutomation_history GetDevice_history
  QueueRun_history ExecuteAutomationRun_history : repo.

Lemma check_actions_history h seen actions : guarantees automations_history (check_actions h seen actions).
Proof.
  revert seen. induction actions as [|a rest IH]; intros seen; cbn [check_actions]; [eauto with repo|].
  case_match; [eauto with repo|]. g_bind. case_match; [eauto with repo|].
  case_match; [eauto with repo|]. g_bind. eauto with repo.
Qed.
Lemma Create_history a actions : guarantees automations_history (Create a actions).
Proof. unfold Create. case_match; [eauto with repo|]. g_bind; [apply check_actions_history|]. eauto with repo. Qed.
Lemma Queue_history id key : guarantees automations_history (Queue id key).
Proof. unfold Queue. case_match; [eauto with repo|]. g_bind. case_match; eauto with repo. Qed.
Lemma Activate_history id : guarantees automations_history (Activate id).
Proof. unfold Activate. case_match; [eauto with repo|]. apply SetAutomationState_history. mem. Qed.
Lemma Pause_history id : guarantees automations_history (Pause id).
Proof. unfold Pause. case_match; [eauto with repo|]. apply SetAutomationState_history. mem. Qed.
Lemma Execute_history ctx id now : guarantees automations_history (Execute ctx id now).
Proof. unfold Execute. repeat case_match; eauto with repo. Qed.
End service.

Record RetryPolicy := mkRetryPolicy { rp_Limit : Z; rp_Base : Duration }.

(** [RetryPolicy.Delay]: the product of durations wraps around. *)
Definition Delay (p : RetryPolicy) (attempt : Z) : Duration :=
  if attempt <? 1 then rp_Base p
  else
    let attempt := if 10 <? attempt then 10 else attempt in
    wrap64 (rp_Base p * Z.shiftl 1 (attempt - 1)).

(** ** The repository implements the interface *)
Section implementation.
Context `{PG : Postgres}.

(** Statements on other tables, and reads. *)
#[local] Hint Extern 3 (guarantees automations_history _) =>
  unfold automations_history, automation_history, run_history : repo.
#[local] Hint Extern 3 (guarantees run_history _) => unfold run_history : repo.
#[local] Hint Extern 3 (guarantees automation_history _) => unfold automation_history : repo.

Lemma insert_action_history a h act : guarantees automations_history (statement (insert_action a h act)).
Proof.
  assert (forall d now, automations (insert_action a h act d now).2 = automations d /\
                        automation_runs (insert_action a h act d now).2 = automation_runs d) as Hf.
  { intros d now. unfold insert_action, insert_row.
    repeat (case_match; simplify_eq/=; try done). }
  apply guarantees_both; [|apply guarantees_both]; g_statement; intros d now.
  - apply evolve_same; [apply _|]. apply Hf.
  - apply evolve_same; [apply _|]. apply Hf.
  - unfold keeps. simpl. by rewrite (proj2 (Hf d now)).
Qed.

Lemma insert_actions_history a h acts : guarantees automations_history (insert_actions a h acts).
Proof.
  induction acts as [|act acts IH]; cbn [insert_actions]; [eauto with repo|].
  g_bind; [|done]. apply guarantees_require_one, guarantees_map_err; [apply _..|].
  apply insert_action_history.
Qed.

Lemma CreateAutomation_repo_history a acts : guarantees automations_history (Repo.CreateAutomation a acts).
Proof.
  apply guarantees_WithTx; [apply _|].
  g_bind; [|g_bind; [apply insert_actions_history|eauto with repo]].
  apply guarantees_map_err, guarantees_both; [|eauto with repo].
  g_statement. by apply insert_row_evolve; [apply _|].
Qed.

Lemma SetAutomationState_repo_history id from to : automation_step from to ->
  guarantees automations_history (Repo.SetAutomationState id from to).
Proof.
  intros Hstep. apply guarantees_require_one; [apply _|]. apply guarantees_both; [|eauto with repo].
  g_statement. apply update_row_evolve; [apply _|]. intros d r r' now Hc [= <-]. bsimp.
  split; [done|]. apply rtc_once. simpl. congruence.
Qed.

Lemma finish_run_history id t : guarantees run_history
  (statement (update_row id (fun _ => is_running) (fun r _ => Ok (finish_succeeded t r)))).
Proof.
  apply runs_update_row. intros d r r' now Hc [= <-]. unfold is_running in Hc. bsimp.
  apply step_finish; [done|]. mem.
Qed.

Lemma enqueue_actions_history h a r t items :
  guarantees automations_history (enqueue_actions h a r t items).
Proof.
  induction items as [|item items IH]; cbn [enqueue_actions]; [eauto with repo|].
  case_match; [eauto with repo|]. by g_bind.
Qed.

Lemma ExecuteAutomationRun_repo_history id t :
  guarantees automations_history (Repo.ExecuteAutomationRun id t).
Proof.
  unfold Repo.ExecuteAutomationRun. case_match; [eauto with repo|].
  apply guarantees_WithTx; [apply _|]. unfold execute_run. g_bind. destruct a as [aid hid].
  g_bind. g_bind. g_bind; [apply enqueue_actions_history|]. g_bind.
  apply guarantees_require_one, guarantees_map_err, guarantees_both;
    [apply _|eauto with repo|apply finish_run_history].
Qed.

#[export, refine] Instance Repository_automations : AutomationRepository := {|
  CreateAutomation := Repo.CreateAutomation;
  GetAutomation := Repo.GetAutomation;
  GetDevice := Repo.GetDevice;
  SetAutomationState := Repo.SetAutomationState;
  QueueRun := Repo.QueueRun;
  ExecuteAutomationRun := Repo.ExecuteAutomationRun
|}.
Proof.
  - apply CreateAutomation_repo_history.
  - intros id. unfold Repo.GetAutomation. eauto with repo.
  - intros id. unfold Repo.GetDevice. eauto with repo.
  - apply SetAutomationState_repo_history.
  - intros id key. unfold Repo.QueueRun. apply guarantees_map_err. g_bind; [|eauto with repo].
    apply guarantees_both; [|apply queue_run_history]. unfold automation_history.
    g_statement. intros d now. apply evolve_same; [apply _|]. unfold queue_run, insert_row.
    by repeat (case_match; simplify_eq/=).
  - apply ExecuteAutomationRun_repo_history.
  - intros id key s run s' Hrely Hk HQ. apply map_err_Ok, bind_Ok in HQ as (r & s1 & HQ & Hret).
    injection Hret as <- <-.
    assert (runs_keyed (automation_runs (db s1))) as Hk1.
    { apply rely_both in Hrely as [_ Hr]. destruct (queue_run_history id key s Hr) as [[_ H1] _].
      rewrite HQ in H1. by apply H1. }
    apply statement_Ok in HQ as (s0 & _ & HQ). unfold queue_run in HQ.
    destruct (automations _ !! id) as [au|]; [|done]. case_match; [|done].
    destruct (List.filter _ _) as [|x rest] eqn:Hf.
    + apply insert_row_Ok in HQ as (-> & _ & E). simpl. eexists; split_and!; try reflexivity.
      rewrite E. apply lookup_insert_eq.
    + injection HQ as -> E. exists r.
      assert (r ∈ List.filter (fun r => (r_AutomationID r =? id) && bool_decide (r_IdempotencyKey r = key))
                (rows_by_id (db s0))) as Hin by (rewrite Hf; left).
      rewrite list_elem_of_In, filter_In, <-list_elem_of_In, rows_by_id_elem in Hin.
      destruct Hin as [[i Hi] Hc]. bsimp. split_and!; try done.
      assert (automation_runs (db s1) !! i = Some r) as Hi1 by (by rewrite <-E).
      simpl. by rewrite (proj1 Hk1 i r Hi1).
Defined.
End implementation.

(** ** What executing a run does *)
Definition command_row (hid aid rid : Z) (t : Time) `{Postgres} (id : Z) (item : LoadedAction) : OutboxMessage :=
  mkOutbox id hid "device.command" (Some (command_payload aid rid item)) 0 (ts_in t) None None None None.

(** One new message per action, in order, in rows that were free; nothing else moved. *)
Definition commands_added (row : Z -> LoadedAction -> OutboxMessage) (first : Z) (items : list LoadedAction)
    (before after : gmap Z OutboxMessage) : Prop :=
  (forall i item, items !! i = Some item ->
     before !! (first + Z.of_nat i) = None /\
     after !! (first + Z.of_nat i) = Some (row (first + Z.of_nat i) item)) /\
  (forall id, ~ (first <= id < first + Z.of_nat (length items)) -> after !! id = before !! id).

Definition dispatchable (hid : Z) (item : LoadedAction) : Prop :=
  la_household item = hid /\ la_state item = DeviceEnabled.

(** [executed runID t d d']: the run was running; its automation has actions, all on
    enabled devices of its household; a command is queued for each of them, the
    dispatch is audited, the run has succeeded, and no other table changed. *)
Definition executed `{Postgres} (runID : Z) (t : Time) (d d' : Database) : Prop :=
  exists r a,
    automation_runs d !! runID = Some r /\ r_State r = RunRunning /\
    automations d !! r_AutomationID r = Some a /\
    let hid := a_HouseholdID a in
    let items := loaded_actions (r_AutomationID r) d in
    items <> [] /\ Forall (dispatchable hid) items /\
    commands_added (command_row hid (r_AutomationID r) runID t) (nextval (R := OutboxMessage) d) items
      (outbox_messages d) (outbox_messages d') /\
    (exists id e, audit_events d !! id = None /\ audit_events d' = <[id := e]> (audit_events d) /\
       ae_Action e = "dispatched" /\ ae_ObjectID e = Sprint runID /\ ae_HouseholdID e = hid /\
       ae_Payload e = Some (JObject [("action_count"%string, JInt (Z.of_nat (length items)))])) /\
    automation_runs d' = <[runID := finish_succeeded t r]> (automation_runs d) /\
    exists q, d' = set_automation_runs (automation_runs d') (set_audit_events (audit_events d')
                     (set_outbox_messages (outbox_messages d') (set_seqs q d))).

Section execution.
Context `{PG : Postgres}.

Lemma enqueue_actions_tx hid aid rid t items s s' :
  in_tx s = true -> enqueue_actions hid aid rid t items s = (Ok tt, s') ->
  in_tx s' = true /\ clock s' = clock s /\ Forall (dispatchable hid) items /\
  commands_added (command_row hid aid rid t) (nextval (R := OutboxMessage) (db s)) items
    (outbox_messages (db s)) (outbox_messages (db s')) /\
  exists q, db s' = set_outbox_messages (outbox_messages (db s')) (set_seqs q (db s)).
Proof.
  revert s. induction items as [|item items IH]; intros s Htx; cbn [enqueue_actions].
  { intros [= <-]. split_and!; try done. exists (seqs (db s)). by destruct (db s). }
  destruct (_ || _) eqn:Hready; [done|]. bsimp.
  intros Hs.
  apply bind_Ok in Hs as (row & s1 & Hs & Hrest). apply map_err_Ok, tx_statement_Ok in Hs; [|done]. destruct Hs as (Hs & Htx1 & Hc1).
  unfold insert_outbox in Hs. simpl in Hs. apply insert_row_Ok in Hs as (-> & Hfree & Hdb1).
  apply IH in Hrest as (Htx' & Hc' & Hall & [Hnew Hold] & q & Hdb'); [|done].
  set (n := nextval (R := OutboxMessage) (db s)) in *.
  assert (nextval (R := OutboxMessage) (db s1) = n + 1) as Hn1.
  { rewrite Hdb1. unfold nextval at 1. simpl. by rewrite lookup_insert_eq. }
  rewrite Hn1 in *.
  assert (outbox_messages (db s1) = <[n := command_row hid aid rid t n item]> (outbox_messages (db s))) as Ho1
    by (by rewrite Hdb1).
  rewrite Ho1 in *.
  assert (forall i x, items !! i = Some x -> outbox_messages (db s) !! (n + 1 + Z.of_nat i) = None) as Hfree'.
  { intros i x Hi. destruct (Hnew i x Hi) as [Hf _]. by rewrite lookup_insert_ne in Hf by lia. }
  split_and!; [done|congruence|by constructor|split|].
  - intros [|i] x; simpl; [intros [= <-]|intros Hi].
    + replace (n + Z.of_nat 0) with n by lia. split; [done|].
      rewrite Hold by lia. by rewrite lookup_insert_eq.
    + replace (n + Z.of_nat (S i)) with (n + 1 + Z.of_nat i) by lia. split; [by eapply Hfree'|].
      by apply Hnew.
  - intros id Hid. simpl in Hid. rewrite Hold by lia. apply lookup_insert_ne. lia.
  - exists q. rewrite Hdb' at 1. by rewrite Hdb1.
Qed.

Lemma execute_run_tx rid t s s' :
  in_tx s = true -> execute_run rid t s = (Ok tt, s') -> executed rid t (db s) (db s').
Proof.
  intros Htx H. unfold execute_run in H.
  apply bind_Ok in H as ([aid hid] & s1 & H & Hrest).
  apply map_err_Ok, tx_statement_Ok in H; [|done]. destruct H as (H & Htx1 & Hc1).
  unfold lock_run in H. destruct (automation_runs (db s) !! rid) as [r|] eqn:Hr; [|done].
  destruct (is_running r) eqn:Hrun; [|done].
  destruct (automations (db s) !! r_AutomationID r) as [a|] eqn:Ha; [|done].
  injection H as <- <- Hdb1.
  apply bind_Ok in Hrest as (items & s2 & H & Hrest).
  apply map_err_Ok, tx_statement_Ok in H; [|done]. destruct H as (H & Htx2 & Hc2).
  injection H as <- Hdb2. rewrite <-Hdb1 in *.
  apply bind_Ok in Hrest as ([] & s3 & [Hne ->]%guard_fail_Ok & Hrest).
  apply bind_Ok in Hrest as ([] & s4 & H & Hrest).
  apply enqueue_actions_tx in H as (Htx4 & Hc4 & Hall & Hadd & q & Hdb4); [|done].
  rewrite <-Hdb2 in *.
  apply bind_Ok in Hrest as (e & s5 & H & Hrest).
  apply map_err_Ok, tx_statement_Ok in H; [|done]. destruct H as (H & Htx5 & Hc5).
  unfold insert_audit in H. simpl in H. apply insert_row_Ok in H as (-> & Hfree & Hdb5). simpl in Hfree, Hdb5.
  unfold require_one in Hrest. apply bind_Ok in Hrest as (n & s6 & H & Hret).
  apply map_err_Ok, tx_statement_Ok in H; [|done]. destruct H as (H & Htx6 & Hc6).
  destruct (n =? 1) eqn:En; [|done]. injection Hret as <-.
  assert (automation_runs (db s5) !! rid = Some r) as Hr5 by (by rewrite Hdb5, Hdb4).
  unfold complete_run, update_row in H. simpl in H. rewrite Hr5, Hrun in H. simpl in H. injection H as _ Hdb6.
  exists r, a. unfold is_running in Hrun. bsimp. cbv zeta. split_and!; try done.
  - rewrite <-Hdb6, Hdb5. exact Hadd.
  - assert (audit_events (db s4) = audit_events (db s)) as Ha4 by (by rewrite Hdb4).
    rewrite Ha4 in *. eexists _, _. split; [exact Hfree|]. split; [rewrite <-Hdb6, Hdb5; reflexivity|].
    by split_and!.
  - by rewrite <-Hdb6, Hdb5, Hdb4.
  - eexists. rewrite <-Hdb6, Hdb5, Hdb4. reflexivity.
Qed.
End execution.

(** ** Properties *)
Section properties.
Context `{PG : Postgres}.

(** C3: [ExecuteAutomationRun] is all or nothing under any failure of the database or
    the network: either only sequences moved, or the whole effect of [executed] is
    there, and then the call succeeded unless the reply of the commit was lost. *)
Theorem ExecuteAutomationRun_all_or_nothing runID t s r s' :
  Repo.ExecuteAutomationRun runID t s = (r, s') ->
  exists d, (d = db s \/ d = db (advance s).2) /\
    (((exists e, r = Fail e) /\ exists q, db s' = set_seqs q d) \/
     (executed runID t d (db s') /\
      (r = Ok tt \/ exists e, r = Fail (wrap_prefix "commit transaction" e)))).
Proof.
  unfold Repo.ExecuteAutomationRun. destruct (_ || _).
  - intros [= <- <-]. exists (db s). split; [by left|]. left. split; [by eexists|].
    exists (seqs (db s)). by destruct (db s).
  - intros Hrun. exists (db (advance s).2). split; [by right|].
    apply WithTx_inv in Hrun as [?|([] & s1 & Hrun & -> & Hr)]; [by left|right].
    split; [|done]. by apply execute_run_tx in Hrun.
Qed.

(** C13: the commands of a run are queued at most once: after an execution has taken
    effect, every later execution of that run fails and queues nothing, whatever
    happened in between. *)
Theorem run_dispatched_once runID t t' d d' s s' r :
  executed runID t d d' -> run_history d' (db s) -> rely run_history s ->
  Repo.ExecuteAutomationRun runID t' s = (r, s') ->
  (exists e, r = Fail e) /\
  (db s' = db s \/ exists q, db s' = set_seqs q (db (advance s).2)).
Proof.
  intros (r0 & a & _ & _ & _ & _ & _ & _ & _ & Hruns & _) Hh Hs. unfold Repo.ExecuteAutomationRun.
  destruct (_ || _); [intros [= <- <-]; eauto|]. intros Hrun.
  apply WithTx_inv in Hrun as [[? ?]|([] & s1 & Hrun & _ & _)]; [by eauto|]. exfalso.
  apply execute_run_tx in Hrun as (r1 & _ & Hr1 & Hst1 & _); [|done]. simpl in Hr1.
  destruct (advance_rely run_history s Hs) as [Hadv _].
  destruct (transitivity Hh Hadv) as [Hev _].
  assert (rows d' !! runID = Some (finish_succeeded t r0)) as Hr0 by (simpl; by rewrite Hruns, lookup_insert_eq).
  destruct (evolve_old _ _ _ _ Hev runID _ Hr0) as (r2 & Hr2 & Hsteps).
  apply run_final in Hsteps; [|mem]. simpl in Hr2. by simplify_eq.
Qed.

(** C30: queueing is idempotent: two requests with the same key that both succeed, at
    any distance and under any interference, name the same run of the automation. *)
Theorem QueueRun_idempotent `{AutomationRepository} id key s1 s1' s2 s2' run run' :
  rely automations_history s1 -> runs_keyed (automation_runs (db s1)) ->
  QueueRun id key s1 = (Ok run, s1') ->
  automations_history (db s1') (db s2) -> rely automations_history s2 ->
  QueueRun id key s2 = (Ok run', s2') ->
  r_ID run' = r_ID run.
Proof.
  intros Hs1 Hk1 HQ1 [_ [Hev Hkeep]] Hs2 HQ2.
  destruct (QueueRun_history id key s1 Hs1) as [[_ [_ Hk1']] _]. rewrite HQ1 in Hk1'.
  destruct (QueueRun_history id key s2 Hs2) as [[_ [Hev2 Hk2']] _]. rewrite HQ2 in Hev2, Hk2'.
  apply Hk1' in Hk1 as Hk. apply Hkeep in Hk. simpl in *.
  apply QueueRun_row in HQ1 as (r & Hr & -> & Ha & Hkey); [|done..].
  apply QueueRun_row in HQ2 as (r' & Hr' & -> & Ha' & Hkey'); [|done..].
  apply Hk2' in Hk as [_ Huniq].
  destruct (evolve_old _ _ _ _ Hev _ _ Hr) as (x & Hx & Hst).
  destruct (evolve_old _ _ _ _ Hev2 _ _ Hx) as (y & Hy & Hst').
  destruct (run_steps_key _ _ (transitivity Hst Hst')) as (_ & Hya & Hyk). simpl in *.
  eapply (Huniq _ _ r' y); [done|done|congruence|congruence].
Qed.


(** [Delay] doubles the base with every attempt up to the tenth, exactly and
    without overflow, for any base of up to half a year. *)
Theorem Delay_doubles p attempt :
  0 <= rp_Base p <= int64_max `div` 512 ->
  Delay p attempt = rp_Base p * 2 ^ (Z.max 1 (Z.min attempt 10) - 1) /\
  0 <= Delay p attempt <= 512 * rp_Base p /\
  (1 <= attempt < 10 -> Delay p (attempt + 1) = 2 * Delay p attempt).
Proof.
  intros Hb.
  assert (forall n, Delay p n = rp_Base p * 2 ^ (Z.max 1 (Z.min n 10) - 1)) as HD.
  { intros n. unfold Delay. destruct (n <? 1) eqn:E; bsimp.
    { rewrite Z.max_l by lia. simpl. lia. }
    rewrite Z.max_r by lia. replace (if 10 <? n then 10 else n) with (Z.min n 10) by (case_match; bsimp; lia).
    rewrite Z.shiftl_mul_pow2, Z.mul_1_l by lia.
    assert (1 <= 2 ^ (Z.min n 10 - 1) <= 512).
    { split; [apply Z.lt_pred_le; simpl; apply Z.pow_pos_nonneg; lia|].
      change 512 with (2 ^ 9). apply Z.pow_le_mono_r; lia. }
    apply wrap64_small. unfold is_int64, int64_min, int64_max in *.
    assert ((2 ^ 63 - 1) `div` 512 = 18014398509481983) as Hd by done. rewrite Hd in Hb. nia. }
  rewrite !HD.
  assert (1 <= 2 ^ (Z.max 1 (Z.min attempt 10) - 1) <= 512).
  { split; [apply Z.lt_pred_le; simpl; apply Z.pow_pos_nonneg; lia|].
    change 512 with (2 ^ 9). apply Z.pow_le_mono_r; lia. }
  split_and!; [done|nia|nia|]. intros Ha.
  rewrite !Z.max_r, !Z.min_l by lia. replace (attempt + 1 - 1) with (Z.succ (attempt - 1)) by lia.
  rewrite Z.pow_succ_r by lia. lia.
Qed.
End properties.

(** ** The queue of runs: what the workers call *)
Section queue.
Context `{PG : Postgres}.

Lemma ClaimRun_history locked : guarantees run_history (ClaimRun locked).
Proof.
  apply runs_claim_row. intros r r' now Hc [= <-]. bsimp. by apply step_claim.
Qed.
Lemma FinishRun_history id state cause now : state ∈ final_states ->
  guarantees run_history (FinishRun id state cause now).
Proof.
  intros Hf. apply guarantees_require_one, guarantees_map_err; [apply _|].
  apply runs_update_row. intros d r r' t Hc [= <-]. unfold is_running in Hc. bsimp. by apply step_finish.
Qed.
Lemma RequeueRun_history id : guarantees run_history (RequeueRun id).
Proof.
  apply guarantees_require_one, guarantees_map_err; [apply _|].
  apply runs_update_row. intros d r r' t Hc [= <-]. unfold is_running in Hc. bsimp. by apply step_requeue.
Qed.
Lemma FinishStaleRuns_history cutoff : guarantees run_history (FinishStaleRuns cutoff).
Proof.
  apply runs_update_rows. intros r now Hc. unfold stale, is_running in Hc. bsimp.
  apply step_finish; [done|mem].
Qed.

(** On a quiet database [ClaimRun] takes the queued run of the smallest id among
    those no other worker holds, marks it running from now on and returns it; it
    reports that there is no row exactly when nothing is left to take. *)
Theorem ClaimRun_takes_first locked d now :
  (exists id r,
     automation_runs d !! id = Some r /\ r_State r = RunQueued /\ ~ (id ∈ locked) /\
     (forall j x, automation_runs d !! j = Some x -> r_State x = RunQueued -> ~ (j ∈ locked) -> id <= j) /\
     let r' := with_run_state RunRunning (r_ErrorText r) (Some now) (r_FinishedAt r) r in
     ClaimRun locked (quiet_store d now) =
       (Ok r', quiet_store (set_automation_runs (<[id := r']> (automation_runs d)) d) now)) \/
  ((forall j x, automation_runs d !! j = Some x -> r_State x = RunQueued -> j ∈ locked) /\
   ClaimRun locked (quiet_store d now) = (Fail (Sentinel ErrNoRows), quiet_store d now)).
Proof.
  unfold ClaimRun, statement, advance; simpl. unfold claim_run, claim_row.
  pose proof (candidate_spec locked (fun r : AutomationRun => bool_decide (r_State r = RunQueued)) d) as Hc.
  destruct (candidate _ _ d) as [[id r]|]; [left|right].
  - destruct Hc as (Hr & Hst & Hl & Hmin). bsimp. exists id, r. split_and!; try done.
    intros j x Hx Hq Hlj. apply (Hmin j x Hx); [by apply bool_decide_eq_true|done].
  - split; [|done]. intros j x Hx Hq. apply (Hc j x Hx). by apply bool_decide_eq_true.
Qed.
End queue.

(** ** Examples *)
Definition example_run (state : RunState) : AutomationRun :=
  mkRun 9 2 "k" state None (if bool_decide (state = RunQueued) then None else Some 40) None.

Definition example_runs (r : AutomationRun) : Database :=
  set_households {[1 := mkHousehold 1 "home" "UTC" 0 0]}
  (set_devices {[3 := mkDevice 3 1 "lamp" KindLight DeviceEnabled "1.0" 3 None 5]}
  (set_automations {[2 := mkAutomation 2 1 "night" AutomationActive "clock" 6]}
  (set_automation_actions {[5 := mkAction 5 2 3 "on" 0]}
  (set_automation_runs {[9 := r]} empty_database)))).

Lemma run_dispatched_once_witness :
  let _ := exact_postgres in
  let s := quiet_store (example_runs (example_run RunRunning)) 50 in
  let s' := (Repo.ExecuteAutomationRun 9 50 s).2 in
  (Repo.ExecuteAutomationRun 9 50 s).1 = Ok tt /\
  outbox_messages (db s') !! 1 =
    Some (command_row 1 2 9 50 1 (mkLoaded 3 "on" 0 1 DeviceEnabled)) /\
  exists e, (Repo.ExecuteAutomationRun 9 60 s').1 = Fail e.
Proof.
  intros PG s s'. split; [vm_compute; reflexivity|]. split; [vm_compute; reflexivity|].
  assert (executed 9 50 (db s) (db s')) as Hex.
  { exists (example_run RunRunning), (mkAutomation 2 1 "night" AutomationActive "clock" 6).
    assert (loaded_actions 2 (db s) = [mkLoaded 3 "on" 0 1 DeviceEnabled]) as Hl by (vm_compute; reflexivity).
    cbv zeta. simpl r_AutomationID. rewrite Hl. split_and!; try (vm_compute; reflexivity).
    - done.
    - by repeat constructor.
    - split.
      + intros [|i] item; [intros [= <-]; split; vm_compute; reflexivity | done].
      + intros id Hid. change (outbox_messages (db s')) with
          ({[1 := command_row 1 2 9 50 1 (mkLoaded 3 "on" 0 1 DeviceEnabled)]} : gmap Z OutboxMessage).
        assert (nextval (R := OutboxMessage) (db s) = 1) as Hn by reflexivity.
        rewrite Hn in Hid. simpl in Hid. rewrite lookup_singleton_ne; [done|lia].
    - eexists 1, _. split; [vm_compute; reflexivity|]. split; [vm_compute; reflexivity|]. by split_and!.
    - eexists. vm_compute; reflexivity. }
  destruct (Repo.ExecuteAutomationRun 9 60 s') as [r s''] eqn:Hsecond.
  destruct (run_dispatched_once 9 50 60 (db s) (db s') s' s'' r Hex) as [[e ->] _];
    [reflexivity|by constructor|exact Hsecond|].
  by exists e.
Defined.

Lemma ExecuteAutomationRun_all_or_nothing_witness :
  let _ := exact_postgres in
  let lost := mkEvent id 0 (FailAfter (Sentinel Canceled)) in
  let s := mkStore (example_runs (example_run RunRunning)) 50 false
             (replicate 6 quiet ++ [lost]) in
  (Repo.ExecuteAutomationRun 9 50 s).1 = Fail (wrap_prefix "commit transaction" (Sentinel Canceled)) /\
  exists d, executed 9 50 d (db (Repo.ExecuteAutomationRun 9 50 s).2).
Proof.
  intros PG lost s. split; [vm_compute; reflexivity|].
  destruct (ExecuteAutomationRun_all_or_nothing 9 50 s _ _ (surjective_pairing _))
    as (d & Hd & [[_ [q Hq]]|[Hex _]]); [exfalso|by exists d].
  assert (size (outbox_messages (db (Repo.ExecuteAutomationRun 9 50 s).2)) = 1%nat) as Hsize
    by (vm_compute; reflexivity).
  rewrite Hq in Hsize. destruct Hd as [-> | ->]; vm_compute in Hsize; discriminate Hsize.
Defined.

Definition keyed_runs : gmap Z AutomationRun := {[9 := example_run RunQueued]}.

Lemma keyed_runs_ok : runs_keyed keyed_runs.
Proof.
  unfold keyed_runs. split.
  - by intros id r [<- <-]%lookup_singleton_Some.
  - by intros i j r r' [<- <-]%lookup_singleton_Some [<- <-]%lookup_singleton_Some.
Qed.

Lemma keyed_runs_wf : map_Forall (fun _ => run_wf) keyed_runs.
Proof.
  unfold keyed_runs. intros id r [<- <-]%lookup_singleton_Some. split_and!; simpl; [mem|done|].
  split; [done|]. intros Hin. exfalso. revert Hin. apply (bool_decide_unpack _); by vm_compute.
Qed.

Lemma QueueRun_idempotent_witness :
  let _ := exact_postgres in
  let s := quiet_store (example_runs (example_run RunQueued)) 50 in
  exists run run', (QueueRun 2 "k" s).1 = Ok run /\ (QueueRun 2 "k" (QueueRun 2 "k" s).2).1 = Ok run' /\
    r_ID run' = r_ID run.
Proof.
  intros PG s. eexists _, _. split; [vm_compute; reflexivity|]. split; [vm_compute; reflexivity|].
  apply (QueueRun_idempotent 2 "k" s (QueueRun 2 "k" s).2 (QueueRun 2 "k" s).2
           (QueueRun 2 "k" (QueueRun 2 "k" s).2).2 (mkRun 9 2 "k" RunQueued None None None)
           (mkRun 9 2 "k" RunQueued None None None)).
  - constructor.
  - apply keyed_runs_ok.
  - vm_compute; reflexivity.
  - reflexivity.
  - apply (QueueRun_history 2 "k" s). constructor.
  - vm_compute; reflexivity.
Defined.


Lemma Delay_doubles_witness :
  Delay (mkRetryPolicy 5 Second) 3 = 4 * Second /\ Delay (mkRetryPolicy 5 Second) 40 = 512 * Second.
Proof.
  split.
  - rewrite (proj1 (Delay_doubles (mkRetryPolicy 5 Second) 3 ltac:(done))). reflexivity.
  - rewrite (proj1 (Delay_doubles (mkRetryPolicy 5 Second) 40 ltac:(done))). reflexivity.
Defined.

Lemma ClaimRun_takes_first_witness :
  let _ := exact_postgres in
  let d := example_runs (example_run RunQueued) in
  exists r s', ClaimRun ∅ (quiet_store d 50) = (Ok r, s') /\ r_ID r = 9 /\ r_StartedAt r = Some 50.
Proof.
  intros PG d.
  destruct (ClaimRun_takes_first ∅ d 50) as [(id & r & Hr & _ & _ & _ & ->)|[Hnone _]].
  - apply (lookup_singleton_Some 9 id (example_run RunQueued) r) in Hr as [<- <-]. eexists _, _. by split_and!.
  - exfalso. specialize (Hnone 9 (example_run RunQueued) eq_refl eq_refl). set_solver.
Defined.
