(* ===== verification/Outbox.v ===== *)
(** * repo/outbox.go and the outbox runner of worker/worker.go

    The outbox as a queue with leases: [outbox_step] is what may happen to a
    message, [outbox_history] the history of the table, and [process] one poll of
    [OutboxRunner].  The publisher is a parameter. *)
From S2P Require Import Prelude Errors GoStd Model Store Repo Frame.

(** ** The specification of a message's history *)
Definition lease : Duration := 5 * Minute.

Definition leased (m : OutboxMessage) (now : Time) : OutboxMessage :=
  mkOutbox (o_ID m) (o_HouseholdID m) (o_Topic m) (o_Payload m) (o_Attempts m + 1)
    (o_AvailableAt m) (Some now) (o_DeliveredAt m) (o_FailedAt m) (o_FailureReason m).
Definition retried (m : OutboxMessage) (payload : option json) (attempts : Z) (available : Time) : OutboxMessage :=
  mkOutbox (o_ID m) (o_HouseholdID m) (o_Topic m) payload attempts available
    None (o_DeliveredAt m) (o_FailedAt m) (o_FailureReason m).

Inductive outbox_step : OutboxMessage -> OutboxMessage -> Prop :=
| step_lease m now : claimable m now = true -> outbox_step m (leased m now)
| step_deliver m now : pending m = true -> outbox_step m (deliver m now)
| step_fail m reason now : pending m = true -> outbox_step m (fail_message reason m now)
| step_retry m payload attempts available : pending m = true -> 0 <= attempts ->
    outbox_step m (retried m payload attempts available).

Definition new_message (id : Z) (m : OutboxMessage) : Prop :=
  exists household topic payload available,
    m = mkOutbox id household topic (Some payload) 0 available None None None None.
Definition outbox_history : Database -> Database -> Prop := evolve new_message (rtc outbox_step).

#[export] Instance outbox_history_TwoState : TwoState outbox_history.
Proof. apply evolve_TwoState, _. Qed.

(** A message has one outcome at most, a reason exactly when it failed, and no lease
    once it is done. *)
Definition message_wf (m : OutboxMessage) : Prop :=
  0 <= o_Attempts m /\ (o_DeliveredAt m = None \/ o_FailedAt m = None) /\
  (o_FailureReason m = None <-> o_FailedAt m = None) /\
  (pending m = false -> o_LockedAt m = None).

Lemma pending_None m : pending m = true <-> o_DeliveredAt m = None /\ o_FailedAt m = None.
Proof. unfold pending. by rewrite andb_true_iff, !bool_decide_eq_true. Qed.

Lemma claimable_pending m now : claimable m now = true -> pending m = true.
Proof. unfold claimable. intros H. by bsimp. Qed.

Lemma outbox_step_wf m m' : outbox_step m m' -> message_wf m -> message_wf m'.
Proof.
  destruct 1 as [m now Hp%claimable_pending|m now Hp|m reason now Hp|m payload n av Hp Hn];
    pose proof (proj1 (pending_None m) Hp) as [Hd Hf]; intros (Ha & _ & Hr & Hl);
    (split_and!; simpl; [lia|auto|try done; naive_solver|]); try done.
  unfold pending in *. simpl. intros E. congruence.
Qed.

Lemma message_final m m' : rtc outbox_step m m' -> pending m = false -> m' = m.
Proof.
  intros Hs Hp. destruct Hs as [|m m2 m3 Hs _]; [done|]. exfalso.
  destruct Hs as [m now Hc%claimable_pending|m now Hc|m reason now Hc|m payload n av Hc Hn]; congruence.
Qed.

(** ** The repository respects the history *)
Section implementation.
Context `{PG : Postgres}.

Lemma claim_outbox_leased m now m' : claim_outbox m now = Ok m' -> m' = leased m now.
Proof. unfold claim_outbox. case_match; [done|]. by intros [= <-]. Qed.

Lemma insert_outbox_history m : guarantees outbox_history (statement (insert_outbox m)).
Proof.
  g_statement. intros d now. unfold insert_outbox. destruct (o_Payload m) as [p|] eqn:Hp; simpl.
  - apply insert_row_evolve; [apply _|]. intros id t. by eexists _, _, p, _.
  - by apply evolve_same; [apply _|].
Qed.

Lemma AddOutbox_history m : guarantees outbox_history (AddOutbox m).
Proof. apply guarantees_map_err. g_bind; [apply insert_outbox_history|]. eauto with repo. Qed.

Lemma ClaimOutbox_history locked : guarantees outbox_history (ClaimOutbox locked).
Proof.
  g_statement. apply claim_row_evolve; [apply _|].
  intros m m' now Hc ->%claim_outbox_leased. by apply rtc_once, step_lease.
Qed.

(** The statements guarded by [pending]. *)
Lemma pending_update_history id upd :
  (forall m m' now, pending m = true -> row_check m' = true -> upd m now = Ok m' -> outbox_step m m') ->
  guarantees outbox_history (statement (update_row id (fun _ => pending) upd)).
Proof.
  intros Hu. g_statement. intros d now. unfold update_row.
  destruct (rows d !! id) as [m|] eqn:Hm; [|by apply evolve_same; [apply _|]].
  repeat case_match; try (by apply evolve_same; [apply _|]).
  eapply evolve_update; [apply _|done|]. apply rtc_once. eauto.
Qed.

Lemma MarkOutbox_history id delivered next : guarantees outbox_history (MarkOutbox id delivered next).
Proof.
  apply guarantees_require_one; [apply _|].
  destruct delivered; apply pending_update_history; intros m m' now Hp Hc [= <-]; [by apply step_deliver|].
  apply (step_retry m (o_Payload m) (o_Attempts m)); [done|]. simpl in Hc. by bsimp.
Qed.
Lemma MarkOutboxFailed_history id reason : guarantees outbox_history (MarkOutboxFailed id reason).
Proof.
  apply guarantees_require_one; [apply _|]. apply pending_update_history. intros m m' now Hp Hc [= <-]. by apply step_fail.
Qed.
Lemma RescheduleOutbox_history id attempt next err :
  guarantees outbox_history (RescheduleOutbox id attempt next err).
Proof.
  apply guarantees_require_one; [apply _|]. apply pending_update_history. intros m m' now Hp Hc [= <-].
  apply step_retry; [done|]. simpl in Hc. by bsimp.
Qed.
End implementation.

(** ** OutboxRunner.process

    [ctx] is the state of the context once the publisher has answered, [publish] that
    answer, by message; [now] the reading of
    [time.Now] when a retry is scheduled.  Errors of the persistence calls are
    logged only.  The result is the message handed to the publisher, if any. *)
Definition logged (m : M unit) : M unit := fun s => (Ok tt, (m s).2).

(** A database call under a context that has ended reaches no database: its error is the
    context's.  [persistenceContext] drops the end of its parent ([WithoutCancel]); that its
    five seconds run out is one of the failures a statement can have. *)
Definition under {A} (ctx : Ctx) (m : M A) : M A :=
  match ctx_Err ctx with Some e => mfail e | None => m end.
Definition persistenceContext (parent : Ctx) : Ctx := Live.

Section runner.
Context `{PG : Postgres}.

Definition process (ctx : Ctx) (publish : OutboxMessage -> option error) (retryLimit : Z) (locked : gset Z) (now : Time)
    : M (option OutboxMessage) := fun s =>
  match ClaimOutbox locked s with
  | (Fail _, s) => (Ok None, s)
  | (Ok msg, s) =>
      let persist :=
        match publish msg with
        | None => MarkOutbox (o_ID msg) true zeroTime
        | Some pubErr =>
            if retryLimit <=? o_Attempts msg then MarkOutboxFailed (o_ID msg) (Error pubErr)
            else RescheduleOutbox (o_ID msg) (o_Attempts msg)
                   (Add now (wrap64 (o_Attempts msg * Second))) (Some pubErr)
        end in
      (Ok (Some msg), (logged (under (persistenceContext ctx) persist) s).2)
  end.

(** [OutboxRunner.Run] replaces a limit below one. *)
Definition effective_limit (retryLimit : Z) : Z := if retryLimit <? 1 then 5 else retryLimit.

Lemma process_history ctx publish limit locked now : guarantees outbox_history (process ctx publish limit locked now).
Proof.
  intros s Hs. unfold process, under. cbn [persistenceContext ctx_Err]. destruct (ClaimOutbox_history locked s Hs) as [H1 H2].
  destruct (ClaimOutbox locked s) as [[msg|e] s1]; [|done]. cbn [fst snd] in *.
  destruct (publish msg) as [e|]; [destruct (limit <=? o_Attempts msg)|];
    cbn [logged snd];
    [destruct (MarkOutboxFailed_history (o_ID msg) (Error e) s1 H2)
    |destruct (RescheduleOutbox_history (o_ID msg) (o_Attempts msg)
                 (Add now (wrap64 (o_Attempts msg * Second))) (Some e) s1 H2)
    |destruct (MarkOutbox_history (o_ID msg) true zeroTime s1 H2)];
    split; try done; by etransitivity.
Qed.
End runner.

Lemma outbox_history_wf d d' :
  outbox_history d d' -> map_Forall (fun _ => message_wf) (outbox_messages d) ->
  map_Forall (fun _ => message_wf) (outbox_messages d').
Proof.
  intros Hev Hwf.
  assert (forall m m', rtc outbox_step m m' -> message_wf m -> message_wf m') as Hsteps
    by (induction 1; eauto using outbox_step_wf).
  intros id m' Hm'. destruct (outbox_messages d !! id) as [m|] eqn:Hm.
  - destruct (evolve_old _ _ _ _ Hev id m Hm) as (x & Hx & Hst). simpl in Hx. simplify_eq.
    apply (Hsteps m); [done|]. by apply (Hwf id).
  - destruct (evolve_new _ _ _ _ Hev id m' Hm' Hm) as (m & (h & t & p & av & ->) & Hst).
    apply (Hsteps _ _ Hst). split_and!; simpl; auto; done.
Qed.

(** ** Properties *)


Section properties.
Context `{PG : Postgres}.


(** What becomes of a claimed message [m]. *)
Definition outcome (publish : OutboxMessage -> option error) (limit : Z) (now clock : Time) (m : OutboxMessage)
    : OutboxMessage :=
  match publish m with
  | None => deliver m clock
  | Some e => if limit <=? o_Attempts m then fail_message (Error e) m clock
              else reschedule (o_Attempts m) (now + o_Attempts m * Second) (Some e) m
  end.

Lemma process_result ctx publish limit locked d clock now :
  map_Forall (fun id m => o_ID m = id /\ message_wf m /\ (pending m = true -> o_Attempts m < 2 ^ 31 - 1))
    (outbox_messages d) ->
  match candidate locked (fun m => claimable m clock) d with
  | None => process ctx publish limit locked now (quiet_store d clock) = (Ok None, quiet_store d clock)
  | Some (id, m) =>
      process ctx publish limit locked now (quiet_store d clock) =
      (Ok (Some (leased m clock)),
       quiet_store (set_outbox_messages
         (<[id := outcome publish limit now clock (leased m clock)]> (outbox_messages d)) d) clock)
  end.
Proof.
  intros Hwf. unfold process, under, ClaimOutbox, statement, advance; simpl. unfold claim_message, claim_row.
  pose proof (candidate_spec locked (fun m => claimable m clock) d) as Hc.
  destruct (candidate _ _ d) as [[id m]|]; [|done]. destruct Hc as (Hm & Hcl & _).
  destruct (Hwf id m Hm) as (Hid & (Ha & _ & _ & _) & Hb).
  apply claimable_pending in Hcl. specialize (Hb Hcl). destruct (proj1 (pending_None m) Hcl) as [Hdel Hfail].
  unfold claim_outbox. rewrite (proj2 (Z.eqb_neq _ _)) by lia. change (mkOutbox _ _ _ _ _ _ _ _ _ _) with (leased m clock).
  assert (row_check (leased m clock) = true) as Hchk.
  { simpl. rewrite Hdel. rewrite (proj2 (Z.leb_le _ _)) by lia. done. }
  rewrite Hchk. cbn [logged snd fst with_db]. unfold outcome.
  assert (wrap64 (o_Attempts (leased m clock) * Second) = o_Attempts (leased m clock) * Second) as ->.
  { apply wrap64_small. unfold is_int64, int64_min, int64_max, Second. simpl. lia. }
  assert (forall upd m', upd (leased m clock) clock = Ok m' -> row_check m' = true ->
    (require_one (Sentinel ErrConflict) (statement (update_row (o_ID (leased m clock)) (fun _ => pending) upd))
      (quiet_store (set_outbox_messages (<[id := leased m clock]> (outbox_messages d)) d) clock)).2 =
    quiet_store (set_outbox_messages (<[id := m']> (outbox_messages d)) d) clock) as Hupd.
  { intros upd m' Hu Hck. unfold require_one, mbind, M_bind, statement, advance; simpl. unfold update_row; simpl.
    rewrite Hid, lookup_insert_eq. change (pending (leased m clock)) with (pending m). rewrite Hcl, Hu.
    simpl in Hck. rewrite Hck. simpl. by rewrite insert_insert_eq. }
  f_equal. destruct (publish _) as [e|]; [destruct (_ <=? _)|].
  - apply Hupd; [done|]. simpl. rewrite Hdel, (proj2 (Z.leb_le _ _)) by lia. done.
  - apply Hupd; [done|]. simpl. rewrite Hdel, (proj2 (Z.leb_le _ _)) by lia. done.
  - apply Hupd; [done|]. simpl. rewrite Hfail, (proj2 (Z.leb_le _ _)) by lia. done.
Qed.

(** One poll of the outbox on a quiet database: the first due message is handed to
    the publisher exactly once, with its attempt counted; it is then marked delivered,
    or failed for good with the error's text once the attempts reach the limit, or
    released to be retried that many seconds later.  When nothing is due, nothing is
    published and nothing changes. *)
Theorem process_outcome ctx publish limit locked d clock now :
  map_Forall (fun id m => o_ID m = id /\ message_wf m /\ (pending m = true -> o_Attempts m < 2 ^ 31 - 1))
    (outbox_messages d) ->
  match candidate locked (fun m => claimable m clock) d with
  | None => process ctx publish limit locked now (quiet_store d clock) = (Ok None, quiet_store d clock)
  | Some (id, m) =>
      process ctx publish limit locked now (quiet_store d clock) =
      (Ok (Some (leased m clock)),
       quiet_store (set_outbox_messages
         (<[id := outcome publish limit now clock (leased m clock)]> (outbox_messages d)) d) clock)
  end.
Proof. apply process_result. Qed.

(** Polling the outbox at the instants [ts], nobody else writing; the messages
    published on the way. *)
Fixpoint polls (publish : OutboxMessage -> option error) (limit : Z) (d : Database) (ts : list Time)
    : list OutboxMessage * Database :=
  match ts with
  | [] => ([], d)
  | t :: ts' =>
      match process Live publish limit ∅ t (quiet_store d t) with
      | (Ok (Some m), s) => let '(ms, d') := polls publish limit (db s) ts' in (m :: ms, d')
      | (_, s) => polls publish limit (db s) ts'
      end
  end.

(** Each instant comes no sooner than the retry it serves is due. *)
Fixpoint due_at (attempts : Z) (available : Time) (ts : list Time) : Prop :=
  match ts with
  | [] => True
  | t :: ts' => available <= t /\ due_at (attempts + 1) (ts_in (t + (attempts + 1) * Second)) ts'
  end.

Lemma polls_give_up publish e limit id d ts m :
  (forall x, publish x = Some e) -> limit < 2 ^ 31 - 1 ->
  outbox_messages d = {[id := m]} -> o_ID m = id -> pending m = true -> o_LockedAt m = None ->
  0 <= o_Attempts m < limit -> message_wf m ->
  Z.of_nat (length ts) = limit - o_Attempts m -> due_at (o_Attempts m) (o_AvailableAt m) ts ->
  exists m', outbox_messages (polls publish limit d ts).2 = {[id := m']} /\
    length (polls publish limit d ts).1 = length ts /\
    o_Attempts m' = limit /\ is_Some (o_FailedAt m') /\ o_FailureReason m' = Some (Error e) /\
    o_DeliveredAt m' = None.
Proof.
  intros Hpub Hlim. revert d m. induction ts as [|t ts IH]; intros d m Hd Hid Hp Hl Ha Hwf Hlen Hdue.
  { simpl in Hlen. lia. }
  destruct Hdue as [Hav Hdue]. destruct (proj1 (pending_None m) Hp) as [Hdel Hfail].
  assert (claimable m t = true) as Hcl.
  { unfold claimable. rewrite Hp, Hl, (proj2 (Z.leb_le _ _) Hav). done. }
  pose proof (process_result Live publish limit ∅ d t t) as Hproc. rewrite Hd in Hproc.
  assert (map_Forall (fun i x => o_ID x = i /\ message_wf x /\ (pending x = true -> o_Attempts x < 2 ^ 31 - 1))
            ({[id := m]} : gmap Z OutboxMessage)) as Hwfs.
  { intros i x Hx. apply lookup_singleton_Some in Hx as [<- <-]. split; [done|]. split; [done|lia]. }
  specialize (Hproc Hwfs).
  pose proof (candidate_spec ∅ (fun m => claimable m t) d) as Hc. simpl in Hc. rewrite Hd in Hc.
  destruct (candidate ∅ (fun m => claimable m t) d) as [[i x]|].
  2:{ exfalso. specialize (Hc id m (lookup_singleton_eq _ _) Hcl). set_solver. }
  destruct Hc as ([<- <-]%lookup_singleton_Some & _). cbn [polls]. rewrite Hproc. cbn [db quiet_store].
  rewrite insert_singleton_eq. unfold outcome. rewrite Hpub. simpl o_Attempts.
  destruct (limit <=? o_Attempts m + 1) eqn:Hlast; bsimp.
  - assert (ts = []) as -> by (destruct ts; [done|simpl in Hlen; lia]).
    exists (fail_message (Error e) (leased m t) t). simpl. split_and!; try done; lia.
  - destruct (IH (set_outbox_messages {[id := reschedule (o_Attempts m + 1)
        (t + (o_Attempts m + 1) * Second) (Some e) (leased m t)]} d) _ eq_refl) as (m' & Hm' & Hn & Hrest).
    + done.
    + exact Hp.
    + done.
    + simpl. lia.
    + destruct Hwf as (?&?&?&?). split_and!; simpl; try done; lia.
    + simpl in *. lia.
    + exact Hdue.
    + exists m'. destruct (polls _ _ _ ts) as [ms d']. simpl in *. split_and!; try done; [lia|apply Hrest..].
Qed.

(** Messages under their keys, whose pending ones are due at [t]. *)
Definition outbox_due (d : Database) (t : Time) : Prop :=
  map_Forall (fun id m => o_ID m = id /\ message_wf m /\
    (pending m = true -> o_Attempts m < 2 ^ 31 - 1 /\ claimable m t = true)) (outbox_messages d).
Definition pending_ids (d : Database) : gset Z := dom (filter (fun kv => pending kv.2 = true) (outbox_messages d)).

Lemma elem_of_pending_ids d id : id ∈ pending_ids d <-> exists m, outbox_messages d !! id = Some m /\ pending m = true.
Proof.
  unfold pending_ids. rewrite elem_of_dom. unfold is_Some. setoid_rewrite map_lookup_filter_Some. naive_solver.
Qed.

(** A poll that can publish delivers the first pending message. *)
Lemma poll_delivers publish limit d t : (forall m, publish m = None) -> outbox_due d t -> pending_ids d <> ∅ ->
  exists id m, outbox_messages d !! id = Some m /\ pending m = true /\ o_ID m = id /\
    (forall j, j ∈ pending_ids d -> id <= j) /\
    process Live publish limit ∅ t (quiet_store d t) =
      (Ok (Some (leased m t)),
       quiet_store (set_outbox_messages (<[id := deliver (leased m t) t]> (outbox_messages d)) d) t).
Proof.
  intros Hpub Hdue Hne.
  assert (map_Forall (fun id m => o_ID m = id /\ message_wf m /\ (pending m = true -> o_Attempts m < 2 ^ 31 - 1))
    (outbox_messages d)) as Hwf by (intros id m Hm; destruct (Hdue id m Hm) as (? & ? & ?); naive_solver).
  pose proof (process_result Live publish limit ∅ d t t Hwf) as Hp.
  pose proof (candidate_spec ∅ (fun m => claimable m t) d) as Hc.
  destruct (candidate ∅ _ d) as [[id m]|].
  - destruct Hc as (Hm & Hcl & _ & Hmin). destruct (Hdue id m Hm) as (Hid & _). exists id, m.
    apply claimable_pending in Hcl as Hpend. split_and!; try done.
    + intros j (x & Hx & Hpx)%elem_of_pending_ids. apply (Hmin j x Hx); [|set_solver].
      by apply (Hdue j x Hx).
    + rewrite Hp. unfold outcome. by rewrite Hpub.
  - exfalso. apply Hne, elem_of_equiv_empty_L. intros j (x & Hx & Hpx)%elem_of_pending_ids.
    specialize (Hc j x Hx). simpl in Hc. destruct (Hdue j x Hx) as (_ & _ & Hd). set_solver.
Qed.

Lemma pending_ids_deliver d id m t : outbox_messages d !! id = Some m -> pending m = true ->
  pending_ids (set_outbox_messages (<[id := deliver (leased m t) t]> (outbox_messages d)) d) = pending_ids d ∖ {[id]}.
Proof.
  intros Hm Hp. apply set_eq. intros j. rewrite elem_of_difference, !elem_of_pending_ids, not_elem_of_singleton. simpl.
  setoid_rewrite lookup_insert_Some. split.
  - intros (x & [[<- <-]|[Hne Hx]] & Hpx); [done|]. split; [by exists x|done].
  - intros [(x & Hx & Hpx) Hne]. exists x. naive_solver.
Qed.
Lemma outbox_due_deliver d id m t t' : outbox_due d t' -> outbox_messages d !! id = Some m -> pending m = true ->
  outbox_due (set_outbox_messages (<[id := deliver (leased m t) t]> (outbox_messages d)) d) t'.
Proof.
  intros Hd Hm [Hdel Hfail]%pending_None. apply map_Forall_insert_2; [|exact Hd].
  destruct (Hd id m Hm) as (Hid & (Ha & _ & Hr & _) & _). split; [done|]. split; [|done].
  split_and!; simpl; [lia|by right|done|done].
Qed.

Lemma polls_drain publish limit d ts :
  (forall m, publish m = None) -> (forall t, t ∈ ts -> outbox_due d t) -> length ts = size (pending_ids d) ->
  let '(ms, d') := polls publish limit d ts in
  StronglySorted Z.lt (map o_ID ms) /\ (forall id, id ∈ map o_ID ms <-> id ∈ pending_ids d) /\
  forall id m, outbox_messages d !! id = Some m -> exists m', outbox_messages d' !! id = Some m' /\
    if pending m then exists t, t ∈ ts /\ m' = deliver (leased m t) t else m' = m.
Proof.
  intros Hpub. revert d. induction ts as [|t ts IH]; intros d Hdue Hlen; cbn [polls].
  { symmetry in Hlen. apply size_empty_inv in Hlen. split; [constructor|]. split; [set_solver|].
    intros id m Hm. exists m. split; [done|]. destruct (pending m) eqn:Hp; [|done].
    assert (id ∈ pending_ids d) by (apply elem_of_pending_ids; eauto). set_solver. }
  destruct (poll_delivers publish limit d t Hpub) as (id & m & Hm & Hp & Hid & Hmin & ->); [apply Hdue; by left| |].
  { intros E. by rewrite E, size_empty in Hlen. }
  cbn [db quiet_store]. set (d1 := set_outbox_messages _ d).
  assert (pending_ids d1 = pending_ids d ∖ {[id]}) as E by by apply pending_ids_deliver.
  assert (id ∈ pending_ids d) as Hin by (apply elem_of_pending_ids; eauto).
  specialize (IH d1). destruct (polls publish limit d1 ts) as [ms d'].
  destruct IH as (Hs & Hids & Hrest).
  { intros t' Ht'. apply outbox_due_deliver; [|done..]. apply Hdue. by right. }
  { rewrite E, size_difference, size_singleton by set_solver. simpl in Hlen. lia. }
  assert (o_ID (leased m t) = id) as Hlid by done. cbn [map]. rewrite Hlid. split; [|split].
  - constructor; [done|]. apply List.Forall_forall. intros j Hj%list_elem_of_In%Hids. rewrite E in Hj.
    assert (id <= j) by (apply Hmin; set_solver). assert (j <> id) by set_solver. lia.
  - intros j. rewrite elem_of_cons, Hids, E. destruct (decide (j = id)); set_solver.
  - intros j x Hx. destruct (decide (j = id)) as [->|Hne].
    + destruct (Hrest id (deliver (leased m t) t)) as (m' & Hm' & Hd'); [simpl; apply lookup_insert_eq|].
      exists m'. split; [done|]. rewrite Hm in Hx. injection Hx as <-. rewrite Hp. simpl in Hd'. rewrite Hd'.
      exists t. split; [by left|done].
    + destruct (Hrest j x) as (m' & Hm' & Hx'); [simpl; by rewrite lookup_insert_ne|]. exists m'. split; [done|].
      destruct (pending x); [|done]. destruct Hx' as (t' & Ht' & ->). exists t'. split; [by right|done].
Qed.

(** The outbox drains in order: polled as often as there are pending messages, all of
    them due, with a publisher that accepts them and nobody else at work, the runner
    hands over each of them exactly once, by increasing identifier, marks each as
    delivered and leaves every other message as it was. *)
Theorem outbox_drains publish limit d ts :
  (forall m, publish m = None) -> (forall t, t ∈ ts -> outbox_due d t) -> length ts = size (pending_ids d) ->
  let '(ms, d') := polls publish limit d ts in
  StronglySorted Z.lt (map o_ID ms) /\ (forall id, id ∈ map o_ID ms <-> id ∈ pending_ids d) /\
  forall id m, outbox_messages d !! id = Some m -> exists m', outbox_messages d' !! id = Some m' /\
    if pending m then exists t, t ∈ ts /\ m' = deliver (leased m t) t else m' = m.
Proof. apply polls_drain. Qed.
End properties.

(** ** Examples *)
Definition example_message : OutboxMessage :=
  mkOutbox 1 1 "device.command" (Some (JObject [])) 0 10 None None None None.
Definition example_outbox : Database := set_outbox_messages {[1 := example_message]} empty_database.

Lemma example_outbox_keyed : map_Forall (fun id m => o_ID m = id) (outbox_messages example_outbox).
Proof. intros id m Hm. by apply (lookup_singleton_Some 1 id example_message m) in Hm as [<- <-]. Qed.



Lemma process_outcome_witness :
  let _ := exact_postgres in
  process CtxCanceled (fun _ => Some (New "down")) 5 ∅ 30 (quiet_store example_outbox 20) =
  (Ok (Some (leased example_message 20)),
   quiet_store (set_outbox_messages
     {[1 := reschedule 1 (30 + Second) (Some (New "down")) (leased example_message 20)]} empty_database) 20).
Proof.
  intros PG.
  assert (map_Forall (fun id m => o_ID m = id /\ message_wf m /\ (pending m = true -> o_Attempts m < 2 ^ 31 - 1))
            (outbox_messages example_outbox)) as Hwf.
  { intros id m Hm. apply (lookup_singleton_Some 1 id example_message m) in Hm as [<- <-].
    split; [done|]. split; [by split_and!; simpl; auto|done]. }
  exact (process_outcome CtxCanceled (fun _ => Some (New "down")) 5 ∅ example_outbox 20 30 Hwf).
Defined.


Definition two_messages : Database :=
  set_outbox_messages {[1 := example_message; 4 := mkOutbox 4 1 "device.command" (Some JNull) 2 15 None None None None]}
    empty_database.
Lemma outbox_drains_witness :
  let _ := exact_postgres in
  map o_ID (polls (fun _ => None) 5 two_messages [20; 30]).1 = [1; 4] /\
  exists m', outbox_messages (polls (fun _ => None) 5 two_messages [20; 30]).2 !! 4 = Some m' /\
    is_Some (o_DeliveredAt m').
Proof.
  intros PG. split; [vm_compute; reflexivity|].
  pose proof (outbox_drains (fun _ => None) 5 two_messages [20; 30] (fun _ => eq_refl)) as H.
  destruct (polls _ _ _ _) as [ms d']. destruct H as (_ & _ & H); [|reflexivity|].
  - assert (forall t, 20 <= t -> outbox_due two_messages t) as Hdue.
    { intros t Ht. unfold outbox_due. apply map_Forall_insert_2; [|apply map_Forall_singleton];
        (split; [reflexivity|]; split; [by split_and!; simpl; auto|]); intros _; (split; [done|]);
        unfold claimable; simpl; by rewrite (proj2 (Z.leb_le _ _)) by lia. }
    intros t Ht. apply Hdue. apply elem_of_cons in Ht as [->|Ht]; [lia|]. apply list_elem_of_singleton in Ht as ->. lia.
  - destruct (H 4 (mkOutbox 4 1 "device.command" (Some JNull) 2 15 None None None None)) as (m' & Hm' & (t & _ & ->));
      [reflexivity|]. exists (deliver (leased (mkOutbox 4 1 "device.command" (Some JNull) 2 15 None None None None) t) t).
    split; [exact Hm'|]. by eexists.
Defined.
