(* ===== verification/Password.v ===== *)
(** * Password hashes of service/auth.go

    [base64.RawStdEncoding] and the two functions on the stored form
    [pbkdf2-sha256$<iterations>$<salt>$<key>].  The key derivation function is a
    parameter. *)
From S2P Require Import Prelude Errors GoStd.
From Stdlib Require Import Ascii.

(** ** base64.RawStdEncoding *)
Definition b64_alphabet : list ascii :=
  bytes "ABCDEFGHIJKLMNOPQRSTUVWXYZabcdefghijklmnopqrstuvwxyz0123456789+/".
Definition b64_char (n : Z) : ascii := nth (Z.to_nat n) b64_alphabet "A"%char.
Fixpoint index_of (c : ascii) (i : Z) (l : list ascii) : option Z :=
  match l with
  | [] => None
  | a :: l' => if bool_decide (a = c) then Some i else index_of c (i + 1) l'
  end.
Definition b64_value (c : ascii) : option Z := index_of c 0 b64_alphabet.

Definition byte (n : Z) : ascii := ascii_of_N (Z.to_N n).

Fixpoint b64_encode (l : list ascii) : list ascii :=
  match l with
  | [] => []
  | [a] => [b64_char (code a / 4); b64_char (code a mod 4 * 16)]
  | [a; b] => [b64_char (code a / 4); b64_char (code a mod 4 * 16 + code b / 16);
               b64_char (code b mod 16 * 4)]
  | a :: b :: c :: l' =>
      b64_char (code a / 4) :: b64_char (code a mod 4 * 16 + code b / 16)
      :: b64_char (code b mod 16 * 4 + code c / 64) :: b64_char (code c mod 64) :: b64_encode l'
  end.

(** Six-bit values to bytes; the unused low bits of the last group are ignored. *)
Fixpoint b64_join (l : list Z) : option (list ascii) :=
  match l with
  | [] => Some []
  | [_] => None
  | [v1; v2] => Some [byte (v1 * 4 + v2 / 16)]
  | [v1; v2; v3] => Some [byte (v1 * 4 + v2 / 16); byte (v2 mod 16 * 16 + v3 / 4)]
  | v1 :: v2 :: v3 :: v4 :: l' =>
      rest ← b64_join l';
      Some (byte (v1 * 4 + v2 / 16) :: byte (v2 mod 16 * 16 + v3 / 4)
            :: byte (v3 mod 4 * 64 + v4) :: rest)
  end.

(** The decoder skips line breaks. *)
Definition line_break (c : ascii) : bool := (code c =? 10) || (code c =? 13).
Definition b64_decode (l : list ascii) : option (list ascii) :=
  vs ← mapM b64_value (List.filter (fun c => negb (line_break c)) l);
  b64_join vs.

Definition EncodeToString (l : list ascii) : string := of_bytes (b64_encode l).
Definition DecodeString (s : string) : option (list ascii) := b64_decode (bytes s).

(** ** The stored form *)
Definition passwordIterations : Z := 210000.
Definition passwordSaltBytes : Z := 16.
Definition passwordKeyBytes : Z := 32.

(** [pbkdf2.Key(sha256.New, password, salt, iterations, length)]: a key of the length
    asked for, or an error. *)
Class Pbkdf2 := {
  pbkdf2_Key : string -> list ascii -> Z -> Z -> result (list ascii);
  pbkdf2_Key_length password salt iterations length key :
    pbkdf2_Key password salt iterations length = Ok key -> Z.of_nat (List.length key) = length
}.

(** A toy instance, used to evaluate examples. *)
#[refine] Definition toy_pbkdf2 : Pbkdf2 :=
  {| pbkdf2_Key password salt iterations length :=
       if length <? 0 then Fail (New "length")
       else Ok (take (Z.to_nat length)
                  (bytes password ++ salt ++ replicate (Z.to_nat length) "000"%char)) |}.
Proof.
  intros password salt iterations length key H. guards H. injection H as <-.
  rewrite length_take, !length_app, length_replicate. lia.
Defined.

Section password.
Context `{Pbkdf2}.

(** [salt] is what [rand.Read] delivers. *)
Definition hashPassword (salt : result (list ascii)) (password : string) : result string :=
  match salt with
  | Fail e => Fail (wrap_prefix "generate password salt" e)
  | Ok salt =>
      match pbkdf2_Key password salt passwordIterations passwordKeyBytes with
      | Fail e => Fail (wrap_prefix "derive password hash" e)
      | Ok key => Ok ("pbkdf2-sha256$" +:+ Sprint passwordIterations +:+ "$" +:+ EncodeToString salt
                        +:+ "$" +:+ EncodeToString key)
      end
  end.

Definition passwordMatches (encoded password : string) : bool :=
  match Split encoded "$"%char with
  | [scheme; iterations; salt; key] =>
      if negb (bool_decide (scheme = "pbkdf2-sha256")) then false
      else match Atoi iterations with
           | None => false
           | Some iterations =>
               if (iterations <? 100000) || (2000000 <? iterations) then false
               else match DecodeString salt with
                    | None => false
                    | Some salt =>
                        if Z.of_nat (length salt) <? passwordSaltBytes then false
                        else match DecodeString key with
                             | None => false
                             | Some expected =>
                                 if negb (Z.of_nat (length expected) =? passwordKeyBytes) then false
                                 else match pbkdf2_Key password salt iterations (Z.of_nat (length expected)) with
                                      | Fail _ => false
                                      | Ok actual => bool_decide (actual = expected)
                                      end
                             end
                    end
           end
  | _ => false
  end.
End password.

(** ** Lemmas: base64 *)
Lemma b64_value_char n : 0 <= n < 64 -> b64_value (b64_char n) = Some n.
Proof.
  intros Hn.
  assert (forallb (fun i => bool_decide (b64_value (b64_char (Z.of_nat i)) = Some (Z.of_nat i))) (seq 0 64) = true)
    as Hall by (vm_compute; reflexivity).
  rewrite forallb_forall in Hall. specialize (Hall (Z.to_nat n) ltac:(apply in_seq; lia)).
  rewrite Z2Nat.id in Hall by lia. by bsimp.
Qed.

Lemma b64_char_plain n : 0 <= n < 64 -> line_break (b64_char n) = false /\ b64_char n <> "$"%char.
Proof.
  intros Hn.
  assert (forallb (fun i => negb (line_break (b64_char (Z.of_nat i)))
                            && negb (bool_decide (b64_char (Z.of_nat i) = "$"%char))) (seq 0 64) = true)
    as Hall by (vm_compute; reflexivity).
  rewrite forallb_forall in Hall. specialize (Hall (Z.to_nat n) ltac:(apply in_seq; lia)).
  rewrite Z2Nat.id in Hall by lia. by bsimp.
Qed.

Lemma code_range c : 0 <= code c < 256.
Proof. unfold code. pose proof (N_ascii_bounded c). lia. Qed.
Lemma byte_code c n : n = code c -> byte n = c.
Proof. intros ->. unfold byte, code. rewrite N2Z.id. apply ascii_N_embedding. Qed.

(** Forgets the bytes of the context, keeping the range of their codes. *)
Ltac codes := repeat
  match goal with
  | c : ascii |- _ => let H := fresh "Hc" in
      pose proof (code_range c) as H; revert H; generalize (code c); clear c; intros ? ?
  end.

(** Induction by groups of three bytes. *)
Lemma three_ind {A} (P : list A -> Prop) :
  P [] -> (forall a, P [a]) -> (forall a b, P [a; b]) ->
  (forall a b c l, P l -> P (a :: b :: c :: l)) -> forall l, P l.
Proof.
  intros H0 H1 H2 H3. fix IH 1. intros [|a [|b [|c l]]]; [done..|]. apply H3, IH.
Qed.

(** The six-bit values of an encoding. *)
Fixpoint sextets (l : list ascii) : list Z :=
  match l with
  | [] => []
  | [a] => [code a / 4; code a mod 4 * 16]
  | [a; b] => [code a / 4; code a mod 4 * 16 + code b / 16; code b mod 16 * 4]
  | a :: b :: c :: l' =>
      code a / 4 :: code a mod 4 * 16 + code b / 16 :: code b mod 16 * 4 + code c / 64
      :: code c mod 64 :: sextets l'
  end.

Lemma sextets_range l : Forall (fun n => 0 <= n < 64) (sextets l).
Proof.
  induction l as [|a|a b|a b c l IH] using three_ind; cbn [sextets];
    codes; repeat constructor; try done; Z.to_euclidean_division_equations; lia.
Qed.

Lemma b64_encode_sextets l : b64_encode l = map b64_char (sextets l).
Proof. induction l as [|a|a b|a b c l IH] using three_ind; cbn [b64_encode sextets map]; by rewrite ?IH. Qed.

Lemma b64_join_sextets l : b64_join (sextets l) = Some l.
Proof.
  induction l as [|a|a b|a b c l IH] using three_ind; cbn [b64_join sextets]; [done|..];
    rewrite ?IH; cbn -[byte Z.div Z.modulo Z.add Z.mul]; repeat f_equal; apply byte_code; codes;
    Z.to_euclidean_division_equations; lia.
Qed.

Lemma b64_chars_decode l : Forall (fun n => 0 <= n < 64) l ->
  mapM b64_value (List.filter (fun c => negb (line_break c)) (map b64_char l)) = Some l.
Proof.
  induction 1 as [|n l Hn Hl IH]; [done|]. cbn [map List.filter].
  rewrite (proj1 (b64_char_plain n Hn)). cbn [negb mapM]. by rewrite b64_value_char, IH.
Qed.

Lemma DecodeString_Encode l : DecodeString (EncodeToString l) = Some l.
Proof.
  unfold DecodeString, EncodeToString. rewrite bytes_of_bytes. unfold b64_decode.
  rewrite b64_encode_sextets, b64_chars_decode by apply sextets_range. apply b64_join_sextets.
Qed.

Lemma EncodeToString_no_dollar l : Forall (fun c => c <> "$"%char) (bytes (EncodeToString l)).
Proof.
  unfold EncodeToString. rewrite bytes_of_bytes, b64_encode_sextets.
  induction (sextets_range l) as [|n s Hn Hs IH]; constructor; [by apply b64_char_plain|done].
Qed.

(** ** Lemmas: the separator *)
Lemma split_bytes_app sep l1 l2 acc : Forall (fun c => c <> sep) l1 ->
  split_bytes sep (l1 ++ sep :: l2) acc = of_bytes (rev acc ++ l1) :: split_bytes sep l2 [].
Proof.
  intros Hl. revert acc. induction Hl as [|c l Hc Hl IH]; intros acc; simpl.
  - by rewrite bool_decide_eq_true_2, app_nil_r.
  - rewrite bool_decide_eq_false_2 by done. rewrite IH. simpl. by rewrite <-app_assoc.
Qed.
Lemma split_bytes_last sep l acc : Forall (fun c => c <> sep) l ->
  split_bytes sep l acc = [of_bytes (rev acc ++ l)].
Proof.
  intros Hl. revert acc. induction Hl as [|c l Hc Hl IH]; intros acc; simpl.
  - by rewrite app_nil_r.
  - rewrite bool_decide_eq_false_2 by done. rewrite IH. simpl. by rewrite <-app_assoc.
Qed.
Lemma bytes_app s1 s2 : bytes (s1 +:+ s2) = bytes s1 ++ bytes s2.
Proof. unfold bytes. induction s1 as [|c s1 IH]; simpl; [done|]. by rewrite IH. Qed.

Lemma Split_hash salt key :
  Split ("pbkdf2-sha256$" +:+ Sprint passwordIterations +:+ "$" +:+ EncodeToString salt
           +:+ "$" +:+ EncodeToString key) "$"%char =
  ["pbkdf2-sha256"; "210000"; EncodeToString salt; EncodeToString key].
Proof.
  unfold Split. rewrite !bytes_app.
  change (bytes "pbkdf2-sha256$") with (bytes "pbkdf2-sha256" ++ ["$"%char]).
  change (bytes (Sprint passwordIterations)) with (bytes "210000").
  change (bytes "$") with ["$"%char]. rewrite <-!app_assoc. cbn [app].
  rewrite split_bytes_app by (by repeat constructor). rewrite split_bytes_app by (by repeat constructor).
  rewrite split_bytes_app, split_bytes_last by apply EncodeToString_no_dollar.
  cbn [rev app]. by rewrite !of_bytes_bytes.
Qed.

(** ** Property *)

(** C37: a stored hash answers exactly for its password: the string [hashPassword]
    writes is accepted by [passwordMatches] for a password exactly when that
    password derives the same key from the same salt, so always for the password
    that was hashed. *)
Theorem password_round_trip `{Pbkdf2} salt password encoded :
  length salt = 16%nat -> hashPassword (Ok salt) password = Ok encoded ->
  (forall other, passwordMatches encoded other = true <->
     pbkdf2_Key other salt passwordIterations passwordKeyBytes =
     pbkdf2_Key password salt passwordIterations passwordKeyBytes) /\
  passwordMatches encoded password = true.
Proof.
  intros Hsalt. unfold hashPassword.
  destruct (pbkdf2_Key password salt _ _) as [key|] eqn:Hkey; [|done]. intros [= <-].
  set (encoded := _ +:+ _). assert (forall other, passwordMatches encoded other = true <->
            pbkdf2_Key other salt passwordIterations passwordKeyBytes = Ok key) as Hall.
  { intros other. unfold passwordMatches, encoded. rewrite Split_hash, !DecodeString_Encode, Hsalt.
    rewrite (pbkdf2_Key_length _ _ _ _ _ Hkey).
    change (Atoi "210000") with (Some passwordIterations). rewrite bool_decide_eq_true_2 by done. cbn -[bool_decide Z.ltb].
    destruct (pbkdf2_Key other salt _ _) as [actual|]; [|done].
    change (Z.of_nat 16 <? passwordSaltBytes) with false. cbn -[bool_decide].
    rewrite bool_decide_eq_true. split; [by intros ->|by intros [= ->]]. }
  split; [done|]. by apply Hall.
Qed.

Lemma password_round_trip_witness :
  let _ := toy_pbkdf2 in
  let salt := replicate 16 "s"%char in
  exists encoded, hashPassword (Ok salt) "correct horse" = Ok encoded /\
    passwordMatches encoded "correct horse" = true /\ passwordMatches encoded "wrong horse" = false.
Proof.
  intros PB salt. eexists. split; [vm_compute; reflexivity|]. split; [|vm_compute; reflexivity].
  refine (proj2 (password_round_trip salt "correct horse" _ eq_refl _)). vm_compute; reflexivity.
Defined.
