(* ===== verification/Auth.v ===== *)
(** * service/auth.go, service/authorization.go and service/households.go

    Accounts, sessions and roles.  [AuthRepository] is what the services rely on;
    [session_dead] states that a session can no longer be used. *)
From S2P Require Import Prelude Errors GoStd Model Rules Store Repo Frame Password.
From Stdlib Require Import Ascii.

(** ** Roles *)

(** [EnsureRole] of service/auth.go; its [rank] map is that of [Member.Can]. *)
Definition EnsureRole (actual required : Role) : option error :=
  match role_rank actual, role_rank required with
  | Some actualRank, Some requiredRank =>
      if actualRank <? requiredRank
      then Some (wrap_suffix (Sentinel ErrForbidden) ("role " +:+ actual +:+ " does not satisfy " +:+ required))
      else None
  | _, _ => Some (wrap_suffix (Sentinel ErrForbidden) ("role " +:+ actual +:+ " does not satisfy " +:+ required))
  end.

Definition CanManageDevices (role : Role) : bool :=
  bool_decide (role = RoleOwner) || bool_decide (role = RoleOperator).
Definition CanViewReports (role : Role) : bool :=
  bool_decide (role = RoleOwner) || bool_decide (role = RoleOperator) || bool_decide (role = RoleViewer).

(** ** What becomes of one session

    [session_gone id]: no session with that key can be used, now and later. *)
Definition session_gone (id : string) (d : Database) : Prop :=
  match sessions d !! id with Some s => s_RevokedAt s <> None | None => True end.
Definition stays_gone (id : string) (d d' : Database) : Prop := session_gone id d -> session_gone id d'.

#[export] Instance stays_gone_TwoState id : TwoState (stays_gone id).
Proof.
  apply two_state_any; [split|].
  - intros d. unfold stays_gone. done.
  - unfold stays_gone. intros d1 d2 d3. auto.
  - intros d q. unfold stays_gone. done.
Qed.

Lemma guarantees_stays_gone_frame {A} id (f : Database -> Time -> result A * Database) :
  (forall d now, sessions (f d now).2 = sessions d) -> guarantees (stays_gone id) (statement f).
Proof.
  intros Hf. apply guarantees_statement; [apply _|]. intros d now. unfold stays_gone, session_gone.
  by rewrite Hf.
Qed.
#[export] Hint Extern 5 (guarantees (stays_gone _) (statement _)) =>
  apply guarantees_stays_gone_frame; frame : repo.

(** ** The interface *)
Class AuthRepository := {
  AddMember : Z -> string -> string -> Role -> M Member;
  FindMember : Z -> string -> M (Member * string);
  CreateSession : Session -> M unit;
  GetSession : string -> M Session;
  MemberByID : Z -> M Member;
  RevokeSession : string -> Time -> M unit;
  (** The key a session identifier denotes. *)
  session_key : string -> option string;
  AddMember_gone id h e p r : guarantees (stays_gone id) (AddMember h e p r);
  FindMember_gone id h e : guarantees (stays_gone id) (FindMember h e);
  CreateSession_gone id s : session_key (s_ID s) <> Some id -> guarantees (stays_gone id) (CreateSession s);
  GetSession_gone id sid : guarantees (stays_gone id) (GetSession sid);
  MemberByID_gone id m : guarantees (stays_gone id) (MemberByID m);
  RevokeSession_gone id sid t : guarantees (stays_gone id) (RevokeSession sid t);
  (** A session read is the row of its key at a moment of the call. *)
  GetSession_row id sid s sess s' : session_key sid = Some id ->
    rely (stays_gone id) s -> GetSession sid s = (Ok sess, s') ->
    exists d0, stays_gone id (db s) d0 /\ sessions d0 !! id = Some sess;
  (** A successful revocation leaves the session revoked. *)
  RevokeSession_row sid t s s' : RevokeSession sid t s = (Ok tt, s') ->
    exists id, session_key sid = Some id /\ session_gone id (db s')
}.

Section service.
Context `{Unicode} `{Pbkdf2} `{AuthRepository}.

Definition SessionTTL : Duration := 12 * Hour.

Definition normalize_email (email : string) : string := TrimSpace (ToLower email).

(** [AuthService.Register]. *)
Definition Register (salt : result (list ascii)) (householdID : Z) (email password : string) (role : Role)
    : M Member :=
  let email := normalize_email email in
  if (householdID <=? 0) || (len password <? 10) || negb (bool_decide (ValidateEmail email = None))
  then mfail (Sentinel ErrInvalid)
  else hash ← lift (hashPassword salt password); AddMember householdID email hash role.

(** [AuthService.Login]; [uuid] is what [uuid.NewString] delivers. *)
Definition Login (householdID : Z) (email password : string) (uuid : string) (now : Time)
    : M (Session * Member) :=
  '(m, hash) ← map_err (fun _ => Sentinel ErrForbidden)
                 (FindMember householdID (ToLower (TrimSpace email)));
  if negb (m_Active m) || negb (passwordMatches hash password) then mfail (Sentinel ErrForbidden)
  else
    let sess := mkSession uuid (m_ID m) (Add now SessionTTL) None now in
    _ ← map_err (wrap_prefix "create session") (CreateSession sess);
    mret (sess, m).

(** [AuthService.Authorize]. *)
Definition Authorize (sessionID : string) (required : Role) (now : Time) : M Member :=
  if bool_decide (TrimSpace sessionID = "") then mfail (Sentinel ErrForbidden)
  else
    sess ← map_err (fun _ => Sentinel ErrForbidden) (GetSession sessionID);
    if negb (bool_decide (s_RevokedAt sess = None)) || negb (Before now (s_ExpiresAt sess))
    then mfail (Sentinel ErrForbidden)
    else
      m ← map_err (fun _ => Sentinel ErrForbidden) (MemberByID (s_MemberID sess));
      if negb (m_Active m) then mfail (Sentinel ErrForbidden)
      else _ ← lift_err (EnsureRole (m_Role m) required); mret m.

(** [AuthService.Logout]. *)
Definition Logout (sessionID : string) (now : Time) : M unit :=
  if bool_decide (sessionID = "") then mfail (Sentinel ErrInvalid) else RevokeSession sessionID now.

(** [AuthorizationService.Require]. *)
Definition Require_ (memberID : Z) (required : Role) : M Member :=
  m ← map_err (wrap_prefix "authorize member") (MemberByID memberID);
  if negb (m_Active m) then mfail (Sentinel ErrForbidden)
  else _ ← lift_err (EnsureRole (m_Role m) required); mret m.

#[local] Hint Resolve AddMember_gone FindMember_gone CreateSession_gone GetSession_gone MemberByID_gone
  RevokeSession_gone : repo.

Lemma Register_gone id salt h e p r : guarantees (stays_gone id) (Register salt h e p r).
Proof. unfold Register. case_match; [eauto with repo|]. g_bind. eauto with repo. Qed.
Lemma Login_gone id h e p uuid now : session_key uuid <> Some id ->
  guarantees (stays_gone id) (Login h e p uuid now).
Proof.
  intros Hu. unfold Login. g_bind. destruct a as [m hash]. case_match; [eauto with repo|].
  g_bind. eauto with repo.
Qed.
Lemma Authorize_gone id sid r now : guarantees (stays_gone id) (Authorize sid r now).
Proof.
  unfold Authorize. case_match; [eauto with repo|]. g_bind. case_match; [eauto with repo|].
  g_bind. case_match; [eauto with repo|]. g_bind. eauto with repo.
Qed.
Lemma Logout_gone id sid now : guarantees (stays_gone id) (Logout sid now).
Proof. unfold Logout. case_match; eauto with repo. Qed.
Lemma Require_gone id m r : guarantees (stays_gone id) (Require_ m r).
Proof. unfold Require_. g_bind. case_match; [eauto with repo|]. g_bind. eauto with repo. Qed.
End service.

(** ** service/households.go *)

(** [time.LoadLocation]: whether the zone database knows a name. *)
Class Zones := { LoadLocation : string -> bool }.

Class HouseholdRepository := {
  CreateHousehold : string -> string -> Z -> M Household;
  CreateHouseholdWithOwner : string -> string -> Z -> string -> string -> M (Household * Member);
  AddHouseholdMember : Z -> string -> string -> Role -> M Member
}.

Section households.
Context `{Unicode} `{Pbkdf2} `{Zones} `{HouseholdRepository}.

Definition Onboard (salt : result (list ascii)) (name timezone : string) (budget : Z)
    (email password : string) : M (Household * Member) :=
  let name := TrimSpace name in
  let timezone := TrimSpace timezone in
  let email := normalize_email email in
  if bool_decide (name = "") || (budget <? 0) || (len password <? 10)
     || negb (bool_decide (ValidateEmail email = None))
  then mfail (Sentinel ErrInvalid)
  else if negb (LoadLocation timezone) then mfail (Sentinel ErrInvalid)
  else hash ← lift (hashPassword salt password); CreateHouseholdWithOwner name timezone budget email hash.

(** [HouseholdService.Create]. *)
Definition HouseholdService_Create (name timezone : string) (budget : Z) : M Household :=
  let name := TrimSpace name in
  let timezone := TrimSpace timezone in
  if bool_decide (name = "") || (budget <? 0) then mfail (Sentinel ErrInvalid)
  else if negb (LoadLocation timezone) then mfail (Sentinel ErrInvalid)
  else CreateHousehold name timezone budget.

(** [HouseholdService.AddMember]. *)
Definition HouseholdService_AddMember (salt : result (list ascii)) (h : Z) (email password : string)
    (role : Role) : M Member :=
  let email := normalize_email email in
  if (h <=? 0) || (len password <? 10) || negb (bool_decide (ValidateEmail email = None))
  then mfail (Sentinel ErrInvalid)
  else if negb (bool_decide (role ∈ [RoleOwner; RoleOperator; RoleViewer])) then mfail (Sentinel ErrInvalid)
  else hash ← lift (hashPassword salt password); AddHouseholdMember h email hash role.
End households.

(** ** The repository implements the interfaces *)
Section implementation.
Context `{PG : Postgres}.

Lemma insert_session_gone id s : uuid_in (s_ID s) <> Some id ->
  guarantees (stays_gone id) (statement (insert_session s)).
Proof.
  intros Hid. g_statement. intros d now. unfold stays_gone, session_gone, insert_session.
  destruct (uuid_in (s_ID s)) as [k|]; [|done]. destruct (bool_decide _); [done|].
  destruct (negb _); [done|]. simpl. by rewrite lookup_insert_ne by congruence.
Qed.

Lemma revoke_session_gone id sid t : guarantees (stays_gone id) (statement (revoke_session sid t)).
Proof.
  g_statement. intros d now. unfold stays_gone, session_gone, revoke_session.
  destruct (uuid_in sid) as [k|]; [|done]. destruct (sessions d !! k) as [s|] eqn:Hs; [|done].
  case_bool_decide; [|done]. simpl. destruct (decide (k = id)) as [->|?].
  - by rewrite lookup_insert_eq.
  - by rewrite lookup_insert_ne.
Qed.

Lemma delete_sessions_gone id t : guarantees (stays_gone id) (statement (delete_sessions t)).
Proof.
  g_statement. intros d now. unfold stays_gone, session_gone, delete_sessions. simpl.
  rewrite map_lookup_filter. destruct (sessions d !! id) as [s|]; [|done]. simpl.
  by case_guard.
Qed.
Lemma DeleteExpiredSessions_gone id now : guarantees (stays_gone id) (DeleteExpiredSessions now).
Proof. unfold DeleteExpiredSessions. case_match; [eauto with repo|]. apply delete_sessions_gone. Qed.

#[export, refine] Instance Repository_auth : AuthRepository := {|
  AddMember := Repo.AddMember;
  FindMember := Repo.FindMember;
  CreateSession := Repo.CreateSession;
  GetSession := Repo.GetSession;
  MemberByID := Repo.MemberByID;
  RevokeSession := Repo.RevokeSession;
  session_key := uuid_in
|}.
Proof.
  - intros. apply guarantees_map_err. g_bind. eauto with repo.
  - intros. apply guarantees_map_err. g_bind. eauto with repo.
  - intros id s Hid. by apply guarantees_map_err, insert_session_gone.
  - intros. apply guarantees_map_err. eauto with repo.
  - intros. apply guarantees_map_err. g_bind. eauto with repo.
  - intros. apply guarantees_require_some, guarantees_map_err, revoke_session_gone. apply _.
  - intros id sid s sess s' Hk Hs HG. apply map_err_Ok, statement_Ok in HG as (s0 & Hs0 & HG).
    exists (db s0). split; [rewrite <-Hs0; exact (proj1 (advance_rely _ s Hs))|].
    unfold select_session in HG. rewrite Hk in HG.
    destruct (sessions (db s0) !! id) eqn:E; [|done]. by injection HG as ->.
  - intros sid t s s' HR. unfold Repo.RevokeSession, require_some in HR.
    apply bind_Ok in HR as (n & s1 & HR & Hn). destruct (n =? 0) eqn:En; [done|].
    injection Hn as <-. apply map_err_Ok, statement_Ok in HR as (s0 & _ & HR).
    unfold revoke_session in HR. destruct (uuid_in sid) as [id|]; [|done]. exists id. split; [done|].
    destruct (sessions (db s0) !! id) as [x|]; [|by simplify_eq].
    case_bool_decide; [|by simplify_eq]. injection HR as _ E. unfold session_gone. rewrite <-E. simpl.
    by rewrite lookup_insert_eq.
Defined.

#[export] Instance Repository_households : HouseholdRepository := {|
  CreateHousehold := Repo.CreateHousehold;
  CreateHouseholdWithOwner := Repo.CreateHouseholdWithOwner;
  AddHouseholdMember := Repo.AddMember
|}.
End implementation.

(** ** Properties *)

Lemma EnsureRole_403 a b e : EnsureRole a b = Some e -> ErrorStatus e = 403.
Proof. unfold EnsureRole. intros HE. guards HE; by injection HE as <-. Qed.

Lemma Member_Can_EnsureRole m role :
  Member_Can m role = m_Active m && bool_decide (EnsureRole (m_Role m) role = None).
Proof.
  unfold Member_Can, EnsureRole. f_equal. repeat case_match; bsimp; try done; by apply Z.leb_le || (apply Z.leb_gt; lia).
Qed.

(** The role checks of the packages agree: [Member.Can], [EnsureRole],
    [CanManageDevices] and [CanViewReports] grant exactly the roles of the order
    viewer < operator < owner, and nothing to an unknown role or an inactive member. *)
Theorem role_checks_agree m role :
  (Member_Can m role = true <-> m_Active m = true /\ EnsureRole (m_Role m) role = None) /\
  (CanManageDevices (m_Role m) = true <-> EnsureRole (m_Role m) RoleOperator = None) /\
  (CanViewReports (m_Role m) = true <-> EnsureRole (m_Role m) RoleViewer = None) /\
  (EnsureRole (m_Role m) RoleOwner = None <-> m_Role m = RoleOwner) /\
  (m_Role m ∉ roles -> EnsureRole (m_Role m) role <> None).
Proof.
  split; [rewrite Member_Can_EnsureRole, andb_true_iff, bool_decide_eq_true; done|].
  unfold CanManageDevices, CanViewReports, EnsureRole, roles.
  destruct (decide (m_Role m = RoleViewer)) as [E|Nv]; [rewrite E; vm_compute; intuition set_solver|].
  destruct (decide (m_Role m = RoleOperator)) as [E|No]; [rewrite E; vm_compute; intuition set_solver|].
  destruct (decide (m_Role m = RoleOwner)) as [E|Nw]; [rewrite E; vm_compute; intuition set_solver|].
  assert (role_rank (m_Role m) = None) as Hr by (unfold role_rank; by rewrite !bool_decide_eq_false_2).
  rewrite Hr, !bool_decide_eq_false_2 by done. by split_and!.
Qed.

Section properties.
Context `{PG : Postgres}.

(** Who a session identifier stands for, by the model's own tests. *)
Definition session_owner (d : Database) (sid : string) (required : Role) (now : Time) : option Member :=
  id ← uuid_in sid;
  s ← sessions d !! id;
  mr ← members d !! s_MemberID s;
  if Session_ActiveAt s now && Member_Can (mr_member mr) required then Some (mr_member mr) else None.

(** A session row as [Login] writes it, read at [now]. *)
Definition session_row_ok (now : Time) (s : Session) : Prop :=
  s_ID s <> "" /\ 0 < s_MemberID s /\ s_CreatedAt s <> 0 /\ s_ExpiresAt s <> 0 /\ s_CreatedAt s <= now.

Lemma GetSession_quiet sid d t : Repo.GetSession sid (quiet_store d t) =
  (match select_session sid d t with (Ok s, _) => Ok s | (Fail e, _) => Fail (classifyReadError e) end, quiet_store d t).
Proof.
  unfold Repo.GetSession, map_err, statement; simpl. unfold select_session.
  destruct (uuid_in sid); [|done]. by destruct (sessions d !! _).
Qed.
Lemma MemberByID_quiet id d t : Repo.MemberByID id (quiet_store d t) =
  (match members d !! id with
   | Some mr => Ok (mr_member mr)
   | None => Fail (Classified (Sentinel ErrNotFound) (Sentinel ErrNoRows))
   end, quiet_store d t).
Proof.
  unfold Repo.MemberByID, map_err, mbind, M_bind, statement, select_row; simpl. by destruct (members d !! id).
Qed.

(** What a member needs to pass [Authorize]. *)
Definition granted (d : Database) (sid : string) (required : Role) (now : Time) (m : Member) : Prop :=
  exists id s mr, uuid_in sid = Some id /\ sessions d !! id = Some s /\ s_RevokedAt s = None /\ now < s_ExpiresAt s /\
    members d !! s_MemberID s = Some mr /\ mr_member mr = m /\ Member_Can m required = true.

Lemma Authorize_quiet sid required now d t :
  exists r, Authorize sid required now (quiet_store d t) = (r, quiet_store d t) /\
    match r with Ok m => granted d sid required now m | Fail e => ErrorStatus e = 403 end.
Proof.
  unfold Authorize. case_bool_decide; [by eexists|].
  change (@GetSession _) with (@Repo.GetSession PG). change (@MemberByID _) with Repo.MemberByID.
  rewrite !bind_run, !map_err_run, !GetSession_quiet. unfold select_session.
  destruct (uuid_in sid) as [id|] eqn:Hid; [|by eexists]. simpl.
  destruct (sessions d !! id) as [s|] eqn:Hs; [|by eexists]. simpl.
  destruct (_ || _) eqn:Hbad; [by eexists|].
  rewrite !bind_run, !map_err_run, !MemberByID_quiet.
  destruct (members d !! s_MemberID s) as [mr|] eqn:Hm; [|by eexists]. simpl.
  pose proof (Member_Can_EnsureRole (mr_member mr) required) as Hcan.
  destruct (m_Active (mr_member mr)); [|by eexists]. simpl.
  destruct (EnsureRole _ _) eqn:HE; simpl; (eexists; split; [done|]); [by eapply EnsureRole_403|].
  unfold Before in Hbad. bsimp. by exists id, s, mr.
Qed.


End properties.


(** A household never exists without its owner: creating both is all or nothing
    under any failure; when it takes effect, the one new member is the active owner
    of the one new household. *)
Theorem CreateHouseholdWithOwner_all_or_nothing `{PG : Postgres} name timezone budget email hash s r s' :
  Repo.CreateHouseholdWithOwner name timezone budget email hash s = (r, s') ->
  let d := db (advance s).2 in
  ((exists e, r = Fail e) /\ exists q, db s' = set_seqs q d) \/
  exists h m,
    households d !! h_ID h = None /\ households (db s') = <[h_ID h := h]> (households d) /\
    members d !! m_ID m = None /\ members (db s') = <[m_ID m := mkMemberRow m hash]> (members d) /\
    h_Name h = name /\ m_Email m = email /\
    m_HouseholdID m = h_ID h /\ m_Role m = RoleOwner /\ m_Active m = true /\
    (r = Ok (h, m) \/ exists e, r = Fail (wrap_prefix "commit transaction" e)).
Proof.
  intros HC%WithTx_inv. cbv zeta in *. destruct HC as [?|([h m] & s1 & HC & Hdb & Hr)]; [by left|right].
  apply bind_Ok in HC as (h' & s2 & HC & HM). apply map_err_Ok in HC. unfold Repo.CreateHousehold in HC.
  destruct (_ || _); [done|]. apply map_err_Ok, tx_statement_Ok in HC; [|done]. destruct HC as (HC & Htx & _).
  unfold insert_household in HC. apply insert_row_Ok in HC as (Eh & Hfree & Hd2).
  apply bind_Ok in HM as (m' & s3 & HM & Hret). injection Hret as -> -> <-.
  apply map_err_Ok in HM. unfold Repo.AddMember in HM. apply map_err_Ok, bind_Ok in HM as (row & s4 & HM & Hrow).
  injection Hrow as <- <-. apply tx_statement_Ok in HM; [|done]. destruct HM as (HM & _).
  unfold insert_member in HM. apply insert_row_Ok in HM as (Em & Hfreem & Hd4).
  assert (members (db s2) = members (db (advance s).2)) as Hms by (by rewrite Hd2).
  assert (households (db s4) = households (db s2)) as Hhs by (by rewrite Hd4).
  assert (members (db s4) = <[nextval (R := MemberRow) (db s2) := row]> (members (db s2))) as Hm1 by (by rewrite Hd4).
  exists h, (mr_member row). rewrite Hdb, Hhs, Hm1, Hms. simpl in Hfreem. rewrite Hms in Hfreem.
  split_and!; try done; first [by rewrite Em | by rewrite Eh | by rewrite Hd2, Eh | by rewrite Em, Eh].
Qed.

(** ** Examples *)
Definition example_salt : list ascii := replicate 16 "s"%char.
Definition example_hash (PB : Pbkdf2) : string :=
  match hashPassword (Ok example_salt) "correct horse" with Ok h => h | Fail _ => "" end.
Definition example_member : MemberRow :=
  mkMemberRow (mkMember 4 1 "ann@example.org" RoleOperator true 3) (example_hash toy_pbkdf2).
Definition example_accounts : Database :=
  set_households {[1 := mkHousehold 1 "home" "UTC" 0 0]}
  (set_members {[4 := example_member]} empty_database).
Definition example_session : Session := mkSession "u-1" 4 (SessionTTL + 100) None 100.
Definition example_logged_in : Database := set_sessions {["u-1" := example_session]} example_accounts.




Lemma CreateHouseholdWithOwner_all_or_nothing_witness :
  let _ := exact_postgres in
  let s := quiet_store empty_database 7 in
  let s' := (Repo.CreateHouseholdWithOwner "home" "UTC" 10 "ann@example.org" "hash" s).2 in
  exists h m, members (db s') = {[m_ID m := mkMemberRow m "hash"]} /\ households (db s') = {[h_ID h := h]} /\
    m_HouseholdID m = h_ID h /\ m_Role m = RoleOwner.
Proof.
  intros PG s s'.
  destruct (CreateHouseholdWithOwner_all_or_nothing "home" "UTC" 10 "ann@example.org" "hash" s _ _
    (surjective_pairing _)) as [[_ [q Hq]]|(h & m & _ & Hh & _ & Hm & _ & _ & ? & ? & _)].
  - exfalso. assert (size (members (db s')) = 1%nat) as Hsize by (vm_compute; reflexivity).
    unfold s' in Hsize. rewrite Hq in Hsize. vm_compute in Hsize. discriminate Hsize.
  - by exists h, m.
Defined.
