(* ===== verification/Batch.v ===== *)
(** * domain/batch.go, domain/concurrency.go, service/batch.go and service/dispatch.go

    The concurrent batch and worker pool are modelled by what each goroutine
    observes ([item_run], [pool_slot]) and by the order in which the goroutines
    finish, any permutation of the indices: the theorems hold for all of them. *)
From S2P Require Import Prelude Errors GoStd Model Rules Store Repo Frame Devices Automations.

(** ** Results written by index

    [out[i] = f i] for the indices of a list, in that order. *)
Definition write_all {A} (f : nat -> A) (order : list nat) (out : list A) : list A :=
  fold_left (fun out i => <[i := f i]> out) order out.

Lemma write_all_length {A} (f : nat -> A) order out : length (write_all f order out) = length out.
Proof.
  unfold write_all. revert out. induction order as [|i order IH]; intros out; simpl; [done|].
  by rewrite IH, length_insert.
Qed.

Lemma write_all_lookup {A} (f : nat -> A) order out i :
  (i < length out)%nat ->
  write_all f order out !! i = if bool_decide (i ∈ order) then Some (f i) else out !! i.
Proof.
  unfold write_all. revert out. induction order as [|j order IH]; intros out Hi; simpl; [done|].
  rewrite IH by (by rewrite length_insert). case_bool_decide as Hin.
  { by rewrite bool_decide_eq_true_2 by (by right). }
  destruct (decide (i = j)) as [->|Hne].
  - rewrite bool_decide_eq_true_2 by left. by apply list_lookup_insert_eq.
  - rewrite bool_decide_eq_false_2 by (rewrite elem_of_cons; naive_solver).
    by rewrite list_lookup_insert_ne.
Qed.

(** Any order of completion leaves the same slice. *)
Lemma write_all_order {A} (f : nat -> A) order out :
  order ≡ₚ seq 0 (length out) -> write_all f order out = map f (seq 0 (length out)).
Proof.
  intros Hp. apply list_eq. intros i. destruct (decide (i < length out)%nat) as [Hi|Hi].
  - rewrite write_all_lookup by done. rewrite bool_decide_eq_true_2 by (rewrite Hp; apply elem_of_seq; lia).
    change (map f) with (fmap (M := list) f). rewrite list_lookup_fmap, lookup_seq_lt by done. done.
  - rewrite (lookup_ge_None_2 (write_all _ _ _)) by (rewrite write_all_length; lia).
    symmetry. apply lookup_ge_None_2. rewrite length_map, length_seq. lia.
Qed.

(** ** domain/batch.go *)
Definition Payload := list (string * json).
Record BatchItem := mkBatchItem { bi_DeviceID : Z; bi_Action : string; bi_Payload : Payload }.
Record BatchResult := mkBatchResult {
  br_DeviceID : Z; br_Accepted : bool; br_Error : option error; br_Started : Time; br_Finished : Time }.
Definition zeroBatchResult : BatchResult := mkBatchResult 0 false None 0 0.

Definition ValidateBatch (items : list BatchItem) : option error :=
  if bool_decide (items = []) || (100 <? Z.of_nat (length items))
  then Some (New "batch must contain between one and one hundred items")
  else scan_seen bi_DeviceID
         (fun item => if (bi_DeviceID item <=? 0) || bool_decide (bi_Action item = "")
                      then Some (New "batch item is incomplete") else None)
         (fun _ => None)
         (fun item => New ("device " +:+ Sprint (bi_DeviceID item) +:+ " appears more than once"))
         ∅ items.

(** What the goroutine of one item observes: the state of the context when it
    starts, the answer of the executor when it is asked, and the two readings of the
    clock. *)
Record item_run := mkItemRun {
  ir_ctx : Ctx; ir_answer : option error; ir_started : Time; ir_finished : Time }.

Definition item_error (run : item_run) : option error :=
  match ctx_Err (ir_ctx run) with Some e => Some e | None => ir_answer run end.

Definition item_result (item : BatchItem) (run : item_run) : BatchResult :=
  mkBatchResult (bi_DeviceID item) (bool_decide (item_error run = None)) (item_error run)
    (ir_started run) (ir_finished run).

(** [firstErr]: the first error that is not a cancellation, in completion order. *)
Definition record_error (runs : nat -> item_run) (firstErr : option error) (i : nat) : option error :=
  match item_error (runs i) with
  | Some e => if is_ctx_error e then firstErr
              else match firstErr with None => Some e | Some _ => firstErr end
  | None => firstErr
  end.

Definition zeroBatchItem : BatchItem := mkBatchItem 0 "" [].

(** [order] is the order in which the goroutines finish, [ctx_end] the context when
    the group has been waited for; a missing executor is [None]. *)
Definition ExecuteBatch (items : list BatchItem) (runs : option (nat -> item_run)) (order : list nat)
    (ctx_end : Ctx) : result (list BatchResult * option error) :=
  match ValidateBatch items with
  | Some e => Fail e
  | None =>
      match runs with
      | None => Fail (New "batch executor is not configured")
      | Some runs =>
          let results := write_all (fun i => item_result (nth i items zeroBatchItem) (runs i)) order
                           (replicate (length items) zeroBatchResult) in
          let firstErr := fold_left (record_error runs) order None in
          Ok (results, match ctx_Err ctx_end with Some e => Some e | None => firstErr end)
      end
  end.

Definition SortBatchResults (results : list BatchResult) : list BatchResult :=
  stable_sort (less_by br_DeviceID) results.

(** ** domain/concurrency.go: [Parallel]

    What happens to one index: the feeding loop sees the context done before a worker
    takes it ([Unsent]), or a worker takes it, checks the context and calls the
    function. *)
Inductive pool_slot := Unsent (c : Ctx) | Taken (c : Ctx) (answer : option error).

Definition slot_error (s : pool_slot) : option error :=
  match s with
  | Unsent c => ctx_Err c
  | Taken c answer => match ctx_Err c with Some e => Some e | None => answer end
  end.

(** [order] is the order in which the entries are written. *)
Definition Parallel {T} (values : list T) (slots : option (nat -> pool_slot)) (order : list nat)
    : list (option error) :=
  match slots with
  | None => replicate (length values) (Some (New "parallel callback is not configured"))
  | Some slots => write_all (fun i => slot_error (slots i)) order (replicate (length values) None)
  end.

(** ** service/batch.go *)
Record BatchCommand := mkBatchCommand {
  bc_DeviceID : Z; bc_Action : string; bc_RequestID : string; bc_Payload : Payload }.
Definition zeroBatchCommand : BatchCommand := mkBatchCommand 0 "" "" [].

Definition ValidateDeviceCommand (device : Device) (action : string) : option error :=
  if negb (bool_decide (d_State device = DeviceEnabled)) then Some (New "device is not enabled")
  else if bool_decide (d_Kind device = KindLight) then
    if negb (bool_decide (action = "on")) && negb (bool_decide (action = "off"))
    then Some (Sentinel ErrInvalid) else None
  else if bool_decide (d_Kind device = KindThermostat) then
    if negb (bool_decide (action = "heat")) && negb (bool_decide (action = "cool"))
    then Some (Sentinel ErrInvalid) else None
  else if bool_decide (d_Kind device = KindLock) then
    if negb (bool_decide (action = "lock")) && negb (bool_decide (action = "unlock"))
    then Some (Sentinel ErrInvalid) else None
  else Some (New "device does not accept commands").

Definition batch_item (c : BatchCommand) : BatchItem := mkBatchItem (bc_DeviceID c) (bc_Action c) (bc_Payload c).

Section service.
Context `{DeviceRepository}.

(** The loop of [BatchService.ValidateCommands] over the devices. *)
Fixpoint validate_commands (commands : list BatchCommand) : M unit :=
  match commands with
  | [] => mret tt
  | command :: rest =>
      device ← map_err (wrap_prefix ("load device " +:+ Sprint (bc_DeviceID command)))
                 (Devices.GetDevice (bc_DeviceID command));
      match ValidateDeviceCommand device (bc_Action command) with
      | Some e => mfail (wrap_prefix ("device " +:+ Sprint (bc_DeviceID command)) e)
      | None => validate_commands rest
      end
  end.

Definition ValidateCommands (commands : list BatchCommand) : M unit :=
  match ValidateBatch (map batch_item commands) with
  | Some e => mfail e
  | None => validate_commands commands
  end.

(** The callback of [BatchService.Execute]: the first command for the item's device. *)
Definition find_command (commands : list BatchCommand) (item : BatchItem) : option BatchCommand :=
  find (fun c => bc_DeviceID c =? bi_DeviceID item) commands.

(** What the goroutine of item [i] observes: the context, the clock and the answer
    of [dispatch] to the command it finds. *)
Record dispatch_world := mkDispatchWorld {
  dw_ctx : nat -> Ctx; dw_answer : nat -> BatchCommand -> option error;
  dw_started : nat -> Time; dw_finished : nat -> Time }.

Definition dispatch_run (commands : list BatchCommand) (w : dispatch_world) (i : nat) : item_run :=
  mkItemRun (dw_ctx w i)
    (match find_command commands (batch_item (nth i commands zeroBatchCommand)) with
     | Some command => dw_answer w i command
     | None => Some (New "batch command disappeared")
     end) (dw_started w i) (dw_finished w i).

(** [BatchService.Execute]. *)
Definition BatchService_Execute (commands : list BatchCommand) (dispatch : option dispatch_world)
    (order : list nat) (ctx_end : Ctx) : M (list BatchResult * option error) :=
  match dispatch with
  | None => mfail (New "batch dispatcher is not configured")
  | Some dispatch =>
      _ ← ValidateCommands commands;
      lift (ExecuteBatch (map batch_item commands) (Some (dispatch_run commands dispatch)) order ctx_end)
  end.
End service.

(** ** service/dispatch.go *)
Record DispatchRecord := mkDispatchRecord {
  dr_RequestID : string; dr_DeviceID : Z; dr_Action : string; dr_State : string; dr_Error : string;
  dr_At : Time }.
Definition zeroDispatchRecord : DispatchRecord := mkDispatchRecord "" 0 "" "" "" 0.

Definition accepted : string := "accepted".
Definition failed : string := "failed".
Definition cancelled : string := "cancelled".

Section dispatcher.
Context `{DeviceRepository}.

(** [Dispatcher.validate]. *)
Fixpoint dispatcher_validate (commands : list BatchCommand) : M unit :=
  match commands with
  | [] => mret tt
  | command :: rest =>
      device ← Devices.GetDevice (bc_DeviceID command);
      match ValidateDeviceCommand device (bc_Action command) with
      | Some e => mfail e
      | None => dispatcher_validate rest
      end
  end.

(** The loop of [Dispatcher.Dispatch].  [ctx i], [at_ i] and [send i] are what
    iteration [i] sees of the context, the clock and the callback; [store] is the
    [AddAudit] of the configured store.  [results] holds the records so far, the rest
    of the slice being zero. *)
Fixpoint dispatch_loop (store : option (AuditEvent -> M unit)) (household : Z) (member : option Z)
    (requestID : string) (ctx : nat -> Ctx) (at_ : nat -> Time) (send : nat -> BatchCommand -> option error)
    (i : nat) (results : list DispatchRecord) (commands : list BatchCommand)
    : M (list DispatchRecord * option error) :=
  match commands with
  | [] => mret (results, None)
  | command :: rest =>
      let padding := replicate (length rest) zeroDispatchRecord in
      let record := mkDispatchRecord requestID (bc_DeviceID command) (bc_Action command) in
      match ctx_Err (ctx i) with
      | Some e => mret (results ++ record cancelled (Error e) (at_ i) :: padding, Some e)
      | None =>
          let sent := send i command in
          let state := match sent with Some _ => failed | None => accepted end in
          let results := results ++ [record state (errorString sent) (at_ i)] in
          let next := dispatch_loop store household member requestID ctx at_ send (S i) results rest in
          match store with
          | None => next
          | Some AddAudit => fun s =>
              match AddAudit (mkAudit 0 household member requestID "device" (Sprint (bc_DeviceID command))
                                state None 0) s with
              | (Ok _, s) => next s
              | (Fail e, s) => (Ok (results ++ padding, Some (wrap_prefix "audit dispatch" e)), s)
              end
          end
      end
  end.

(** [Dispatcher.Dispatch]. *)
Definition Dispatch (MaxBatch : Z) (store : option (AuditEvent -> M unit)) (household : Z) (member : option Z)
    (requestID : string) (commands : list BatchCommand) (ctx : nat -> Ctx) (at_ : nat -> Time)
    (send : nat -> BatchCommand -> option error) : M (list DispatchRecord * option error) :=
  if (household <=? 0) || bool_decide (TrimSpace requestID = "") || bool_decide (commands = [])
     || (MaxBatch <? Z.of_nat (length commands))
  then mfail (Sentinel ErrInvalid)
  else
    _ ← dispatcher_validate commands;
    dispatch_loop store household member requestID ctx at_ send 0 [] commands.
End dispatcher.

(** [Dispatcher.Summarize]. *)
Definition Summarize_records (records : list DispatchRecord) : Z * Z :=
  fold_left (fun '(a, f) r =>
    if bool_decide (dr_State r = accepted) then (a + 1, f)
    else if bool_decide (dr_State r ∈ [failed; cancelled]) then (a, f + 1)
    else (a, f)) records (0, 0).

Definition ValidateDispatchRecords (records : list DispatchRecord) : option error :=
  scan_seen dr_DeviceID
    (fun r => if (dr_DeviceID r <=? 0) || bool_decide (dr_RequestID r = "") || IsZero (dr_At r)
              then Some (New "dispatch record is incomplete") else None)
    (fun r => if negb (bool_decide (dr_State r = accepted)) && negb (bool_decide (dr_State r = failed))
                 && negb (bool_decide (dr_State r = cancelled))
              then Some (New "unknown dispatch state") else None)
    (fun _ => New "duplicate dispatch record") ∅ records.

(** ** Properties *)

(** The three tables of device commands agree: [CompatibleAction] of the domain,
    [ValidateAction] of the automations and [ValidateDeviceCommand] of the batches
    accept the same actions for every kind of device, the last one on enabled devices
    only. *)
Theorem action_checks_agree kind action device :
  (ValidateAction kind action = None <-> CompatibleAction kind action = true) /\
  (ValidateDeviceCommand device action = None <->
   d_State device = DeviceEnabled /\ CompatibleAction (d_Kind device) action = true).
Proof.
  split.
  - unfold ValidateAction, CompatibleAction. repeat case_bool_decide; naive_solver.
  - unfold ValidateDeviceCommand, CompatibleAction. repeat case_bool_decide; naive_solver.
Qed.

Lemma ValidateBatch_None items : ValidateBatch items = None <->
  0 < Z.of_nat (length items) <= 100 /\ NoDup (map bi_DeviceID items) /\
  Forall (fun i => 0 < bi_DeviceID i /\ bi_Action i <> "") items.
Proof.
  unfold ValidateBatch. destruct (_ || _) eqn:Hg.
  { split; [done|]. intros (Hl & _). bcases; subst; simpl in *; lia. }
  bsimp. rewrite scan_seen_None. split.
  - intros (Hall & Hnd & _). split_and!; [|lia|done|].
    + destruct items; [done|]. simpl. lia.
    + eapply Forall_impl; [exact Hall|]. intros x [Hx _]. by guards Hx.
  - intros (_ & Hnd & Hall). split_and!; [|done|apply Forall_true; set_solver].
    eapply Forall_impl; [exact Hall|]. intros x [Hx Ha]. rewrite (proj2 (Z.leb_gt _ _) Hx).
    by rewrite bool_decide_eq_false_2.
Qed.

Lemma record_errors_spec runs order first :
  match fold_left (record_error runs) order first with
  | Some e => first = Some e \/ (first = None /\ exists i, i ∈ order /\ item_error (runs i) = Some e /\ is_ctx_error e = false)
  | None => first = None /\ forall i, i ∈ order ->
              match item_error (runs i) with Some e => is_ctx_error e = true | None => True end
  end.
Proof.
  revert first. induction order as [|i order IH]; intros first; simpl.
  { destruct first; [by left|]. split; [done|]. intros i Hi. by apply elem_of_nil in Hi. }
  specialize (IH (record_error runs first i)). unfold record_error in IH at 2 3 4.
  destruct (fold_left _ _ _) as [e|].
  - destruct IH as [IH|[IH (j & Hj & He)]].
    + unfold record_error in IH. destruct (item_error (runs i)) as [e'|] eqn:Hi; [|by left].
      destruct (is_ctx_error e') eqn:Hc; [by left|]. destruct first; [by left|].
      injection IH as ->. right. split; [done|]. exists i. split; [left|done].
    + unfold record_error in IH. destruct (item_error (runs i)) as [e'|] eqn:Hi.
      * destruct (is_ctx_error e') eqn:Hc; [|by destruct first].
        right. split; [done|]. exists j. split; [by right|done].
      * right. split; [done|]. exists j. split; [by right|done].
  - destruct IH as [IH Hall].
    assert (first = None /\ match item_error (runs i) with Some e => is_ctx_error e = true | None => True end) as [Hf Hi].
    { unfold record_error in IH. destruct (item_error (runs i)); [|done].
      destruct (is_ctx_error _); [done|]. by destruct first. }
    split; [done|]. intros j [->|Hj]%elem_of_cons; [done|by apply Hall].
Qed.


(** [Parallel] returns one entry per input, at the input's index, in whatever order
    the workers finish: the function's error, or the context's error for an input that
    no worker started. *)
Theorem Parallel_by_index {T} (values : list T) slots order :
  order ≡ₚ seq 0 (length values) ->
  Parallel values (Some slots) order = map (fun i => slot_error (slots i)) (seq 0 (length values)) /\
  (RequireAll (Parallel values (Some slots) order) = None <->
   forall i, (i < length values)%nat -> slot_error (slots i) = None).
Proof.
  intros Hp. assert (Parallel values (Some slots) order = map (fun i => slot_error (slots i)) (seq 0 (length values))) as E.
  { unfold Parallel. rewrite write_all_order by (by rewrite length_replicate). by rewrite length_replicate. }
  split; [done|]. rewrite E. unfold RequireAll. rewrite RequireAll_loop_None, List.Forall_map, Forall_forall.
  split.
  - intros [_ H] i Hi. apply H. apply elem_of_seq. lia.
  - intros H. split; [done|]. intros i Hi. apply elem_of_seq in Hi. apply H. lia.
Qed.

Section batch_properties.
Context `{DeviceRepository}.

Lemma find_command_own commands i c :
  NoDup (map bc_DeviceID commands) -> commands !! i = Some c -> find_command commands (batch_item c) = Some c.
Proof.
  revert i. induction commands as [|x commands IH]; intros i; [done|]. cbn [map]. rewrite NoDup_cons.
  intros [Hx Hnd]. unfold find_command; simpl. destruct i as [|i]; simpl; [intros [= ->]; by rewrite Z.eqb_refl|].
  intros Hi. destruct (bc_DeviceID x =? bc_DeviceID c) eqn:E; [|by eapply IH]. exfalso. bsimp.
  apply Hx. rewrite E, list_elem_of_In. apply in_map. rewrite <-list_elem_of_In.
  by eapply list_elem_of_lookup_2.
Qed.

(** A batch of commands that runs is valid, and result [i] is what [dispatch]
    answered to command [i] itself: the lookup by device in the callback never picks
    another command and never finds none. *)
Theorem batch_dispatches_own_command commands w order ctx_end s s' results err :
  order ≡ₚ seq 0 (length commands) ->
  BatchService_Execute commands (Some w) order ctx_end s = (Ok (results, err), s') ->
  length results = length commands /\
  forall i c, commands !! i = Some c ->
    results !! i = Some (item_result (batch_item c)
                           (mkItemRun (dw_ctx w i) (dw_answer w i c) (dw_started w i) (dw_finished w i))).
Proof.
  intros Hp HE. unfold BatchService_Execute in HE. apply bind_Ok in HE as ([] & s1 & HV & HE).
  unfold ValidateCommands in HV. destruct (ValidateBatch _) eqn:Hv; [done|].
  pose proof (proj1 (ValidateBatch_None _) Hv) as (_ & Hnd & _). rewrite map_map in Hnd. simpl in Hnd.
  unfold lift, ExecuteBatch in HE. rewrite Hv in HE. injection HE as <- _ _.
  rewrite length_map, write_all_order by (by rewrite length_replicate). rewrite length_replicate.
  split; [by rewrite length_map, length_seq|]. intros i c Hi.
  change (map ?f) with (fmap (M := list) f). rewrite list_lookup_fmap, lookup_seq_lt by (by eapply lookup_lt_Some).
  simpl. f_equal. f_equal.
  - change zeroBatchItem with (batch_item zeroBatchCommand). change (batch_item <$> commands) with (map batch_item commands).
    rewrite map_nth. by rewrite (nth_lookup_Some _ _ _ _ Hi).
  - unfold dispatch_run. rewrite (nth_lookup_Some _ _ _ _ Hi). by rewrite (find_command_own _ i).
Qed.

(** The record of a command that was sent. *)
Definition sent_record (requestID : string) (at_ : nat -> Time) (send : nat -> BatchCommand -> option error)
    (i : nat) (c : BatchCommand) : DispatchRecord :=
  mkDispatchRecord requestID (bc_DeviceID c) (bc_Action c)
    (match send i c with Some _ => failed | None => accepted end) (errorString (send i c)) (at_ i).

Lemma dispatch_loop_unaudited household member rid ctx at_ send i results commands s :
  exists out err,
    dispatch_loop None household member rid ctx at_ send i results commands s = (Ok (results ++ out, err), s) /\
    length out = length commands /\
    match err with
    | None => forall j c, commands !! j = Some c -> out !! j = Some (sent_record rid at_ send (i + j) c)
    | Some e => exists k c, commands !! k = Some c /\ ctx_Err (ctx (i + k)%nat) = Some e /\
        (forall j c, (j < k)%nat -> commands !! j = Some c -> out !! j = Some (sent_record rid at_ send (i + j) c)) /\
        out !! k = Some (mkDispatchRecord rid (bc_DeviceID c) (bc_Action c) cancelled (Error e) (at_ (i + k)%nat)) /\
        (forall j, (k < j < length commands)%nat -> out !! j = Some zeroDispatchRecord)
    end.
Proof.
  revert i results. induction commands as [|c commands IH]; intros i results; cbn [dispatch_loop].
  { exists [], None. rewrite app_nil_r. by split_and!. }
  destruct (ctx_Err (ctx i)) as [e|] eqn:Hc.
  - eexists (_ :: replicate (length commands) zeroDispatchRecord), (Some e). split; [done|].
    split; [by rewrite length_cons, length_replicate|].
    exists 0%nat, c. rewrite Nat.add_0_r. split_and!; try done; [intros; lia|].
    intros [|j] Hj; simpl in *; [lia|]. by rewrite lookup_replicate_2 by lia.
  - destruct (IH (S i) (results ++ [sent_record rid at_ send i c])) as (out & err & E & Hlen & Hspec).
    exists (sent_record rid at_ send i c :: out), err. split; [|split].
    + unfold sent_record in E at 1. rewrite E. by rewrite <-app_assoc.
    + simpl. congruence.
    + destruct err as [e|].
      * destruct Hspec as (k & c' & Hk & He & Hbefore & Hat & Hafter). exists (S k), c'.
        rewrite Nat.add_succ_r. split_and!; try done.
        -- intros [|j] x Hj Hx; [injection Hx as <-; by rewrite Nat.add_0_r|].
           rewrite Nat.add_succ_r. apply Hbefore; [lia|done].
        -- intros [|j] Hj; [lia|]. simpl in *. apply Hafter. lia.
      * intros [|j] x Hx; [injection Hx as <-; by rewrite Nat.add_0_r|].
        rewrite Nat.add_succ_r. by apply Hspec.
Qed.

(** A dispatch without an audit store leaves one record per command, in order:
    when it returns no error every command was sent once and its record tells whether
    the callback accepted it; when the context is done, the commands before that point
    were sent, that one is recorded as cancelled and no later one was sent. *)
Theorem Dispatch_records MaxBatch household member rid commands ctx at_ send s s' records err :
  Dispatch MaxBatch None household member rid commands ctx at_ send s = (Ok (records, err), s') ->
  length records = length commands /\
  match err with
  | None => forall i c, commands !! i = Some c -> records !! i = Some (sent_record rid at_ send i c)
  | Some e => exists k c, commands !! k = Some c /\ ctx_Err (ctx k) = Some e /\
      (forall j c, (j < k)%nat -> commands !! j = Some c -> records !! j = Some (sent_record rid at_ send j c)) /\
      records !! k = Some (mkDispatchRecord rid (bc_DeviceID c) (bc_Action c) cancelled (Error e) (at_ k)) /\
      (forall j, (k < j < length commands)%nat -> records !! j = Some zeroDispatchRecord)
  end.
Proof.
  intros HD. unfold Dispatch in HD. destruct (_ || _); [done|].
  apply bind_Ok in HD as ([] & s1 & _ & HD).
  destruct (dispatch_loop_unaudited household member rid ctx at_ send 0 [] commands s1)
    as (out & err' & E & Hlen & Hspec).
  rewrite E in HD. by injection HD as <- <- <-.
Qed.
End batch_properties.

(** With the repository as its audit store a dispatch never gets past its first
    command: the command is sent, then its audit, which carries no payload, is rejected
    as invalid, and the remaining commands are neither sent nor recorded. *)
Theorem Dispatch_audit_rejected `{PG : Postgres} MaxBatch household member rid command rest ctx at_ send d now :
  0 < household -> TrimSpace rid <> "" -> 1 + Z.of_nat (length rest) <= MaxBatch ->
  dispatcher_validate (command :: rest) (quiet_store d now) = (Ok tt, quiet_store d now) ->
  ctx_Err (ctx 0%nat) = None ->
  exists e, ErrorStatus e = 400 /\
    Dispatch MaxBatch (Some Repo.AddAudit) household member rid (command :: rest) ctx at_ send (quiet_store d now) =
    (Ok (sent_record rid at_ send 0 command :: replicate (length rest) zeroDispatchRecord,
         Some (wrap_prefix "audit dispatch" e)), quiet_store d now).
Proof.
  intros Hh Hr Hlen Hval Hctx. exists (Classified (Sentinel ErrInvalid) (pq "22P02")). split; [done|].
  unfold Dispatch. rewrite (proj2 (Z.leb_gt _ _) Hh), !bool_decide_eq_false_2 by done.
  rewrite (proj2 (Z.ltb_ge _ _)) by (simpl length; lia). cbn [orb].
  rewrite bind_run, Hval. cbn [dispatch_loop]. rewrite Hctx. done.
Qed.

(** ** Examples *)
Definition example_commands : list BatchCommand :=
  [mkBatchCommand 3 "on" "r" []; mkBatchCommand 5 "off" "r" []].
Definition example_lamps : Database :=
  set_devices {[3 := mkDevice 3 1 "a" KindLight DeviceEnabled "1.0" 3 None 5;
                5 := mkDevice 5 1 "b" KindLight DeviceEnabled "1.0" 3 None 5]} empty_database.
Definition example_answers (i : nat) : item_run :=
  mkItemRun Live (if (i =? 1)%nat then Some (New "busy") else None) 10 20.

Lemma swapped_order : [1; 0]%nat ≡ₚ seq 0 2.
Proof. apply Permutation_swap. Qed.


Lemma Parallel_by_index_witness :
  Parallel [7; 8] (Some (fun i => if (i =? 1)%nat then Unsent CtxCanceled else Taken Live None)) [1; 0]%nat =
    [None; Some (Sentinel Canceled)].
Proof.
  rewrite (proj1 (Parallel_by_index [7; 8]
    (fun i => if (i =? 1)%nat then Unsent CtxCanceled else Taken Live None) [1; 0]%nat swapped_order)).
  reflexivity.
Defined.

Lemma batch_dispatches_own_command_witness :
  let _ := exact_postgres in
  let w := mkDispatchWorld (fun _ => Live) (fun i c => if bool_decide (bc_Action c = "off") then Some (New "busy") else None)
             (fun _ => 10) (fun _ => 20) in
  let run := BatchService_Execute example_commands (Some w) [1; 0]%nat Live (quiet_store example_lamps 50) in
  exists results err, run = (Ok (results, err), run.2) /\
    results !! 1%nat = Some (mkBatchResult 5 false (Some (New "busy")) 10 20).
Proof.
  intros PG w run.
  assert (run = (Ok ([mkBatchResult 3 true None 10 20; mkBatchResult 5 false (Some (New "busy")) 10 20],
                     Some (New "busy")), run.2)) as Hrun by (vm_compute; reflexivity).
  eexists _, _. split; [exact Hrun|].
  exact (proj2 (batch_dispatches_own_command example_commands w [1; 0]%nat Live (quiet_store example_lamps 50)
    run.2 _ _ swapped_order Hrun) 1%nat (mkBatchCommand 5 "off" "r" []) eq_refl).
Defined.

Lemma Dispatch_records_witness :
  let _ := exact_postgres in
  let run := Dispatch 50 None 1 None "r" example_commands (fun i => if (i =? 1)%nat then CtxCanceled else Live)
    (fun _ => 60) (fun _ _ => None) (quiet_store example_lamps 50) in
  exists records, run = (Ok (records, Some (Sentinel Canceled)), run.2) /\ length records = 2%nat.
Proof.
  intros PG run.
  assert (run = (Ok ([mkDispatchRecord "r" 3 "on" "accepted" "" 60;
                      mkDispatchRecord "r" 5 "off" "cancelled" "context canceled" 60],
                     Some (Sentinel Canceled)), run.2)) as Hrun by (vm_compute; reflexivity).
  eexists _. split; [exact Hrun|].
  exact (proj1 (Dispatch_records 50 1 None "r" example_commands
    (fun i => if (i =? 1)%nat then CtxCanceled else Live) (fun _ => 60) (fun _ _ => None)
    (quiet_store example_lamps 50) run.2 _ _ Hrun)).
Defined.

Lemma Dispatch_audit_rejected_witness :
  let _ := exact_postgres in
  exists e, ErrorStatus e = 400 /\
    Dispatch 50 (Some Repo.AddAudit) 1 None "r" example_commands (fun _ => Live) (fun _ => 60) (fun _ _ => None)
      (quiet_store example_lamps 50) =
    (Ok ([mkDispatchRecord "r" 3 "on" "accepted" "" 60; zeroDispatchRecord], Some (wrap_prefix "audit dispatch" e)),
     quiet_store example_lamps 50).
Proof.
  intros PG.
  exact (Dispatch_audit_rejected 50 1 None "r" (mkBatchCommand 3 "on" "r" []) [mkBatchCommand 5 "off" "r" []]
    (fun _ => Live) (fun _ => 60) (fun _ _ => None) example_lamps 50 ltac:(done) ltac:(done) ltac:(done)
    ltac:(vm_compute; reflexivity) eq_refl).
Defined.
