(* ===== verification/Alerts.v ===== *)
(** * domain/alerts.go and service/alerts.go: alerts

    [alert_history] is the lifecycle of the rows: open, possibly acknowledged, then
    resolved for good. *)
From S2P Require Import Prelude Errors GoStd Model Store Repo Frame.

(** ** domain/alerts.go *)
Record AlertPolicy := mkAlertPolicy {
  ap_Code : string; ap_Severity : string; ap_Cooldown : Duration; ap_Threshold : float64; ap_Window : Duration }.
Record AlertDecision := mkAlertDecision { ad_Open : bool; ad_Resolve : bool; ad_Reason : string }.

Definition EvaluateAlert (policy : AlertPolicy) (value : float64) (last : option Time) (now : Time)
    (currentlyOpen : bool) : AlertDecision :=
  if match last with Some t => Sub now t <? ap_Cooldown policy | None => false end
  then mkAlertDecision false false "cooldown"
  else
    let trigger := fle (ap_Threshold policy) value in
    if trigger && negb currentlyOpen
    then mkAlertDecision true false (ap_Code policy +:+ " threshold reached")
    else if negb trigger && currentlyOpen then mkAlertDecision false true "value recovered"
    else mkAlertDecision false false "unchanged".

Definition ValidSeverity (v : string) : bool := bool_decide (v ∈ ["info"; "warning"; "critical"]).
Definition ValidAlertState (v : string) : bool := bool_decide (v ∈ ["open"; "acknowledged"; "resolved"]).

(** [domain.TransitionAlert]. *)
Definition alert_transition (current next : string) : bool :=
  if bool_decide (current = "open") then bool_decide (next = "acknowledged") || bool_decide (next = "resolved")
  else if bool_decide (current = "acknowledged") then bool_decide (next = "resolved")
  else false.

(** ** The specification of an alert's history *)
Definition alert_step (a b : string) : Prop := alert_transition a b = true.
Definition same_alert (r r' : Alert) : Prop :=
  al_ID r' = al_ID r /\ al_HouseholdID r' = al_HouseholdID r /\ al_DeviceID r' = al_DeviceID r /\
  al_Severity r' = al_Severity r /\ al_Code r' = al_Code r /\ al_Details r' = al_Details r /\
  al_CreatedAt r' = al_CreatedAt r.
Definition alert_evolves (r r' : Alert) : Prop :=
  same_alert r r' /\ rtc alert_step (al_State r) (al_State r') /\
  (al_State r = "resolved" -> r' = r) /\
  ((al_State r = "resolved" <-> al_ResolvedAt r <> None) ->
   (al_State r' = "resolved" <-> al_ResolvedAt r' <> None)).
Definition new_alert (id : Z) (r : Alert) : Prop :=
  al_ID r = id /\ al_State r = "open" /\ al_ResolvedAt r = None /\ ValidSeverity (al_Severity r) = true.
Definition alert_history : Database -> Database -> Prop := evolve new_alert alert_evolves.

Lemma alert_step_resolved b : ~ alert_step "resolved" b.
Proof. done. Qed.
Lemma alert_steps_resolved b : rtc alert_step "resolved" b -> b = "resolved".
Proof. intros Hs. remember "resolved" as a eqn:E. destruct Hs as [|a b c Hab _]; [done|]. by subst. Qed.

#[export] Instance alert_evolves_PreOrder : PreOrder alert_evolves.
Proof.
  split.
  - intros r. by split_and!.
  - intros r1 r2 r3 (S12 & H12 & R12 & T12) (S23 & H23 & R23 & T23). split_and!.
    + unfold same_alert in *. destruct_and!. split_and!; congruence.
    + by etransitivity.
    + intros E. assert (r2 = r1) as -> by auto. auto.
    + auto.
Qed.
#[export] Instance alert_history_TwoState : TwoState alert_history.
Proof. apply evolve_TwoState, _. Qed.

(** ** The service *)
Class AlertRepository := {
  CreateAlert : Alert -> M Alert;
  GetAlert : Z -> M Alert;
  TransitionAlert : Z -> string -> string -> Time -> M unit;
  CreateAlert_history a : ValidSeverity (al_Severity a) = true -> guarantees alert_history (CreateAlert a);
  GetAlert_history id : guarantees alert_history (GetAlert id);
  TransitionAlert_history id from to now :
    alert_step from to -> guarantees alert_history (TransitionAlert id from to now)
}.

Record AlertInput := mkAlertInput {
  ai_HouseholdID : Z; ai_DeviceID : option Z; ai_Severity : string; ai_Code : string; ai_Details : json }.

(** [AlertService.Validate]. *)
Definition AlertService_Validate (input : AlertInput) : option error :=
  if (ai_HouseholdID input <=? 0) || bool_decide (ai_Code input = "") || negb (ValidSeverity (ai_Severity input))
  then Some (Sentinel ErrInvalid)
  else Marshal_error (ai_Details input).

Section service.
Context `{AlertRepository}.

(** [AlertService.Resolve]. *)
Definition Resolve (id : Z) (now : Time) : M unit :=
  if id <=? 0 then mfail (Sentinel ErrInvalid)
  else
    alert ← GetAlert id;
    if negb (alert_transition (al_State alert) "resolved") then mfail (Sentinel ErrConflict)
    else TransitionAlert id (al_State alert) "resolved" now.

(** [AlertService.Decision]. *)
Definition Decision (policy : AlertPolicy) (value : float64) (last : option Time) (open : bool) (now : Time)
    : AlertDecision := EvaluateAlert policy value last now open.

#[local] Hint Resolve GetAlert_history : repo.
Lemma Resolve_history id now : guarantees alert_history (Resolve id now).
Proof.
  unfold Resolve. case_match; [eauto with repo|]. g_bind. case_match eqn:E; [eauto with repo|].
  apply TransitionAlert_history. unfold alert_step. by bsimp.
Qed.
End service.

Section implementation.
Context `{PG : Postgres}.

Lemma insert_alert_history a : ValidSeverity (al_Severity a) = true ->
  guarantees alert_history (statement (insert_alert a)).
Proof.
  intros Hs. g_statement. intros d now. unfold insert_alert. apply insert_row_evolve; [apply _|].
  intros id t. by unfold new_alert; simpl.
Qed.
Lemma update_alert_state_history id from to now : alert_step from to ->
  guarantees alert_history (statement (update_alert_state id from to now)).
Proof.
  intros Hstep. g_statement. apply update_row_evolve; [apply _|]. intros d r r' t Hc [= <-]. bsimp.
  subst from. assert (al_State r <> "resolved") as Hns by (intros E; by rewrite E in Hstep).
  split; [by split_and!|]. split; [by apply rtc_once|]. split; [done|].
  simpl. intros HT. case_bool_decide as Hto; [done|]. rewrite <-HT. split; congruence.
Qed.

#[export, refine] Instance Repository_alerts : AlertRepository := {|
  CreateAlert := Repo.CreateAlert;
  GetAlert := Repo.GetAlert;
  TransitionAlert := Repo.TransitionAlert
|}.
Proof.
  - intros a Hs. by apply guarantees_map_err, insert_alert_history.
  - intros id. unfold Repo.GetAlert, alert_history. eauto with repo.
  - intros id from to now Hstep. apply guarantees_require_some; [apply _|]. by apply update_alert_state_history.
Defined.

(** ** Properties *)

(** [Resolve] closes an alert exactly once: an open or acknowledged alert becomes
    resolved, stamped with the time and otherwise unchanged; a resolved one is reported
    as a conflict, an unknown one as not found, and then nothing changes. *)
Theorem Resolve_once id d clock now :
  0 < id ->
  match alerts d !! id with
  | None => exists e, Resolve id now (quiet_store d clock) = (Fail e, quiet_store d clock) /\ ErrorStatus e = 404
  | Some a =>
      row_check a = true ->
      if bool_decide (al_State a = "resolved")
      then exists e, Resolve id now (quiet_store d clock) = (Fail e, quiet_store d clock) /\ ErrorStatus e = 409
      else Resolve id now (quiet_store d clock) =
           (Ok tt, quiet_store (set_alerts (<[id :=
              mkAlert (al_ID a) (al_HouseholdID a) (al_DeviceID a) (al_Severity a) (al_Code a) "resolved"
                (al_Details a) (al_CreatedAt a) (Some (ts_in now))]> (alerts d)) d) clock)
  end.
Proof.
  intros Hid. unfold Resolve. rewrite (proj2 (Z.leb_gt _ _) Hid).
  change (@GetAlert _) with Repo.GetAlert. change (@TransitionAlert _) with (@Repo.TransitionAlert PG).
  assert (forall (k : Alert -> M unit), (a ← Repo.GetAlert id; k a) (quiet_store d clock) =
    match alerts d !! id with
    | Some a => k a (quiet_store d clock)
    | None => (Fail (Classified (Sentinel ErrNotFound) (Sentinel ErrNoRows)), quiet_store d clock)
    end) as Hget.
  { intros k. rewrite bind_run. unfold Repo.GetAlert, map_err, statement, select_row; simpl.
    by destruct (alerts d !! id). }
  rewrite !Hget. destruct (alerts d !! id) as [a|] eqn:Ha; [|by eexists]. intros Hchk.
  simpl in Hchk. apply andb_true_iff in Hchk as [Hsev Hst]. bsimp. rewrite !elem_of_cons in Hst.
  assert (al_State a <> "resolved" -> Repo.TransitionAlert id (al_State a) "resolved" now (quiet_store d clock) =
    (Ok tt, quiet_store (set_alerts (<[id := mkAlert (al_ID a) (al_HouseholdID a) (al_DeviceID a) (al_Severity a)
       (al_Code a) "resolved" (al_Details a) (al_CreatedAt a) (Some (ts_in now))]> (alerts d)) d) clock)) as Hset.
  { intros _. unfold Repo.TransitionAlert, require_some. rewrite bind_run. unfold statement; simpl.
    unfold update_alert_state, update_row; simpl. rewrite Ha, bool_decide_eq_true_2 by done.
    rewrite (bool_decide_eq_true_2 _ Hsev). done. }
  case_bool_decide as Hr.
  - rewrite Hr. by eexists.
  - assert (alert_transition (al_State a) "resolved" = true) as ->
      by (destruct Hst as [->|[->|[E|E]]]; [done|done|done|by apply elem_of_nil in E]).
    exact (Hset Hr).
Qed.
End implementation.

(** Outside the cooldown, and only then, an evaluation brings the alert in line
    with the threshold: applied to the current state, the decision leaves the alert
    open exactly when the value has reached the threshold, and it changes nothing that
    was already so. *)
Theorem EvaluateAlert_follows_threshold policy value last now open :
  let decision := EvaluateAlert policy value last now open in
  let cooling := match last with Some t => Sub now t <? ap_Cooldown policy | None => false end in
  let open' := (open || ad_Open decision) && negb (ad_Resolve decision) in
  open' = (if cooling then open else fle (ap_Threshold policy) value) /\
  (ad_Open decision = true -> open = false /\ open' = true) /\
  (ad_Resolve decision = true -> open = true /\ open' = false).
Proof.
  cbv zeta. unfold EvaluateAlert. destruct (match last with Some _ => _ | None => _ end); simpl.
  { by destruct open. }
  by destruct (fle _ _), open.
Qed.

Lemma Resolve_once_witness :
  let _ := exact_postgres in
  let row st at_ := mkAlert 3 1 None "warning" "peak" st None 5 at_ in
  let db st at_ := set_alerts {[3 := row st at_]} empty_database in
  Resolve 3 70 (quiet_store (db "open"%string None) 60) =
    (Ok tt, quiet_store (db "resolved"%string (Some 70)) 60) /\
  exists e, Resolve 3 90 (quiet_store (db "resolved"%string (Some 70)) 80) =
              (Fail e, quiet_store (db "resolved"%string (Some 70)) 80) /\ ErrorStatus e = 409.
Proof.
  intros PG row db. split.
  - exact (Resolve_once 3 (db "open"%string None) 60 70 ltac:(done) eq_refl).
  - exact (Resolve_once 3 (db "resolved"%string (Some 70)) 80 90 ltac:(done) eq_refl).
Defined.
