(* ===== verification/Telemetry.v ===== *)
(** * service/telemetry.go and service/report.go: telemetry and device reports

    [telemetry_keyed] is the invariant of the table: one row per device and
    sequence number. *)
From S2P Require Import Prelude Errors GoStd Model Rules Store Repo Frame.

(** ** The invariant *)
Definition telemetry_keyed (rows : gmap Z Telemetry) : Prop :=
  forall i j a b, rows !! i = Some a -> rows !! j = Some b ->
    t_DeviceID a = t_DeviceID b -> t_Sequence a = t_Sequence b -> i = j.

(** ** The service *)
Class TelemetryRepository := {
  InsertTelemetry : Telemetry -> M unit;
  TelemetryWindow : Z -> Time -> Time -> M (list Telemetry);
  InsertTelemetry_keyed t : guarantees (keeps telemetry_keyed) (InsertTelemetry t);
  TelemetryWindow_keyed id start end_ : guarantees (keeps telemetry_keyed) (TelemetryWindow id start end_)
}.

(** [AveragePower]. *)
Definition AveragePower (rows : list Telemetry) : float64 :=
  match rows with
  | [] => f0
  | _ => fdiv (fold_left (fun total row => fadd total (t_PowerWatts row)) rows f0) (of_int (Z.of_nat (length rows)))
  end.

(** report.go *)
Record DeviceReport := mkDeviceReport {
  dr_DeviceID : Z; dr_SampleCount : Z; dr_AveragePower : float64; dr_LastMeasuredAt : Time }.

Definition BuildDeviceReport (rows : list Telemetry) : DeviceReport :=
  match rows with
  | [] => mkDeviceReport 0 0 f0 zeroTime
  | row :: _ =>
      mkDeviceReport (t_DeviceID row) (Z.of_nat (length rows)) (AveragePower rows)
        (fold_left (fun last row => if After (t_MeasuredAt row) last then t_MeasuredAt row else last) rows zeroTime)
  end.

Definition SortTelemetry (rows : list Telemetry) : list Telemetry := stable_sort (less_by t_MeasuredAt) rows.

Section service.
Context `{TelemetryRepository}.

(** [TelemetryService.Record]. *)
Definition Record_ (t : Telemetry) (now : Time) : M unit :=
  if (t_DeviceID t <=? 0) || (t_Sequence t <=? 0) || IsZero (t_MeasuredAt t) then mfail (Sentinel ErrInvalid)
  else if flt (t_PowerWatts t) f0
  then mfail (wrap_suffix (Sentinel ErrInvalid) "power must be non-negative")
  else if After (t_MeasuredAt t) (Add now (5 * Minute))
  then mfail (wrap_suffix (Sentinel ErrInvalid) "measurement is in the future")
  else InsertTelemetry t.

(** [TelemetryService.Window]. *)
Definition Window (deviceID : Z) (start end_ : Time) : M (list Telemetry) :=
  if (deviceID <=? 0) || IsZero start || IsZero end_ || negb (Before start end_) then mfail (Sentinel ErrInvalid)
  else if 7 * 24 * Hour <? Sub end_ start
  then mfail (wrap_suffix (Sentinel ErrInvalid) "window exceeds seven days")
  else TelemetryWindow deviceID start end_.

(** [ReportService.Telemetry]. *)
Definition Report_Telemetry (id : Z) (start end_ : Time) : M DeviceReport :=
  rows ← TelemetryWindow id start end_;
  mret (BuildDeviceReport (SortTelemetry rows)).

#[local] Hint Resolve InsertTelemetry_keyed TelemetryWindow_keyed : repo.

Lemma Record_keyed t now : guarantees (keeps telemetry_keyed) (Record_ t now).
Proof. unfold Record_. repeat case_match; eauto with repo. Qed.
Lemma Window_keyed id start end_ : guarantees (keeps telemetry_keyed) (Window id start end_).
Proof. unfold Window. repeat case_match; eauto with repo. Qed.
Lemma Report_keyed id start end_ : guarantees (keeps telemetry_keyed) (Report_Telemetry id start end_).
Proof. unfold Report_Telemetry. eauto with repo. Qed.
End service.

(** ** The repository provides the interface *)
Section implementation.
Context `{PG : Postgres} `{SliceSort}.

(** What [insert_telemetry] does when it inserts. *)
Definition stored_row (t : Telemetry) (watts : float64) (temperature : option float64) (id : Z) (now : Time) : Telemetry :=
  mkTelemetry id (t_DeviceID t) (t_Sequence t) watts temperature (ts_in (t_MeasuredAt t)) now.

Lemma insert_telemetry_cases t d now r d' : insert_telemetry t d now = (r, d') ->
  (exists watts temperature dev, numeric_in 12 (t_PowerWatts t) = Some watts /\
     temperature_in (t_TemperatureC t) = Some temperature /\
     devices d !! t_DeviceID t = Some dev /\ d_State dev = DeviceEnabled /\ r = Ok 1 /\
     let id := nextval (R := Telemetry) d in
     telemetry d !! id = None /\
     telemetry_constraints d (stored_row t watts temperature id now) = None /\
     telemetry d' = <[id := stored_row t watts temperature id now]> (telemetry d)) \/
  r <> Ok 1 /\ telemetry d' = telemetry d.
Proof.
  unfold insert_telemetry.
  destruct (numeric_in 12 _) as [watts|]; [|intros [= <- <-]; by right].
  destruct (temperature_in _) as [temp|]; [|intros [= <- <-]; by right].
  destruct (devices d !! _) as [dev|]; [|intros [= <- <-]; by right].
  case_bool_decide as Hdev; [|intros [= <- <-]; by right].
  destruct (insert_row _ _ d now) as [ri di] eqn:E. intros [= <- <-]. unfold insert_row in E. simpl in E.
  case_bool_decide as Hfree; [right; by simplify_eq|]. case_match eqn:Hc; [right; by simplify_eq|].
  left. exists watts, temp, dev. simplify_eq. simpl. split_and!; try done.
  destruct (telemetry d !! nextval d) eqn:En; [by destruct Hfree|done].
Qed.

Lemma telemetry_constraints_None d row : telemetry_constraints d row = None <->
  forall i r, telemetry d !! i = Some r -> ~ (t_DeviceID r = t_DeviceID row /\ t_Sequence r = t_Sequence row).
Proof.
  unfold telemetry_constraints, require. by case_bool_decide as Hu; split.
Qed.

#[export, refine] Instance Repository_telemetry : TelemetryRepository := {|
  InsertTelemetry := Repo.InsertTelemetry;
  TelemetryWindow := Repo.TelemetryWindow
|}.
Proof.
  - intros t. apply guarantees_require_one; [apply _|]. apply guarantees_map_err. g_statement. intros d now Hk.
    destruct (insert_telemetry t d now) as [r d'] eqn:E. simpl.
    apply insert_telemetry_cases in E as [(watts & temp & dev & _ & _ & _ & _ & _ & Hfree & Hc & ->)|[_ ->]]; [|done].
    rewrite telemetry_constraints_None in Hc. intros i j a b. rewrite !lookup_insert_Some.
    intros [[<- <-]|[Hi Ha]] [[<- <-]|[Hj Hb]] Hdev Hseq; [done| | |by eapply (Hk i j)].
    + exfalso. by eapply (Hc j b).
    + exfalso. by eapply (Hc i a).
  - intros id start end_. unfold Repo.TelemetryWindow. auto with repo.
Defined.
End implementation.

#[export] Instance telemetry_order_StrictWeak : StrictWeak telemetry_order.
Proof.
  split; unfold telemetry_order; intros;
    rewrite ?orb_true_iff, ?orb_false_iff, ?andb_true_iff, ?andb_false_iff, ?Z.ltb_lt, ?Z.ltb_ge, ?Z.eqb_eq, ?Z.eqb_neq in *; lia.
Qed.

(** ** Properties *)
Section properties.
Context `{PG : Postgres} `{SliceSort}.

Definition in_window (id : Z) (start end_ : Time) (r : Telemetry) : Prop :=
  t_DeviceID r = id /\ ts_in start <= t_MeasuredAt r < ts_in end_.

Lemma Window_quiet id start end_ d clock :
  0 < id -> start <> 0 -> end_ <> 0 -> start < end_ -> end_ - start <= 7 * 24 * Hour ->
  exists rows, Window id start end_ (quiet_store d clock) = (Ok rows, quiet_store d clock) /\
    StronglySorted (not_after telemetry_order) rows /\
    forall r, r ∈ rows <-> in_window id start end_ r /\ exists k, telemetry d !! k = Some r.
Proof.
  intros Hid Hs He Hlt Hwk. unfold Window, IsZero, Before.
  rewrite (proj2 (Z.leb_gt _ _) Hid), (proj2 (Z.eqb_neq _ _) Hs), (proj2 (Z.eqb_neq _ _) He), (proj2 (Z.ltb_lt _ _) Hlt).
  rewrite Sub_small by (unfold is_int64, int64_min, int64_max, Hour, Minute, Second, Time in *; lia).
  rewrite (proj2 (Z.ltb_ge _ _) Hwk). simpl. eexists. split; [reflexivity|].
  split; [apply sort_Slice_sorted, _|]. intros r.
  rewrite sort_Slice_perm, list_elem_of_In, filter_In, <-list_elem_of_In, rows_by_id_elem.
  unfold in_window. rewrite !andb_true_iff, Z.eqb_eq, Z.leb_le, Z.ltb_lt. tauto.
Qed.

(** C21: what is recorded is read back: a measurement the service accepts belongs to an
    enabled device and to a sequence number not used before, and every window of at
    most a week around its time then lists it with its values as stored; a window
    lists exactly the stored measurements of its device and period, oldest first. *)
Theorem telemetry_round_trip t now d clock s' start end_ :
  Record_ t now (quiet_store d clock) = (Ok tt, s') ->
  start <> 0 -> end_ <> 0 -> start < end_ -> end_ - start <= 7 * 24 * Hour ->
  ts_in start <= ts_in (t_MeasuredAt t) < ts_in end_ ->
  (exists dev, devices d !! t_DeviceID t = Some dev /\ d_State dev = DeviceEnabled) /\
  (forall k r, telemetry d !! k = Some r -> ~ (t_DeviceID r = t_DeviceID t /\ t_Sequence r = t_Sequence t)) /\
  exists rows, Window (t_DeviceID t) start end_ s' = (Ok rows, s') /\
    StronglySorted (not_after telemetry_order) rows /\
    (forall r, r ∈ rows <-> in_window (t_DeviceID t) start end_ r /\ exists k, telemetry (db s') !! k = Some r) /\
    exists r, r ∈ rows /\ t_Sequence r = t_Sequence t /\ t_MeasuredAt r = ts_in (t_MeasuredAt t) /\
      numeric_in 12 (t_PowerWatts t) = Some (t_PowerWatts r) /\
      temperature_in (t_TemperatureC t) = Some (t_TemperatureC r) /\ t_ReceivedAt r = clock.
Proof.
  intros Hrec Hs He Hlt Hwk Hin. unfold Record_ in Hrec. guards Hrec.
  change (@InsertTelemetry _) with (@Repo.InsertTelemetry PG) in Hrec.
  unfold Repo.InsertTelemetry, require_one in Hrec. rewrite bind_run, map_err_run, statement_quiet in Hrec.
  destruct (insert_telemetry t d clock) as [r d'] eqn:Hins. simpl in Hrec.
  apply insert_telemetry_cases in Hins as
    [(watts & temp & dev & Hw & Htemp & Hdev & Hen & -> & Hfree & Hc & Htel)|[Hr _]].
  2: { destruct r as [n|]; [|done]. destruct (n =? 1) eqn:E; [|done]. bsimp. by destruct Hr; subst. }
  simpl in Hrec. injection Hrec as <-.
  split; [by exists dev|]. split; [exact (proj1 (telemetry_constraints_None _ _) Hc)|].
  destruct (Window_quiet (t_DeviceID t) start end_ d' clock) as (rows & Hrun & Hsorted & Hrows); try done; try lia.
  exists rows. split; [done|]. split; [done|]. split; [done|].
  exists (stored_row t watts temp (nextval (R := Telemetry) d) clock). split; [|by split_and!].
  apply Hrows. split; [done|]. eexists. rewrite Htel. apply lookup_insert_eq.
Qed.

(** A sequence number is used once per device: recording one again, whatever the
    measurement, is a conflict and changes no row. *)
Theorem sequence_recorded_once t now d clock dev k r :
  telemetry d !! k = Some r -> t_DeviceID r = t_DeviceID t -> t_Sequence r = t_Sequence t ->
  0 < t_DeviceID t -> 0 < t_Sequence t -> t_MeasuredAt t <> 0 -> flt (t_PowerWatts t) f0 = false ->
  t_MeasuredAt t <= now + 5 * Minute -> devices d !! t_DeviceID t = Some dev -> d_State dev = DeviceEnabled ->
  is_Some (numeric_in 12 (t_PowerWatts t)) -> is_Some (temperature_in (t_TemperatureC t)) ->
  exists e q, Record_ t now (quiet_store d clock) = (Fail e, quiet_store (set_seqs q d) clock) /\ ErrorStatus e = 409.
Proof.
  intros Hr Hd Hs Hid Hseq Hm Hp Hnow Hdev Hen [watts Hw] [temp Ht].
  unfold Record_, IsZero, After, Add.
  rewrite (proj2 (Z.leb_gt _ _) Hid), (proj2 (Z.leb_gt _ _) Hseq), (proj2 (Z.eqb_neq _ _) Hm), Hp,
    (proj2 (Z.ltb_ge _ _) Hnow). cbn [orb].
  change (@InsertTelemetry _) with (@Repo.InsertTelemetry PG).
  unfold Repo.InsertTelemetry, require_one. rewrite bind_run, map_err_run, statement_quiet.
  unfold insert_telemetry. rewrite Hw, Ht, Hdev, (bool_decide_eq_true_2 _ Hen). unfold insert_row. simpl.
  case_bool_decide; simpl; [eexists _, _; by split|].
  match goal with |- context [telemetry_constraints d ?row] => destruct (telemetry_constraints d row) eqn:Hc end.
  2: { rewrite telemetry_constraints_None in Hc. exfalso. by eapply (Hc k r). }
  unfold telemetry_constraints, require in Hc. case_match; simplify_eq. simpl. eexists _, _. by split.
Qed.
End properties.

(** ** Witnesses *)
Definition example_meter : Database :=
  set_devices {[3 := mkDevice 3 1 "m-3" KindMeter DeviceEnabled "1" 2 None 1]}
    (set_households {[1 := mkHousehold 1 "home" "UTC" 100 1]} empty_database).
Definition example_sample : Telemetry := mkTelemetry 0 3 7 f1 None 50 0.

Lemma telemetry_round_trip_witness :
  let _ := exact_postgres in
  let s' := (Record_ example_sample 60 (quiet_store example_meter 61)).2 in
  exists rows r, Window 3 40 100 s' = (Ok rows, s') /\ r ∈ rows /\ t_Sequence r = 7 /\ t_ReceivedAt r = 61.
Proof.
  intros PG s'.
  destruct (telemetry_round_trip example_sample 60 example_meter 61 s' 40 100)
    as (_ & _ & rows & Hrun & _ & _ & r & Hin & Hseq & _ & _ & _ & Hrec);
    [vm_compute; reflexivity|done|done|done|done|done|].
  by exists rows, r.
Defined.

Lemma sequence_recorded_once_witness :
  let _ := exact_postgres in
  let d := set_telemetry {[4 := mkTelemetry 4 3 7 f2 None 20 21]} example_meter in
  exists e q, Record_ example_sample 60 (quiet_store d 61) = (Fail e, quiet_store (set_seqs q d) 61) /\ ErrorStatus e = 409.
Proof.
  intros PG d.
  refine (sequence_recorded_once example_sample 60 d 61 (mkDevice 3 1 "m-3" KindMeter DeviceEnabled "1" 2 None 1) 4
    (mkTelemetry 4 3 7 f2 None 20 21) _ _ _ _ _ _ _ _ _ _ _ _);
    [reflexivity|reflexivity|reflexivity|done|done|done|reflexivity|done|reflexivity|reflexivity|by eexists|by eexists].
Defined.
