(* ===== verification/Statements.v ===== *)
(** * The writing statements of the program

    [sql] lists every writing statement of package repo, [exec] runs one, and
    [legal] is the restraint the services put on them: only the transitions of the
    lifecycles, no reactivation of members.  [writes P] relates databases that
    differ by such statements, and every method of the repository is shown to write by
    them only.  [seen_to] is what a method has made sure of before it writes (the rows its
    references name, the work of a run before it succeeds); [lasting] are the facts that
    no statement of the program undoes, such as a queued command. *)
From S2P Require Import Prelude Errors GoStd Model Rules Store Repo Frame Devices Plans Automations Outbox Alerts Telemetry.

(** ** The statements *)
Inductive sql :=
| InsertHousehold (name timezone : string) (budget : Z)
| InsertMember (household : Z) (email hash : string) (role : Role)
| SetActive (id : Z) (active : bool)
| InsertSession (s : Session)
| EndSession (id : string) (at_ : Time)
| DeleteSessions (at_ : Time)
| InsertDevice (dev : Device)
| InsertCapability (id : Z) (capability : string)
| UpsertCapability (id : Z) (capability : string)
| MoveDevice (id : Z) (from to : DeviceState) (version : Z)
| SeeDevice (id : Z) (when : Time)
| InsertSample (t : Telemetry)
| DeleteSamples (cutoff : Time)
| InsertPlan (p : EnergyPlan)
| InsertPlanDevice (planID household : Z) (pd : PlanDevice)
| MovePlan (id : Z) (from to : PlanState)
| CancelPlans (now : Time)
| InsertAutomation (a : Automation)
| InsertAction (automationID household : Z) (action : AutomationAction)
| MoveAutomation (id : Z) (from to : AutomationState)
| InsertRun (automationID : Z) (key : string)
| StartRun (locked : gset Z)
| EndRun (id : Z) (state : RunState) (cause : string) (now : Time)
| ReturnRun (id : Z)
| TimeOutRuns (cutoff : Time)
| CompleteRun (id : Z) (finished : Time)
| InsertAudit (e : AuditEvent)
| InsertOutbox (m : OutboxMessage)
| LeaseMessage (locked : gset Z)
| DeliverMessage (id : Z)
| ReleaseMessage (id : Z) (next : Time)
| FailMessage (id : Z) (reason : string)
| RetryMessage (id attempt : Z) (next : Time) (err : option error)
| InsertAlert (a : Alert)
| MoveAlert (id : Z) (from to : string) (now : Time).

Section sql.
Context `{PG : Postgres}.

Definition exec (st : sql) (d : Database) (now : Time) : Database :=
  match st with
  | InsertHousehold name timezone budget => (insert_household name timezone budget d now).2
  | InsertMember household email hash role => (insert_member household email hash role d now).2
  | SetActive id active => (update_member_active id active d now).2
  | InsertSession s => (insert_session s d now).2
  | EndSession id at_ => (revoke_session id at_ d now).2
  | DeleteSessions at_ => (delete_sessions at_ d now).2
  | InsertDevice dev => (insert_device dev d now).2
  | InsertCapability id capability => (insert_capability id capability d now).2
  | UpsertCapability id capability => (upsert_capability id capability d now).2
  | MoveDevice id from to version => (update_device_state id from to version d now).2
  | SeeDevice id when => (touch_device id when d now).2
  | InsertSample t => (insert_telemetry t d now).2
  | DeleteSamples cutoff => (delete_telemetry cutoff d now).2
  | InsertPlan p => (insert_plan p d now).2
  | InsertPlanDevice planID household pd => (insert_plan_device planID household pd d now).2
  | MovePlan id from to => (update_plan_state id from to d now).2
  | CancelPlans t => (expire_plans t d now).2
  | InsertAutomation a => (insert_automation a d now).2
  | InsertAction automationID household action => (insert_action automationID household action d now).2
  | MoveAutomation id from to => (update_automation_state id from to d now).2
  | InsertRun automationID key => (queue_run automationID key d now).2
  | StartRun locked => (claim_run locked d now).2
  | EndRun id state cause t => (finish_run id state cause t d now).2
  | ReturnRun id => (requeue_run id d now).2
  | TimeOutRuns cutoff => (finish_stale_runs cutoff d now).2
  | CompleteRun id finished => (complete_run id finished d now).2
  | InsertAudit e => (insert_audit e d now).2
  | InsertOutbox m => (insert_outbox m d now).2
  | LeaseMessage locked => (claim_message locked d now).2
  | DeliverMessage id => (mark_outbox id true zeroTime d now).2
  | ReleaseMessage id next => (mark_outbox id false next d now).2
  | FailMessage id reason => (fail_outbox id reason d now).2
  | RetryMessage id attempt next err => (reschedule_outbox id attempt next err d now).2
  | InsertAlert a => (insert_alert a d now).2
  | MoveAlert id from to t => (update_alert_state id from to t d now).2
  end.
End sql.

(** No statement takes a sequence back. *)
Lemma insert_advances `{Table R} d :
  sequences_advance (seqs d) (<[seq_name (R := R) := nextval (R := R) d + 1]> (seqs d)).
Proof.
  intros name. unfold nextval. destruct (decide (name = seq_name (R := R))) as [->|Hne].
  - rewrite lookup_insert_eq. simpl. lia.
  - by rewrite lookup_insert_ne.
Qed.
Lemma exec_advances `{PG : Postgres} st d now : sequences_advance (seqs d) (seqs (exec st d now)).
Proof.
  destruct st; cbn [exec]; autounfold with sql; repeat case_match; simplify_eq/=;
    first [reflexivity
          |match goal with |- context [nextval (R := ?R) ?d] => exact (insert_advances (R := R) d) end].
Qed.

(** What the services ask for: transitions of the lifecycles only, and no change of
    a member. *)
Definition legal (st : sql) : Prop :=
  match st with
  | SetActive _ _ => False
  | MoveDevice _ from to _ => from ∈ device_states -> ValidateTransition from to = None
  | MovePlan _ from to => plan_step from to
  | MoveAutomation _ from to => automation_step from to
  | EndRun _ state _ _ => state ∈ final_states /\ state <> RunSucceeded
  | InsertAlert a => ValidSeverity (al_Severity a) = true
  | MoveAlert _ from to _ => alert_step from to
  | _ => True
  end.

(** Facts of single rows: the row [id] has [x] in the columns [f]. *)
Definition at_row {R X : Type} `{Table R} (f : R -> X) (id : Z) (x : X) (d : Database) : Prop :=
  exists r, rows d !! id = Some r /\ f r = x.

(** What is left of a message for good: a retry only sets the keys [attempt] and [error]
    of its payload. *)
Definition base_fields (payload : option json) : option (list (string * json)) :=
  match payload with
  | Some (JObject f) => Some (List.filter (fun kv => negb (bool_decide (kv.1 ∈ ["attempt"; "error"]%string))) f)
  | _ => None
  end.
Definition message_core (m : OutboxMessage) : Z * string * option (list (string * json)) :=
  (o_HouseholdID m, o_Topic m, base_fields (o_Payload m)).

(** [item] is an action of the automation, on a device of the household. *)
Definition item_of (automationID household : Z) (d : Database) (item : LoadedAction) : Prop :=
  at_row d_HouseholdID (la_deviceID item) household d /\
  exists id, at_row (fun a => (aa_AutomationID a, aa_DeviceID a, aa_Action a, aa_Ordinal a)) id
    (automationID, la_deviceID item, la_action item, la_ordinal item) d.

(** The commands of a run are in the outbox, one message for each of the items, which
    are actions of its automation, and their number is in the audit. *)
Definition commands_queued (household automationID runID : Z) (items : list LoadedAction) (ids : list Z) (d : Database)
    : Prop :=
  NoDup ids /\
  Forall2 (fun id item => at_row message_core id
    (household, "device.command"%string, base_fields (Some (command_payload automationID runID item))) d) ids items.
Definition audited (household runID : Z) (count : nat) (d : Database) : Prop :=
  exists id, at_row (fun e => (ae_HouseholdID e, ae_ObjectType e, ae_ObjectID e, ae_Action e, ae_Payload e)) id
    (household, "automation_run"%string, Sprint runID, "dispatched"%string,
     Some (JObject [("action_count"%string, JInt (Z.of_nat count))])) d.
Definition dispatched (runID : Z) (d : Database) : Prop :=
  exists automationID household items ids,
    at_row r_AutomationID runID automationID d /\ at_row a_HouseholdID automationID household d /\
    items <> [] /\ Forall (item_of automationID household d) items /\
    commands_queued household automationID runID items ids d /\ audited household runID (length items) d.

(** What the callers of a statement have seen to when it runs: a device is linked to a
    plan or an automation with the household of that plan or automation, and a run is
    completed after its commands have been queued. *)
Definition seen_to (d : Database) (st : sql) : Prop :=
  match st with
  | InsertPlanDevice planID household _ => at_row p_HouseholdID planID household d
  | InsertAction automationID household _ => at_row a_HouseholdID automationID household d
  | CompleteRun runID _ => dispatched runID d
  | _ => True
  end.

(** ** Databases that differ by statements satisfying [P] *)
Section writes.
Context `{PG : Postgres} (P : sql -> Prop).

Inductive write_step (d : Database) : Database -> Prop :=
| write_seqs q : sequences_advance (seqs d) q -> write_step d (set_seqs q d)
| write_exec st now : P st -> seen_to d st -> write_step d (exec st d now).

Definition writes : Database -> Database -> Prop := rtc write_step.

Lemma writes_advance d d' : writes d d' -> sequences_advance (seqs d) (seqs d').
Proof.
  induction 1 as [|d1 d2 d3 Hw _ IH]; [reflexivity|]. etransitivity; [|exact IH].
  destruct Hw; [done|apply exec_advances].
Qed.

#[export] Instance writes_TwoState : TwoState writes.
Proof.
  split; [apply _| |].
  - intros d q Hq. by apply rtc_once, write_seqs.
  - intros d d' Hw. by apply rtc_once, write_seqs, writes_advance.
Qed.

Lemma guarantees_writes {A} st (f : Database -> Time -> result A * Database) :
  P st -> (forall d, seen_to d st) -> (forall d now, (f d now).2 = exec st d now) ->
  guarantees writes (statement f).
Proof.
  intros HP Hh Hf. g_statement. intros d now. rewrite Hf. by apply rtc_once, write_exec.
Qed.

Lemma guarantees_reads {A} (f : Database -> Time -> result A * Database) :
  (forall d now, (f d now).2 = d) -> guarantees writes (statement f).
Proof. intros Hf. g_statement. intros d now. by rewrite Hf. Qed.

(** A relation that every statement respects holds of every history. *)
Lemma writes_within_seen R : TwoState R -> (forall st d now, P st -> seen_to d st -> R d (exec st d now)) ->
  forall d d', writes d d' -> R d d'.
Proof.
  intros HR Hst d d'. induction 1 as [|d1 d2 d3 Hw _ IH]; [reflexivity|].
  etransitivity; [|exact IH]. destruct Hw; [by apply two_state_seqs|by apply Hst].
Qed.
Lemma writes_within R : TwoState R -> (forall st d now, P st -> R d (exec st d now)) ->
  forall d d', writes d d' -> R d d'.
Proof. intros HR Hst. apply writes_within_seen; auto. Qed.
End writes.

Lemma guarantees_exec `{PG : Postgres} {A} R (f : Database -> Time -> result A * Database) :
  guarantees R (statement f) -> forall d now, R d (f d now).2.
Proof.
  intros Hg d now. destruct (Hg (quiet_store d now) (List.Forall_nil _)) as [Hr _].
  by rewrite statement_quiet in Hr.
Qed.

(** ** Columns that never change

    Whatever the statement, the rows below stay and keep the columns given. *)
Definition same {R X : Type} (f : R -> X) (r r' : R) : Prop := f r' = f r.
#[export] Instance same_PreOrder R X (f : R -> X) : PreOrder (same f).
Proof. split; [by intros r|]. unfold same. intros x y z Hxy Hyz. congruence. Qed.
Definition settled_in {R X : Type} `{Table R} (f : R -> X) : Database -> Database -> Prop :=
  evolve (fun _ _ => True) (same f).

Section homes.
Context `{PG : Postgres}.

Ltac other_table := apply evolve_same; [apply _|frame].

Lemma plans_settled st d now : settled_in p_HouseholdID d (exec st d now).
Proof.
  destruct st; cbn [exec]; try solve [other_table].
  - by apply insert_row_evolve; [apply _|].
  - apply update_row_evolve; [apply _|]. by intros ? r r' t _ [= <-].
  - apply update_rows_evolve; [apply _|]. done.
Qed.
Lemma automations_settled st d now : settled_in a_HouseholdID d (exec st d now).
Proof.
  destruct st; cbn [exec]; try solve [other_table].
  - by apply insert_row_evolve; [apply _|].
  - apply update_row_evolve; [apply _|]. by intros ? r r' t _ [= <-].
Qed.
Lemma devices_settled st d now : settled_in d_HouseholdID d (exec st d now).
Proof.
  destruct st; cbn [exec]; try solve [other_table].
  - by apply insert_row_evolve; [apply _|].
  - apply update_row_evolve; [apply _|]. intros ? r r' t _. unfold set_device_state. case_match; [done|]. by intros [= <-].
  - apply update_row_evolve; [apply _|]. by intros ? r r' t _ [= <-].
Qed.

Lemma runs_settled st d now : settled_in r_AutomationID d (exec st d now).
Proof.
  destruct st; cbn [exec]; try solve [other_table].
  - unfold queue_run. repeat case_match; try (by apply evolve_same; [apply _|]).
    by apply insert_row_evolve; [apply _|].
  - apply claim_row_evolve; [apply _|]. by intros r r' t _ [= <-].
  - apply update_row_evolve; [apply _|]. by intros ? r r' t _ [= <-].
  - apply update_row_evolve; [apply _|]. by intros ? r r' t _ [= <-].
  - apply update_rows_evolve; [apply _|]. done.
  - apply update_row_evolve; [apply _|]. by intros ? r r' t _ [= <-].
Qed.
Lemma base_fields_concat p attempt err :
  base_fields ((fun p => json_concat p (retry_payload attempt err)) <$> p) = base_fields p.
Proof.
  destruct p as [[| | | | |l|f]|]; try done. simpl. f_equal. rewrite List.filter_app. simpl.
  rewrite app_nil_r. induction f as [|[k v] f IH]; simpl; [done|].
  destruct (bool_decide (k ∈ _)) eqn:E; simpl; rewrite ?E; simpl; congruence.
Qed.
Lemma messages_settled st d now : settled_in message_core d (exec st d now).
Proof.
  destruct st; cbn [exec]; try solve [other_table].
  - unfold insert_outbox. case_match; [by apply evolve_same; [apply _|]|]. by apply insert_row_evolve; [apply _|].
  - apply claim_row_evolve; [apply _|]. intros r r' t _. unfold claim_outbox. case_match; [done|]. by intros [= <-].
  - apply update_row_evolve; [apply _|]. by intros ? r r' t _ [= <-].
  - apply update_row_evolve; [apply _|]. by intros ? r r' t _ [= <-].
  - apply update_row_evolve; [apply _|]. by intros ? r r' t _ [= <-].
  - apply update_row_evolve; [apply _|]. intros ? r r' t _ [= <-]. unfold same, message_core, reschedule.
    cbn [o_HouseholdID o_Topic o_Payload]. by rewrite base_fields_concat.
Qed.
Lemma audit_settled {X} (f : AuditEvent -> X) st d now : settled_in f d (exec st d now).
Proof.
  destruct st; cbn [exec]; try solve [other_table].
  unfold insert_audit. case_match; [by apply evolve_same; [apply _|]|]. by apply insert_row_evolve; [apply _|].
Qed.

Lemma actions_settled {X} (f : AutomationAction -> X) st d now : settled_in f d (exec st d now).
Proof.
  destruct st; cbn [exec]; try solve [other_table]. unfold insert_action. case_match; [|by apply evolve_same; [apply _|]].
  case_match; [|by apply evolve_same; [apply _|]].
  match goal with |- context [insert_row ?mk ?cs d now] =>
    pose proof (insert_row_evolve (fun _ _ => True) (same f) mk cs (fun _ _ => I) d now) as Hi;
    destruct (insert_row mk cs d now) end.
  exact Hi.
Qed.

Lemma settled_TwoState {R X} `{Table R} (f : R -> X) : TwoState (settled_in f).
Proof. apply evolve_TwoState, _. Qed.
Lemma settled_row {R X} `{Table R} (f : R -> X) id x d d' : settled_in f d d' -> at_row f id x d -> at_row f id x d'.
Proof. intros [Hold _] (r & Hr & <-). destruct (Hold id r Hr) as (r' & Hr' & Hq). by exists r'. Qed.

(** Hence they last through every statement, and every history. *)
Definition lasting (F : Database -> Prop) : Prop :=
  (forall st d now, F d -> F (exec st d now)) /\ forall q d, F d -> F (set_seqs q d).
Lemma settled_lasting {R X} `{Table R} (f : R -> X) id x :
  (forall st d now, settled_in f d (exec st d now)) -> lasting (at_row f id x).
Proof.
  intros Hf. split.
  - intros st d now. apply settled_row, Hf.
  - intros q d (r & Hr & Hx). exists r. by rewrite rows_seqs.
Qed.
Lemma lasting_stable P F : lasting F -> stable (writes P) F.
Proof.
  intros [He Hq] d d'. induction 1 as [|d1 d2 d3 Hw _ IH]; [done|]. intros Hd. apply IH. destruct Hw; auto.
Qed.
Lemma lasting_and F G : lasting F -> lasting G -> lasting (fun d => F d /\ G d).
Proof. intros [H1 H2] [H3 H4]. split; intros; naive_solver. Qed.
Lemma lasting_const (A : Prop) : lasting (fun _ => A).
Proof. by split. Qed.
Lemma lasting_ex {A} (F : A -> Database -> Prop) : (forall a, lasting (F a)) -> lasting (fun d => exists a, F a d).
Proof.
  intros HF. split; [intros st d now [a Ha]|intros q d [a Ha]]; exists a; by apply HF.
Qed.
Lemma lasting_Forall {A} (F : A -> Database -> Prop) l :
  (forall a, lasting (F a)) -> lasting (fun d => Forall (fun a => F a d) l).
Proof. intros HF. split; intros * Hd; (eapply Forall_impl; [exact Hd|]); intros a; apply HF. Qed.
Lemma lasting_Forall2 {A B} (F : A -> B -> Database -> Prop) l k :
  (forall a b, lasting (F a b)) -> lasting (fun d => Forall2 (fun a b => F a b d) l k).
Proof. intros HF. split; intros * Hd; (eapply Forall2_impl; [exact Hd|]); intros a b; apply HF. Qed.
#[local] Hint Resolve lasting_and lasting_const lasting_ex lasting_Forall lasting_Forall2 settled_lasting
  plans_settled automations_settled devices_settled runs_settled messages_settled audit_settled actions_settled : lasting.

Lemma plan_at_lasting h id : lasting (at_row p_HouseholdID id h).
Proof. eauto with lasting. Qed.
Lemma automation_at_lasting h id : lasting (at_row a_HouseholdID id h).
Proof. eauto with lasting. Qed.
Lemma run_of_lasting a id : lasting (at_row r_AutomationID id a).
Proof. eauto with lasting. Qed.
Lemma item_of_lasting a h item : lasting (fun d => item_of a h d item).
Proof. unfold item_of. eauto with lasting. Qed.
Lemma items_of_lasting a h items : lasting (fun d => Forall (item_of a h d) items).
Proof. apply (lasting_Forall (fun item d => item_of a h d item)). intros item. apply item_of_lasting. Qed.
#[local] Hint Resolve items_of_lasting : lasting.
Lemma commands_queued_lasting h a r items ids : lasting (commands_queued h a r items ids).
Proof. unfold commands_queued. eauto with lasting. Qed.
Lemma audited_lasting h r n : lasting (audited h r n).
Proof. unfold audited. eauto with lasting. Qed.
#[local] Hint Resolve commands_queued_lasting audited_lasting : lasting.
Lemma dispatched_lasting id : lasting (dispatched id).
Proof. unfold dispatched. repeat (apply lasting_ex; intros ?). eauto 10 with lasting. Qed.
End homes.

(** ** The repository only writes by these statements

    [P] allows every legal statement; a method given arguments that could make its
    statement illegal asks for [P] of it.  With [P] always true this covers the whole
    repository, with [legal] the services. *)
Ltac write_as P st := apply (guarantees_writes P st); [|exact (fun _ => I)|reflexivity].
Ltac write :=
  lazymatch goal with
  | |- guarantees (writes ?P) (statement (insert_household ?a ?b ?c)) => write_as P (InsertHousehold a b c)
  | |- guarantees (writes ?P) (statement (insert_member ?a ?b ?c ?e)) => write_as P (InsertMember a b c e)
  | |- guarantees (writes ?P) (statement (update_member_active ?a ?b)) => write_as P (SetActive a b)
  | |- guarantees (writes ?P) (statement (insert_session ?a)) => write_as P (InsertSession a)
  | |- guarantees (writes ?P) (statement (revoke_session ?a ?b)) => write_as P (EndSession a b)
  | |- guarantees (writes ?P) (statement (delete_sessions ?a)) => write_as P (DeleteSessions a)
  | |- guarantees (writes ?P) (statement (insert_device ?a)) => write_as P (InsertDevice a)
  | |- guarantees (writes ?P) (statement (insert_capability ?a ?b)) => write_as P (InsertCapability a b)
  | |- guarantees (writes ?P) (statement (upsert_capability ?a ?b)) => write_as P (UpsertCapability a b)
  | |- guarantees (writes ?P) (statement (update_device_state ?a ?b ?c ?e)) => write_as P (MoveDevice a b c e)
  | |- guarantees (writes ?P) (statement (touch_device ?a ?b)) => write_as P (SeeDevice a b)
  | |- guarantees (writes ?P) (statement (insert_telemetry ?a)) => write_as P (InsertSample a)
  | |- guarantees (writes ?P) (statement (delete_telemetry ?a)) => write_as P (DeleteSamples a)
  | |- guarantees (writes ?P) (statement (insert_plan ?a)) => write_as P (InsertPlan a)
  | |- guarantees (writes ?P) (statement (update_plan_state ?a ?b ?c)) => write_as P (MovePlan a b c)
  | |- guarantees (writes ?P) (statement (expire_plans ?a)) => write_as P (CancelPlans a)
  | |- guarantees (writes ?P) (statement (insert_automation ?a)) => write_as P (InsertAutomation a)
  | |- guarantees (writes ?P) (statement (update_automation_state ?a ?b ?c)) => write_as P (MoveAutomation a b c)
  | |- guarantees (writes ?P) (statement (queue_run ?a ?b)) => write_as P (InsertRun a b)
  | |- guarantees (writes ?P) (statement (claim_run ?a)) => write_as P (StartRun a)
  | |- guarantees (writes ?P) (statement (finish_run ?a ?b ?c ?e)) => write_as P (EndRun a b c e)
  | |- guarantees (writes ?P) (statement (requeue_run ?a)) => write_as P (ReturnRun a)
  | |- guarantees (writes ?P) (statement (finish_stale_runs ?a)) => write_as P (TimeOutRuns a)
  | |- guarantees (writes ?P) (statement (complete_run ?a ?b)) => write_as P (CompleteRun a b)
  | |- guarantees (writes ?P) (statement (insert_audit ?a)) => write_as P (InsertAudit a)
  | |- guarantees (writes ?P) (statement (insert_outbox ?a)) => write_as P (InsertOutbox a)
  | |- guarantees (writes ?P) (statement (claim_message ?a)) => write_as P (LeaseMessage a)
  | |- guarantees (writes ?P) (statement (mark_outbox ?a true ?c)) => write_as P (DeliverMessage a)
  | |- guarantees (writes ?P) (statement (mark_outbox ?a false ?c)) => write_as P (ReleaseMessage a c)
  | |- guarantees (writes ?P) (statement (fail_outbox ?a ?b)) => write_as P (FailMessage a b)
  | |- guarantees (writes ?P) (statement (reschedule_outbox ?a ?b ?c ?e)) => write_as P (RetryMessage a b c e)
  | |- guarantees (writes ?P) (statement (insert_alert ?a)) => write_as P (InsertAlert a)
  | |- guarantees (writes ?P) (statement (update_alert_state ?a ?b ?c ?e)) => write_as P (MoveAlert a b c e)
  | |- guarantees (writes _) (statement _) => apply guarantees_reads; frame
  end.

#[export] Hint Extern 2 (guarantees (writes _) (statement _)) => write : repo.

Section repository.
Context `{PG : Postgres} (P : sql -> Prop) (allowed : forall st, legal st -> P st).

#[local] Hint Extern 3 (P _) => apply allowed; exact I : repo.
#[local] Hint Extern 2 (P _) => assumption : repo.

Lemma CreateHousehold_writes n t b : guarantees (writes P) (Repo.CreateHousehold n t b).
Proof. unfold Repo.CreateHousehold. case_match; eauto with repo. Qed.
Lemma AddMember_writes h e p r : guarantees (writes P) (Repo.AddMember h e p r).
Proof. unfold Repo.AddMember. eauto with repo. Qed.
#[local] Hint Resolve CreateHousehold_writes AddMember_writes : repo.
Lemma CreateHouseholdWithOwner_writes n t b e p : guarantees (writes P) (Repo.CreateHouseholdWithOwner n t b e p).
Proof. unfold Repo.CreateHouseholdWithOwner. eauto 8 with repo. Qed.
Lemma FindMember_writes h e : guarantees (writes P) (Repo.FindMember h e).
Proof. unfold Repo.FindMember. eauto with repo. Qed.
Lemma MemberByID_writes id : guarantees (writes P) (Repo.MemberByID id).
Proof. unfold Repo.MemberByID. eauto with repo. Qed.
Lemma SetMemberActive_writes id b : P (SetActive id b) -> guarantees (writes P) (Repo.SetMemberActive id b).
Proof. unfold Repo.SetMemberActive. eauto with repo. Qed.
Lemma CreateSession_writes s : guarantees (writes P) (Repo.CreateSession s).
Proof. unfold Repo.CreateSession. eauto with repo. Qed.
Lemma GetSession_writes id : guarantees (writes P) (Repo.GetSession id).
Proof. unfold Repo.GetSession. eauto with repo. Qed.
Lemma RevokeSession_writes id t : guarantees (writes P) (Repo.RevokeSession id t).
Proof. unfold Repo.RevokeSession. eauto with repo. Qed.
Lemma DeleteExpiredSessions_writes t : guarantees (writes P) (Repo.DeleteExpiredSessions t).
Proof. unfold Repo.DeleteExpiredSessions. case_match; eauto with repo. Qed.

Lemma insert_capabilities_writes id caps : guarantees (writes P) (insert_capabilities id caps).
Proof. induction caps; cbn [insert_capabilities]; eauto with repo. Qed.
#[local] Hint Resolve insert_capabilities_writes : repo.
Lemma CreateDevice_writes dev caps : guarantees (writes P) (Repo.CreateDevice dev caps).
Proof. apply guarantees_WithTx; [apply _|]. repeat g_bind; eauto with repo. Qed.
Lemma GetDevice_writes id : guarantees (writes P) (Repo.GetDevice id).
Proof. unfold Repo.GetDevice. eauto with repo. Qed.
Lemma TransitionDevice_writes id from to v : P (MoveDevice id from to v) ->
  guarantees (writes P) (Repo.TransitionDevice id from to v).
Proof. unfold Repo.TransitionDevice. eauto with repo. Qed.
Lemma TouchDevice_writes id t : guarantees (writes P) (Repo.TouchDevice id t).
Proof. unfold Repo.TouchDevice. eauto with repo. Qed.
Lemma AddCapability_writes id c : guarantees (writes P) (Repo.AddCapability id c).
Proof. unfold Repo.AddCapability. case_match; eauto with repo. Qed.
Lemma InsertTelemetry_writes t : guarantees (writes P) (Repo.InsertTelemetry t).
Proof. unfold Repo.InsertTelemetry. eauto with repo. Qed.
Lemma TelemetryWindow_writes `{SliceSort} id start end_ : guarantees (writes P) (Repo.TelemetryWindow id start end_).
Proof. unfold Repo.TelemetryWindow. eauto with repo. Qed.
Lemma DeleteTelemetryBefore_writes t : guarantees (writes P) (Repo.DeleteTelemetryBefore t).
Proof. unfold Repo.DeleteTelemetryBefore. eauto with repo. Qed.

(** A statement that keeps what has been seen to, and an insert, which establishes its
    row under a new identifier. *)
Lemma triple_writes {A} st (f : Database -> Time -> result A * Database) F :
  P st -> lasting F -> (forall d, F d -> seen_to d st) -> (forall d now, (f d now).2 = exec st d now) ->
  triple (writes P) F (statement f) (fun _ => F).
Proof.
  intros HP HF Hst Hf. apply triple_statement; [apply _|by apply lasting_stable|]. intros d now Hd. rewrite Hf.
  split; [by apply rtc_once, write_exec; auto|]. intros _ _. by apply HF.
Qed.
Lemma triple_insert {R} `{Table R} st mk constraints F (known : list Z) :
  P st -> lasting F -> (forall d, F d -> seen_to d st) ->
  (forall d now, (insert_row mk constraints d now).2 = exec st d now) ->
  (forall d id, F d -> id ∈ known -> is_Some (rows (R := R) d !! id)) ->
  triple (writes P) F (statement (insert_row mk constraints))
    (fun out d => F d /\ exists id t, out = mk id t /\ rows d !! id = Some out /\ ~ (id ∈ known)).
Proof.
  intros HP HF Hst Hf Hk. apply triple_statement; [apply _|by apply lasting_stable|]. intros d now Hd.
  split; [rewrite Hf; by apply rtc_once, write_exec; auto|]. intros out Hout.
  split; [rewrite Hf; by apply HF|]. destruct (insert_row mk constraints d now) as [r d'] eqn:Hrun. simpl in *. subst r.
  apply insert_row_Ok in Hrun as (E & Hn & ->). exists (nextval d), now. split; [done|].
  rewrite rows_set, lookup_insert_eq. split; [done|]. intros Hin. destruct (Hk d _ Hd Hin). congruence.
Qed.

(** The plan that was inserted is still there, in its household, when its devices are. *)
Lemma insert_plan_devices_writes id h pds :
  triple (writes P) (at_row p_HouseholdID id h) (insert_plan_devices id h pds) (fun _ => at_row p_HouseholdID id h).
Proof.
  induction pds as [|pd pds IH]; cbn [insert_plan_devices]; [apply triple_ret; [apply _|done]|].
  apply (triple_bind _ _ _ _ (fun _ => at_row p_HouseholdID id h)); [|by intros _].
  apply triple_require_one, triple_map_err; [apply _|].
  apply (triple_writes (InsertPlanDevice id h pd)); [by apply allowed|apply plan_at_lasting|done|done].
Qed.
Lemma CreatePlan_writes p pds : guarantees (writes P) (Repo.CreatePlan p pds).
Proof.
  apply guarantees_WithTx; [apply _|]. eapply triple_guarantees.
  apply (triple_bind _ _ _ _ (fun out => at_row p_HouseholdID (p_ID out) (p_HouseholdID p))).
  - eapply triple_weaken; [apply triple_map_err, (triple_insert (InsertPlan p) _ _ (fun _ => True) []);
      [by apply allowed|apply lasting_const|done|done|by intros d id _ ?%elem_of_nil]|].
    intros out d (_ & id & t & -> & Hr & _). eexists. by split.
  - intros out. eapply triple_bind; [apply _|apply insert_plan_devices_writes|]. intros [].
    apply (triple_ret _ _ _ (fun _ _ => True)). done.
Qed.
Lemma GetPlan_writes id : guarantees (writes P) (Repo.GetPlan id).
Proof. unfold Repo.GetPlan. eauto with repo. Qed.
Lemma SetPlanState_writes id from to : P (MovePlan id from to) -> guarantees (writes P) (Repo.SetPlanState id from to).
Proof. unfold Repo.SetPlanState. eauto with repo. Qed.
Lemma ExpirePlans_writes t : guarantees (writes P) (Repo.ExpirePlans t).
Proof. unfold Repo.ExpirePlans. eauto with repo. Qed.

Lemma insert_actions_writes id h acts :
  triple (writes P) (at_row a_HouseholdID id h) (insert_actions id h acts) (fun _ => at_row a_HouseholdID id h).
Proof.
  induction acts as [|a acts IH]; cbn [insert_actions]; [apply triple_ret; [apply _|done]|].
  apply (triple_bind _ _ _ _ (fun _ => at_row a_HouseholdID id h)); [|by intros _].
  apply triple_require_one, triple_map_err; [apply _|].
  apply (triple_writes (InsertAction id h a)); [by apply allowed|apply automation_at_lasting|done|done].
Qed.
Lemma CreateAutomation_writes a acts : guarantees (writes P) (Repo.CreateAutomation a acts).
Proof.
  apply guarantees_WithTx; [apply _|]. eapply triple_guarantees.
  apply (triple_bind _ _ _ _ (fun out => at_row a_HouseholdID (a_ID out) (a_HouseholdID a))).
  - eapply triple_weaken; [apply triple_map_err, (triple_insert (InsertAutomation a) _ _ (fun _ => True) []);
      [by apply allowed|apply lasting_const|done|done|by intros d id _ ?%elem_of_nil]|].
    intros out d (_ & id & t & -> & Hr & _). eexists. by split.
  - intros out. eapply triple_bind; [apply _|apply insert_actions_writes|]. intros [].
    apply (triple_ret _ _ _ (fun _ _ => True)). done.
Qed.
Lemma GetAutomation_writes id : guarantees (writes P) (Repo.GetAutomation id).
Proof. unfold Repo.GetAutomation. eauto with repo. Qed.
Lemma SetAutomationState_writes id from to : P (MoveAutomation id from to) ->
  guarantees (writes P) (Repo.SetAutomationState id from to).
Proof. unfold Repo.SetAutomationState. eauto with repo. Qed.
Lemma QueueRun_writes id key : guarantees (writes P) (Repo.QueueRun id key).
Proof. unfold Repo.QueueRun. eauto with repo. Qed.
Lemma ClaimRun_writes locked : guarantees (writes P) (Repo.ClaimRun locked).
Proof. unfold Repo.ClaimRun. eauto with repo. Qed.
Lemma FinishRun_writes id state cause t : P (EndRun id state cause t) ->
  guarantees (writes P) (Repo.FinishRun id state cause t).
Proof. unfold Repo.FinishRun. eauto with repo. Qed.
Lemma RequeueRun_writes id : guarantees (writes P) (Repo.RequeueRun id).
Proof. unfold Repo.RequeueRun. eauto with repo. Qed.
Lemma FinishStaleRuns_writes t : guarantees (writes P) (Repo.FinishStaleRuns t).
Proof. unfold Repo.FinishStaleRuns. eauto with repo. Qed.

Lemma AddAudit_writes e : guarantees (writes P) (Repo.AddAudit e).
Proof. unfold Repo.AddAudit. eauto with repo. Qed.
Lemma AddOutbox_writes m : guarantees (writes P) (Repo.AddOutbox m).
Proof. unfold Repo.AddOutbox. eauto with repo. Qed.
#[local] Hint Resolve AddAudit_writes AddOutbox_writes : repo.
Lemma ClaimOutbox_writes locked : guarantees (writes P) (Repo.ClaimOutbox locked).
Proof. unfold Repo.ClaimOutbox. eauto with repo. Qed.
Lemma MarkOutbox_writes id b t : guarantees (writes P) (Repo.MarkOutbox id b t).
Proof. unfold Repo.MarkOutbox. destruct b; eauto with repo. Qed.
Lemma MarkOutboxFailed_writes id reason : guarantees (writes P) (Repo.MarkOutboxFailed id reason).
Proof. unfold Repo.MarkOutboxFailed. eauto with repo. Qed.
Lemma RescheduleOutbox_writes id n t e : guarantees (writes P) (Repo.RescheduleOutbox id n t e).
Proof. unfold Repo.RescheduleOutbox. eauto with repo. Qed.


(** The execution of a run queues its commands and audits them before it completes it. *)
Definition run_in (h a rid : Z) (d : Database) : Prop :=
  at_row r_AutomationID rid a d /\ at_row a_HouseholdID a h d.
Lemma run_in_lasting h a rid : lasting (run_in h a rid).
Proof. apply lasting_and; [apply run_of_lasting|apply automation_at_lasting]. Qed.

(** The items still to be queued, each a device of the household it was loaded with. *)
Definition loaded_at (a : Z) (items : list LoadedAction) (d : Database) : Prop :=
  Forall (fun item => item_of a (la_household item) d item) items.
Lemma loaded_at_lasting a items : lasting (loaded_at a items).
Proof. apply lasting_Forall. intros item. apply item_of_lasting. Qed.

Definition queued_so_far (h a rid : Z) (items : list LoadedAction) (ids : list Z) (d : Database) : Prop :=
  commands_queued h a rid items ids d /\ Forall (item_of a h d) items.
Lemma queued_so_far_lasting h a rid items ids : lasting (queued_so_far h a rid items ids).
Proof. apply lasting_and; [apply commands_queued_lasting|apply items_of_lasting]. Qed.
Lemma queued_one_more h a rid t items ids item id now d :
  queued_so_far h a rid items ids d -> item_of a h d item -> ~ (id ∈ ids) ->
  let m := command_message h a rid t item in
  rows d !! id = Some (mkOutbox id (o_HouseholdID m) (o_Topic m) (o_Payload m) 0 now None None None None) ->
  queued_so_far h a rid (items ++ [item]) (ids ++ [id]) d.
Proof.
  intros [[Hn Hq] Hh] Hdev Hid m Hr. split; [split|].
  - apply NoDup_app. split_and!; [done| |apply NoDup_singleton]. intros x Hx ->%list_elem_of_singleton. done.
  - apply Forall2_app; [done|]. constructor; [|constructor]. by eexists.
  - apply Forall_app. split; [done|]. by constructor.
Qed.

Lemma enqueue_actions_writes h a rid t items queued ids F : lasting F ->
  triple (writes P) (fun d => F d /\ loaded_at a items d /\ queued_so_far h a rid queued ids d)
    (enqueue_actions h a rid t items)
    (fun _ d => exists ids', F d /\ queued_so_far h a rid (queued ++ items) ids' d).
Proof.
  intros HF. revert queued ids. induction items as [|item items IH]; intros queued ids; cbn [enqueue_actions].
  { apply triple_ret; [apply _|]. intros d (Hd & _ & Hq). rewrite app_nil_r. eauto. }
  destruct (_ || _) eqn:Hg; [apply triple_fail; apply _|].
  assert (la_household item = h) as Hh by (apply orb_false_iff in Hg as [Hg _]; bsimp; lia).
  set (Q := fun d => F d /\ loaded_at a (item :: items) d /\ queued_so_far h a rid queued ids d).
  assert (lasting Q) as HQ
    by (apply lasting_and; [done|apply lasting_and; [apply loaded_at_lasting|apply queued_so_far_lasting]]).
  apply (triple_bind _ _ _ _ (fun _ d => exists ids', F d /\ loaded_at a items d /\
    queued_so_far h a rid (queued ++ [item]) ids' d)).
  - apply triple_map_err. eapply triple_weaken.
    + apply (triple_insert (InsertOutbox (command_message h a rid t item)) _ _ Q ids);
        [by apply allowed|done|done|done|].
      intros d id (_ & _ & [_ Hq] & _) Hin. apply list_elem_of_lookup in Hin as [i Hi].
      apply (Forall2_lookup_l _ _ _ _ _ Hq) in Hi as (x & _ & (r & Hr & _)). by exists r.
    + intros out d ((Hd & Hl & Hq) & id & now & -> & Hr & Hid). inversion_clear Hl as [|?? Hdev Hl'].
      exists (ids ++ [id]). split; [done|]. split; [done|]. eapply queued_one_more; [done| |done|exact Hr].
      by rewrite Hh in Hdev.
  - intros _. apply triple_ex. intros ids'.
    eapply triple_weaken; [apply IH|]. intros u d (ids1 & Hd & Hq). exists ids1. by rewrite <-app_assoc in Hq.
Qed.

Lemma lock_run_writes rid :
  triple (writes P) (fun _ => True) (statement (lock_run rid)) (fun '(a, h) => run_in h a rid).
Proof.
  apply triple_statement; [apply _|by intros|]. intros d now _. unfold lock_run, run_in, at_row.
  repeat case_match; (split; [reflexivity|]); try done. intros ? [= <-]. naive_solver.
Qed.
Lemma load_actions_writes h a rid : triple (writes P) (run_in h a rid) (statement (load_actions a))
  (fun items d => run_in h a rid d /\ loaded_at a items d).
Proof.
  apply triple_statement; [apply _|apply lasting_stable, run_in_lasting|]. intros d now Hd. split; [reflexivity|].
  intros ? [= <-]. split; [done|]. apply Forall_forall. intros item Hin. unfold loaded_actions in Hin.
  apply list_elem_of_omap in Hin as (act & Hin & Hact). destruct (devices d !! _) as [dev|] eqn:Hdev; [|done].
  injection Hact as <-. split; [by exists dev|]. unfold actions_of in Hin.
  rewrite stable_sort_perm in Hin. apply list_elem_of_In, filter_In in Hin as [Hin Ha].
  apply list_elem_of_In, rows_by_id_elem in Hin as (act_id & Hact). exists act_id, act. split; [done|]. simpl.
  apply Z.eqb_eq in Ha. by rewrite Ha.
Qed.
Lemma audit_writes h rid n F : lasting F ->
  triple (writes P) F (statement (insert_audit (dispatched_audit h rid n))) (fun _ d => F d /\ audited h rid n d).
Proof.
  intros HF. eapply triple_weaken; [apply (triple_insert (InsertAudit (dispatched_audit h rid n)) _ _ F []);
    [by apply allowed|done|done|done|by intros d id _ ?%elem_of_nil]|].
  intros out d (Hd & id & t & -> & Hr & _). split; [done|]. exists id. by eexists.
Qed.

Lemma ExecuteAutomationRun_writes id t : guarantees (writes P) (Repo.ExecuteAutomationRun id t).
Proof.
  unfold Repo.ExecuteAutomationRun. case_match; [eauto with repo|]. apply guarantees_WithTx; [apply _|].
  eapply triple_guarantees. unfold execute_run.
  eapply triple_bind; [apply _|apply triple_map_err, lock_run_writes|]. intros [a h].
  eapply triple_bind; [apply _|apply triple_map_err, load_actions_writes|]. intros items.
  eapply triple_bind; [apply _|apply triple_guard; apply _|]. intros [].
  eapply triple_bind; [apply _| |intros []].
  { eapply triple_pre; [|apply (enqueue_actions_writes h a id t items [] [] (fun d => items <> [] /\ run_in h a id d))].
    - intros d (Hne & Hr & Hl). split; [split; [by bsimp|done]|]. split; [done|]. split; [split; constructor|constructor].
    - apply lasting_and; [apply lasting_const|apply run_in_lasting]. }
  apply triple_ex. intros ids. simpl.
  eapply triple_bind; [apply _|apply triple_map_err, audit_writes|intros e].
  { repeat (apply lasting_and; [|apply queued_so_far_lasting]); apply lasting_and; [apply lasting_const|apply run_in_lasting]. }
  apply triple_require_one, triple_map_err; [apply _|].
  eapply triple_pre; [|apply (triple_writes (CompleteRun id t) _ (dispatched id));
    [by apply allowed|apply dispatched_lasting|done|done]].
  intros d (((Hne & [Hr Ha]) & Hq & Hh) & Hau). exists a, h, items, ids. done.
Qed.
Lemma CreateAlert_writes a : P (InsertAlert a) -> guarantees (writes P) (Repo.CreateAlert a).
Proof. unfold Repo.CreateAlert. eauto with repo. Qed.
Lemma GetAlert_writes id : guarantees (writes P) (Repo.GetAlert id).
Proof. unfold Repo.GetAlert. eauto with repo. Qed.
Lemma TransitionAlert_writes id from to t : P (MoveAlert id from to t) ->
  guarantees (writes P) (Repo.TransitionAlert id from to t).
Proof. unfold Repo.TransitionAlert. eauto with repo. Qed.

Lemma TransitionWithAudit_writes u : P (MoveDevice (u_DeviceID u) (u_From u) (u_To u) (u_Version u)) ->
  guarantees (writes P) (Repo.TransitionWithAudit u).
Proof.
  intros Hu. apply guarantees_WithTx; [apply _|]. g_bind. g_bind. case_match; eauto with repo.
Qed.
Lemma AuditAndMessage_writes a m : guarantees (writes P) (Repo.AuditAndMessage a m).
Proof. apply guarantees_WithTx; [apply _|]. g_bind. case_match; eauto with repo. Qed.
Lemma RollbackProof_writes h : guarantees (writes P) (Repo.RollbackProof h).
Proof. unfold Repo.RollbackProof. eauto with repo. Qed.
Lemma AppendAuditAndOutbox_writes a m : guarantees (writes P) (Repo.AppendAuditAndOutbox a m).
Proof.
  unfold Repo.AppendAuditAndOutbox. case_match; [eauto with repo|]. apply guarantees_WithTx; [apply _|].
  g_bind. case_match; eauto with repo.
Qed.
Lemma resourceHousehold_writes {R} `{Table R} (h : R -> Z) id : guarantees (writes P) (Repo.resourceHousehold h id).
Proof. unfold Repo.resourceHousehold. case_match; eauto with repo. Qed.
End repository.
