(* ===== verification/Schema.v ===== *)
(** * The schema of the database, kept by every statement

    [schema] is what the migrations declare: every row under its key, CHECK and UNIQUE
    constraints, and every foreign key.  [tenancy] is what the inserts of plans and
    automations see to beyond it: their devices are of their own household; [accounted]
    that every run that has succeeded has its commands in the outbox.  [numbered] is how
    the statements use the sequences that number the rows. *)
From S2P Require Import Prelude Errors GoStd Model Rules Store Repo Frame Devices Plans Automations Outbox Alerts Telemetry.
From S2P Require Import Statements.

(** ** The schema *)
Section tables.
Context {R : Type} `{Table R}.

(** Every row is under its key and passes the CHECK constraints. *)
Definition rows_ok (m : gmap Z R) : Prop := map_Forall (fun id r => row_id r = id /\ row_check r = true) m.

Lemma rows_ok_insert m id r : rows_ok m -> row_id r = id -> row_check r = true -> rows_ok (<[id := r]> m).
Proof. intros Hm Hid Hc. by apply map_Forall_insert_2. Qed.
End tables.

Section columns.
Context {K : Type} `{Countable K} {R P : Type}.

(** A foreign key: [f] names a row of [parents]. *)
Definition references (f : R -> Z) (children : gmap K R) (parents : gmap Z P) : Prop :=
  map_Forall (fun _ r => is_Some (parents !! f r)) children.
Definition references_if (f : R -> option Z) (children : gmap K R) (parents : gmap Z P) : Prop :=
  map_Forall (fun _ r => forall i, f r = Some i -> is_Some (parents !! i)) children.
(** A UNIQUE constraint. *)
Definition unique {C} (f : R -> C) (m : gmap K R) : Prop :=
  forall i j a b, m !! i = Some a -> m !! j = Some b -> f a = f b -> i = j.

Lemma references_parent f children (parents : gmap Z P) i p :
  references f children parents -> references f children (<[i := p]> parents).
Proof. intros Hf k r Hr. rewrite lookup_insert_is_Some'. right. by apply (Hf k). Qed.
Lemma references_if_parent f children (parents : gmap Z P) i p :
  references_if f children parents -> references_if f children (<[i := p]> parents).
Proof. intros Hf k r Hr j Hj. rewrite lookup_insert_is_Some'. right. by apply (Hf k r). Qed.
Lemma references_parents f children (parents : gmap Z P) (g : P -> P) :
  references f children parents -> references f children (g <$> parents).
Proof. intros Hf k r Hr. rewrite lookup_fmap, fmap_is_Some. by apply (Hf k). Qed.
Lemma references_child f children (parents : gmap Z P) k r :
  references f children parents -> is_Some (parents !! f r) -> references f (<[k := r]> children) parents.
Proof. intros Hf Hr. by apply map_Forall_insert_2. Qed.
Lemma references_if_child f children (parents : gmap Z P) k r :
  references_if f children parents -> (forall i, f r = Some i -> is_Some (parents !! i)) ->
  references_if f (<[k := r]> children) parents.
Proof. intros Hf Hr. by apply map_Forall_insert_2. Qed.
Lemma references_update f children (parents : gmap Z P) k r r' :
  references f children parents -> children !! k = Some r -> f r' = f r ->
  references f (<[k := r']> children) parents.
Proof. intros Hf Hr E. apply references_child; [done|]. rewrite E. by apply (Hf k). Qed.
Lemma references_if_update f children (parents : gmap Z P) k r r' :
  references_if f children parents -> children !! k = Some r -> f r' = f r ->
  references_if f (<[k := r']> children) parents.
Proof. intros Hf Hr E. apply references_if_child; [done|]. rewrite E. by apply (Hf k). Qed.
Lemma references_children f children (parents : gmap Z P) (g : R -> R) :
  references f children parents -> (forall r, f (g r) = f r) -> references f (g <$> children) parents.
Proof.
  intros Hf Hg k r. rewrite lookup_fmap_Some. intros (r0 & <- & Hr). rewrite Hg. by apply (Hf k).
Qed.
Lemma references_filter f children (parents : gmap Z P) (C : K * R -> Prop) `{!forall x, base.Decision (C x)} :
  references f children parents -> references f (filter C children) parents.
Proof. intros Hf k r [Hr _]%map_lookup_filter_Some. by apply (Hf k). Qed.

Lemma unique_insert {C} (f : R -> C) m k r :
  unique f m -> (forall j b, m !! j = Some b -> f b <> f r) -> unique f (<[k := r]> m).
Proof.
  intros Hu Hn i j a b. rewrite !lookup_insert_Some.
  intros [[<- <-]|[Hi Ha]] [[<- <-]|[Hj Hb]] E; [done| | |by eapply (Hu i j)];
    [by edestruct (Hn j b)|by edestruct (Hn i a)].
Qed.
Lemma unique_update {C} (f : R -> C) m k r r' :
  unique f m -> m !! k = Some r -> f r' = f r -> unique f (<[k := r']> m).
Proof.
  intros Hu Hr E i j a b. rewrite !lookup_insert_Some.
  intros [[<- <-]|[Hi Ha]] [[<- <-]|[Hj Hb]] Eab; [done| | |by eapply (Hu i j)];
    eapply Hu; eauto; congruence.
Qed.
Lemma unique_fmap {C} (f : R -> C) m (g : R -> R) :
  unique f m -> (forall r, f (g r) = f r) -> unique f (g <$> m).
Proof.
  intros Hu Hg i j a b. rewrite !lookup_fmap_Some. intros (a0 & <- & Ha) (b0 & <- & Hb). rewrite !Hg. eauto.
Qed.
Lemma unique_filter {C} (f : R -> C) m (Q : K * R -> Prop) `{!forall x, base.Decision (Q x)} :
  unique f m -> unique f (filter Q m).
Proof. intros Hu i j a b [Ha _]%map_lookup_filter_Some [Hb _]%map_lookup_filter_Some. eauto. Qed.
End columns.

Record schema (d : Database) : Prop := {
  sc_households : rows_ok (households d);
  sc_members : rows_ok (members d);
  sc_sessions : map_Forall (fun id s => s_ID s = id) (sessions d);
  sc_devices : rows_ok (devices d);
  sc_telemetry : rows_ok (telemetry d);
  sc_plans : rows_ok (energy_plans d);
  sc_plan_devices : map_Forall (fun k pd => k = (pd_PlanID pd, pd_DeviceID pd) /\ flt (pd_TargetWatts pd) f0 = false)
                      (plan_devices d);
  sc_automations : rows_ok (automations d);
  sc_actions : rows_ok (automation_actions d);
  sc_runs : rows_ok (automation_runs d);
  sc_alerts : rows_ok (alerts d);
  sc_audit : rows_ok (audit_events d);
  sc_outbox : rows_ok (outbox_messages d);
  fk_members : references (m_HouseholdID ∘ mr_member) (members d) (households d);
  fk_sessions : references s_MemberID (sessions d) (members d);
  fk_devices : references d_HouseholdID (devices d) (households d);
  fk_capabilities : forall id c, (id, c) ∈ device_capabilities d -> is_Some (devices d !! id);
  fk_telemetry : references t_DeviceID (telemetry d) (devices d);
  fk_plans : references p_HouseholdID (energy_plans d) (households d);
  fk_plan_devices_plan : references pd_PlanID (plan_devices d) (energy_plans d);
  fk_plan_devices_device : references pd_DeviceID (plan_devices d) (devices d);
  fk_automations : references a_HouseholdID (automations d) (households d);
  fk_actions_automation : references aa_AutomationID (automation_actions d) (automations d);
  fk_actions_device : references aa_DeviceID (automation_actions d) (devices d);
  fk_runs : references r_AutomationID (automation_runs d) (automations d);
  fk_alerts : references al_HouseholdID (alerts d) (households d);
  fk_alerts_device : references_if al_DeviceID (alerts d) (devices d);
  fk_audit : references ae_HouseholdID (audit_events d) (households d);
  fk_audit_member : references_if ae_ActorMemberID (audit_events d) (members d);
  fk_outbox : references o_HouseholdID (outbox_messages d) (households d);
  uq_members : unique (fun r => (m_HouseholdID (mr_member r), m_Email (mr_member r))) (members d);
  uq_devices : unique (fun r => (d_HouseholdID r, d_ExternalID r)) (devices d);
  uq_telemetry : unique (fun r => (t_DeviceID r, t_Sequence r)) (telemetry d);
  uq_actions : unique (fun r => (aa_AutomationID r, aa_Ordinal r)) (automation_actions d);
  uq_runs : unique (fun r => (r_AutomationID r, r_IdempotencyKey r)) (automation_runs d)
}.

Definition keeps_schema (d d' : Database) : Prop := schema d -> schema d'.

Lemma schema_seqs q d : schema d -> schema (set_seqs q d).
Proof. intros []. constructor; assumption. Qed.

#[export] Instance keeps_schema_TwoState : TwoState keeps_schema.
Proof.
  apply two_state_any; [split|].
  - by intros d Hd.
  - intros d1 d2 d3 H12 H23 Hd. auto.
  - intros d q Hd. by apply schema_seqs.
Qed.

Lemma schema_empty : schema empty_database.
Proof.
  constructor; cbn [empty_database households members sessions devices device_capabilities telemetry energy_plans
    plan_devices automations automation_actions automation_runs alerts audit_events outbox_messages];
    try apply map_Forall_empty; try (by intros i j a b ?%lookup_empty_Some).
  by intros id c ?%elem_of_empty.
Qed.

Create HintDb schema discriminated.
#[export] Hint Resolve references_parent references_if_parent references_parents references_child references_if_child
  references_update references_if_update references_children references_filter
  unique_update unique_fmap unique_filter : schema.

(** Replacing one table: the constraints about it remain to be shown. *)
Ltac schema_table := intros []; constructor; simpl; try assumption; eauto 2 with schema.

Section steps.
Context `{PG : Postgres}.

(** ** Inserted, updated and claimed rows *)
Lemma insert_row_schema {R} `{Table R} mk (constraints : Database -> R -> option string) d now :
  (forall q id, rows d !! id = None -> row_check (mk id now) = true -> constraints d (mk id now) = None ->
     keeps_schema d (set_rows (<[id := mk id now]> (rows d)) (set_seqs q d))) ->
  keeps_schema d (insert_row mk constraints d now).2.
Proof.
  intros Hi. unfold insert_row. destruct (row_check _) eqn:Hc; simpl; [|intros Hd; by apply schema_seqs].
  case_bool_decide as Hn; simpl; [intros Hd; by apply schema_seqs|].
  destruct (constraints _ _) eqn:Hk; simpl; [intros Hd; by apply schema_seqs|].
  apply Hi; [|done..]. destruct (rows d !! nextval d); [|done]. by destruct Hn.
Qed.

Lemma update_row_schema {R} `{Table R} id cond (upd : R -> Time -> result R) d now :
  (forall r r', rows d !! id = Some r -> upd r now = Ok r' -> row_check r' = true ->
     keeps_schema d (set_rows (<[id := r']> (rows d)) d)) ->
  keeps_schema d (update_row id cond upd d now).2.
Proof. intros Hu. unfold update_row. repeat case_match; try done. simpl. eauto. Qed.

Lemma claim_row_schema {R} `{Table R} locked cond (upd : R -> Time -> result R) d now :
  (forall id r r', rows d !! id = Some r -> upd r now = Ok r' -> row_check r' = true ->
     keeps_schema d (set_rows (<[id := r']> (rows d)) d)) ->
  keeps_schema d (claim_row locked cond upd d now).2.
Proof.
  intros Hu. unfold claim_row. destruct (candidate _ _ _) as [[id r]|] eqn:Hc; [|done].
  apply candidate_Some in Hc as (Hr & _). repeat case_match; try done. simpl. eauto.
Qed.

Lemma require_None ok code : require ok code = None -> ok = true.
Proof. by destruct ok. Qed.
Lemma first_violation_None a b : first_violation a b = None -> a = None /\ b = None.
Proof. by destruct a. Qed.
Lemma exists_row_True {R} `{Table R} id d : exists_row (R := R) id d = true -> is_Some (rows (R := R) d !! id).
Proof. unfold exists_row. by rewrite bool_decide_eq_true. Qed.

(** Reads the constraints of an insert off their failure to complain. *)
Ltac constraints :=
  repeat match goal with
    | H : first_violation _ _ = None |- _ => apply first_violation_None in H as [? ?]
    | H : require _ _ = None |- _ => apply require_None in H
    | H : exists_row _ _ = true |- _ => apply exists_row_True in H
    | H : bool_decide _ = true |- _ => apply bool_decide_eq_true in H
    end; simpl in *.

Lemma insert_household_schema name tz budget d now : keeps_schema d (insert_household name tz budget d now).2.
Proof. apply insert_row_schema. intros q id Hn Hc _. schema_table. by apply rows_ok_insert. Qed.

Lemma insert_member_schema h email hash role d now : keeps_schema d (insert_member h email hash role d now).2.
Proof.
  apply insert_row_schema. intros q id Hn Hc Hk. unfold member_constraints in Hk. constraints. schema_table.
  - by apply rows_ok_insert.
  - by apply unique_insert; [|intros j b Hj [= E1 E2]; by eapply H].
Qed.
Lemma insert_session_schema se d now : keeps_schema d (insert_session se d now).2.
Proof.
  unfold insert_session. destruct (uuid_in _) as [id|]; [|done]. case_bool_decide as Hn; [done|].
  destruct (exists_row _ d) eqn:He; [|done]. constraints. schema_table.
  by apply map_Forall_insert_2.
Qed.

Lemma revoke_session_schema id t d now : keeps_schema d (revoke_session id t d now).2.
Proof.
  unfold revoke_session. repeat case_match; try done. simpl. schema_table.
  apply map_Forall_insert_2; [|done]. by eapply (sc_sessions0 _ s0).
Qed.

Lemma delete_sessions_schema t d now : keeps_schema d (delete_sessions t d now).2.
Proof. schema_table. intros id r [Hr _]%map_lookup_filter_Some. by apply sc_sessions0. Qed.

Lemma update_member_schema id active d now : keeps_schema d (update_member_active id active d now).2.
Proof.
  apply update_row_schema. intros r r' Hr [= <-] Hc. schema_table. apply rows_ok_insert; [done| |done].
  by apply (sc_members0 _ r).
Qed.

Lemma insert_device_schema dev d now : keeps_schema d (insert_device dev d now).2.
Proof.
  apply insert_row_schema. intros q id Hn Hc Hk. unfold device_constraints in Hk. constraints. schema_table.
  - by apply rows_ok_insert.
  - intros i c Hic. rewrite lookup_insert_is_Some'. right. by eapply fk_capabilities0.
  - by apply unique_insert; [|intros j b Hj [= E1 E2]; by eapply H].
Qed.

Lemma add_capability_schema id c d : is_Some (devices d !! id) ->
  keeps_schema d (set_device_capabilities ({[(id, c)]} ∪ device_capabilities d) d).
Proof. intros Hid. schema_table. intros i c' [[= -> ->]%elem_of_singleton|?]%elem_of_union; eauto. Qed.

Lemma insert_capability_schema id c d now : keeps_schema d (insert_capability id c d now).2.
Proof.
  unfold insert_capability. case_bool_decide; [done|]. destruct (exists_row _ d) eqn:He; [|done].
  constraints. by apply add_capability_schema.
Qed.
Lemma upsert_capability_schema id c d now : keeps_schema d (upsert_capability id c d now).2.
Proof.
  unfold upsert_capability. case_bool_decide; [done|]. destruct (exists_row _ d) eqn:He; [|done].
  constraints. by apply add_capability_schema.
Qed.

Lemma update_device_schema id cond upd d now :
  (forall r r' t, upd r t = Ok r' -> same_device r r') ->
  keeps_schema d (update_row (R := Device) id cond upd d now).2.
Proof.
  intros Hu. apply update_row_schema. intros r r' Hr (Hid & Hh & He & _)%Hu Hc. schema_table.
  - apply rows_ok_insert; [done| |done]. simpl. rewrite Hid. by apply (sc_devices0 _ r).
  - intros i c Hic. rewrite lookup_insert_is_Some'. right. by eapply fk_capabilities0.
  - eapply unique_update; [done|done|]. simpl. congruence.
Qed.

Lemma insert_telemetry_schema t d now : keeps_schema d (insert_telemetry t d now).2.
Proof.
  unfold insert_telemetry. destruct (numeric_in 12 _) as [watts|]; [|done]. destruct (temperature_in _) as [temp|]; [|done].
  destruct (devices d !! _) as [dev|] eqn:Hdev; [|done]. case_bool_decide; [|done].
  match goal with |- context [insert_row ?mk ?cs d now] => pose proof (insert_row_schema mk cs d now) as Hi;
    destruct (insert_row mk cs d now) as [r d'] end.
  apply Hi. clear Hi. intros q id Hn Hc Hk. unfold telemetry_constraints in Hk. constraints. schema_table.
  - by apply rows_ok_insert.
  - by apply unique_insert; [|intros j b Hj [= E1 E2]; by eapply Hk].
Qed.

Lemma delete_telemetry_schema t d now : keeps_schema d (delete_telemetry t d now).2.
Proof. schema_table. intros id r [Hr _]%map_lookup_filter_Some. by apply sc_telemetry0. Qed.

Lemma insert_plan_schema p d now : keeps_schema d (insert_plan p d now).2.
Proof.
  apply insert_row_schema. intros q id Hn Hc Hk. constraints. schema_table. by apply rows_ok_insert.
Qed.

Lemma insert_plan_device_schema plan h pd d now : keeps_schema d (insert_plan_device plan h pd d now).2.
Proof.
  unfold insert_plan_device. destruct (numeric_in 12 _) as [watts|]; [|done].
  destruct (devices d !! _) as [dev|] eqn:Hdev; [|done]. destruct (_ && _); [|done].
  destruct (flt watts f0) eqn:Hw; [done|]. case_bool_decide; [done|].
  destruct (exists_row _ d) eqn:He; [|done]. constraints. schema_table. by apply map_Forall_insert_2.
Qed.

Lemma with_plan_state_schema to id r d : energy_plans d !! id = Some r -> row_check (with_plan_state to r) = true ->
  keeps_schema d (set_energy_plans (<[id := with_plan_state to r]> (energy_plans d)) d).
Proof.
  intros Hr Hc. schema_table. apply rows_ok_insert; [done| |done]. by apply (sc_plans0 _ r).
Qed.

Lemma update_plan_state_schema id from to d now : keeps_schema d (update_plan_state id from to d now).2.
Proof. apply update_row_schema. intros r r' Hr [= <-] Hc. by apply with_plan_state_schema. Qed.

(** An update of many rows keeps the keys; its CHECK constraints were tested. *)
Lemma update_rows_ok {R} `{Table R} (cond : R -> bool) (upd : R -> Time -> R) m now :
  rows_ok m -> (forall r, row_id (upd r now) = row_id r) ->
  map_Forall (fun _ r => row_check (upd r now) = true) (filter (fun kv => cond kv.2 = true) m) ->
  rows_ok ((fun r => if cond r then upd r now else r) <$> m).
Proof.
  intros Hm Hu Hc id r'. rewrite lookup_fmap_Some. intros (r & <- & Hr). destruct (Hm id r Hr).
  destruct (cond r) eqn:E; [|done]. split; [by rewrite Hu|].
  apply (Hc id). by apply map_lookup_filter_Some.
Qed.

Lemma expire_plans_schema t d now : keeps_schema d (expire_plans t d now).2.
Proof.
  unfold expire_plans, update_rows. case_bool_decide as Hc; [|done]. schema_table.
  - by apply (update_rows_ok _ (fun p _ => with_plan_state PlanCancelled p) _ now).
  - apply references_children; [done|]. intros r. by case_match.
Qed.

Lemma insert_automation_schema a d now : keeps_schema d (insert_automation a d now).2.
Proof. apply insert_row_schema. intros q id Hn Hc Hk. constraints. schema_table. by apply rows_ok_insert. Qed.

Lemma insert_action_schema automation h act d now : keeps_schema d (insert_action automation h act d now).2.
Proof.
  unfold insert_action. destruct (devices d !! _) as [dev|] eqn:Hdev; [|done]. destruct (_ && _); [|done].
  match goal with |- context [insert_row ?mk ?cs d now] => pose proof (insert_row_schema mk cs d now) as Hi;
    destruct (insert_row mk cs d now) as [r d'] end.
  apply Hi. clear Hi. intros q id Hn Hc Hk. unfold action_constraints in Hk. constraints. schema_table.
  - by apply rows_ok_insert.
  - by apply unique_insert; [|intros j b Hj [= E1 E2]; by eapply H].
Qed.

Lemma update_automation_state_schema id from to d now : keeps_schema d (update_automation_state id from to d now).2.
Proof.
  apply update_row_schema. intros r r' Hr [= <-] Hc. schema_table. apply rows_ok_insert; [done| |done].
  by apply (sc_automations0 _ r).
Qed.

Lemma with_run_state_schema state text started finished id r d :
  automation_runs d !! id = Some r -> row_check (with_run_state state text started finished r) = true ->
  keeps_schema d (set_automation_runs (<[id := with_run_state state text started finished r]> (automation_runs d)) d).
Proof.
  intros Hr Hc. schema_table. apply rows_ok_insert; [done| |done]. by apply (sc_runs0 _ r).
Qed.

Lemma queue_run_schema automation key d now : keeps_schema d (queue_run automation key d now).2.
Proof.
  unfold queue_run. destruct (automations d !! automation) as [a|] eqn:Ha; [|done]. case_bool_decide; [|done].
  destruct (List.filter _ _) as [|run l] eqn:Hf; [|intros Hd; by apply schema_seqs].
  apply insert_row_schema. intros q id Hn Hc _. schema_table.
  - by apply rows_ok_insert.
  - apply unique_insert; [done|]. intros j b Hj [= E1 E2].
    rewrite filter_nil in Hf. specialize (Hf b). rewrite rows_by_id_elem in Hf.
    specialize (Hf (ex_intro _ j Hj)). rewrite E1, E2, Z.eqb_refl, bool_decide_eq_true_2 in Hf; done.
Qed.

Lemma claim_run_schema locked d now : keeps_schema d (claim_run locked d now).2.
Proof. apply claim_row_schema. intros id r r' Hr [= <-] Hc. by apply with_run_state_schema. Qed.
Lemma finish_run_schema id state cause t d now : keeps_schema d (finish_run id state cause t d now).2.
Proof. apply update_row_schema. intros r r' Hr [= <-] Hc. by apply with_run_state_schema. Qed.
Lemma requeue_run_schema id d now : keeps_schema d (requeue_run id d now).2.
Proof. apply update_row_schema. intros r r' Hr [= <-] Hc. by apply with_run_state_schema. Qed.
Lemma complete_run_schema id t d now : keeps_schema d (complete_run id t d now).2.
Proof. apply update_row_schema. intros r r' Hr [= <-] Hc. by apply with_run_state_schema. Qed.
Lemma finish_stale_runs_schema t d now : keeps_schema d (finish_stale_runs t d now).2.
Proof.
  unfold finish_stale_runs, update_rows. case_bool_decide as Hc; [|done]. schema_table.
  - by apply (update_rows_ok (stale t) (fun r now => with_run_state RunFailed (Some "worker timeout"%string)
      (r_StartedAt r) (Some now) r) _ now).
  - apply references_children; [done|]. intros r. by case_match.
  - apply unique_fmap; [done|]. intros r. by case_match.
Qed.

Lemma insert_audit_schema e d now : keeps_schema d (insert_audit e d now).2.
Proof.
  unfold insert_audit. destruct (not_json _); [done|].
  apply insert_row_schema. intros q id Hn Hc Hk. constraints. schema_table.
  - by apply rows_ok_insert.
  - apply references_if_child; [done|]. simpl. intros i Hi. rewrite Hi in *. by constraints.
Qed.

Lemma insert_outbox_schema m d now : keeps_schema d (insert_outbox m d now).2.
Proof.
  unfold insert_outbox. destruct (not_json _); [done|].
  apply insert_row_schema. intros q id Hn Hc Hk. constraints. schema_table. by apply rows_ok_insert.
Qed.

Lemma message_schema id m m' d : outbox_messages d !! id = Some m -> row_check m' = true ->
  o_ID m' = o_ID m -> o_HouseholdID m' = o_HouseholdID m ->
  keeps_schema d (set_outbox_messages (<[id := m']> (outbox_messages d)) d).
Proof.
  intros Hm Hc Hid Hh. schema_table. apply rows_ok_insert; [done| |done]. simpl. rewrite Hid. by apply (sc_outbox0 _ m).
Qed.

Lemma claim_message_schema locked d now : keeps_schema d (claim_message locked d now).2.
Proof.
  apply claim_row_schema. intros id m m' Hm Hu Hc. unfold claim_outbox in Hu. case_match; [done|].
  injection Hu as <-. by eapply message_schema.
Qed.
Lemma mark_outbox_schema id b t d now : keeps_schema d (mark_outbox id b t d now).2.
Proof. destruct b; apply update_row_schema; intros m m' Hm [= <-] Hc; by eapply message_schema. Qed.
Lemma fail_outbox_schema id reason d now : keeps_schema d (fail_outbox id reason d now).2.
Proof. apply update_row_schema; intros m m' Hm [= <-] Hc; by eapply message_schema. Qed.
Lemma reschedule_outbox_schema id n t e d now : keeps_schema d (reschedule_outbox id n t e d now).2.
Proof. apply update_row_schema; intros m m' Hm [= <-] Hc; by eapply message_schema. Qed.

Lemma insert_alert_schema a d now : keeps_schema d (insert_alert a d now).2.
Proof.
  apply insert_row_schema. intros q id Hn Hc Hk. constraints. schema_table.
  - by apply rows_ok_insert.
  - apply references_if_child; [done|]. simpl. intros i Hi. rewrite Hi in *. by constraints.
Qed.
Lemma update_alert_state_schema id from to t d now : keeps_schema d (update_alert_state id from to t d now).2.
Proof.
  apply update_row_schema. intros r r' Hr [= <-] Hc. schema_table. apply rows_ok_insert; [done| |done].
  by apply (sc_alerts0 _ r).
Qed.

(** Every statement keeps the schema, legal or not. *)
Lemma exec_keeps_schema st d now : keeps_schema d (exec st d now).
Proof.
  destruct st; cbn [exec];
    auto using insert_household_schema, insert_member_schema, update_member_schema, insert_session_schema,
      revoke_session_schema, delete_sessions_schema, insert_device_schema, insert_capability_schema,
      upsert_capability_schema, insert_telemetry_schema, delete_telemetry_schema, insert_plan_schema,
      insert_plan_device_schema, update_plan_state_schema, expire_plans_schema, insert_automation_schema,
      insert_action_schema, update_automation_state_schema, queue_run_schema, claim_run_schema, finish_run_schema,
      requeue_run_schema, complete_run_schema, finish_stale_runs_schema, insert_audit_schema, insert_outbox_schema,
      claim_message_schema, mark_outbox_schema, fail_outbox_schema, reschedule_outbox_schema, insert_alert_schema,
      update_alert_state_schema.
  - apply update_device_schema. intros r r' t Hu. unfold set_device_state in Hu. case_match; [done|].
    by injection Hu as <-.
  - apply update_device_schema. by intros r r' t [= <-].
Qed.
End steps.

(** ** Tenancy

    A plan and its devices, an automation and the devices it acts on, are of one
    household.  No constraint of the schema says so; the inserts look for it, and no
    statement changes the household of a row. *)
Section tenancy.
Context `{PG : Postgres}.

Definition of_one_household {K R P : Type} `{Countable K} (parent child : R -> Z) (home : P -> Z)
    (links : gmap K R) (parents : gmap Z P) (devs : gmap Z Device) : Prop :=
  forall k r, links !! k = Some r -> exists p dev,
    parents !! parent r = Some p /\ devs !! child r = Some dev /\ home p = d_HouseholdID dev.
Record tenancy (d : Database) : Prop := {
  tn_plans : of_one_household pd_PlanID pd_DeviceID p_HouseholdID (plan_devices d) (energy_plans d) (devices d);
  tn_automations : of_one_household aa_AutomationID aa_DeviceID a_HouseholdID
                     (automation_actions d) (automations d) (devices d)
}.

Lemma of_one_household_settled {K R P : Type} `{Countable K} `{Table P} (parent child : R -> Z) (home : P -> Z)
    (links : gmap K R) d d' :
  settled_in home d d' -> settled_in d_HouseholdID d d' ->
  of_one_household parent child home links (rows d) (devices d) ->
  of_one_household parent child home links (rows d') (devices d').
Proof.
  intros [Hp _] [Hd _] Hl k r Hr. destruct (Hl k r Hr) as (p & dev & Hp0 & Hd0 & E).
  destruct (Hp _ _ Hp0) as (p' & Hp1 & Ep), (Hd _ _ Hd0) as (dev' & Hd1 & Ed).
  exists p', dev'. split; [done|]. split; [done|]. unfold same in *. congruence.
Qed.
Lemma of_one_household_insert {K R P : Type} `{Countable K} (parent child : R -> Z) (home : P -> Z)
    (links : gmap K R) (parents : gmap Z P) devs k r p dev :
  parents !! parent r = Some p -> devs !! child r = Some dev -> home p = d_HouseholdID dev ->
  of_one_household parent child home links parents devs ->
  of_one_household parent child home (<[k := r]> links) parents devs.
Proof.
  intros Hp Hd E Hl k' r'. rewrite lookup_insert_Some. intros [[<- <-]|[_ Hr]]; [by exists p, dev|by eapply Hl].
Qed.

Lemma insert_plan_device_tenancy id h pd d now :
  seen_to d (InsertPlanDevice id h pd) -> tenancy d -> tenancy (insert_plan_device id h pd d now).2.
Proof.
  intros (p & Hp & <-) Hd. unfold insert_plan_device. destruct (numeric_in _ _) as [watts|]; [|done].
  destruct (devices d !! _) as [dev|] eqn:Hdev; [|done]. destruct (_ && _) eqn:Hh; [|done].
  repeat case_match; try done. destruct Hd as [Ht1 Ht2]. constructor; simpl; [|done]. bsimp.
  by eapply of_one_household_insert.
Qed.
Lemma insert_action_tenancy id h a d now :
  seen_to d (InsertAction id h a) -> tenancy d -> tenancy (insert_action id h a d now).2.
Proof.
  intros (p & Hp & <-) Hd. unfold insert_action. destruct (devices d !! _) as [dev|] eqn:Hdev; [|done].
  destruct (_ && _) eqn:Hh; [|done]. bsimp. destruct (insert_row _ _ d now) as [[row|e] d'] eqn:Hrun; simpl.
  - apply insert_row_Ok in Hrun as (-> & _ & ->). destruct Hd as [Ht1 Ht2]. constructor; simpl; [done|].
    by eapply of_one_household_insert.
  - assert (exists q, d' = set_seqs q d) as [q ->]; [|by destruct Hd; constructor].
    unfold insert_row in Hrun. repeat case_match; simplify_eq; eauto.
Qed.

Lemma exec_tenancy st d now : seen_to d st -> tenancy d -> tenancy (exec st d now).
Proof.
  intros Hst Hd.
  assert (plan_devices (exec st d now) = plan_devices d -> automation_actions (exec st d now) = automation_actions d ->
          tenancy (exec st d now)) as Hsame.
  { intros E1 E2. destruct Hd as [Ht1 Ht2]. constructor; [rewrite E1|rewrite E2].
    - exact (of_one_household_settled pd_PlanID pd_DeviceID p_HouseholdID (plan_devices d) d _
        (plans_settled st d now) (devices_settled st d now) Ht1).
    - exact (of_one_household_settled aa_AutomationID aa_DeviceID a_HouseholdID (automation_actions d) d _
        (automations_settled st d now) (devices_settled st d now) Ht2). }
  destruct st; try (apply Hsame; clear; cbn [exec]; solve [frame]); cbn [exec].
  - by apply insert_plan_device_tenancy.
  - by apply insert_action_tenancy.
Qed.

Definition keeps_tenancy (d d' : Database) : Prop := tenancy d -> tenancy d'.
#[export] Instance keeps_tenancy_TwoState : TwoState keeps_tenancy.
Proof.
  apply two_state_any; [split|].
  - by intros d Hd.
  - intros d1 d2 d3 H12 H23 Hd. auto.
  - intros d q []. by constructor.
Qed.
Lemma tenancy_empty : tenancy empty_database.
Proof. split; intros k r Hr; simpl in Hr; by apply lookup_empty_Some in Hr. Qed.
End tenancy.

(** ** Runs that have succeeded

    A run is in the state [succeeded] only with its commands in the outbox and their
    number in the audit. *)
Section accounts.
Context `{PG : Postgres}.

Definition accounted (d : Database) : Prop :=
  forall id r, automation_runs d !! id = Some r -> r_State r = RunSucceeded -> dispatched id d.

Definition not_by_itself (r r' : AutomationRun) : Prop := r_State r' = RunSucceeded -> r_State r = RunSucceeded.
#[local] Instance not_by_itself_PreOrder : PreOrder not_by_itself.
Proof. split; unfold not_by_itself; auto. Qed.

(** Only the completion of a run makes it succeed. *)
Lemma exec_not_by_itself st d now : legal st -> match st with CompleteRun _ _ => False | _ => True end ->
  evolve (fun _ r => r_State r <> RunSucceeded) not_by_itself d (exec st d now).
Proof.
  intros Hl Hst.
  destruct st; cbn [exec legal] in *; try done; try solve [apply evolve_same; [apply _|frame]].
  - unfold queue_run. repeat case_match; try (by apply evolve_same; [apply _|]).
    by apply insert_row_evolve; [apply _|].
  - apply claim_row_evolve; [apply _|]. by intros r r' t _ [= <-].
  - apply update_row_evolve; [apply _|]. by intros ? r r' t _ [= <-] ?%Hl.
  - apply update_row_evolve; [apply _|]. by intros ? r r' t _ [= <-].
  - apply update_rows_evolve; [apply _|]. done.
Qed.
Lemma complete_run_succeeds id t d now id' r' :
  automation_runs (complete_run id t d now).2 !! id' = Some r' -> id' = id \/ automation_runs d !! id' = Some r'.
Proof.
  unfold complete_run, update_row. repeat case_match; simpl; auto. rewrite lookup_insert_Some. naive_solver.
Qed.

Lemma exec_accounted st d now : legal st -> seen_to d st -> accounted d -> accounted (exec st d now).
Proof.
  intros Hl Hst Hd id r' Hr' Hs. apply dispatched_lasting.
  assert ((exists rid t, st = CompleteRun rid t) \/ match st with CompleteRun _ _ => False | _ => True end)
    as [(rid & t & ->)|Hne] by (destruct st; eauto).
  - apply complete_run_succeeds in Hr' as [->|Hr]; [exact Hst|by eapply Hd].
  - destruct (exec_not_by_itself st d now Hl Hne) as [Hold Hnew].
    destruct (automation_runs d !! id) as [r|] eqn:Hr.
    + destruct (Hold id r Hr) as (r2 & Hr2 & Hq). simpl in Hr2. simplify_eq. by apply (Hd id r Hr), Hq.
    + destruct (Hnew id r' Hr' Hr) as (r0 & Hi & Hq). by destruct Hi; apply Hq.
Qed.

Definition keeps_accounts (d d' : Database) : Prop := accounted d -> accounted d'.
#[export] Instance keeps_accounts_TwoState : TwoState keeps_accounts.
Proof.
  apply two_state_any; [split|].
  - by intros d Hd.
  - intros d1 d2 d3 H12 H23 Hd. auto.
  - intros d q Hd id r Hr Hs. apply dispatched_lasting. by eapply Hd.
Qed.
End accounts.

(** ** Identifiers

    [sequenced]: identifiers are positive and those given out so far are below the next
    one.  [numbered] is what statements do about it: they only add rows under numbers
    that their sequence then has passed. *)
Section numbers.
Context `{PG : Postgres}.

Section table.
Context {R : Type} `{Table R}.

Definition sequenced (d : Database) : Prop :=
  0 < nextval (R := R) d /\ map_Forall (fun id _ => 0 < id < nextval (R := R) d) (rows (R := R) d).
Definition numbered (d d' : Database) : Prop :=
  nextval (R := R) d <= nextval (R := R) d' /\
  forall id, is_Some (rows (R := R) d' !! id) ->
    is_Some (rows (R := R) d !! id) \/ nextval (R := R) d <= id < nextval (R := R) d'.

#[export] Instance numbered_TwoState : TwoState numbered.
Proof.
  split; [split| |].
  - intros d. split; [done|]. auto.
  - intros d1 d2 d3 [Hn12 Hr12] [Hn23 Hr23]. split; [lia|]. intros id Hid.
    destruct (Hr23 id Hid) as [Hid2|]; [|right; lia]. destruct (Hr12 id Hid2) as [|]; [by left|right; lia].
  - intros d q Hq. split; [apply Hq|]. rewrite rows_seqs. auto.
  - intros d d' [Hn _]. split; [exact Hn|]. rewrite rows_seqs. auto.
Qed.

Lemma numbered_sequenced d d' : numbered d d' -> sequenced d -> sequenced d'.
Proof.
  intros [Hn Hr] [Hpos Hd]. split; [lia|]. intros id r Hid. destruct (Hr id) as [[r0 Hr0]|]; [by eexists| |lia].
  pose proof (Hd id r0 Hr0) as Hb. cbn beta in Hb. lia.
Qed.

(** Statements that add no row to the table: in the words of [evolve], one that may
    change rows at will but starts none. *)
Definition no_new_row : Database -> Database -> Prop := evolve (R := R) (fun _ _ => False) (fun _ _ => True).
#[export] Instance any_change_PreOrder : PreOrder (fun _ _ : R => True).
Proof. by split. Qed.
Lemma no_new_row_numbered d d' : no_new_row d d' -> sequences_advance (seqs d) (seqs d') -> numbered d d'.
Proof.
  intros [_ Hnew] Hq. split; [apply Hq|]. intros id [r Hr]. left.
  destruct (rows d !! id) as [r0|] eqn:E; [done|]. by destruct (Hnew id r Hr E) as (? & [] & _).
Qed.

Lemma insert_row_numbered mk constraints d now :
  numbered d (insert_row (R := R) mk constraints d now).2.
Proof.
  assert (numbered d (set_seqs (<[seq_name (R := R) := nextval (R := R) d + 1]> (seqs d)) d)) as Hseq
    by apply two_state_seqs, insert_advances.
  unfold insert_row. repeat case_match; simpl; try exact Hseq.
  destruct Hseq as [Hn _]. assert (forall v q, nextval (R := R) (set_rows v (set_seqs q d)) = default 1 (q !! seq_name (R := R))) as Hnext.
  { intros v q. unfold nextval. by rewrite seqs_set. }
  split; rewrite Hnext, lookup_insert_eq; simpl; [lia|].
  intros id. rewrite rows_set, lookup_insert_is_Some'. intros [<-|Hid]; [right; lia|by left].
Qed.
End table.

(** *** The three tables that executing a run works on *)
Ltac no_row := apply no_new_row_numbered; [|apply exec_advances].
Ltac frame_rows := cbn [exec]; apply evolve_same; [apply _|frame].

Lemma exec_numbers_runs st d now : numbered (R := AutomationRun) d (exec st d now).
Proof.
  destruct st; try solve [no_row; frame_rows].
  - cbn [exec]. unfold queue_run.
    repeat first [apply insert_row_numbered | case_match; simpl]; try reflexivity.
    apply two_state_seqs. exact (insert_advances (R := AutomationRun) d).
  - no_row. by apply claim_row_evolve; [apply _|].
  - no_row. by apply update_row_evolve; [apply _|].
  - no_row. by apply update_row_evolve; [apply _|].
  - no_row. by apply update_rows_evolve.
  - no_row. by apply update_row_evolve; [apply _|].
Qed.

Lemma exec_numbers_audit st d now : numbered (R := AuditEvent) d (exec st d now).
Proof.
  destruct st; try solve [no_row; frame_rows]. cbn [exec]. unfold insert_audit.
  case_match; [reflexivity|apply insert_row_numbered].
Qed.

Lemma exec_numbers_outbox st d now : numbered (R := OutboxMessage) d (exec st d now).
Proof.
  destruct st; try solve [no_row; frame_rows].
  - cbn [exec]. unfold insert_outbox. case_match; [reflexivity|apply insert_row_numbered].
  - no_row. by apply claim_row_evolve; [apply _|].
  - no_row. by apply update_row_evolve; [apply _|].
  - no_row. by apply update_row_evolve; [apply _|].
  - no_row. by apply update_row_evolve; [apply _|].
  - no_row. by apply update_row_evolve; [apply _|].
Qed.
End numbers.
