(* ===== verification/Analytics.v ===== *)
(** * analytics/analytics.go and service/analytics.go: summaries and buckets

    Durations become float64 hours and seconds as package [time] computes them;
    sums of float64 follow the order of the loops, and the loop over the map of
    [EnergyWh] takes the order of the devices as an argument. *)
From S2P Require Import Prelude Errors GoStd Model Store Telemetry.

(** ** From durations and floats to float64 and int *)
Definition Seconds (d : Duration) : float64 :=
  fadd (of_int (Z.quot d Second)) (fdiv (of_int (Z.rem d Second)) (of_int Second)).
Definition Hours (d : Duration) : float64 :=
  fadd (of_int (Z.quot d Hour)) (fdiv (of_int (Z.rem d Hour)) (of_int Hour)).

(** The integer below, and [int(math.Ceil(x))], [int(math.Round(x))]; [None] for the
    infinities and NaN, whose conversion Go leaves open. *)
Definition floor_int (x : float64) : option Z :=
  match x with
  | S754_zero _ => Some 0
  | S754_finite s m e =>
      let m := if s then Zneg m else Zpos m in
      Some (if 0 <=? e then m * 2 ^ e else m / 2 ^ (- e))
  | _ => None
  end.
Definition fopp (x : float64) : float64 := SFopp x.
Definition ceil_int (x : float64) : option Z := Z.opp <$> floor_int (fopp x).
(** Half away from zero. *)
Definition round_int (x : float64) : option Z :=
  match x with
  | S754_zero _ => Some 0
  | S754_finite s m e =>
      let n := if 0 <=? e then Zpos m * 2 ^ e else (2 * Zpos m + 2 ^ (- e)) / (2 * 2 ^ (- e)) in
      Some (if s then - n else n)
  | _ => None
  end.

(** ** Samples and their summary *)
Record Sample := mkSample { sm_DeviceID : Z; sm_At : Time; sm_Watts : float64; sm_Temperature : option float64 }.
Record Bucket := mkBucket {
  b_Start : Time; b_End : Time; b_Samples : Z; b_WattHours : float64; b_AverageWatts : float64;
  b_MinWatts : float64; b_MaxWatts : float64 }.
Record Summary := mkSummary {
  su_DeviceCount : Z; su_Samples : Z; su_WattHours : float64; su_PeakWatts : float64; su_AverageWatts : float64;
  su_First : Time; su_Last : Time }.

Section slice_sort.
Context `{SliceSort}.

(** The trapezoids between consecutive samples of one device. *)
Fixpoint trapezoids (total : float64) (l : list Sample) : float64 :=
  match l with
  | a :: ((b :: _) as rest) =>
      let duration := Hours (Sub (sm_At b) (sm_At a)) in
      let total := if fle duration f0 || flt (of_int 24) duration then total
                   else fadd total (fmul (fdiv (fadd (sm_Watts a) (sm_Watts b)) f2) duration) in
      trapezoids total rest
  | _ => total
  end.

(** [EnergyWh], visiting the devices in the given order. *)
Definition EnergyWh (order : list Z) (samples : list Sample) : float64 :=
  if (Z.of_nat (length samples) <? 2) then f0
  else fold_left (fun total device =>
         trapezoids total (sort_Slice (less_by sm_At) (List.filter (fun s => sm_DeviceID s =? device) samples)))
         order f0.

Definition devices_of (samples : list Sample) : gset Z := list_to_set (map sm_DeviceID samples).

Definition Summarize (order : list Z) (samples : list Sample) : Summary :=
  let ordered := sort_Slice (less_by sm_At) samples in
  match ordered with
  | [] => mkSummary 0 0 f0 f0 f0 zeroTime zeroTime
  | first :: _ =>
      let total := fold_left (fun acc s => fadd acc (sm_Watts s)) ordered f0 in
      let peak := fold_left (fun acc s => if flt acc (sm_Watts s) then sm_Watts s else acc) ordered f0 in
      mkSummary (Z.of_nat (size (devices_of ordered))) (Z.of_nat (length ordered)) (EnergyWh order ordered) peak
        (fdiv total (of_int (Z.of_nat (length ordered)))) (sm_At first) (sm_At (List.last ordered first))
  end.
End slice_sort.

(** ** [Bucketize] *)
Definition bucket_count (start end_ : Time) (step : Duration) : option Z :=
  ceil_int (fdiv (Seconds (Sub end_ start)) (Seconds step)).

(** The empty bucket number [i]. *)
Definition empty_bucket (start end_ : Time) (step : Duration) (i : nat) : Bucket :=
  let from := Add start (wrap64 (Z.of_nat i * step)) in
  let to := Add from step in
  mkBucket from (if After to end_ then end_ else to) 0 f0 f0 f0 f0.

Definition add_sample (s : Sample) (b : Bucket) : Bucket :=
  let n := b_Samples b + 1 in
  mkBucket (b_Start b) (b_End b) n (b_WattHours b) (fadd (b_AverageWatts b) (sm_Watts s))
    (if (n =? 1) || flt (sm_Watts s) (b_MinWatts b) then sm_Watts s else b_MinWatts b)
    (if flt (b_MaxWatts b) (sm_Watts s) then sm_Watts s else b_MaxWatts b).

Definition bucket_index (start : Time) (step : Duration) (s : Sample) : Z := Z.quot (Sub (sm_At s) start) step.

Definition put_sample (start end_ : Time) (step : Duration) (out : list Bucket) (s : Sample) : list Bucket :=
  if Before (sm_At s) start || negb (Before (sm_At s) end_) then out
  else
    let idx := bucket_index start step s in
    if (idx <? 0) || (Z.of_nat (length out) <=? idx) then out
    else alter (add_sample s) (Z.to_nat idx) out.

Definition finish_bucket (b : Bucket) : Bucket :=
  if 0 <? b_Samples b then
    let average := fdiv (b_AverageWatts b) (of_int (b_Samples b)) in
    mkBucket (b_Start b) (b_End b) (b_Samples b) (fmul average (Hours (Sub (b_End b) (b_Start b)))) average
      (b_MinWatts b) (b_MaxWatts b)
  else b.

(** A count that is not finite or negative makes [make] panic: [None]. *)
Definition Bucketize (samples : list Sample) (start end_ : Time) (step : Duration) : option (list Bucket) :=
  if (step <=? 0) || negb (Before start end_) then Some []
  else
    match bucket_count start end_ step with
    | Some count =>
        if count <? 0 then None
        else
          let out := map (empty_bucket start end_ step) (seq 0 (Z.to_nat count)) in
          Some (map finish_bucket (fold_left (put_sample start end_ step) samples out))
    | None => None
    end.

(** ** [Percentile]: [sort.Float64s] puts NaN first; [None] for an index out of range *)
Definition float_less (x y : float64) : bool := flt x y || IsNaN x && negb (IsNaN y).
Definition Percentile `{SliceSort} (values : list float64) (p : float64) : option float64 :=
  match values with
  | [] => Some f0
  | _ =>
      let p := if flt p f0 then f0 else p in
      let p := if flt f1 p then f1 else p in
      i ← round_int (fmul p (of_int (Z.of_nat (length values) - 1)));
      if i <? 0 then None else sort_Slice float_less values !! Z.to_nat i
  end.

(** ** service/analytics.go *)
Section service.
Context `{TelemetryRepository} `{SliceSort}.

Definition sample_of (row : Telemetry) : Sample :=
  mkSample (t_DeviceID row) (t_MeasuredAt row) (t_PowerWatts row) (t_TemperatureC row).
Definition plain_sample (row : Telemetry) : Sample :=
  mkSample (t_DeviceID row) (t_MeasuredAt row) (t_PowerWatts row) None.

Definition DeviceSummary (id : Z) (start end_ : Time) : M Summary :=
  rows ← TelemetryWindow id start end_;
  mret (Summarize [id] (map sample_of rows)).

Definition Buckets (id : Z) (start end_ : Time) (step : Duration) : M (option (list Bucket)) :=
  rows ← TelemetryWindow id start end_;
  mret (Bucketize (map plain_sample rows) start end_ step).
End service.

(** ** Counting *)
Definition sum_samples (l : list Bucket) : Z := fold_right (fun b n => b_Samples b + n) 0 l.

Lemma sum_samples_alter s i l : (i < length l)%nat -> sum_samples (alter (add_sample s) i l) = sum_samples l + 1.
Proof.
  revert i. induction l as [|b l IH]; intros [|i] Hi; simpl in Hi; try lia; [simpl; lia|].
  change (b_Samples b + sum_samples (alter (add_sample s) i l) = b_Samples b + sum_samples l + 1).
  rewrite IH; lia.
Qed.

Lemma length_put_sample start end_ step out s : length (put_sample start end_ step out s) = length out.
Proof. unfold put_sample. repeat case_match; rewrite ?length_alter; done. Qed.

Lemma sum_samples_finish l : sum_samples (map finish_bucket l) = sum_samples l.
Proof.
  induction l as [|b l IH]; simpl; [done|]. rewrite IH. unfold finish_bucket. by case_match.
Qed.

Lemma sum_samples_empty start end_ step n k : sum_samples (map (empty_bucket start end_ step) (seq k n)) = 0.
Proof. revert k. induction n as [|n IH]; intros k; simpl; [done|]. rewrite IH. done. Qed.

Definition in_period (start end_ : Time) (s : Sample) : bool := (start <=? sm_At s) && (sm_At s <? end_).

Lemma put_sample_count start end_ step out s :
  0 < step -> end_ - start <= int64_max -> (end_ - start + step - 1) / step <= Z.of_nat (length out) ->
  sum_samples (put_sample start end_ step out s) =
  sum_samples out + (if in_period start end_ s then 1 else 0).
Proof.
  intros Hstep Hmax Hlen. unfold put_sample, in_period, Before, bucket_index.
  destruct (sm_At s <? start) eqn:Hlo; bsimp; [rewrite (proj2 (Z.leb_gt start (sm_At s))) by done; simpl; lia|].
  rewrite (proj2 (Z.leb_le start (sm_At s))) by done.
  destruct (sm_At s <? end_) eqn:Hhi; bsimp; simpl; [|lia].
  rewrite Sub_small by (unfold is_int64, int64_min, int64_max, Time in *; lia).
  rewrite Z.quot_div_nonneg by (unfold Time in *; lia).
  assert (0 <= (sm_At s - start) / step) by (apply Z.div_pos; unfold Time in *; lia).
  assert ((sm_At s - start) / step < (end_ - start + step - 1) / step).
  { assert ((sm_At s - start) / step + 1 <= (end_ - start + step - 1) / step); [|lia].
    rewrite <-Z.div_add by lia. apply Z.div_le_mono; unfold Time in *; lia. }
  rewrite (proj2 (Z.ltb_ge _ _)), (proj2 (Z.leb_gt _ _)) by lia. simpl.
  apply sum_samples_alter. lia.
Qed.

Lemma put_samples_count start end_ step samples out :
  0 < step -> end_ - start <= int64_max -> (end_ - start + step - 1) / step <= Z.of_nat (length out) ->
  sum_samples (fold_left (put_sample start end_ step) samples out) =
  sum_samples out + Z.of_nat (length (List.filter (in_period start end_) samples)) /\
  length (fold_left (put_sample start end_ step) samples out) = length out.
Proof.
  intros Hs Hm. revert out. induction samples as [|s l IH]; simpl; intros out Hlen; [lia|].
  destruct (IH (put_sample start end_ step out s)) as [-> ->]; [by rewrite length_put_sample|].
  rewrite length_put_sample, put_sample_count by done. destruct (in_period start end_ s); simpl; lia.
Qed.

(** ** Properties *)

(** Nothing is lost or counted twice: when the count of buckets covers the period,
    every sample of the period is in exactly one of them, and samples outside it are
    in none. *)
Theorem Bucketize_counts_once samples start end_ step n :
  0 < step -> start < end_ -> end_ - start <= int64_max ->
  bucket_count start end_ step = Some n -> (end_ - start + step - 1) / step <= n ->
  exists out, Bucketize samples start end_ step = Some out /\ Z.of_nat (length out) = n /\
    sum_samples out = Z.of_nat (length (List.filter (in_period start end_) samples)).
Proof.
  intros Hs Hlt Hm Hn Hcover. unfold Bucketize, Before.
  rewrite (proj2 (Z.leb_gt _ _) Hs), (proj2 (Z.ltb_lt _ _) Hlt), Hn. simpl.
  assert (0 <= (end_ - start + step - 1) / step) by (apply Z.div_pos; unfold Time, Duration in *; lia).
  rewrite (proj2 (Z.ltb_ge n 0)) by lia. eexists. split; [done|].
  destruct (put_samples_count start end_ step samples (map (empty_bucket start end_ step) (seq 0 (Z.to_nat n))))
    as [Hsum Hlen]; [done|done|by rewrite length_map, length_seq, Z2Nat.id by lia|].
  rewrite sum_samples_finish, Hsum, sum_samples_empty, length_map, Hlen, length_map, length_seq, Z2Nat.id by lia. lia.
Qed.

(** Dividing float64 seconds can exceed the exact quotient: a period of 70
    milliseconds in steps of 10 gets an eighth bucket, which is empty. *)
Lemma Bucketize_extra_bucket :
  let start := Second in let end_ := Second + 70 * Millisecond in
  exists out b, Bucketize [] start end_ (10 * Millisecond) = Some out /\
    length out = 8%nat /\ (end_ - start) / (10 * Millisecond) = 7 /\
    out !! 7%nat = Some b /\ b_Start b = end_ /\ b_End b = end_.
Proof. eexists _, _. split_and!; vm_compute; reflexivity. Qed.

Lemma Bucketize_counts_once_witness :
  let sample t w := mkSample 3 t w None in
  let samples := [sample (Hour + 5) f1; sample (2 * Hour) f2; sample (3 * Hour) f1] in
  exists out, Bucketize samples Hour (3 * Hour) Hour = Some out /\ length out = 2%nat /\ sum_samples out = 2.
Proof.
  intros sample samples.
  destruct (Bucketize_counts_once samples Hour (3 * Hour) Hour 2) as (out & Hout & Hlen & Hsum);
    [done|done|by vm_compute|by vm_compute|by vm_compute|].
  exists out. split; [done|]. split; [lia|]. rewrite Hsum. vm_compute; reflexivity.
Defined.
