(* ===== verification/Circuit.v ===== *)
(** * integration/circuit.go: the circuit breaker

    The critical sections of [Call] and [State] as functions on the breaker's
    fields, the whole call as their composition around the callback, and the
    interleavings of concurrent callers as a step relation ([circuit_step]).  A
    callback may panic; the deferred function then only releases the probe. *)
From S2P Require Import Prelude Errors GoStd.

Inductive CircuitState := CircuitClosed | CircuitOpen | CircuitHalfOpen.
#[export] Instance CircuitState_eq_dec : EqDecision CircuitState.
Proof. solve_decision. Defined.

Record Circuit := mkCircuit {
  c_state : CircuitState; c_failures : Z; c_threshold : Z; c_openedAt : Time;
  c_reopenAfter : Duration; c_probeActive : bool }.

Definition NewCircuit (threshold : Z) (reopenAfter : Duration) : Circuit :=
  let threshold := if threshold <? 1 then 3 else threshold in
  let reopenAfter := if reopenAfter <=? 0 then Second else reopenAfter in
  mkCircuit CircuitClosed 0 threshold zeroTime reopenAfter false.

Definition set_circuit_state (st : CircuitState) (c : Circuit) : Circuit :=
  mkCircuit st (c_failures c) (c_threshold c) (c_openedAt c) (c_reopenAfter c) (c_probeActive c).
Definition set_probe (b : bool) (c : Circuit) : Circuit :=
  mkCircuit (c_state c) (c_failures c) (c_threshold c) (c_openedAt c) (c_reopenAfter c) b.

(** The body both [State] and [Call] start with. *)
Definition reopen (now : Time) (c : Circuit) : Circuit :=
  if bool_decide (c_state c = CircuitOpen) && negb (Before now (Add (c_openedAt c) (c_reopenAfter c)))
  then set_circuit_state CircuitHalfOpen c else c.

(** [Circuit.State]. *)
Definition State (now : Time) (c : Circuit) : CircuitState * Circuit :=
  let c := reopen now c in (c_state c, c).

(** ** [Circuit.Call]

    The first critical section: the state the call goes ahead in, or its error. *)
Definition admit_call (now : Time) (c : Circuit) : result CircuitState * Circuit :=
  let c := reopen now c in
  match c_state c with
  | CircuitOpen => (Fail (New "circuit is open"), c)
  | CircuitHalfOpen =>
      if c_probeActive c then (Fail (New "circuit probe is already active"), c)
      else (Ok CircuitHalfOpen, set_probe true c)
  | CircuitClosed => (Ok CircuitClosed, c)
  end.

Definition release_probe (state : CircuitState) (c : Circuit) : Circuit :=
  if bool_decide (state = CircuitHalfOpen) then set_probe false c else c.

(** The second critical section, after the callback returned [err]. *)
Definition settle_call (state : CircuitState) (now : Time) (err : option error) (c : Circuit) : Circuit :=
  let c := release_probe state c in
  match err with
  | None => mkCircuit CircuitClosed 0 (c_threshold c) (c_openedAt c) (c_reopenAfter c) (c_probeActive c)
  | Some e =>
      if is_ctx_error e then c
      else
        let failures := wrap64 (c_failures c + 1) in
        if bool_decide (c_state c = CircuitHalfOpen) || (c_threshold c <=? failures)
        then mkCircuit CircuitOpen failures (c_threshold c) now (c_reopenAfter c) (c_probeActive c)
        else mkCircuit (c_state c) failures (c_threshold c) (c_openedAt c) (c_reopenAfter c) (c_probeActive c)
  end.

(** How a callback ends. *)
Inductive callback := Returns (err : option error) | Panics.

Definition finish_call (state : CircuitState) (now : Time) (fn : callback) (c : Circuit) : Circuit :=
  match fn with
  | Returns err => settle_call state now err c
  | Panics => release_probe state c
  end.

(** One call with nobody else about: [None] for the callback stands for the nil
    function.  The result is [Fail] when the callback did not run. *)
Definition Call (ctx : Ctx) (now : Time) (fn : option callback) (c : Circuit) : result callback * Circuit :=
  match ctx_Err ctx, fn with
  | Some e, _ => (Fail e, c)
  | None, None => (Fail (New "circuit callback is required"), c)
  | None, Some fn =>
      match admit_call now c with
      | (Fail e, c) => (Fail e, c)
      | (Ok state, c) => (Ok fn, finish_call state now fn c)
      end
  end.

(** ** Concurrent callers

    The calls whose callback is running, by caller. *)
Record CircuitSystem := mkCircuitSystem { cs_circuit : Circuit; cs_calls : gmap nat (CircuitState * Time) }.

Inductive circuit_step : CircuitSystem -> CircuitSystem -> Prop :=
| step_state now c calls : circuit_step (mkCircuitSystem c calls) (mkCircuitSystem (State now c).2 calls)
| step_reject now c calls e c' :
    admit_call now c = (Fail e, c') -> circuit_step (mkCircuitSystem c calls) (mkCircuitSystem c' calls)
| step_admit k now c calls st c' :
    calls !! k = None -> admit_call now c = (Ok st, c') ->
    circuit_step (mkCircuitSystem c calls) (mkCircuitSystem c' (<[k := (st, now)]> calls))
| step_finish k st now fn c calls :
    calls !! k = Some (st, now) ->
    circuit_step (mkCircuitSystem c calls) (mkCircuitSystem (finish_call st now fn c) (delete k calls)).

Definition probes (s : CircuitSystem) : gmap nat (CircuitState * Time) :=
  filter (fun kv => kv.2.1 = CircuitHalfOpen) (cs_calls s).

(** The probes in flight are the one [probeActive] announces. *)
Definition probe_inv (s : CircuitSystem) : Prop :=
  size (probes s) = if c_probeActive (cs_circuit s) then 1%nat else 0%nat.

Lemma reopen_probe now c : c_probeActive (reopen now c) = c_probeActive c.
Proof. unfold reopen. by case_match. Qed.

Lemma admit_call_probe now c :
  match admit_call now c with
  | (Ok CircuitHalfOpen, c') => c_probeActive c = false /\ c_probeActive c' = true
  | (_, c') => c_probeActive c' = c_probeActive c
  end.
Proof.
  unfold admit_call. rewrite <-(reopen_probe now c).
  destruct (c_state (reopen now c)); simpl; [done|done|].
  by destruct (c_probeActive (reopen now c)) eqn:E.
Qed.

Lemma finish_call_probe st now fn c :
  c_probeActive (finish_call st now fn c) = negb (bool_decide (st = CircuitHalfOpen)) && c_probeActive c.
Proof.
  unfold finish_call, settle_call, release_probe. by repeat (case_match; simpl).
Qed.

Lemma probe_inv_step s s' : circuit_step s s' -> probe_inv s -> probe_inv s'.
Proof.
  unfold probe_inv, probes.
  destruct 1 as [now c calls|now c calls e c' Ha|k now c calls st c' Hk Ha|k st now fn c calls Hk];
    simpl; intros Hinv; [by rewrite reopen_probe| | |].
  - pose proof (admit_call_probe now c) as Hp. rewrite Ha in Hp. by rewrite Hp.
  - pose proof (admit_call_probe now c) as Hp. rewrite Ha in Hp.
    destruct st; [|by unfold admit_call in Ha; repeat case_match|].
    + rewrite map_filter_insert_not' by (done || by rewrite Hk). by rewrite Hp.
    + destruct Hp as [Hc ->]. rewrite map_filter_insert_True by done.
      rewrite map_size_insert_None by (apply map_lookup_filter_None; by left).
      rewrite Hinv, Hc. done.
  - rewrite finish_call_probe. rewrite map_filter_delete. case_bool_decide as Hst; simpl.
    + rewrite map_size_delete_Some.
      * rewrite Hinv. by destruct (c_probeActive c).
      * exists (st, now). by apply map_lookup_filter_Some.
    + rewrite map_size_delete_None; [done|]. apply map_lookup_filter_None. right. naive_solver.
Qed.

(** ** A breaker used by one caller after another *)
Definition call_all (calls : list (Time * callback)) (c : Circuit) : Circuit :=
  fold_left (fun c '(now, fn) => (Call Live now (Some fn) c).2) calls c.

Definition counts_failure (call : Time * callback) : Prop :=
  match call.2 with Returns (Some e) => is_ctx_error e = false | _ => False end.

(** A failure counted while closed. *)
Lemma Call_closed_failure now e n threshold opened r :
  is_ctx_error e = false -> 0 <= n < int64_max ->
  (Call Live now (Some (Returns (Some e))) (mkCircuit CircuitClosed n threshold opened r false)).2 =
  if threshold <=? n + 1 then mkCircuit CircuitOpen (n + 1) threshold now r false
  else mkCircuit CircuitClosed (n + 1) threshold opened r false.
Proof.
  intros He Hn. unfold Call; simpl. rewrite He, wrap64_small by (unfold is_int64, int64_min; lia).
  by destruct (threshold <=? n + 1).
Qed.

Lemma failures_accumulate calls n threshold opened r :
  Forall counts_failure calls -> 0 <= n -> threshold <= int64_max -> n + Z.of_nat (length calls) < threshold ->
  call_all calls (mkCircuit CircuitClosed n threshold opened r false) =
  mkCircuit CircuitClosed (n + Z.of_nat (length calls)) threshold opened r false.
Proof.
  intros Hf. revert n. induction Hf as [|[now [[e|]|]] calls He _ IH];
    cbn [length]; intros n Hn Ht Hlt; try done.
  - simpl. f_equal; lia.
  - unfold call_all. cbn [fold_left]. fold (call_all calls). rewrite (Call_closed_failure now e n) by (done || lia).
    rewrite (proj2 (Z.leb_gt _ _)) by lia. rewrite IH by lia. f_equal; lia.
Qed.

Lemma reopen_open now n threshold opened r :
  reopen now (mkCircuit CircuitOpen n threshold opened r false) =
  mkCircuit (if Before now (Add opened r) then CircuitOpen else CircuitHalfOpen) n threshold opened r false.
Proof. unfold reopen; simpl. by destruct (Before _ _). Qed.

(** ** Properties *)

(** C19: however callers interleave, with callbacks that fail, succeed late or panic,
    at most one probe runs at a time, and the breaker refuses probes only while one
    does. *)
Theorem one_probe threshold reopenAfter s :
  rtc circuit_step (mkCircuitSystem (NewCircuit threshold reopenAfter) ∅) s ->
  (size (probes s) <= 1)%nat /\ (c_probeActive (cs_circuit s) = true <-> exists k t, cs_calls s !! k = Some (CircuitHalfOpen, t)).
Proof.
  intros Hs.
  assert (probe_inv s) as Hinv.
  { refine (rtc_ind_r (fun s => probe_inv s) _ _ _ s Hs); [done|].
    intros. by eapply probe_inv_step. }
  unfold probe_inv in Hinv. split; [destruct (c_probeActive (cs_circuit s)); lia|]. split.
  - intros E. rewrite E in Hinv. destruct (map_choose (probes s)) as (k & [st t] & Hk).
    { intros Hemp. by rewrite Hemp, map_size_empty in Hinv. }
    apply map_lookup_filter_Some in Hk as [Hk Hst]. simpl in Hst. subst st. by exists k, t.
  - intros (k & t & Hk). destruct (c_probeActive (cs_circuit s)); [done|].
    apply map_size_empty_iff in Hinv. exfalso.
    assert (probes s !! k = Some (CircuitHalfOpen, t)) as Hp by by apply map_lookup_filter_Some.
    by rewrite Hinv in Hp.
Qed.

(** C20: the breaker trips on exactly the threshold-th failure in a row, remembering
    when; until the reopening time it refuses every call, leaving everything as it
    is; from then on it lets a probe through, whose success closes it with a clean
    count and whose failure opens it again from that moment. *)
Theorem circuit_protocol threshold reopenAfter calls last e fn now :
  let c0 := NewCircuit threshold reopenAfter in
  let n := c_threshold c0 in let r := c_reopenAfter c0 in
  threshold <= int64_max -> Forall counts_failure calls -> Z.of_nat (length calls) = n - 1 ->
  is_ctx_error e = false ->
  c_state (call_all calls c0) = CircuitClosed /\
  let c1 := (Call Live last (Some (Returns (Some e))) (call_all calls c0)).2 in
  c1 = mkCircuit CircuitOpen n n last r false /\
  if now <? last + r then Call Live now (Some fn) c1 = (Fail (New "circuit is open"), c1)
  else Call Live now (Some (Returns None)) c1 = (Ok (Returns None), mkCircuit CircuitClosed 0 n last r false) /\
       c_state (Call Live now (Some (Returns (Some e))) c1).2 = CircuitOpen /\
       c_openedAt (Call Live now (Some (Returns (Some e))) c1).2 = now.
Proof.
  intros c0 n r Ht Hf Hlen He.
  assert (0 < n <= int64_max) as Hn.
  { unfold n, c0, NewCircuit; simpl. destruct (threshold <? 1) eqn:E; bsimp; [unfold int64_max|]; lia. }
  assert (call_all calls c0 = mkCircuit CircuitClosed (n - 1) n zeroTime r false) as ->.
  { change c0 with (mkCircuit CircuitClosed 0 n zeroTime r false). rewrite failures_accumulate by (done || lia).
    f_equal; lia. }
  split; [done|]. cbv zeta. rewrite Call_closed_failure by (done || lia).
  rewrite Z.sub_add, Z.leb_refl. split; [done|].
  unfold Call, admit_call; simpl. rewrite reopen_open. fold (Before now (last + r)). unfold Add.
  destruct (Before now (last + r)); simpl; [done|]. by rewrite He.
Qed.

(** A call that went ahead while the breaker was closed and succeeds late closes it
    again, at once, although other calls have tripped it in between. *)
Lemma late_success_closes :
  let failure := Returns (Some (New "down")) in
  let s0 := mkCircuitSystem (NewCircuit 1 (10 * Second)) ∅ in
  exists s1 s2, rtc circuit_step s0 s1 /\ c_state (cs_circuit s1) = CircuitOpen /\ c_openedAt (cs_circuit s1) = 7 /\
    circuit_step s1 s2 /\ c_state (cs_circuit s2) = CircuitClosed.
Proof.
  intros failure s0.
  set (c := NewCircuit 1 (10 * Second)).
  exists (mkCircuitSystem (finish_call CircuitClosed 7 failure c) {[1%nat := (CircuitClosed, 5)]}),
    (mkCircuitSystem (finish_call CircuitClosed 5 (Returns None) (finish_call CircuitClosed 7 failure c)) ∅).
  split_and!; try done.
  - eapply rtc_l; [by apply (step_admit 1 5 c ∅ CircuitClosed c)|].
    eapply rtc_l; [by apply (step_admit 2 7 c _ CircuitClosed c)|].
    eapply rtc_l; [|apply rtc_refl].
    refine (step_finish 2 CircuitClosed 7 failure c {[2%nat := (CircuitClosed, 7); 1%nat := (CircuitClosed, 5)]} _). done.
  - refine (step_finish 1 CircuitClosed 5 (Returns None) _ {[1%nat := (CircuitClosed, 5)]} _). done.
Qed.

(** ** Witnesses *)
Lemma one_probe_witness :
  let c := mkCircuit CircuitHalfOpen 1 1 5 Second true in
  let s := mkCircuitSystem c {[2%nat := (CircuitHalfOpen, 5 + Second)]} in
  (size (probes s) <= 1)%nat.
Proof.
  intros c s. refine (proj1 (one_probe 1 Second s _)).
  set (c0 := NewCircuit 1 Second).
  eapply rtc_l; [apply (step_admit 1 5 c0 ∅ CircuitClosed c0); reflexivity|].
  eapply rtc_l; [apply (step_finish 1 CircuitClosed 5 (Returns (Some (New "down"))) c0); reflexivity|].
  eapply rtc_l; [|apply rtc_refl].
  apply (step_admit 2 (5 + Second) (mkCircuit CircuitOpen 1 1 5 Second false) ∅ CircuitHalfOpen c); reflexivity.
Defined.

Lemma circuit_protocol_witness :
  let c0 := NewCircuit 2 Second in
  let c1 := mkCircuit CircuitOpen 2 2 9 Second false in
  call_all [(4, Returns (Some (New "down"))); (9, Returns (Some (New "down")))] c0 = c1 /\
  Call Live 10 (Some (Returns None)) c1 = (Fail (New "circuit is open"), c1) /\
  (Call Live (9 + Second) (Some (Returns None)) c1).2 = mkCircuit CircuitClosed 0 2 9 Second false.
Proof.
  intros c0 c1.
  pose proof (fun now => circuit_protocol 2 Second [(4, Returns (Some (New "down")))] 9 (New "down") (Returns None) now
    ltac:(done) ltac:(by repeat constructor) eq_refl eq_refl) as H.
  split; [exact (proj1 (proj2 (H 10)))|]. split; [exact (proj2 (proj2 (H 10)))|].
  exact (f_equal snd (proj1 (proj2 (proj2 (H (9 + Second)))))).
Defined.
