(* ===== verification/Gateway.v ===== *)
(** * integration/integration.go: the idempotent command dispatcher

    The critical sections of [Dispatcher.Dispatch] as functions on its maps, with the
    [dispatchCall] objects of the callers that share one command in a store of their
    own; the interleavings of concurrent callers as a step relation
    ([gateway_step]) that also records what was sent, answered and forgotten. *)
From S2P Require Import Prelude Errors GoStd Model.

Record Result := mkGatewayResult { gr_ID : string; gr_Accepted : bool; gr_Error : string; gr_At : Time }.
Record dispatchCall := mkDispatchCall { dc_fingerprint : string; dc_result : option Result }.
Record Dispatcher := mkDispatcher {
  gd_Results : gmap string Result; gd_fingerprints : gmap string string; gd_inflight : gmap string nat;
  gd_Timeout : Duration }.

Definition NewDispatcher : Dispatcher := mkDispatcher ∅ ∅ ∅ (5 * Second).

(** [EncodeCommand]; a nil payload is [JNull]. *)
Definition command_json (id action : string) (payload : json) : json :=
  JObject [("action"%string, JString action); ("id"%string, JString id); ("payload"%string, payload)].
Definition EncodeCommand `{JSONText} (id action : string) (payload : json) : result string :=
  match Marshal_error (command_json id action payload) with
  | Some e => Fail e
  | None => Ok (json_text (command_json id action payload))
  end.

(** ** [Dispatcher.Dispatch]: the first critical section

    A call that starts a command is the [dispatchCall] at the fresh place [p]. *)
Inductive admission :=
| Replayed (previous : Result)
| Reused
| Joined (call : nat)
| Started.

Definition enter (id fingerprint : string) (p : nat) (calls : gmap nat dispatchCall) (d : Dispatcher)
    : admission * Dispatcher :=
  match gd_Results d !! id with
  | Some previous =>
      if bool_decide (default "" (gd_fingerprints d !! id) = fingerprint)
      then (Replayed previous, d) else (Reused, d)
  | None =>
      match gd_inflight d !! id with
      | Some call =>
          if bool_decide ((dc_fingerprint <$> calls !! call) = Some fingerprint)
          then (Joined call, d) else (Reused, d)
      | None =>
          (Started, mkDispatcher (gd_Results d) (gd_fingerprints d) (<[id := p]> (gd_inflight d)) (gd_Timeout d))
      end
  end.

(** The deadline the gateway gets. *)
Definition call_timeout (d : Dispatcher) : Duration :=
  if gd_Timeout d <=? 0 then 5 * Second else gd_Timeout d.

(** What the gateway's answer at [now] becomes. *)
Definition command_result (id : string) (answer : option error) (now : Time) : Result :=
  match answer with
  | None => mkGatewayResult id true "" now
  | Some e => mkGatewayResult id false (Error e) now
  end.

(** The last critical section. *)
Definition record_result (id fingerprint : string) (r : Result) (d : Dispatcher) : Dispatcher :=
  mkDispatcher (<[id := r]> (gd_Results d)) (<[id := fingerprint]> (gd_fingerprints d))
    (delete id (gd_inflight d)) (gd_Timeout d).

Definition reused_text : string := "idempotency key was reused with a different command".
Definition rejected_result (id text : string) (now : Time) : Result := mkGatewayResult id false text now.

(** [Dispatcher.Forget]. *)
Definition Forget (id : string) (d : Dispatcher) : Dispatcher :=
  mkDispatcher (delete id (gd_Results d)) (delete id (gd_fingerprints d)) (gd_inflight d) (gd_Timeout d).

(** *** One caller with nobody else about: the reply and whether the gateway was
    asked.  [gateway] is [None] when it is not configured. *)
Definition Dispatch `{JSONText} (gateway : option (Duration -> string -> string -> json -> option error))
    (id action : string) (payload : json) (now : Time) (d : Dispatcher) : Result * bool * Dispatcher :=
  match gateway with
  | None => (rejected_result id "dispatcher request is incomplete" now, false, d)
  | Some command =>
      if bool_decide (id = "") || bool_decide (action = "")
      then (rejected_result id "dispatcher request is incomplete" now, false, d)
      else match EncodeCommand id action payload with
           | Fail e => (rejected_result id (Error e) now, false, d)
           | Ok fingerprint =>
               match enter id fingerprint 0 ∅ d with
               | (Replayed previous, d) => (previous, false, d)
               | (Started, d) =>
                   let r := command_result id (command (call_timeout d) id action payload) now in
                   (r, true, record_result id fingerprint r d)
               | (_, d) => (rejected_result id reused_text now, false, d)
               end
           end
  end.

(** ** Health of a gateway *)
Record HealthSnapshot := mkHealthSnapshot { hs_DeviceID : string; hs_Healthy : bool; hs_Error : string; hs_CheckedAt : Time }.

Definition CheckGateway (gateway : option (string -> option error)) (id : string) (now : Time) : HealthSnapshot :=
  match gateway with
  | None => mkHealthSnapshot id false "gateway check is not configured" now
  | Some health =>
      if bool_decide (id = "") then mkHealthSnapshot id false "gateway check is not configured" now
      else let err := health id in
           mkHealthSnapshot id (bool_decide (err = None)) (errorString err) now
  end.

Definition IsTransient (e : error) : bool := is_ctx_error e.

(** ** Concurrent callers

    [gs_running] holds the callers waiting for the gateway, by the place of their
    call object; [gs_waiting] those that joined another's command; the three logs
    record the commands sent, the answers given and the identifiers forgotten. *)
Record GatewaySystem := mkGatewaySystem {
  gs_d : Dispatcher;
  gs_calls : gmap nat dispatchCall;
  gs_running : gmap nat (string * string);
  gs_waiting : gmap nat (string * string * nat);
  gs_sent : list string;
  gs_answers : list (string * string * Result);
  gs_forgotten : list string }.

Definition gateway_start : GatewaySystem := mkGatewaySystem NewDispatcher ∅ ∅ ∅ [] [] [].

Inductive gateway_step : GatewaySystem -> GatewaySystem -> Prop :=
| step_replay id fp p r d d' calls running waiting sent answers forgotten :
    enter id fp p calls d = (Replayed r, d') ->
    gateway_step (mkGatewaySystem d calls running waiting sent answers forgotten)
                 (mkGatewaySystem d' calls running waiting sent ((id, fp, r) :: answers) forgotten)
| step_reused id fp p d d' calls running waiting sent answers forgotten :
    enter id fp p calls d = (Reused, d') ->
    gateway_step (mkGatewaySystem d calls running waiting sent answers forgotten)
                 (mkGatewaySystem d' calls running waiting sent answers forgotten)
| step_join id fp p k q d d' calls running waiting sent answers forgotten :
    enter id fp p calls d = (Joined q, d') -> waiting !! k = None ->
    gateway_step (mkGatewaySystem d calls running waiting sent answers forgotten)
                 (mkGatewaySystem d' calls running (<[k := (id, fp, q)]> waiting) sent answers forgotten)
| step_start id fp p d d' calls running waiting sent answers forgotten :
    calls !! p = None -> enter id fp p calls d = (Started, d') ->
    gateway_step (mkGatewaySystem d calls running waiting sent answers forgotten)
                 (mkGatewaySystem d' (<[p := mkDispatchCall fp None]> calls) (<[p := (id, fp)]> running) waiting
                    (id :: sent) answers forgotten)
| step_answer p id fp answer now d calls running waiting sent answers forgotten :
    running !! p = Some (id, fp) ->
    let r := command_result id answer now in
    gateway_step (mkGatewaySystem d calls running waiting sent answers forgotten)
                 (mkGatewaySystem (record_result id fp r d) (<[p := mkDispatchCall fp (Some r)]> calls)
                    (delete p running) waiting sent ((id, fp, r) :: answers) forgotten)
| step_panic p d calls running waiting sent answers forgotten :
    gateway_step (mkGatewaySystem d calls running waiting sent answers forgotten)
                 (mkGatewaySystem d calls (delete p running) waiting sent answers forgotten)
| step_woken k id fp q c r d calls running waiting sent answers forgotten :
    waiting !! k = Some (id, fp, q) -> calls !! q = Some c -> dc_result c = Some r ->
    gateway_step (mkGatewaySystem d calls running waiting sent answers forgotten)
                 (mkGatewaySystem d calls running (delete k waiting) sent ((id, fp, r) :: answers) forgotten)
| step_gave_up k d calls running waiting sent answers forgotten :
    gateway_step (mkGatewaySystem d calls running waiting sent answers forgotten)
                 (mkGatewaySystem d calls running (delete k waiting) sent answers forgotten)
| step_forget id d calls running waiting sent answers forgotten :
    gateway_step (mkGatewaySystem d calls running waiting sent answers forgotten)
                 (mkGatewaySystem (Forget id d) calls running waiting sent answers (id :: forgotten)).

(** ** The invariant *)
Definition times (id : string) (l : list string) : nat := length (filter (.= id) l).
Definition busy (id : string) (d : Dispatcher) : nat :=
  match gd_Results d !! id, gd_inflight d !! id with None, None => 0%nat | _, _ => 1%nat end.
(** The recorded answer of an identifier never forgotten. *)
Definition recorded (s : GatewaySystem) (id fp : string) (r : Result) : Prop :=
  ~ (id ∈ gs_forgotten s) -> gd_Results (gs_d s) !! id = Some r /\ gd_fingerprints (gs_d s) !! id = Some fp.

Record gateway_inv (s : GatewaySystem) : Prop := {
  inv_inflight id p : gd_inflight (gs_d s) !! id = Some p ->
    gd_Results (gs_d s) !! id = None /\ exists fp, gs_calls s !! p = Some (mkDispatchCall fp None);
  inv_unshared id id' p :
    gd_inflight (gs_d s) !! id = Some p -> gd_inflight (gs_d s) !! id' = Some p -> id = id';
  inv_running p id fp : gs_running s !! p = Some (id, fp) ->
    gd_inflight (gs_d s) !! id = Some p /\ gs_calls s !! p = Some (mkDispatchCall fp None);
  inv_waiting k id fp p : gs_waiting s !! k = Some (id, fp, p) ->
    exists r, gs_calls s !! p = Some (mkDispatchCall fp r) /\
      match r with
      | None => gd_inflight (gs_d s) !! id = Some p
      | Some r => recorded s id fp r
      end;
  inv_answers id fp r : (id, fp, r) ∈ gs_answers s -> recorded s id fp r;
  inv_count id : (times id (gs_sent s) <= times id (gs_forgotten s) + busy id (gs_d s))%nat
}.

Lemma times_cons id x l : times id (x :: l) = ((if bool_decide (x = id) then 1 else 0) + times id l)%nat.
Proof. unfold times. rewrite filter_cons. by repeat (case_decide || case_bool_decide). Qed.

(** What an admission says of the maps. *)
Lemma admit_cases id fp p calls d a d' : enter id fp p calls d = (a, d') ->
  match a with
  | Replayed r => d' = d /\ gd_Results d !! id = Some r /\ default "" (gd_fingerprints d !! id) = fp
  | Reused => d' = d
  | Joined q => d' = d /\ gd_Results d !! id = None /\ gd_inflight d !! id = Some q /\
                (dc_fingerprint <$> calls !! q) = Some fp
  | Started => gd_Results d !! id = None /\ gd_inflight d !! id = None /\
               d' = mkDispatcher (gd_Results d) (gd_fingerprints d) (<[id := p]> (gd_inflight d)) (gd_Timeout d)
  end.
Proof. unfold enter. intros H. repeat case_match; simplify_eq; bsimp; split_and?; done. Qed.

(** The fingerprints are kept for the same identifiers as the results. *)
Definition fingerprinted (s : GatewaySystem) : Prop :=
  forall id r, gd_Results (gs_d s) !! id = Some r -> is_Some (gd_fingerprints (gs_d s) !! id).

Lemma fingerprinted_step s s' : gateway_step s s' -> fingerprinted s -> fingerprinted s'.
Proof.
  unfold fingerprinted. destruct 1; simpl; intros Hf id' r' Hr;
    try match goal with H : enter _ _ _ _ _ = _ |- _ => apply admit_cases in H; simpl in H; destruct_and? end;
    subst; eauto.
  - destruct (decide (id = id')) as [->|]; [by rewrite lookup_insert_eq|].
    rewrite lookup_insert_ne by done. rewrite lookup_insert_ne in Hr by done. eauto.
  - destruct (decide (id = id')) as [->|]; [by rewrite lookup_delete_eq in Hr|].
    rewrite lookup_delete_ne by done. rewrite lookup_delete_ne in Hr by done. eauto.
Qed.

Lemma inv_start id fp p d calls running waiting sent answers forgotten :
  calls !! p = None -> gd_Results d !! id = None -> gd_inflight d !! id = None ->
  gateway_inv (mkGatewaySystem d calls running waiting sent answers forgotten) ->
  gateway_inv (mkGatewaySystem
    (mkDispatcher (gd_Results d) (gd_fingerprints d) (<[id := p]> (gd_inflight d)) (gd_Timeout d))
    (<[p := mkDispatchCall fp None]> calls) (<[p := (id, fp)]> running) waiting (id :: sent) answers forgotten).
Proof.
  intros Hp Hres Hin Hinv.
  assert (forall id' q, gd_inflight d !! id' = Some q -> q <> p) as Hold.
  { intros id' q Hq ->. destruct (inv_inflight _ Hinv id' p Hq) as (_ & ? & Hc). simpl in Hc. congruence. }
  split; simpl.
  - intros id' q. destruct (decide (id = id')) as [->|].
    + rewrite lookup_insert_eq. intros [= <-]. rewrite lookup_insert_eq. eauto.
    + rewrite lookup_insert_ne by done. intros Hq. rewrite lookup_insert_ne by (intros ->; by eapply Hold).
      by apply (inv_inflight _ Hinv).
  - intros id1 id2 q. rewrite !lookup_insert_Some.
    intros [[<- <-]|[_ H1]] [[<- ?]|[_ H2]]; subst; try done; [by apply Hold in H2|by apply Hold in H1|].
    by apply (inv_unshared _ Hinv id1 id2 q).
  - intros q id' fp'. rewrite lookup_insert_Some. intros [[<- [= <- <-]]|[? Hr]]; [by rewrite !lookup_insert_eq|].
    destruct (inv_running _ Hinv q id' fp' Hr) as [Hq Hc]. simpl in *.
    rewrite !lookup_insert_ne by (done || congruence). done.
  - intros k id' fp' q Hk. destruct (inv_waiting _ Hinv k id' fp' q Hk) as (r & Hc & Hr). simpl in *.
    assert (q <> p) by congruence. exists r. rewrite lookup_insert_ne by done. split; [done|].
    destruct r; [done|]. rewrite lookup_insert_ne; [done|congruence].
  - apply (inv_answers _ Hinv).
  - intros id'. pose proof (inv_count _ Hinv id') as Hc. simpl in Hc. rewrite times_cons. unfold busy in *; simpl.
    case_bool_decide as E; [subst id'|].
    + rewrite Hres, Hin in Hc. rewrite lookup_insert_eq, Hres. lia.
    + rewrite lookup_insert_ne by done. lia.
Qed.

Lemma inv_answer p id fp r d calls running waiting sent answers forgotten :
  running !! p = Some (id, fp) ->
  gateway_inv (mkGatewaySystem d calls running waiting sent answers forgotten) ->
  gateway_inv (mkGatewaySystem (record_result id fp r d) (<[p := mkDispatchCall fp (Some r)]> calls)
    (delete p running) waiting sent ((id, fp, r) :: answers) forgotten).
Proof.
  intros Hrun Hinv. destruct (inv_running _ Hinv p id fp Hrun) as [Hin Hcall]. simpl in Hin, Hcall.
  destruct (inv_inflight _ Hinv id p Hin) as [Hnone _]. simpl in Hnone.
  assert (forall id' fp' r', id <> id' -> recorded (mkGatewaySystem d calls running waiting sent answers forgotten) id' fp' r' ->
    recorded (mkGatewaySystem (record_result id fp r d) (<[p := mkDispatchCall fp (Some r)]> calls)
      (delete p running) waiting sent ((id, fp, r) :: answers) forgotten) id' fp' r') as Hkeep.
  { unfold recorded; simpl. intros id' fp' r' Hne. by rewrite !lookup_insert_ne. }
  assert (forall fp' r', recorded (mkGatewaySystem d calls running waiting sent answers forgotten) id fp' r' ->
    id ∈ forgotten) as Hforgot.
  { unfold recorded; simpl. intros fp' r' Hrec. destruct (decide (id ∈ forgotten)) as [|Hn]; [done|].
    destruct (Hrec Hn). congruence. }
  split; simpl.
  - intros id' q. rewrite lookup_delete_Some. intros [Hne Hq]. rewrite lookup_insert_ne by done.
    assert (q <> p) by (intros ->; by apply Hne, (inv_unshared _ Hinv id id' p)).
    rewrite lookup_insert_ne by done. by apply (inv_inflight _ Hinv).
  - intros id1 id2 q. rewrite !lookup_delete_Some. intros [? ?] [? ?]. by apply (inv_unshared _ Hinv id1 id2 q).
  - intros q id' fp'. rewrite lookup_delete_Some. intros [Hne Hq].
    destruct (inv_running _ Hinv q id' fp' Hq) as [Hq1 Hq2]. simpl in *.
    rewrite lookup_insert_ne by done. split; [|done]. apply lookup_delete_Some. split; [congruence|done].
  - intros k id' fp' q Hk. destruct (inv_waiting _ Hinv k id' fp' q Hk) as (r' & Hc & Hr). simpl in *.
    destruct (decide (q = p)) as [->|Hne].
    + rewrite Hcall in Hc. simplify_eq. exists (Some r). rewrite lookup_insert_eq. split; [done|].
      apply (inv_unshared _ Hinv id id' p Hin) in Hr as <-. intros _; simpl. by rewrite !lookup_insert_eq.
    + exists r'. rewrite lookup_insert_ne by done. split; [done|]. destruct r' as [r'|].
      * destruct (decide (id = id')) as [<-|]; [|by apply Hkeep]. intros Hn. by destruct (Hn (Hforgot _ _ Hr)).
      * apply lookup_delete_Some. split; [congruence|done].
  - intros id' fp' r'. rewrite elem_of_cons. intros [[= -> -> ->]|Ha%(inv_answers _ Hinv)].
    + intros _; simpl. by rewrite !lookup_insert_eq.
    + destruct (decide (id = id')) as [<-|]; [|by apply Hkeep]. intros Hn. by destruct (Hn (Hforgot _ _ Ha)).
  - intros id'. pose proof (inv_count _ Hinv id') as Hc. simpl in Hc. unfold busy in *; simpl.
    destruct (decide (id = id')) as [<-|]; [rewrite lookup_insert_eq|by rewrite lookup_insert_ne, lookup_delete_ne].
    rewrite Hnone, Hin in Hc. done.
Qed.

(** Steps that leave the dispatcher's maps and the call objects alone. *)
Lemma inv_release d calls running running' waiting waiting' sent answers answers' forgotten :
  running' ⊆ running ->
  (forall k id fp p, waiting' !! k = Some (id, fp, p) ->
     waiting !! k = Some (id, fp, p) \/
     calls !! p = Some (mkDispatchCall fp None) /\ gd_inflight d !! id = Some p) ->
  (forall id fp r, (id, fp, r) ∈ answers' -> (id, fp, r) ∈ answers \/
     gd_Results d !! id = Some r /\ gd_fingerprints d !! id = Some fp \/
     recorded (mkGatewaySystem d calls running waiting sent answers forgotten) id fp r) ->
  gateway_inv (mkGatewaySystem d calls running waiting sent answers forgotten) ->
  gateway_inv (mkGatewaySystem d calls running' waiting' sent answers' forgotten).
Proof.
  intros Hrun Hwait Hans Hinv. split; simpl.
  - apply (inv_inflight _ Hinv).
  - apply (inv_unshared _ Hinv).
  - intros p id fp Hp. apply (inv_running _ Hinv). simpl. by eapply lookup_weaken.
  - intros k id fp p [Hk|[Hc Hin]]%Hwait; [by apply (inv_waiting _ Hinv k)|by exists None].
  - intros id fp r [Ha|[Hr|Hr]]%Hans; [by apply (inv_answers _ Hinv)|by intros _|done].
  - apply (inv_count _ Hinv).
Qed.

Lemma inv_forget id d calls running waiting sent answers forgotten :
  gateway_inv (mkGatewaySystem d calls running waiting sent answers forgotten) ->
  gateway_inv (mkGatewaySystem (Forget id d) calls running waiting sent answers (id :: forgotten)).
Proof.
  intros Hinv.
  assert (forall id' fp r, recorded (mkGatewaySystem d calls running waiting sent answers forgotten) id' fp r ->
    recorded (mkGatewaySystem (Forget id d) calls running waiting sent answers (id :: forgotten)) id' fp r) as Hkeep.
  { unfold recorded; simpl. intros id' fp r Hr Hn. rewrite elem_of_cons in Hn.
    rewrite !lookup_delete_ne by (intros ->; auto). auto. }
  split; simpl.
  - intros id' p Hp. destruct (inv_inflight _ Hinv id' p Hp) as [Hn Hc]. simpl in Hn.
    split; [|done]. by rewrite lookup_delete_None, Hn; right.
  - apply (inv_unshared _ Hinv).
  - apply (inv_running _ Hinv).
  - intros k id' fp p Hk. destruct (inv_waiting _ Hinv k id' fp p Hk) as (r & Hc & Hr).
    exists r. split; [done|]. destruct r; [by apply Hkeep|done].
  - intros id' fp r Ha. apply Hkeep. by apply (inv_answers _ Hinv).
  - intros id'. pose proof (inv_count _ Hinv id') as Hc. simpl in Hc. rewrite times_cons. unfold busy in *; simpl.
    case_bool_decide as E; [subst id'; repeat case_match; lia|]. rewrite lookup_delete_ne by done. lia.
Qed.

Lemma gateway_inv_step s s' : gateway_step s s' -> fingerprinted s -> gateway_inv s -> gateway_inv s'.
Proof.
  destruct 1; intros Hfp Hinv;
    try match goal with H : enter _ _ _ _ _ = _ |- _ => apply admit_cases in H; simpl in H; destruct_and? end;
    subst; try done.
  - eapply inv_release; [done|by left| |done]. intros id' fp' r'. rewrite elem_of_cons.
    intros [[= -> -> ->]|]; [right; left|by left]. split; [done|].
    match goal with H : gd_Results d !! id = Some r |- _ => destruct (Hfp id r H) as [fp Hx] end.
    simpl in Hx. by rewrite Hx.
  - eapply inv_release; [done| |by left|done]. intros k' id' fp' q'. rewrite lookup_insert_Some.
    intros [[<- [= <- <- <-]]|[_ ?]]; [right|by left].
    match goal with H : gd_inflight d !! id = Some q |- _ => destruct (inv_inflight _ Hinv id q H) as (_ & fp0 & Hc) end.
    simpl in Hc. rewrite Hc in *. simplify_eq/=. done.
  - by apply inv_start.
  - by eapply inv_answer.
  - eapply inv_release; [apply delete_subseteq|by left|by left|done].
  - eapply inv_release; [done| | |done].
    + intros k' id' fp' q' [_ ?]%lookup_delete_Some. by left.
    + intros id' fp' r'. rewrite elem_of_cons. intros [[= -> -> ->]|]; [right; right|by left].
      destruct (inv_waiting _ Hinv k id fp q) as (r0 & Hc & Hr); [done|]. simpl in *. simplify_eq/=. done.
  - eapply inv_release; [done| |by left|done]. intros k' id' fp' q' [_ ?]%lookup_delete_Some. by left.
  - by apply inv_forget.
Qed.

Lemma gateway_reachable_inv s : rtc gateway_step gateway_start s -> gateway_inv s.
Proof.
  intros Hs. refine (proj2 (rtc_ind_r (fun s => fingerprinted s /\ gateway_inv s) _ _ _ s Hs)).
  - split; [done|]. split; try done. by intros id fp r ?%elem_of_nil.
  - intros s1 s2 _ Hstep [? ?]. split; [by eapply fingerprinted_step|by eapply gateway_inv_step].
Qed.

(** ** Properties *)

(** C7: however calls interleave, whether callers give up waiting, and even if the
    gateway panics, a command goes out at most once for each time its identifier is
    fresh: once, and once more after each [Forget].  While an identifier is not
    forgotten all its callers get the same answer, and only callers with the same
    command get one. *)
Theorem commands_sent_once s :
  rtc gateway_step gateway_start s ->
  forall id, (times id (gs_sent s) <= 1 + times id (gs_forgotten s))%nat /\
    (~ (id ∈ gs_forgotten s) -> forall fp r fp' r',
       (id, fp, r) ∈ gs_answers s -> (id, fp', r') ∈ gs_answers s -> fp' = fp /\ r' = r).
Proof.
  intros Hs%gateway_reachable_inv id. split.
  - pose proof (inv_count _ Hs id) as Hc. unfold busy in Hc. repeat case_match; lia.
  - intros Hn fp r fp' r' Ha Ha'.
    destruct (inv_answers _ Hs _ _ _ Ha Hn), (inv_answers _ Hs _ _ _ Ha' Hn). by simplify_eq.
Qed.

(** One caller after another: the first answer is kept, success or failure, replayed
    for the same command and refused to another; [Forget] makes the identifier new. *)
Lemma Dispatch_replays `{JSONText} g id action payload now fp d :
  id <> ""%string -> action <> ""%string -> EncodeCommand id action payload = Ok fp ->
  gd_Results d !! id = None -> gd_inflight d !! id = None ->
  let r := command_result id (g (call_timeout d) id action payload) now in
  let d' := record_result id fp r d in
  (exists d1, Dispatch (Some g) id action payload now d = (r, true, d1) /\
     gd_Results d1 = gd_Results d' /\ gd_fingerprints d1 = gd_fingerprints d') /\
  (forall now', Dispatch (Some g) id action payload now' d' = (r, false, d')) /\
  (forall action' payload' fp' now', action' <> ""%string -> EncodeCommand id action' payload' = Ok fp' -> fp' <> fp ->
     Dispatch (Some g) id action' payload' now' d' = (rejected_result id reused_text now', false, d')).
Proof.
  intros Hid Hact Hfp Hres Hin r d'. unfold Dispatch.
  rewrite (bool_decide_eq_false_2 _ Hid), (bool_decide_eq_false_2 _ Hact), Hfp. unfold enter at 1.
  rewrite Hres, Hin. simpl. split; [by eexists|].
  assert (gd_Results d' !! id = Some r /\ gd_fingerprints d' !! id = Some fp) as [H1 H2]
    by (simpl; by rewrite !lookup_insert_eq).
  split.
  - intros now'. unfold enter. by rewrite H1, H2, bool_decide_eq_true_2.
  - intros action' payload' fp' now' Hact' Hfp' Hne. rewrite (bool_decide_eq_false_2 _ Hact'), Hfp'. simpl.
    unfold enter. rewrite H1, H2. simpl. by rewrite bool_decide_eq_false_2 by congruence.
Qed.

(** ** Witness: two callers share one command, a third reuses its identifier *)
Lemma commands_sent_once_witness :
  exists s, rtc gateway_step gateway_start s /\ gs_sent s = ["k"%string] /\
    (forall r, ("k"%string, "on"%string, r) ∈ gs_answers s -> r = mkGatewayResult "k" true "" 9).
Proof.
  assert (exists s, rtc gateway_step gateway_start s /\ gs_sent s = ["k"%string] /\ gs_forgotten s = [] /\
    ("k"%string, "on"%string, mkGatewayResult "k" true "" 9) ∈ gs_answers s) as (s & Hs & Hsent & Hf & Ha).
  { eexists. split; [|].
    - eapply rtc_l; [by eapply (step_start "k" "on" 0)|].
      eapply rtc_l; [by eapply (step_join "k" "on" 1 7)|].
      eapply rtc_l; [by eapply (step_reused "k" "off" 1)|].
      eapply rtc_l; [by eapply (step_answer 0 "k" "on" None 9)|].
      eapply rtc_l; [by eapply (step_woken 7 "k" "on" 0)|]. apply rtc_refl.
    - simpl. split_and!; [done|done|]. by left. }
  exists s. split; [done|]. split; [done|]. intros r Hr.
  apply (proj2 (commands_sent_once s Hs "k") ltac:(by rewrite Hf; apply not_elem_of_nil) "on"%string _ "on"%string r Ha Hr).
Defined.
