(* ===== verification/Transport.v ===== *)
(** * transport/transport.go, policy.go and codec.go: the outgoing HTTP client

    [Do] with its retries as a function of what each attempt met, returning the
    requests it sent; webhooks with their idempotency key; the request policy; the
    [Retry-After] header and the stream decoder. *)
From S2P Require Import Prelude Errors GoStd Model Gateway.
From Stdlib Require Import Ascii.

(** What the client uses of [net/url] and [net/http]: [JoinPath], the scheme and host
    [Parse] finds, the error of [NewRequest] and [ParseTime]. *)
Class Net := {
  JoinPath : string -> string -> result string;
  ParseURL : string -> result (string * string);
  NewRequest_error : string -> string -> option error;
  ParseTime : string -> option Time
}.

(** ** Headers: [Header.Set] under [textproto.CanonicalMIMEHeaderKey] *)
Definition lower_letter (c : ascii) : bool := (97 <=? code c) && (code c <=? 122).
Definition upper_letter (c : ascii) : bool := (65 <=? code c) && (code c <=? 90).
Definition token_byte (c : ascii) : bool :=
  lower_letter c || upper_letter c || ((48 <=? code c) && (code c <=? 57))
  || existsb (fun d => bool_decide (c = d)) (bytes "!#$%&'*+-.^_`|~").
Definition shift_letter (c : ascii) (by_ : Z) : ascii := ascii_of_N (Z.to_N (code c + by_)).
Fixpoint canonical_bytes (upper : bool) (l : list ascii) : list ascii :=
  match l with
  | [] => []
  | c :: l' =>
      (if upper && lower_letter c then shift_letter c (-32)
       else if negb upper && upper_letter c then shift_letter c 32 else c)
      :: canonical_bytes (code c =? 45) l'
  end.
Definition CanonicalHeaderKey (key : string) : string :=
  if forallb token_byte (bytes key) then of_bytes (canonical_bytes true (bytes key)) else key.

Definition Header := gmap string string.
Definition Header_Set (h : Header) (key value : string) : Header := <[CanonicalHeaderKey key := value]> h.
Definition Header_Get (h : Header) (key : string) : string := default "" (h !! CanonicalHeaderKey key).

(** ** [Client.Do] *)
Record Client := mkClient { cl_BaseURL : string; cl_Token : string; cl_Retry : Z; cl_Backoff : Duration }.
Definition slash : ascii := "/"%char.
Definition NewClient (base : string) : Client := mkClient (TrimRight base slash) "" 3 (100 * Millisecond).

(** [rq_Headers] lists the map in the order the loop happens to visit it. *)
Record Request := mkRequest {
  rq_Method : string; rq_Path : string; rq_Body : option json; rq_Headers : list (string * string) }.
(** The request that goes on the wire. *)
Record HTTPRequest := mkHTTPRequest { hr_Method : string; hr_Target : string; hr_Header : Header; hr_Body : string }.

(** What an attempt meets: an error of the round trip, or a response with the errors
    of decoding, draining and closing its body. *)
Inductive exchange :=
| RoundTripError (e : error)
| Response (status : Z) (decode drain close : option error).

Definition drainAndClose (copyErr closeErr : option error) : option error :=
  match copyErr with Some e => Some e | None => closeErr end.

Inductive verdict := Finished (err : option error) | Retry (last : error).

(** The body of the loop after [httpClient.Do]; [out] tells whether a target for the
    response was given. *)
Definition judge (out : bool) (x : exchange) : verdict :=
  match x with
  | RoundTripError e => Retry e
  | Response status decode drain close =>
      if (200 <=? status) && (status <? 300) then
        if out then Finished (match decode with Some e => Some e | None => close end)
        else Finished (drainAndClose drain close)
      else
        let last := New ("remote status " +:+ Sprint status) in
        match drainAndClose drain close with
        | Some e => Finished (Some e)
        | None => if status <? 500 then Finished (Some last) else Retry last
        end
  end.

Definition headers_of (c : Client) (req : Request) : Header :=
  let h := Header_Set ∅ "Accept" "application/json" in
  let h := match rq_Body req with Some _ => Header_Set h "Content-Type" "application/json" | None => h end in
  let h := if bool_decide (cl_Token c = "") then h else Header_Set h "Authorization" ("Bearer " +:+ cl_Token c) in
  fold_left (fun h kv => Header_Set h kv.1 kv.2) (rq_Headers req) h.

(** The pause after an attempt: an int64 product. *)
Definition pause (c : Client) (attempt : nat) : Duration := wrap64 (cl_Backoff c * Z.of_nat attempt).

(** The loop, from the given attempt on: [wire i] is what attempt [i] meets, [wait i d]
    the error of a context that ends during the pause of [d] after it. *)
Fixpoint attempt_loop (c : Client) (r : HTTPRequest) (out : bool) (wire : nat -> exchange)
    (wait : nat -> Duration -> option error)
    (remaining attempt : nat) (last : option error) : list HTTPRequest * option error :=
  match remaining with
  | O => ([], last)
  | S remaining' =>
      match judge out (wire attempt) with
      | Finished err => ([r], err)
      | Retry e =>
          match remaining', wait attempt (pause c attempt) with
          | O, _ => ([r], Some e)
          | S _, Some cancelled => ([r], Some cancelled)
          | S _, None =>
              let '(sent, err) := attempt_loop c r out wire wait remaining' (S attempt) (Some e) in
              (r :: sent, err)
          end
      end
  end.

Definition attempts_of (c : Client) : nat := Z.to_nat (if cl_Retry c <? 1 then 1 else cl_Retry c).

Definition method_of (req : Request) : string := if bool_decide (rq_Method req = "") then "GET" else rq_Method req.

Section client.
Context `{Net} `{JSONText}.

Definition Do (c : Client) (req : Request) (out : bool) (wire : nat -> exchange) (wait : nat -> Duration -> option error)
    : list HTTPRequest * option error :=
  match JoinPath (cl_BaseURL c) (rq_Path req) with
  | Fail e => ([], Some e)
  | Ok target =>
      match rq_Body req ≫= Marshal_error with
      | Some e => ([], Some e)
      | None =>
          match NewRequest_error (method_of req) target with
          | Some e => ([], Some e)
          | None =>
              attempt_loop c (mkHTTPRequest (method_of req) target (headers_of c req)
                              (match rq_Body req with Some j => json_text j | None => "" end))
                out wire wait (attempts_of c) 1 None
          end
      end
  end.

(** ** Webhooks *)
Definition CheckURL (raw : string) : option error :=
  match ParseURL raw with
  | Ok (scheme, host) =>
      if negb (bool_decide (scheme = "https")) || bool_decide (host = "")
      then Some (New "webhook URL must use https") else None
  | Fail _ => Some (New "webhook URL must use https")
  end.

Record Webhook := mkWebhook { wh_Client : option Client; wh_URL : string }.

Definition SendWithKey (w : Webhook) (event : option json) (idempotencyKey : string) (wire : nat -> exchange)
    (wait : nat -> Duration -> option error) : list HTTPRequest * option error :=
  match CheckURL (wh_URL w) with
  | Some e => ([], Some e)
  | None =>
      match wh_Client w with
      | None => ([], Some (New "webhook client is required"))
      | Some client =>
          let client := mkClient (TrimRight (wh_URL w) slash) (cl_Token client) (cl_Retry client) (cl_Backoff client) in
          let headers := if bool_decide (idempotencyKey = "") then [] else [("Idempotency-Key"%string, idempotencyKey)] in
          Do client (mkRequest "POST" "" event headers) false wire wait
      end
  end.
Definition Send (w : Webhook) (event : option json) (wire : nat -> exchange) (wait : nat -> Duration -> option error)
    : list HTTPRequest * option error := SendWithKey w event "" wire wait.
End client.

(** ** policy.go: a set of methods, each mapped to whether it is allowed *)
Record RequestPolicy := mkRequestPolicy {
  rp_AllowedMethods : gmap string bool; rp_MaxBodyBytes : Z; rp_Timeout : Duration; rp_RequireToken : bool }.

Definition supported_method (m : string) : bool := bool_decide (m ∈ ["GET"; "POST"; "PUT"; "DELETE"]%string).

(** The error names one of the unsupported methods. *)
Definition RequestPolicy_Validate (p : RequestPolicy) : option error :=
  if bool_decide (rp_AllowedMethods p = ∅) || (rp_MaxBodyBytes p <=? 0) || (rp_Timeout p <=? 0)
  then Some (New "request policy is incomplete")
  else match List.filter (fun kv => negb (supported_method kv.1)) (map_to_list (rp_AllowedMethods p)) with
       | (m, _) :: _ => Some (New ("method " +:+ m +:+ " is not supported"))
       | [] => None
       end.

(** [Apply]: the timeout of the derived context; [None] stands for a nil request. *)
Definition Apply (p : RequestPolicy) (req : option (string * Header)) : result Duration :=
  match req with
  | None => Fail (New "request is nil")
  | Some (method, header) =>
      check (RequestPolicy_Validate p)
        (if negb (default false (rp_AllowedMethods p !! method))
         then Fail (New ("method " +:+ method +:+ " is not allowed"))
         else if rp_RequireToken p && bool_decide (TrimSpace (Header_Get header "Authorization") = "")
         then Fail (New "authorization is required")
         else Ok (rp_Timeout p))
  end.

(** ** codec.go *)
Record RemoteError := mkRemoteError { re_Code : string; re_Message : string }.
(** [env_Data] is [None] when the raw message is empty. *)
Record Envelope := mkEnvelope { env_RequestID : string; env_Data : option json; env_Error : option RemoteError }.

Definition EncodeEnvelope (requestID : string) (data : json) : result Envelope :=
  if bool_decide (TrimSpace requestID = "") then Fail (New "request id is required")
  else check (Marshal_error data) (Ok (mkEnvelope requestID (Some data) None)).

(** After the envelope itself has been read; [target] is the error of decoding the
    data into the caller's variable.  The identifier comes back with a remote error. *)
Definition DecodeEnvelope (envelope : result Envelope) (target : json -> option error) : string * option error :=
  match envelope with
  | Fail e => ("", Some e)
  | Ok envelope =>
      match env_Data envelope with
      | None => ("", Some (New "invalid envelope"))
      | Some data =>
          if bool_decide (env_RequestID envelope = "") then ("", Some (New "invalid envelope"))
          else match env_Error envelope with
               | Some r => (env_RequestID envelope, Some (New ("remote " +:+ re_Code r +:+ ": " +:+ re_Message r)))
               | None => match target data with
                         | Some e => ("", Some e)
                         | None => (env_RequestID envelope, None)
                         end
               end
      end
  end.

(** [StreamDecoder.DecodeAll] over the data the limited reader yields: [values] is
    what the decoder returns, value after value, with the state of the context at
    each; the target keeps what was appended. *)
Fixpoint decode_values (values : list (result json * Ctx)) (target : list json) : list json * option error :=
  match values with
  | [] => (target, None)
  | (Fail e, _) :: _ => (target, if Is e EOF then None else Some e)
  | (Ok v, ctx) :: rest =>
      match ctx_Err ctx with
      | Some e => (target, Some e)
      | None => decode_values rest (target ++ [v])
      end
  end.

Definition DecodeAll (configured : bool) (Limit : Z) (data : result string)
    (values : string -> list (result json * Ctx)) (target : list json) : list json * option error :=
  if negb configured then (target, Some (New "decoder is not configured"))
  else
    let limit := if Limit <=? 0 then 4 * 2 ^ 20 else Limit in
    match data with
    | Fail e => (target, Some e)
    | Ok data =>
        if limit <? len data then (target, Some (New "payload exceeds limit"))
        else decode_values (values data) target
    end.

(** [fmt.Sscanf(value, "%d", &seconds)] on a trimmed value: a sign and the digits at
    its start. *)
Fixpoint leading_digits (l : list ascii) : list ascii :=
  match l with
  | c :: l' => match digit c with Some _ => c :: leading_digits l' | None => [] end
  | [] => []
  end.
Definition scan_int (s : string) : option Z :=
  match bytes s with
  | c :: l => if (code c =? 45) || (code c =? 43) then ParseInt (of_bytes (c :: leading_digits l))
              else ParseInt (of_bytes (leading_digits (c :: l)))
  | [] => None
  end.

(** [RetryAfter]: the header of the response ([None] for a nil response), and the
    time [time.Until] reads. *)
Definition RetryAfter `{Net} (header : option Header) (fallback : Duration) (now : Time) : Duration :=
  match header with
  | None => fallback
  | Some h =>
      let value := TrimSpace (Header_Get h "Retry-After") in
      if bool_decide (value = "") then fallback
      else match scan_int value with
           | Some seconds =>
               if 0 <=? seconds then wrap64 (seconds * Second)
               else match ParseTime value with
                    | Some when => if 0 <? Sub when now then Sub when now else fallback
                    | None => fallback
                    end
           | None => match ParseTime value with
                     | Some when => if 0 <? Sub when now then Sub when now else fallback
                     | None => fallback
                     end
           end
  end.

(** ** The retry loop *)
Definition retryable (out : bool) (x : exchange) : Prop := exists e, judge out x = Retry e.

(** How a run of [n+1] attempts out of [total] ends. *)
Definition run_ends (c : Client) (out : bool) (wire : nat -> exchange) (wait : nat -> Duration -> option error)
    (first total n : nat) (err : option error) : Prop :=
  match judge out (wire (first + n)%nat) with
  | Finished verdict => err = verdict
  | Retry e => if decide (S n = total) then err = Some e
               else exists cancelled, wait (first + n)%nat (pause c (first + n)) = Some cancelled /\ err = Some cancelled
  end.

Lemma attempt_loop_spec c r out wire wait total first last :
  (0 < total)%nat ->
  exists n err, attempt_loop c r out wire wait total first last = (replicate (S n) r, err) /\ (n < total)%nat /\
    (forall i, (i < n)%nat -> retryable out (wire (first + i)%nat) /\ wait (first + i)%nat (pause c (first + i)) = None) /\
    run_ends c out wire wait first total n err.
Proof.
  revert first last. induction total as [|total IH]; intros first last Hpos; [lia|]. simpl.
  destruct (judge out (wire first)) as [err|e] eqn:Hj.
  { exists 0%nat, err. split_and!; [done|lia|lia|]. unfold run_ends. by rewrite Nat.add_0_r, Hj. }
  destruct total as [|total].
  { exists 0%nat, (Some e). split_and!; [done|lia|lia|]. unfold run_ends. by rewrite Nat.add_0_r, Hj. }
  destruct (wait first (pause c first)) as [cancelled|] eqn:Hw.
  { exists 0%nat, (Some cancelled). split_and!; [done|lia|lia|]. unfold run_ends. rewrite Nat.add_0_r, Hj.
    rewrite decide_False by lia. by exists cancelled. }
  destruct (IH (S first) (Some e)) as (n & err & -> & Hn & Hbefore & Hend); [lia|].
  exists (S n), err. split; [done|]. split; [lia|]. split.
  - intros [|i] Hi; [rewrite Nat.add_0_r; split; [by exists e|done]|].
    rewrite <-Nat.add_succ_comm. apply Hbefore. lia.
  - unfold run_ends in *. rewrite <-Nat.add_succ_comm. destruct (judge _ _); [done|].
    repeat case_decide; try lia; done.
Qed.

Lemma attempts_of_pos c : (0 < attempts_of c)%nat.
Proof. unfold attempts_of. destruct (cl_Retry c <? 1) eqn:E; bsimp; lia. Qed.

Section properties.
Context `{Net} `{JSONText}.

Definition wire_request (c : Client) (req : Request) (target : string) : HTTPRequest :=
  mkHTTPRequest (method_of req) target (headers_of c req)
    (match rq_Body req with Some j => json_text j | None => "" end).

Lemma Do_sent c req out wire wait target :
  JoinPath (cl_BaseURL c) (rq_Path req) = Ok target ->
  forall r, r ∈ (Do c req out wire wait).1 -> r = wire_request c req target.
Proof.
  intros Ht r. unfold Do. rewrite Ht.
  destruct (rq_Body req ≫= Marshal_error); [by intros ?%elem_of_nil|].
  destruct (NewRequest_error _ _); [by intros ?%elem_of_nil|].
  match goal with |- context [attempt_loop c ?w] =>
    destruct (attempt_loop_spec c w out wire wait (attempts_of c) 1 None (attempts_of_pos c)) as (n & err & -> & _) end.
  by intros [-> _]%elem_of_replicate.
Qed.

(** C22: the client always finishes.  It sends the same request, body and all, between
    once and [Retry] times: again only after a lost round trip or a 5xx, and while the
    context lives; the outcome of the last attempt, or the error of the context, is
    the answer. *)
Theorem Do_retries c req out wire wait target :
  JoinPath (cl_BaseURL c) (rq_Path req) = Ok target ->
  rq_Body req ≫= Marshal_error = None -> NewRequest_error (method_of req) target = None ->
  exists n err, Do c req out wire wait = (replicate (S n) (wire_request c req target), err) /\
    Z.of_nat (S n) <= Z.max 1 (cl_Retry c) /\
    (forall i, (i < n)%nat -> retryable out (wire (1 + i)%nat) /\ wait (1 + i)%nat (pause c (1 + i)) = None) /\
    match judge out (wire (1 + n)%nat) with
    | Finished verdict => err = verdict
    | Retry e => if decide (Z.of_nat (S n) = Z.max 1 (cl_Retry c)) then err = Some e
                 else exists cancelled, wait (1 + n)%nat (pause c (1 + n)) = Some cancelled /\ err = Some cancelled
    end.
Proof.
  intros Ht Hb Hr. unfold Do. rewrite Ht, Hb, Hr.
  assert (Z.of_nat (attempts_of c) = Z.max 1 (cl_Retry c)) as Ha
    by (unfold attempts_of; destruct (cl_Retry c <? 1) eqn:E; bsimp; lia).
  destruct (attempt_loop_spec c (wire_request c req target) out wire wait (attempts_of c) 1 None (attempts_of_pos c))
    as (n & err & Hsent & Hn & Hbefore & Hend).
  exists n, err. split; [exact Hsent|]. split; [lia|]. split; [done|].
  unfold run_ends in Hend. destruct (judge _ _); [done|]. repeat case_decide; try done; lia.
Qed.

(** A webhook is posted to an https URL only, and every attempt carries the same
    idempotency key. *)
Theorem webhook_keeps_key w event key wire wait r :
  key <> ""%string -> r ∈ (SendWithKey w event key wire wait).1 ->
  hr_Method r = "POST"%string /\ hr_Header r !! "Idempotency-Key"%string = Some key /\
  exists host, ParseURL (wh_URL w) = Ok ("https"%string, host) /\ host <> ""%string.
Proof.
  intros Hkey. unfold SendWithKey. destruct (CheckURL (wh_URL w)) eqn:Hurl; [by intros ?%elem_of_nil|].
  destruct (wh_Client w) as [c|]; [|by intros ?%elem_of_nil]. rewrite (bool_decide_eq_false_2 _ Hkey).
  match goal with |- context [Do ?c ?req] => destruct (JoinPath (cl_BaseURL c) (rq_Path req)) as [target|] eqn:Ht end.
  2: { unfold Do. rewrite Ht. by intros ?%elem_of_nil. }
  intros ->%(Do_sent _ _ _ _ _ _ Ht). split_and!; [done|by apply lookup_insert_eq|].
  unfold CheckURL in Hurl. destruct (ParseURL (wh_URL w)) as [[scheme host]|]; [|done].
  destruct (_ || _) eqn:E; [done|]. bsimp. subst. by exists host.
Qed.
End properties.

(** What was encoded is read back. *)
Lemma DecodeEnvelope_EncodeEnvelope requestID data target :
  TrimSpace requestID <> ""%string -> Marshal_error data = None -> target data = None ->
  DecodeEnvelope (EncodeEnvelope requestID data) target = (requestID, None).
Proof.
  intros Hid Hd Ht. unfold EncodeEnvelope. rewrite (bool_decide_eq_false_2 _ Hid), Hd. simpl.
  rewrite bool_decide_eq_false_2 by (intros ->; by apply Hid). by rewrite Ht.
Qed.

(** A policy that validates only lets supported methods through. *)
Lemma Apply_supported p method header d :
  Apply p (Some (method, header)) = Ok d -> supported_method method = true /\ 0 < d.
Proof.
  unfold Apply, RequestPolicy_Validate. destruct (_ || _) eqn:Hi; [done|]. bsimp.
  set (bad := List.filter _ _).
  destruct bad as [|[]] eqn:Hbad; [|done]. simpl.
  destruct (negb _) eqn:Ha; [done|]. destruct (_ && _); [done|]. intros [= <-]. split; [|lia]. bsimp.
  destruct (rp_AllowedMethods p !! method) as [b|] eqn:Hm; [|done].
  destruct (supported_method method) eqn:Hs; [done|]. exfalso.
  assert ((method, b) ∈ bad) as Hin.
  { unfold bad. apply list_elem_of_In, filter_In. rewrite <-list_elem_of_In, elem_of_map_to_list. simpl. by rewrite Hs. }
  rewrite Hbad in Hin. by apply elem_of_nil in Hin.
Qed.

(** ** Witnesses *)
Definition plain_net : Net :=
  {| JoinPath base path := Ok (base +:+ path);
     ParseURL raw := Ok ("https"%string, raw);
     NewRequest_error _ _ := None;
     ParseTime _ := None |}.
Definition plain_json : JSONText := {| json_text _ := "{}" |}.
Definition example_client : Client := mkClient "https://hub" "" 3 Second.

Lemma Do_retries_witness :
  let _ := plain_net in let _ := plain_json in
  let wire i := if (i <? 3)%nat then Response 502 None None None else Response 204 None None None in
  exists n, Do example_client (mkRequest "POST" "/events" (Some JNull) []) false wire (fun _ _ => None) =
    (replicate (S n) (wire_request example_client (mkRequest "POST" "/events" (Some JNull) []) "https://hub/events"), None) /\
    n = 2%nat.
Proof.
  intros N J wire.
  destruct (@Do_retries N J example_client (mkRequest "POST" "/events" (Some JNull) []) false wire (fun _ _ => None)
    "https://hub/events" eq_refl eq_refl eq_refl) as (n & err & Hdo & Hn & Hbefore & Hend).
  destruct n as [|[|[|n]]]; [|  | |simpl in Hn; lia].
  - destruct Hend as (? & ? & _); done.
  - destruct Hend as (? & ? & _); done.
  - exists 2%nat. simpl in Hend. by rewrite Hend in Hdo.
Defined.

Lemma webhook_keeps_key_witness :
  let _ := plain_net in let _ := plain_json in
  let sent := (SendWithKey (mkWebhook (Some example_client) "https://hooks/") (Some JNull) "outbox-7"
                 (fun _ => RoundTripError (New "reset")) (fun _ _ => None)).1 in
  length sent = 3%nat /\ exists r, sent !! 2%nat = Some r /\ hr_Header r !! "Idempotency-Key"%string = Some "outbox-7"%string.
Proof.
  intros N J sent. split; [vm_compute; reflexivity|].
  destruct (sent !! 2%nat) as [r|] eqn:Hr; [|by vm_compute in Hr]. exists r. split; [reflexivity|].
  refine (proj1 (proj2 (@webhook_keeps_key N J (mkWebhook (Some example_client) "https://hooks/") (Some JNull) "outbox-7"
    (fun _ => RoundTripError (New "reset")) (fun _ _ => None) r _ _))); [discriminate|].
  by eapply list_elem_of_lookup_2.
Defined.
