(* ===== verification/Http.v ===== *)
(** * package httpapi: the HTTP API

    The routes of [Handler], one definition per handler as a command of the store
    monad that always answers; the response writers are in [Middleware].  Bodies are read by
    [encoding/json] into the structs of the handlers: a parameter, as are
    [time.Parse] and the clock, salt and identifiers a request draws ([Draw]).  [Server]
    may lack the parts that the handlers check for. *)
From S2P Require Import Prelude Errors GoStd Model Rules Store Repo Frame.
From S2P Require Import Devices Plans Automations Password Auth Telemetry.
From Stdlib Require Import Ascii.

(** ** Requests and responses *)
Record Request := mkRequest {
  q_Method : string; q_Path : list string; q_Authorization : string; q_RequestID : string;
  q_Start : string; q_End : string; q_Body : string }.

(** [ErrorBody]. *)
Record ErrorBody := mkErrorBody { eb_Code : string; eb_Message : string; eb_RequestID : string }.

Inductive payload :=
| PEmpty
| PStatus (status request_id : string)
| PError (body : ErrorBody)
| PHousehold (h : Household) (owner : Member)
| PMember (m : Member)
| PSession (s : Session) (m : Member)
| PDevice (d : Device)
| PTelemetry (rows : list Telemetry)
| PPlan (p : EnergyPlan)
| PAutomation (a : Automation)
| PRun (r : AutomationRun).

Record Response := mkResponse { rs_Status : Z; rs_Payload : payload }.

(** [writeError] under the request's identifier. *)
Definition error_response (rid : string) (e : error) : Response :=
  mkResponse (ErrorStatus e)
    (PError (mkErrorBody (ErrorCode e) (if ErrorStatus e <? 500 then Error e else "internal server error") rid)).

(** [WriteStructuredError]. *)
Definition WriteStructuredError (rid : string) (e : option error) : Response :=
  match e with
  | None => mkResponse 500 (PError (mkErrorBody "internal_error" "internal server error" rid))
  | Some e => mkResponse (ErrorStatus e)
      (PError (mkErrorBody (ErrorCode e)
         (if ErrorStatus e <? 500 then TrimSpace (Error e) else "internal server error") rid))
  end.

(** A handler answers with what it computed or with its error. *)
Definition answer {A} (rid : string) (m : M A) (ok : A -> Response) : M Response := fun s =>
  match m s with
  | (Ok a, s') => (Ok (ok a), s')
  | (Fail e, s') => (Ok (error_response rid e), s')
  end.

(** ** Reading the request *)
Definition validateRequestID (v : string) : option error :=
  if bool_decide (v = "") || (128 <? len v) then Some (Sentinel ErrInvalid)
  else if has_control v then Some (Sentinel ErrInvalid)
  else None.

(** [strings.Fields]. *)
Definition flush (acc : list ascii) (rest : list string) : list string :=
  match acc with [] => rest | _ => of_bytes (rev acc) :: rest end.
Fixpoint fields_from (acc : list ascii) (l : list ascii) : list string :=
  match l with
  | [] => flush acc []
  | a :: l1 =>
      if space1 a then flush acc (fields_from [] l1)
      else match l1 with
           | [] => flush (a :: acc) []
           | b :: l2 =>
               if space2 a b then flush acc (fields_from [] l2)
               else match l2 with
                    | [] => fields_from (a :: acc) l1
                    | c :: l3 => if space3 a b c then flush acc (fields_from [] l3)
                                 else fields_from (a :: acc) l1
                    end
           end
  end.
Definition Fields (s : string) : list string := fields_from [] (bytes s).

(** [strings.EqualFold(s, "Bearer")]: no other rune folds to these letters. *)
Definition is_bearer (s : string) : bool := bool_decide (map lower_ascii (bytes s) = bytes "bearer").

Definition bearerSession (authorization : string) : result string :=
  match Fields authorization with
  | [scheme; token] =>
      if negb (is_bearer scheme) || bool_decide (TrimSpace token = "") then Fail (Sentinel ErrForbidden) else Ok token
  | _ => Fail (Sentinel ErrForbidden)
  end.

(** [idParam]; the handlers answer [ErrInvalid] when it fails. *)
Definition idParam (id : string) : result Z :=
  match ParseInt id with Some z => Ok z | None => Fail (Sentinel ErrInvalid) end.

(** The anonymous structs the handlers decode. *)
Record HouseholdIn := mkHouseholdIn {
  hi_Name : string; hi_Timezone : string; hi_BudgetCents : Z; hi_OwnerEmail : string; hi_OwnerPassword : string }.
Record MemberIn := mkMemberIn { mi_Email : string; mi_Password : string; mi_Role : Role }.
Record LoginIn := mkLoginIn { li_Email : string; li_Password : string }.
Record DeviceIn := mkDeviceIn {
  di_ExternalID : string; di_Kind : DeviceKind; di_Firmware : string; di_Capabilities : list string }.
Record TelemetryIn := mkTelemetryIn {
  ti_Sequence : Z; ti_PowerWatts : float64; ti_TemperatureC : option float64; ti_MeasuredAt : Time }.
Record PlanIn := mkPlanIn {
  pi_Name : string; pi_BudgetCents : Z; pi_StartsAt : Time; pi_EndsAt : Time; pi_Devices : list PlanDevice }.
Record AutomationIn := mkAutomationIn {
  ai_Name : string; ai_TriggerKind : string; ai_Actions : list AutomationAction }.
Record RunIn := mkRunIn { ri_IdempotencyKey : string }.

(** What the standard library reads from a body: the first value, unknown fields
    refused, and whether the input ends after it. *)
Class Decoding := {
  read_household : string -> option (HouseholdIn * bool);
  read_member : string -> option (MemberIn * bool);
  read_login : string -> option (LoginIn * bool);
  read_device : string -> option (DeviceIn * bool);
  read_telemetry : string -> option (TelemetryIn * bool);
  read_plan : string -> option (PlanIn * bool);
  read_automation : string -> option (AutomationIn * bool);
  read_run : string -> option (RunIn * bool);
  ParseRFC3339 : string -> option Time
}.

Definition max_body : Z := 2 ^ 20.

(** [decodeStrict] behind [limitBody]. *)
Definition decodeStrict {A} (read : string -> option (A * bool)) (body : string) : result A :=
  if max_body <? len body then Fail (Sentinel ErrInvalid)
  else match read body with
       | Some (v, true) => Ok v
       | _ => Fail (Sentinel ErrInvalid)
       end.

Definition decode {A} (read : string -> option (A * bool)) (body : string) : result A := decodeStrict read body.

(** The identifier of a request, kept in its context under a key of the package's own
    type. *)
Definition requestContextKey : string := "request-id".
Definition request_context (rid : string) (ctx : Values) : Values :=
  WithValue "httpapi.contextKey" requestContextKey rid ctx.
Definition RequestID (ctx : Values) : string := Value "httpapi.contextKey" requestContextKey ctx.

(** ** Routes *)
Inductive route :=
| Healthz | Readyz | CreateHousehold_ | AddMember_ (id : string) | Login_ (id : string) | Logout_ (id : string)
| Enroll_ (id : string) | Pair_ (id : string) | Enable_ (id : string) | Disable_ (id : string)
| PostTelemetry (id : string) | GetTelemetry (id : string)
| Plan_ (id : string) | Schedule_ (id : string) | Start_ (id : string) | Complete_ (id : string)
| Automation_ (id : string) | Activate_ (id : string) | Pause_ (id : string) | Run_ (id : string).

Inductive segment := Lit (s : string) | Id.

Definition routes : list (string * list segment * (string -> route)) :=
  [ ("GET", [Lit "healthz"], fun _ => Healthz);
    ("GET", [Lit "readyz"], fun _ => Readyz);
    ("POST", [Lit "v1"; Lit "households"], fun _ => CreateHousehold_);
    ("POST", [Lit "v1"; Lit "households"; Id; Lit "members"], AddMember_);
    ("POST", [Lit "v1"; Lit "households"; Id; Lit "sessions"], Login_);
    ("DELETE", [Lit "v1"; Lit "sessions"; Id], Logout_);
    ("POST", [Lit "v1"; Lit "households"; Id; Lit "devices"], Enroll_);
    ("POST", [Lit "v1"; Lit "devices"; Id; Lit "pair"], Pair_);
    ("POST", [Lit "v1"; Lit "devices"; Id; Lit "enable"], Enable_);
    ("POST", [Lit "v1"; Lit "devices"; Id; Lit "disable"], Disable_);
    ("POST", [Lit "v1"; Lit "devices"; Id; Lit "telemetry"], PostTelemetry);
    ("GET", [Lit "v1"; Lit "devices"; Id; Lit "telemetry"], GetTelemetry);
    ("POST", [Lit "v1"; Lit "households"; Id; Lit "plans"], Plan_);
    ("POST", [Lit "v1"; Lit "plans"; Id; Lit "schedule"], Schedule_);
    ("POST", [Lit "v1"; Lit "plans"; Id; Lit "start"], Start_);
    ("POST", [Lit "v1"; Lit "plans"; Id; Lit "complete"], Complete_);
    ("POST", [Lit "v1"; Lit "households"; Id; Lit "automations"], Automation_);
    ("POST", [Lit "v1"; Lit "automations"; Id; Lit "activate"], Activate_);
    ("POST", [Lit "v1"; Lit "automations"; Id; Lit "pause"], Pause_);
    ("POST", [Lit "v1"; Lit "automations"; Id; Lit "runs"], Run_) ]%string.

(** The value of the wildcard when a path matches. *)
Fixpoint match_path (pattern : list segment) (path : list string) (id : string) : option string :=
  match pattern, path with
  | [], [] => Some id
  | Lit s :: pattern', p :: path' => if bool_decide (s = p) then match_path pattern' path' id else None
  | Id :: pattern', p :: path' => if bool_decide (p = "") then None else match_path pattern' path' p
  | _, _ => None
  end.

(** A [GET] pattern also takes [HEAD] requests. *)
Definition method_matches (m method : string) : bool :=
  bool_decide (m = method) || bool_decide (m = "GET") && bool_decide (method = "HEAD").

Fixpoint find_route (rs : list (string * list segment * (string -> route))) (method : string) (path : list string)
    : option route :=
  match rs with
  | [] => None
  | (m, pattern, mk) :: rest =>
      if method_matches m method then
        match match_path pattern path "" with
        | Some id => Some (mk id)
        | None => find_route rest method path
        end
      else find_route rest method path
  end.
Definition route_of (q : Request) : option route := find_route routes (q_Method q) (q_Path q).

(** What a request draws from the clock and the random source. *)
Record Draw := mkDraw { dw_now : Time; dw_salt : result (list ascii); dw_session : string; dw_request : string }.

Class ResourceScope := {
  DeviceHousehold : Z -> M Z;
  PlanHousehold : Z -> M Z;
  AutomationHousehold : Z -> M Z
}.

Section server.
Context `{Unicode} `{Pbkdf2} `{Zones} `{Decoding}.
Context `{DeviceRepository} `{PlanRepository} `{AutomationRepository} `{AuthRepository} `{HouseholdRepository}
  `{TelemetryRepository} `{ResourceScope}.

(** [Server]: of the services that handlers compare with nil, whether they are there; the
    others are.  [NewServer] leaves out the scope and the readiness check. *)
Record Server := mkServer {
  sv_Households : bool; sv_Auth : bool; sv_Scope : bool; sv_Readiness : option (M unit) }.
Definition NewServer (households auth : bool) : Server := mkServer households auth false None.

(** A method of a nil service panics when it comes to its repository, and [recoverer]
    answers with this error. *)
Definition panics {A} : M A := mfail (New "internal server error").
Definition nil_households : HouseholdRepository :=
  {| CreateHousehold _ _ _ := panics; CreateHouseholdWithOwner _ _ _ _ _ := panics;
     AddHouseholdMember _ _ _ _ := panics |}.

Context (sv : Server).

Definition household_service : HouseholdRepository := if sv_Households sv then _ else nil_households.

(** ** Authorization *)
Definition authorize (q : Request) (required : Role) (now : Time) : M Member :=
  if negb (sv_Auth sv) then mfail (New "authentication service is not configured")
  else sessionID ← lift (bearerSession (q_Authorization q)); Authorize sessionID required now.

Definition authorizeHousehold (q : Request) (householdID : Z) (required : Role) (now : Time) : M Member :=
  member ← authorize q required now;
  if (householdID <=? 0) || negb (m_HouseholdID member =? householdID) then mfail (Sentinel ErrForbidden)
  else mret member.

Definition authorizeResource (q : Request) (id : Z) (required : Role) (lookup : Z -> M Z) (now : Time) : M Member :=
  if negb (sv_Scope sv) then mfail (New "resource authorization is not configured")
  else
    member ← authorize q required now;
    householdID ← lookup id;
    if negb (m_HouseholdID member =? householdID) then mfail (Sentinel ErrForbidden) else mret member.

(** [requireResource]: the error it writes. *)
Definition requireResource (q : Request) (id : Z) (required : Role) (lookup : Z -> M Z) (now : Time) : M unit :=
  map_err (wrap_prefix "authorize resource") (_ ← authorizeResource q id required lookup now; mret tt).

(** The lookups handed to it. *)
Definition scoped (lookup : Z -> M Z) (id : Z) : M Z :=
  if negb (sv_Scope sv) then mfail (New "resource authorization is not configured") else lookup id.
Definition deviceHousehold : Z -> M Z := scoped DeviceHousehold.
Definition planHousehold : Z -> M Z := scoped PlanHousehold.
Definition automationHousehold : Z -> M Z := scoped AutomationHousehold.

(** ** Handlers *)
Definition no_content (_ : unit) : Response := mkResponse 204 PEmpty.

(** The common shape of the handlers under a household: the path identifier, the
    session, then the operation. *)
Definition in_household {A} (q : Request) (rid id : string) (required : Role) (now : Time)
    (op : Z -> M A) (ok : A -> Response) : M Response :=
  answer rid (id ← lift (idParam id); _ ← authorizeHousehold q id required now; op id) ok.

(** And of those on a device, plan or automation. *)
Definition on_resource {A} (q : Request) (rid id : string) (required : Role) (lookup : Z -> M Z) (now : Time)
    (op : Z -> M A) (ok : A -> Response) : M Response :=
  answer rid (id ← lift (idParam id); _ ← requireResource q id required lookup now; op id) ok.

Definition health (rid : string) : M Response := mret (mkResponse 200 (PStatus "ok" "")).

Definition ready (rid : string) (ctx : Values) : M Response :=
  match sv_Readiness sv with
  | None => mret (error_response rid (New "readiness dependency is not configured"))
  | Some check => fun s => match check s with
                           | (Ok _, s') => (Ok (mkResponse 200 (PStatus "ready" (RequestID ctx))), s')
                           | (Fail _, s') => (Ok (mkResponse 503 (PStatus "unavailable" (RequestID ctx))), s')
                           end
  end.

Definition createHousehold (q : Request) (rid : string) (dw : Draw) : M Response :=
  answer rid
    (in_ ← lift (decode read_household (q_Body q));
     if negb (sv_Households sv) then mfail (New "household service is not configured") else
     Onboard (dw_salt dw) (hi_Name in_) (hi_Timezone in_) (hi_BudgetCents in_) (hi_OwnerEmail in_) (hi_OwnerPassword in_))
    (fun '(h, owner) => mkResponse 201 (PHousehold h owner)).

Definition addMember (q : Request) (rid id : string) (dw : Draw) : M Response :=
  in_household q rid id RoleOwner (dw_now dw)
    (fun id => in_ ← lift (decode read_member (q_Body q));
       let _ := household_service in HouseholdService_AddMember (dw_salt dw) id (mi_Email in_) (mi_Password in_) (mi_Role in_))
    (fun m => mkResponse 201 (PMember m)).

Definition login (q : Request) (rid id : string) (dw : Draw) : M Response :=
  answer rid
    (id ← lift (idParam id);
     in_ ← lift (decode read_login (q_Body q));
     if negb (sv_Auth sv) then panics else
     Login id (li_Email in_) (li_Password in_) (dw_session dw) (dw_now dw))
    (fun '(sess, member) => mkResponse 200 (PSession sess member)).

Definition logout (q : Request) (rid id : string) (dw : Draw) : M Response :=
  answer rid
    (match bearerSession (q_Authorization q) with
     | Ok sessionID => if bool_decide (sessionID = id)
                       then if sv_Auth sv then Logout sessionID (dw_now dw)
                            else if bool_decide (sessionID = "") then mfail (Sentinel ErrInvalid) else panics
                       else mfail (Sentinel ErrForbidden)
     | Fail _ => mfail (Sentinel ErrForbidden)
     end) no_content.

Definition enroll (q : Request) (rid id : string) (dw : Draw) : M Response :=
  in_household q rid id RoleOperator (dw_now dw)
    (fun id => in_ ← lift (decode read_device (q_Body q));
       Enroll id (di_ExternalID in_) (di_Kind in_) (di_Firmware in_) (di_Capabilities in_))
    (fun d => mkResponse 201 (PDevice d)).

Definition deviceTransition (q : Request) (rid id : string) (dw : Draw) (fn : Z -> M unit) : M Response :=
  on_resource q rid id RoleOperator deviceHousehold (dw_now dw) fn no_content.

Definition telemetry_ (q : Request) (rid id : string) (dw : Draw) : M Response :=
  on_resource q rid id RoleOperator deviceHousehold (dw_now dw)
    (fun id => in_ ← lift (decode read_telemetry (q_Body q));
       Record_ (mkTelemetry 0 id (ti_Sequence in_) (ti_PowerWatts in_) (ti_TemperatureC in_) (ti_MeasuredAt in_) zeroTime)
         (dw_now dw))
    no_content.

Definition window (q : Request) (rid id : string) (dw : Draw) : M Response :=
  on_resource q rid id RoleViewer deviceHousehold (dw_now dw)
    (fun id => match ParseRFC3339 (q_Start q), ParseRFC3339 (q_End q) with
               | Some start, Some end_ => Window id start end_
               | _, _ => mfail (Sentinel ErrInvalid)
               end)
    (fun rows => mkResponse 200 (PTelemetry rows)).

Definition plan (q : Request) (rid id : string) (dw : Draw) : M Response :=
  in_household q rid id RoleOperator (dw_now dw)
    (fun id => in_ ← lift (decode read_plan (q_Body q));
       Draft (mkEnergyPlan 0 id (pi_Name in_) "" (pi_BudgetCents in_) (pi_StartsAt in_) (pi_EndsAt in_) zeroTime)
         (pi_Devices in_) (dw_now dw))
    (fun p => mkResponse 201 (PPlan p)).

Definition planState (q : Request) (rid id : string) (dw : Draw) (fn : Z -> M unit) : M Response :=
  on_resource q rid id RoleOperator planHousehold (dw_now dw) fn no_content.

Definition automation (q : Request) (rid id : string) (dw : Draw) : M Response :=
  in_household q rid id RoleOperator (dw_now dw)
    (fun id => in_ ← lift (decode read_automation (q_Body q));
       Create (mkAutomation 0 id (ai_Name in_) "" (ai_TriggerKind in_) zeroTime) (ai_Actions in_))
    (fun a => mkResponse 201 (PAutomation a)).

Definition automationState (q : Request) (rid id : string) (dw : Draw) (transition : Z -> M unit) : M Response :=
  on_resource q rid id RoleOperator automationHousehold (dw_now dw) transition no_content.

Definition run (q : Request) (rid id : string) (dw : Draw) : M Response :=
  on_resource q rid id RoleOperator automationHousehold (dw_now dw)
    (fun id => in_ ← lift (decode read_run (q_Body q)); Queue id (ri_IdempotencyKey in_))
    (fun r => mkResponse 202 (PRun r)).

(** The handlers that only name their transition. *)
Definition Server_pair (q : Request) (rid id : string) (dw : Draw) : M Response := deviceTransition q rid id dw Pair.
Definition Server_enable (q : Request) (rid id : string) (dw : Draw) : M Response := deviceTransition q rid id dw Enable.
Definition Server_disable (q : Request) (rid id : string) (dw : Draw) : M Response := deviceTransition q rid id dw Disable.
Definition Server_schedule (q : Request) (rid id : string) (dw : Draw) : M Response :=
  planState q rid id dw (fun id => Schedule id (dw_now dw)).
Definition Server_start (q : Request) (rid id : string) (dw : Draw) : M Response :=
  planState q rid id dw (fun id => Start id (dw_now dw)).
Definition Server_complete (q : Request) (rid id : string) (dw : Draw) : M Response := planState q rid id dw Complete.
Definition activateAutomation (q : Request) (rid id : string) (dw : Draw) : M Response :=
  automationState q rid id dw Activate.
Definition pauseAutomation (q : Request) (rid id : string) (dw : Draw) : M Response :=
  automationState q rid id dw Pause.

(** ** [Handler]: the routes, under the request identifier of the middleware.  Paths
    without a route are net/http's 404 and 405. *)
Definition handle (q : Request) (rid : string) (dw : Draw) (r : route) : M Response :=
  match r with
  | Healthz => health rid
  | Readyz => ready rid (request_context rid ∅)
  | CreateHousehold_ => createHousehold q rid dw
  | AddMember_ id => addMember q rid id dw
  | Login_ id => login q rid id dw
  | Logout_ id => logout q rid id dw
  | Enroll_ id => enroll q rid id dw
  | Pair_ id => Server_pair q rid id dw
  | Enable_ id => Server_enable q rid id dw
  | Disable_ id => Server_disable q rid id dw
  | PostTelemetry id => telemetry_ q rid id dw
  | GetTelemetry id => window q rid id dw
  | Plan_ id => plan q rid id dw
  | Schedule_ id => Server_schedule q rid id dw
  | Start_ id => Server_start q rid id dw
  | Complete_ id => Server_complete q rid id dw
  | Automation_ id => automation q rid id dw
  | Activate_ id => activateAutomation q rid id dw
  | Pause_ id => pauseAutomation q rid id dw
  | Run_ id => run q rid id dw
  end.

(** [requestID]: the identifier given, or one of the server's own. *)
Definition request_id (q : Request) (dw : Draw) : result string :=
  let fresh := "req-" +:+ dw_request dw in
  let id := TrimSpace (q_RequestID q) in
  let id := if bool_decide (id = "") then fresh else id in
  match validateRequestID id with Some e => Fail e | None => Ok id end.

Definition serve (q : Request) (dw : Draw) : M (option Response) :=
  match request_id q dw with
  | Fail _ => mret (Some (error_response ("req-" +:+ dw_request dw) (Sentinel ErrInvalid)))
  | Ok rid =>
      match route_of q with
      | None => mret None
      | Some r => resp ← handle q rid dw r; mret (Some resp)
      end
  end.
End server.

(** ** Properties *)
Lemma ErrorStatus_range e : 400 <= ErrorStatus e <= 500.
Proof. unfold ErrorStatus. repeat case_match; lia. Qed.

Section isolation.
Context `{PG : Postgres} `{Unicode} `{Pbkdf2} `{Zones} `{Decoding} `{SliceSort} (sv : Server).

#[export] Instance Repository_scope : ResourceScope := {|
  DeviceHousehold := Repo.DeviceHousehold;
  PlanHousehold := Repo.PlanHousehold;
  AutomationHousehold := Repo.AutomationHousehold
|}.

(** The role a route asks for, its identifier and the household it belongs to; the
    other routes are open or act on the session itself. *)
Definition protected (r : route) : option (Role * string * (Database -> Z -> option Z)) :=
  let own (_ : Database) id := if id <=? 0 then None else Some id in
  let device d id := d_HouseholdID <$> devices d !! id in
  let plan d id := p_HouseholdID <$> energy_plans d !! id in
  let automation d id := a_HouseholdID <$> automations d !! id in
  match r with
  | Healthz | Readyz | CreateHousehold_ | Login_ _ | Logout_ _ => None
  | AddMember_ id => Some (RoleOwner, id, own)
  | Enroll_ id | Plan_ id | Automation_ id => Some (RoleOperator, id, own)
  | Pair_ id | Enable_ id | Disable_ id | PostTelemetry id => Some (RoleOperator, id, device)
  | GetTelemetry id => Some (RoleViewer, id, device)
  | Schedule_ id | Start_ id | Complete_ id => Some (RoleOperator, id, plan)
  | Activate_ id | Pause_ id | Run_ id => Some (RoleOperator, id, automation)
  end.

(** The request carries the session of an active member with the role, in the
    household that owns what it is about. *)
Definition allowed_request (q : Request) (d : Database) (now : Time) (required : Role) (id : string)
    (household : Database -> Z -> option Z) (z : Z) : Prop :=
  exists token m, bearerSession (q_Authorization q) = Ok token /\ granted d token required now m /\
    ParseInt id = Some z /\ household d z = Some (m_HouseholdID m).

Lemma authorize_quiet q required now d t :
  exists r, authorize sv q required now (quiet_store d t) = (r, quiet_store d t) /\
    forall m, r = Ok m -> exists token, bearerSession (q_Authorization q) = Ok token /\ granted d token required now m.
Proof.
  unfold authorize. destruct (negb _); [by eexists|]. rewrite bind_run. unfold lift.
  destruct (bearerSession _) as [token|e]; [|by eexists].
  destruct (Authorize_quiet token required now d t) as (r & -> & Hr). eexists. split; [done|].
  intros m ->. by exists token.
Qed.

(** A guarded operation either runs, for an allowed request, or is refused and
    nothing happens. *)
Definition guarded {A} (q : Request) (d : Database) (t : Time) (rid : string) (now : Time) (required : Role)
    (id : string) (household : Database -> Z -> option Z) (op : Z -> M A) (ok : A -> Response)
    (out : result Response * Store) : Prop :=
  (exists z, allowed_request q d now required id household z /\ out = answer rid (op z) ok (quiet_store d t)) \/
  (exists e, out = (Ok (error_response rid e), quiet_store d t)).

Lemma in_household_guarded {A} q rid id required now (op : Z -> M A) ok d t :
  guarded q d t rid now required id (fun _ z => if z <=? 0 then None else Some z) op ok
    (in_household sv q rid id required now op ok (quiet_store d t)).
Proof.
  unfold guarded, in_household, answer, lift, idParam, authorizeHousehold.
  rewrite !bind_run. destruct (ParseInt id) as [z|] eqn:Hz; [|right; by eexists].
  rewrite !bind_run. destruct (authorize_quiet q required now d t) as ([m|e] & -> & Hm); [|right; by eexists].
  destruct (_ || _) eqn:Hbad; [right; by eexists|]. left. exists z. split; [|done].
  destruct (Hm m eq_refl) as (token & Htok & Hg). bsimp. subst. exists token, m. split_and!; try done.
  by rewrite (proj2 (Z.leb_gt _ _)) by done.
Qed.

Lemma resourceHousehold_quiet {R} `{Table R} (h : R -> Z) id d t :
  exists r, resourceHousehold h id (quiet_store d t) = (r, quiet_store d t) /\
    forall z, r = Ok z -> h <$> rows d !! id = Some z.
Proof.
  unfold resourceHousehold. case_match; [by eexists|].
  rewrite map_err_run, bind_run, statement_quiet. unfold select_row.
  destruct (rows d !! id) as [row|]; simpl; [|by eexists]. eexists. split; [done|]. by intros z [= ->].
Qed.

Lemma on_resource_guarded {A R} `{Table R} q rid id required now (op : Z -> M A) ok (h : R -> Z) d t :
  guarded q d t rid now required id (fun d z => h <$> rows d !! z) op ok
    (on_resource sv q rid id required (scoped sv (resourceHousehold h)) now op ok (quiet_store d t)).
Proof.
  unfold guarded, on_resource, answer, lift, idParam, requireResource, authorizeResource.
  rewrite !bind_run. destruct (ParseInt id) as [z|] eqn:Hz; [|right; by eexists].
  rewrite !bind_run, map_err_run. unfold scoped. destruct (negb (sv_Scope sv)); [right; by eexists|].
  rewrite !bind_run.
  destruct (authorize_quiet q required now d t) as ([m|e] & -> & Hm); [|right; by eexists].
  rewrite !bind_run. destruct (resourceHousehold_quiet h z d t) as ([hh|e] & -> & Hh); [|right; by eexists].
  destruct (negb _) eqn:Hbad; [right; by eexists|]. left. exists z. split; [|done].
  destruct (Hm m eq_refl) as (token & Htok & Hg). bsimp. exists token, m. split_and!; try done.
  rewrite Hbad. by apply Hh.
Qed.

Lemma guarded_refused {A} q d t rid now required id household (op : Z -> M A) ok out :
  guarded q d t rid now required id household op ok out ->
  (exists z, allowed_request q d now required id household z) \/
  exists resp, out = (Ok resp, quiet_store d t) /\ 400 <= rs_Status resp.
Proof.
  intros [(z & Hz & _)|(e & ->)]; [left; by exists z|right]. eexists. split; [done|]. apply ErrorStatus_range.
Qed.

Lemma on_resource_refused {A R} `{Table R} q rid id required lookup now (op : Z -> M A) ok (h : R -> Z) d t :
  lookup = scoped sv (resourceHousehold h) ->
  (exists z, allowed_request q d now required id (fun d z => h <$> rows d !! z) z) \/
  exists resp, on_resource sv q rid id required lookup now op ok (quiet_store d t) = (Ok resp, quiet_store d t) /\
               400 <= rs_Status resp.
Proof. intros ->. eapply guarded_refused, on_resource_guarded. Qed.

(** C2: tenants are isolated: on every route about a household, device, plan or
    automation, unless the bearer token is the live session of an active member of the
    owning household with the role the route asks for, the answer is an error and the
    database stays as it is.  This holds of any server, also of one that lacks its
    authentication service or its resource scope. *)
Theorem tenant_isolation q rid dw r d t required id household :
  protected r = Some (required, id, household) ->
  (exists z, allowed_request q d (dw_now dw) required id household z) \/
  exists resp, handle sv q rid dw r (quiet_store d t) = (Ok resp, quiet_store d t) /\ 400 <= rs_Status resp.
Proof.
  intros Hp. destruct r; try discriminate Hp; injection Hp as <- <- <-;
    first [ eapply guarded_refused, in_household_guarded
          | exact (on_resource_refused (R := Device) _ _ _ _ _ _ _ _ d_HouseholdID d t eq_refl)
          | exact (on_resource_refused (R := EnergyPlan) _ _ _ _ _ _ _ _ p_HouseholdID d t eq_refl)
          | exact (on_resource_refused (R := Automation) _ _ _ _ _ _ _ _ a_HouseholdID d t eq_refl) ].
Qed.
End isolation.

Section answers.
Context `{PG : Postgres} `{Unicode} `{Pbkdf2} `{Zones} `{Decoding} `{SliceSort}.

(** An answer that keeps what went wrong inside to itself. *)
Definition discreet (resp : Response) : Prop :=
  forall body, rs_Payload resp = PError body ->
    400 <= rs_Status resp /\ (500 <= rs_Status resp -> eb_Message body = "internal server error"%string).
Definition answers (m : M Response) : Prop := forall s, exists resp s', m s = (Ok resp, s') /\ discreet resp.

Lemma discreet_error rid e : discreet (error_response rid e).
Proof.
  intros body. unfold error_response; simpl. intros [= <-]. split; [apply ErrorStatus_range|].
  intros Hs. simpl. by rewrite (proj2 (Z.ltb_ge _ _) Hs).
Qed.

Lemma answers_answer {A} rid (m : M A) ok : (forall a, discreet (ok a)) -> answers (answer rid m ok).
Proof.
  intros Hok s. unfold answer. destruct (m s) as [[a|e] s']; eexists _, _; (split; [done|]); [done|].
  apply discreet_error.
Qed.

(** The server always answers, and an internal error never shows: error bodies come
    with a 4xx or 5xx status, and with 5xx the message is the fixed one. *)
Theorem serve_answers sv q dw s :
  exists r s', serve sv q dw s = (Ok r, s') /\ forall resp, r = Some resp -> discreet resp.
Proof.
  unfold serve. destruct (request_id q dw) as [rid|e].
  2: { eexists _, _. split; [done|]. intros resp [= <-]. apply discreet_error. }
  destruct (route_of q) as [r|]; [|by eexists _, _].
  assert (answers (handle sv q rid dw r)) as Ha.
  { destruct r; simpl; try (apply answers_answer; first [by intros [] | done]).
    - intros s0. by eexists _, _.
    - intros s0. unfold ready. destruct (sv_Readiness sv) as [check|].
      + destruct (check s0) as [[]]; by eexists _, _.
      + eexists _, _. split; [done|]. apply discreet_error. }
  destruct (Ha s) as (resp & s' & Hrun & Hd). rewrite bind_run, Hrun. eexists _, _. split; [done|].
  by intros ? [= <-].
Qed.
End answers.

(** ** Witness: a member of household 1 asks to pair a device of household 2 *)
Definition no_decoding : Decoding :=
  {| read_household _ := None; read_member _ := None; read_login _ := None; read_device _ := None;
     read_telemetry _ := None; read_plan _ := None; read_automation _ := None; read_run _ := None;
     ParseRFC3339 _ := None |}.
Definition two_homes : Database :=
  set_devices {[9 := mkDevice 9 2 "lamp" KindLight DevicePending "1" 1 None 5]} example_logged_in.
Definition pair_request : Request :=
  mkRequest "POST" ["v1"; "devices"; "9"; "pair"]%string "Bearer u-1" "r-1" "" "" "".

Lemma tenant_isolation_witness :
  let _ := exact_postgres in let _ := ascii_only in let _ := toy_pbkdf2 in let _ := no_decoding in
  let _ := {| LoadLocation _ := true |} in
  route_of pair_request = Some (Pair_ "9") /\
  exists resp, handle (mkServer true true true None) pair_request "r-1" (mkDraw 200 (Ok []) "" "") (Pair_ "9") (quiet_store two_homes 200) =
                 (Ok resp, quiet_store two_homes 200) /\ 400 <= rs_Status resp.
Proof.
  intros PG U PB D Zo. split; [vm_compute; reflexivity|].
  destruct (tenant_isolation (mkServer true true true None) pair_request "r-1" (mkDraw 200 (Ok []) "" "") (Pair_ "9") two_homes 200
    RoleOperator "9" (fun d id => d_HouseholdID <$> devices d !! id) eq_refl) as [(z & Hz)|Hr]; [exfalso|exact Hr].
  destruct Hz as (token & m & Htok & (id & s & mr & Hid & Hs & _ & _ & Hmr & <- & _) & Hparse & Hh).
  vm_compute in Htok. injection Htok as <-. vm_compute in Hid. injection Hid as <-.
  vm_compute in Hs. injection Hs as <-. vm_compute in Hmr. injection Hmr as <-.
  vm_compute in Hparse. injection Hparse as <-. vm_compute in Hh. discriminate.
Defined.
