(* ===== verification/Middleware.v ===== *)
(** * httpapi/middleware.go and the chain of [Handler]

    The response writers of a request: net/http's own, and the [statusWriter]s that
    [accessLog] and [recoverer] put around it.  A handler is what it does to its writer
    and whether it panics; [chain] is the whole stack around it. *)
From S2P Require Import Prelude Errors GoStd Model Store Repo Frame Devices Plans Automations Password Auth Telemetry.
From S2P Require Import Gateway Transport Http.

(** ** Writers

    net/http sends the status with the headers set so far, once; body bytes before it
    send 200, and so does the end of a handler that sent nothing.  Final statuses
    only: the program sends no 1xx. *)
Record Conn := mkConn { cn_header : Header; cn_sent : option (Z * Header); cn_body : list string }.
Definition conn_header (status : Z) (c : Conn) : Conn :=
  match cn_sent c with
  | Some _ => c
  | None => mkConn (cn_header c) (Some (status, cn_header c)) (cn_body c)
  end.
Definition conn_write (data : string) (c : Conn) : Conn :=
  let c := conn_header 200 c in mkConn (cn_header c) (cn_sent c) (cn_body c ++ [data]).
Definition set_header (key value : string) (c : Conn) : Conn :=
  mkConn (Header_Set (cn_header c) key value) (cn_sent c) (cn_body c).

Record statusWriter := mkStatusWriter { sw_status : Z; sw_committed : bool }.
(** A new wrapper: [&statusWriter{ResponseWriter: w, status: http.StatusOK}]. *)
Definition wrapper : statusWriter := mkStatusWriter 200 false.

(** The wrappers from the innermost handler outwards, then the connection. *)
Fixpoint WriteHeader (status : Z) (ws : list statusWriter) (c : Conn) : list statusWriter * Conn :=
  match ws with
  | [] => ([], conn_header status c)
  | w :: ws' =>
      if sw_committed w then (ws, c)
      else let '(ws', c) := WriteHeader status ws' c in (mkStatusWriter status true :: ws', c)
  end.
(** [Write] passes the data down the wrappers, each of which commits itself first;
    the recursion is on their number, which [WriteHeader] does not change. *)
Fixpoint write_through (n : nat) (data : string) (ws : list statusWriter) (c : Conn) : list statusWriter * Conn :=
  match n, ws with
  | S n', w :: ws' =>
      let '(ws, c) := if sw_committed w then (ws, c) else WriteHeader 200 ws c in
      let '(below, c) := write_through n' data (tail ws) c in
      (match ws with w :: _ => w :: below | [] => below end, c)
  | _, _ => (ws, conn_write data c)
  end.
Definition Write (data : string) (ws : list statusWriter) (c : Conn) : list statusWriter * Conn :=
  write_through (length ws) data ws c.

Inductive action := SetHeader (key value : string) | Status (status : Z) | Bytes (data : string).
Definition act (a : action) (st : list statusWriter * Conn) : list statusWriter * Conn :=
  match a with
  | SetHeader key value => (st.1, set_header key value st.2)
  | Status status => WriteHeader status st.1 st.2
  | Bytes data => Write data st.1 st.2
  end.
Definition acts (l : list action) (st : list statusWriter * Conn) : list statusWriter * Conn :=
  fold_left (fun st a => act a st) l st.

(** ** Rendering *)
Section chain.
(** [json.NewEncoder(w).Encode(v)]: the text it writes. *)
Context (encode : payload -> string).

Definition writeJSON (status : Z) (v : payload) : list action :=
  [SetHeader "Content-Type" "application/json"; Status status; Bytes (encode v)].
(** [writeError], with the request identifier found in the response header. *)
Definition writeError (e : error) (c : Conn) : list action :=
  let r := error_response (Header_Get (cn_header c) "X-Request-ID") e in writeJSON (rs_Status r) (rs_Payload r).
Definition render (r : Response) : list action :=
  match rs_Payload r with
  | PEmpty => [Status (rs_Status r)]
  | v => writeJSON (rs_Status r) v
  end.

(** ** The chain *)

(** [contentTypeJSON]. *)
Definition contentTypeJSON (handler : list action) : list action :=
  SetHeader "Content-Type" "application/json" :: handler.

(** [recoverer]: the deferred function answers when the handler panics before its
    wrapper is committed. *)
Definition recoverer (handler : list action) (panicked : bool) (ws : list statusWriter) (c : Conn)
    : list statusWriter * Conn :=
  let '(tracked, c) := acts handler (wrapper :: ws, c) in
  let '(tracked, c) :=
    match tracked with
    | w :: _ => if panicked && negb (sw_committed w)
                then acts (writeError (New "internal server error") c) (tracked, c) else (tracked, c)
    | [] => (tracked, c)
    end in
  (tail tracked, c).

(** [accessLog]: the status it logs. *)
Definition accessLog (next : list statusWriter -> Conn -> list statusWriter * Conn) (c : Conn) : Z * Conn :=
  let '(ws, c) := next [wrapper] c in
  (match ws with w :: _ => sw_status w | [] => 200 end, c).

(** What net/http does when the handler returns. *)
Definition finish (c : Conn) : Conn := conn_header 200 c.

(** [requestID] and the rest of the chain, around what the routed handler does: the
    logged status, if the request got as far as the log, and the connection. *)
Definition chain (q : Request) (dw : Draw) (handler : list action) (panicked : bool) : option Z * Conn :=
  let c := mkConn ∅ None [] in
  match request_id q dw with
  | Fail _ =>
      let c := set_header "X-Request-ID" ("req-" +:+ dw_request dw) c in
      (None, finish (acts (writeError (Sentinel ErrInvalid) c) ([], c)).2)
  | Ok rid =>
      let c := set_header "X-Request-ID" rid c in
      let '(status, c) := accessLog (recoverer (contentTypeJSON handler) panicked) c in
      (Some status, finish c)
  end.
End chain.

(** ** Lemmas *)

(** Wrappers in step with the connection: each has the status that was sent, if one was. *)
Definition in_step (w : statusWriter) (c : Conn) : Prop :=
  match cn_sent c with
  | Some (status, _) => sw_committed w = true /\ sw_status w = status
  | None => w = wrapper
  end.
Definition all_in_step (st : list statusWriter * Conn) : Prop := List.Forall (fun w => in_step w st.2) st.1.

Lemma WriteHeader_fresh status ws c : cn_sent c = None -> List.Forall (fun w => w = wrapper) ws ->
  WriteHeader status ws c = (map (fun _ => mkStatusWriter status true) ws, conn_header status c).
Proof. intros Hc Hws. induction Hws as [|w ws -> Hws IH]; [done|]. simpl. by rewrite IH. Qed.
Lemma WriteHeader_sent status ws c st : cn_sent c = Some st -> List.Forall (fun w => sw_committed w = true) ws ->
  WriteHeader status ws c = (ws, c).
Proof.
  intros Hc Hws. destruct Hws as [|w ws Hw Hws]; simpl; [|by rewrite Hw].
  unfold conn_header. by rewrite Hc.
Qed.

Lemma write_through_sent n data ws c : n = length ws -> List.Forall (fun w => sw_committed w = true) ws ->
  write_through n data ws c = (ws, conn_write data c).
Proof.
  intros -> Hws. revert c. induction Hws as [|w ws Hw Hws IH]; intros c; [done|]. simpl. by rewrite Hw, IH.
Qed.

Lemma conn_write_header data c : conn_write data (conn_header 200 c) = conn_write data c.
Proof. unfold conn_write, conn_header. by destruct (cn_sent c) as [st|] eqn:E; simpl; rewrite ?E. Qed.

Lemma all_in_step_sent ws c st : all_in_step (ws, c) -> cn_sent c = Some st ->
  List.Forall (fun w => sw_committed w = true) ws.
Proof.
  unfold all_in_step, in_step. simpl. intros Hws E. rewrite E in Hws. destruct st as [status h].
  eapply List.Forall_impl; [|exact Hws]. by intros w [Hw _].
Qed.

(** What an action does to wrappers in step. *)
Lemma act_in_step a ws c : all_in_step (ws, c) ->
  act a (ws, c) =
    match a with
    | SetHeader key value => (ws, set_header key value c)
    | Status status => (map (fun w => match cn_sent c with None => mkStatusWriter status true | _ => w end) ws,
                        conn_header status c)
    | Bytes data => (map (fun w => match cn_sent c with None => mkStatusWriter 200 true | _ => w end) ws,
                     conn_write data c)
    end.
Proof.
  intros Hws. destruct a as [key value|status|data]; [done|..]; simpl; destruct (cn_sent c) as [st|] eqn:Hc.
  - rewrite (WriteHeader_sent _ _ _ st Hc) by by eapply all_in_step_sent. rewrite map_id.
    unfold conn_header. by rewrite Hc.
  - unfold all_in_step, in_step in Hws. simpl in Hws. rewrite Hc in Hws. by apply WriteHeader_fresh.
  - rewrite map_id. unfold Write. apply write_through_sent; [done|]. by eapply all_in_step_sent.
  - unfold all_in_step, in_step in Hws. simpl in Hws. rewrite Hc in Hws. unfold Write.
    destruct Hws as [|w ws -> Hws]; [done|]. simpl. rewrite WriteHeader_fresh by done.
    rewrite write_through_sent; [| by simpl; rewrite length_map |].
    + by rewrite conn_write_header.
    + apply List.Forall_forall. intros w [x [<- _]]%in_map_iff. done.
Qed.

Lemma act_keeps_step a st : all_in_step st -> all_in_step (act a st).
Proof.
  destruct st as [ws c]. intros Hws. rewrite act_in_step by done. unfold all_in_step, in_step in *. simpl in Hws.
  destruct a as [key value|status|data]; simpl; [done|..]; unfold conn_header; destruct (cn_sent c) as [[st h]|] eqn:Hc;
    simpl; rewrite ?Hc; try (by rewrite map_id); apply List.Forall_forall; intros w [x [<- _]]%in_map_iff; done.
Qed.
Lemma acts_keep_step l st : all_in_step st -> all_in_step (acts l st).
Proof. revert st. induction l as [|a l IH]; intros st Hst; simpl; [done|]. by apply IH, act_keeps_step. Qed.

(** What a list of actions comes to: the status it decides, the bytes it writes, the
    headers it sets. *)
Fixpoint decided (l : list action) : option Z :=
  match l with
  | [] => None
  | SetHeader _ _ :: l => decided l
  | Status status :: _ => Some status
  | Bytes _ :: _ => Some 200
  end.
Definition bytes_of (l : list action) : list string :=
  omap (fun a => match a with Bytes data => Some data | _ => None end) l.
Definition spares (key : string) (a : action) : Prop :=
  match a with SetHeader k _ => CanonicalHeaderKey k <> CanonicalHeaderKey key | _ => True end.
Definition sent_status (c : Conn) : option Z := fst <$> cn_sent c.
(** The header [key] is [value], and was when the status was sent. *)
Definition tagged (key value : string) (c : Conn) : Prop :=
  Header_Get (cn_header c) key = value /\
  (forall status h, cn_sent c = Some (status, h) -> Header_Get h key = value).

Lemma acts_app l l' st : acts (l ++ l') st = acts l' (acts l st).
Proof. apply fold_left_app. Qed.
Lemma act_below a ws c : all_in_step (ws, c) ->
  length (act a (ws, c)).1 = length ws /\
  sent_status (act a (ws, c)).2 = match cn_sent c with Some st => Some st.1 | None => decided [a] end /\
  cn_body (act a (ws, c)).2 = cn_body c ++ bytes_of [a].
Proof.
  intros Hws. rewrite act_in_step by done. unfold sent_status.
  destruct a; simpl; unfold conn_header; destruct (cn_sent c) as [[]|] eqn:E; simpl;
    rewrite ?E, ?length_map, ?app_nil_r; done.
Qed.
Lemma acts_below l ws c : all_in_step (ws, c) ->
  length (acts l (ws, c)).1 = length ws /\
  sent_status (acts l (ws, c)).2 = match cn_sent c with Some st => Some st.1 | None => decided l end /\
  cn_body (acts l (ws, c)).2 = cn_body c ++ bytes_of l.
Proof.
  revert ws c. induction l as [|a l IH]; intros ws c Hws.
  { unfold sent_status. simpl. destruct (cn_sent c) as [[]|]; simpl; by rewrite app_nil_r. }
  destruct (act_below a ws c Hws) as (H1 & H2 & H3).
  pose proof (act_keeps_step a _ Hws) as Hk.
  change (acts (a :: l) (ws, c)) with (acts l (act a (ws, c))).
  destruct (act a (ws, c)) as [ws1 c1]. cbn [fst snd] in *.
  destruct (IH ws1 c1 Hk) as (I1 & I2 & I3). rewrite I1, I2, I3, H3, <- app_assoc. split; [done|].
  unfold sent_status in H2. split.
  - destruct (cn_sent c1) as [[]|]; simpl in *; destruct (cn_sent c); destruct a; simpl in *; congruence.
  - destruct a; done.
Qed.
Lemma act_tagged key value a ws c : all_in_step (ws, c) -> spares key a -> tagged key value c ->
  tagged key value (act a (ws, c)).2.
Proof.
  intros Hws Ha [H1 H2]. rewrite act_in_step by done. unfold tagged.
  destruct a as [k v|status|data]; cbn [fst snd].
  - split; [|done]. etrans; [|exact H1]. unfold Header_Get. f_equal. by apply (lookup_insert_ne (M:=gmap string)).
  - unfold conn_header. destruct (cn_sent c) as [[]|] eqn:E; simpl; [by rewrite E|].
    split; [done|]. by intros ?? [= <- <-].
  - unfold conn_write, conn_header. destruct (cn_sent c) as [[]|] eqn:E; simpl; [by rewrite E|].
    split; [done|]. by intros ?? [= <- <-].
Qed.
Lemma acts_tagged key value l ws c : all_in_step (ws, c) -> List.Forall (spares key) l -> tagged key value c ->
  tagged key value (acts l (ws, c)).2.
Proof.
  intros Hws Hl. revert ws c Hws. induction Hl as [|a l Ha Hl IH]; intros ws c Hws Ht; [done|].
  change (acts (a :: l) (ws, c)) with (acts l (act a (ws, c))).
  pose proof (act_keeps_step a _ Hws) as Hk. pose proof (act_tagged _ _ a ws c Hws Ha Ht) as Ht'.
  destruct (act a (ws, c)) as [ws1 c1]. by apply IH.
Qed.

(** ** Properties *)

(** The program's rendering of a response sends its status and nothing before it. *)
Lemma render_decides encode r : decided (render encode r) = Some (rs_Status r).
Proof. unfold render. by destruct (rs_Payload r). Qed.

(** The recoverer, entered with the connection unanswered. *)
Lemma recoverer_result encode l panicked rid c : cn_sent c = None -> cn_body c = [] ->
  tagged "X-Request-ID" rid c -> List.Forall (spares "X-Request-ID") l ->
  let st := recoverer encode (contentTypeJSON l) panicked [wrapper] c in
  all_in_step st /\ length st.1 = 1%nat /\
  sent_status st.2 = match decided l with Some status => Some status | None => if panicked then Some 500 else None end /\
  cn_body st.2 = bytes_of l ++
    (if panicked && bool_decide (decided l = None)
     then [encode (PError (mkErrorBody "internal_error" "internal server error" rid))] else []) /\
  tagged "X-Request-ID" rid st.2.
Proof.
  intros Hc Hb Ht Hl. unfold recoverer, contentTypeJSON. set (ops := SetHeader _ _ :: l).
  assert (all_in_step ([wrapper; wrapper], c)) as Hs.
  { unfold all_in_step, in_step. simpl. rewrite Hc. by repeat constructor. }
  assert (List.Forall (spares "X-Request-ID") ops) as Ho by (constructor; [vm_compute; congruence|done]).
  destruct (acts_below ops _ _ Hs) as (H1 & H2 & H3). pose proof (acts_keep_step ops _ Hs) as Hk.
  pose proof (acts_tagged _ _ ops _ _ Hs Ho Ht) as Ht1.
  destruct (acts ops _) as [[|w [|w' [|]]] c1]; try done. cbn [fst snd] in *. rewrite Hc, Hb in *. simpl in H2, H3.
  assert (sw_committed w = bool_decide (decided l <> None)) as Hw.
  { inversion_clear Hk as [|?? Hw _]. unfold in_step in Hw. simpl in Hw. unfold sent_status in H2.
    destruct (cn_sent c1) as [[]|]; simpl in H2; rewrite <- H2; [by destruct Hw as [-> _] | by rewrite Hw]. }
  assert (all_in_step ([w'], c1)) as Hk' by (by inversion_clear Hk).
  rewrite Hw. destruct panicked; cbn [andb negb]; cycle 1.
  { cbn [fst snd tail]. rewrite app_nil_r, H2. by destruct (decided l). }
  destruct (decided l) as [status|] eqn:El.
  { rewrite !bool_decide_eq_true_2, bool_decide_eq_false_2 by done. cbn [fst snd tail negb]. by rewrite app_nil_r. }
  rewrite (bool_decide_eq_false_2 (None <> None)), (bool_decide_eq_true_2 (None = None)) by first [done | by intros []]. cbn [negb].
  set (l2 := writeError encode (New "internal server error") c1).
  destruct (acts_below l2 _ _ Hk) as (I1 & I2 & I3). pose proof (acts_keep_step l2 _ Hk) as Ik.
  assert (tagged "X-Request-ID" rid (acts l2 ([w; w'], c1)).2) as It.
  { apply acts_tagged; [done| |done]. repeat constructor; vm_compute; congruence. }
  destruct (acts l2 _) as [[|u [|u' [|]]] c2]; try done. cbn [fst snd tail] in *.
  inversion_clear Ik. unfold sent_status in H2. destruct (cn_sent c1); [done|]. rewrite I2, I3, H3. split_and!; try done.
  by destruct Ht1 as [<- _].
Qed.

(** C27: Every request that the chain lets in is answered with exactly one status, the
    one its handler decides (200 when it decides none), which is also the status that
    is logged; a panic before anything was sent is answered with status 500 and the
    JSON error body, a panic after it leaves the answer as it is; and the identifier of
    the request is in the header that was sent.  Nothing is written but what the
    handler wrote and that error body. *)
Theorem chain_answers (encode : payload -> string) (q : Request) (dw : Draw) (l : list action) (panicked : bool)
    (rid : string) : request_id q dw = Ok rid ->
  List.Forall (spares "X-Request-ID") l ->
  let status := match decided l with Some status => status | None => if panicked then 500 else 200 end in
  let '(logged, c) := chain encode q dw l panicked in
  logged = Some status /\ sent_status c = Some status /\ tagged "X-Request-ID" rid c /\
  cn_body c = bytes_of l ++
    (if panicked && bool_decide (decided l = None)
     then [encode (PError (mkErrorBody "internal_error" "internal server error" rid))] else []).
Proof.
  intros Hq Hl. unfold chain. rewrite Hq. set (c := set_header _ _ _). unfold accessLog.
  destruct (recoverer_result encode l panicked rid c) as (H1 & H2 & H3 & H4 & Ht); [done|done| |done|].
  { split; [|done]. trans (default EmptyString (Some rid)); [|done]. unfold Header_Get. f_equal. }
  destruct (recoverer _ _ _ _ _) as [[|w [|]] c1]; try done. cbn [fst snd] in *.
  inversion_clear H1 as [|?? Hw _]. unfold in_step in Hw. simpl in Hw. unfold sent_status, finish, conn_header in *.
  destruct (cn_sent c1) as [[s h]|] eqn:E; simpl in *; rewrite ?E.
  - destruct Hw as [_ ->]. rewrite H4. destruct (decided l), panicked; simplify_eq/=; done.
  - rewrite Hw, H4. destruct (decided l), panicked; simplify_eq/=. split_and!; [done..| |done].
    destruct Ht as [Ht _]. split; [done|]. by intros ?? [= <- <-].
Qed.

Lemma chain_answers_witness :
  request_id (mkRequest "GET" ["health"] "" " r-1 " "" "" "") (mkDraw 0 (Ok []) "" "") = Ok "r-1"%string /\
  sent_status (chain (fun _ => "{}"%string) (mkRequest "GET" ["health"] "" " r-1 " "" "" "")
    (mkDraw 0 (Ok []) "" "") [SetHeader "Retry-After" "1"] true).2 = Some 500.
Proof.
  assert (request_id (mkRequest "GET" ["health"] "" " r-1 " "" "" "") (mkDraw 0 (Ok []) "" "") = Ok "r-1"%string) as E
    by reflexivity.
  split; [exact E|].
  assert (List.Forall (spares "X-Request-ID") [SetHeader "Retry-After" "1"]) as Hl
    by (repeat constructor; vm_compute; congruence).
  pose proof (chain_answers (fun _ => "{}"%string) _ _ _ true _ E Hl) as H.
  destruct (chain _ _ _ _ _) as [logged c]. exact (proj1 (proj2 H)).
Defined.
