(* ===== verification/Maintenance.v ===== *)
(** * service/maintenance.go, retention.go and audit.go, and the auditing of batches

    The periodic clean-up of sessions, plans and stuck runs, the retention of
    telemetry, and the recording of audit events. *)
From S2P Require Import Prelude Errors GoStd Model Store Repo Frame Batch.

(** ** Maintenance *)
Class MaintenanceRepository := {
  VacuumSessions : Time -> M Z;
  ExpirePlans : Time -> M Z;
  FinishStaleRuns : Time -> M Z
}.

Record MaintenanceReport := mkMaintenanceReport { mr_SessionsDeleted : Z; mr_PlansExpired : Z; mr_RunsFailed : Z }.

(** [MaintenanceService.Run] and [Scheduler.RunOnce], which calls it. *)
Definition MaintenanceService_Run `{MaintenanceRepository} (now : Time) : M MaintenanceReport :=
  if IsZero now then mfail (New "maintenance clock returned zero time")
  else
    sessions ← map_err (wrap_prefix "vacuum sessions") (VacuumSessions now);
    plans ← map_err (wrap_prefix "expire plans") (ExpirePlans now);
    runs ← map_err (wrap_prefix "finish stale runs") (FinishStaleRuns (Add now (- (15 * Minute))));
    mret (mkMaintenanceReport sessions plans runs).

Definition Scheduler_RunOnce `{MaintenanceRepository} (now : Time) : M MaintenanceReport := MaintenanceService_Run now.

(** ** Retention *)
Class RetentionRepository := {
  DeleteTelemetryBefore : Time -> M Z;
  DeleteExpiredSessions : Time -> M Z
}.

Record RetentionReport := mkRetentionReport { rr_TelemetryDeleted : Z; rr_SessionsDeleted : Z; rr_Cutoff : Time }.

(** [RetentionService.Run]. *)
Definition RetentionService_Run `{RetentionRepository} (telemetryAge sessionAge : Duration) (now : Time) : M RetentionReport :=
  if (telemetryAge <=? 0) || (sessionAge <=? 0) then mfail (New "retention is not configured")
  else if IsZero now then mfail (New "clock returned zero time")
  else
    telemetry ← map_err (wrap_prefix "delete telemetry") (DeleteTelemetryBefore (Add now (- telemetryAge)));
    sessions ← map_err (wrap_prefix "delete sessions") (DeleteExpiredSessions (Add now (- sessionAge)));
    mret (mkRetentionReport telemetry sessions (Add now (- telemetryAge))).

(** ** Audit *)
Class AuditRepository := { AddAudit : AuditEvent -> M unit }.

(** [AuditService.Record]. *)
Definition AuditService_Record `{AuditRepository} (household : Z) (member : option Z)
    (requestID objectType objectID action : string) (payload : json) : M unit :=
  if (household <=? 0) || bool_decide (requestID = "") || bool_decide (objectType = "")
     || bool_decide (objectID = "") || bool_decide (action = "")
  then mfail (Sentinel ErrInvalid)
  else _ ← lift_err (Marshal_error payload);
       AddAudit (mkAudit 0 household member requestID objectType objectID action (Some payload) zeroTime).

Definition errorText (e : option error) : string :=
  match e with None => "" | Some e => Error e end.

(** [BatchService.AuditResult]. *)
Definition AuditResult `{AuditRepository} `{TimeFormat} (household : Z) (member : option Z) (requestID : string)
    (r : BatchResult) : M unit :=
  if (br_DeviceID r <=? 0) || bool_decide (requestID = "") then mfail (Sentinel ErrInvalid)
  else AuditService_Record household member requestID "device" (Sprint (br_DeviceID r))
         (match br_Error r with Some _ => "failed" | None => "accepted" end)
         (JObject [("error"%string, JString (errorText (br_Error r)));
                   ("finished_at"%string, JString (RFC3339Nano (br_Finished r)))]).

(** ** The repository *)
Section implementation.
Context `{PG : Postgres}.

#[export] Instance Repository_maintenance : MaintenanceRepository := {|
  VacuumSessions := Repo.VacuumSessions;
  ExpirePlans := Repo.ExpirePlans;
  FinishStaleRuns := Repo.FinishStaleRuns
|}.
#[export] Instance Repository_retention : RetentionRepository := {|
  DeleteTelemetryBefore := Repo.DeleteTelemetryBefore;
  DeleteExpiredSessions := Repo.DeleteExpiredSessions
|}.
#[export] Instance Repository_audit : AuditRepository := {| AddAudit := Repo.AddAudit |}.

(** An [UPDATE] over the rows of a condition that its own result no longer meets. *)
Lemma update_rows_settles {R} `{Table R} (cond : R -> bool) (upd : R -> Time -> R) d now n d' :
  (forall r t, cond r = true -> cond (upd r t) = false) ->
  update_rows cond upd d now = (Ok n, d') ->
  n = Z.of_nat (size (filter (fun kv => cond kv.2 = true) (rows d))) /\
  (forall id r, rows d' !! id = Some r -> cond r = false) /\ d' = set_rows (rows d') d.
Proof.
  intros Hoff. unfold update_rows. case_bool_decide; [|done]. intros [= <- <-].
  split; [done|]. split; [|by rewrite rows_set]. intros id r. rewrite rows_set, lookup_fmap.
  destruct (rows d !! id) as [r0|]; [|done]. simpl. intros [= <-]. destruct (cond r0) eqn:E; auto.
Qed.

Lemma update_rows_idle {R} `{Table R} (cond : R -> bool) (upd : R -> Time -> R) d now :
  (forall id r, rows d !! id = Some r -> cond r = false) -> set_rows (rows d) d = d ->
  update_rows cond upd d now = (Ok 0, d).
Proof.
  intros Hno Hid. unfold update_rows.
  assert (filter (fun kv => cond kv.2 = true) (rows d) = ∅) as ->.
  { apply map_empty_filter. intros id r Hr. simpl. by rewrite (Hno id r Hr). }
  rewrite bool_decide_eq_true_2 by apply map_Forall_empty. rewrite map_size_empty. f_equal.
  assert ((fun r => if cond r then upd r now else r) <$> rows d = rows d) as ->; [|done].
  apply map_eq. intros id. rewrite lookup_fmap. destruct (rows d !! id) as [r|] eqn:Hr; [|done].
  simpl. by rewrite (Hno id r Hr).
Qed.
End implementation.

(** ** Properties *)
Section properties.
Context `{PG : Postgres}.

Definition expirable (now : Time) (p : EnergyPlan) : bool :=
  bool_decide (p_State p ∈ [PlanDraft; PlanScheduled]) && (p_EndsAt p <? ts_in now).

Definition live (now : Time) (d : Database) : Database :=
  set_sessions (filter (fun kv => session_dead (ts_in now) kv.2 = false) (sessions d)) d.
Definition cancel (p : EnergyPlan) (_ : Time) : EnergyPlan := with_plan_state PlanCancelled p.
Definition time_out (r : AutomationRun) (now : Time) : AutomationRun :=
  with_run_state RunFailed (Some "worker timeout"%string) (r_StartedAt r) (Some now) r.

(** A whole cycle on a store of its own. *)
Lemma Maintenance_quiet now d t : now <> 0 ->
  MaintenanceService_Run now (quiet_store d t) =
  let d1 := live now d in
  match update_rows (expirable now) cancel d1 t with
  | (Fail e, d2) => (Fail (wrap_prefix "expire plans" e), quiet_store d2 t)
  | (Ok plans, d2) =>
      match update_rows (stale (now - 15 * Minute)) time_out d2 t with
      | (Fail e, d3) => (Fail (wrap_prefix "finish stale runs" e), quiet_store d3 t)
      | (Ok runs, d3) =>
          (Ok (mkMaintenanceReport
                 (Z.of_nat (size (filter (fun kv => session_dead (ts_in now) kv.2 = true) (sessions d)))) plans runs),
           quiet_store d3 t)
      end
  end.
Proof.
  intros Hz. unfold MaintenanceService_Run, IsZero. rewrite (proj2 (Z.eqb_neq _ _) Hz).
  change (@VacuumSessions _) with (@Repo.VacuumSessions PG). change (@ExpirePlans _) with (@Repo.ExpirePlans PG).
  change (@FinishStaleRuns _) with (@Repo.FinishStaleRuns PG).
  rewrite bind_run, map_err_run. unfold Repo.VacuumSessions, Repo.DeleteExpiredSessions, IsZero.
  rewrite (proj2 (Z.eqb_neq _ _) Hz), statement_quiet. cbn [delete_sessions fst snd]. fold (live now d).
  rewrite bind_run, map_err_run. unfold Repo.ExpirePlans. rewrite statement_quiet.
  unfold expire_plans. fold (expirable now) cancel.
  destruct (update_rows (expirable now) cancel (live now d) t) as [[plans|e] d2] eqn:H2; cbn [fst snd]; [|done].
  rewrite bind_run, map_err_run. unfold Repo.FinishStaleRuns. rewrite statement_quiet.
  change (Add now (- (15 * Minute))) with (now - 15 * Minute). unfold finish_stale_runs. fold time_out.
  by destruct (update_rows (stale (now - 15 * Minute)) time_out d2 t) as [[runs|e] d3]; cbn [fst snd].
Qed.

Lemma live_idle now d : (forall id s, sessions d !! id = Some s -> session_dead (ts_in now) s = false) ->
  live now d = d /\ filter (fun kv => session_dead (ts_in now) kv.2 = true) (sessions d) = ∅.
Proof.
  intros Hno. split.
  - unfold live. assert (filter (fun kv => session_dead (ts_in now) kv.2 = false) (sessions d) = sessions d) as ->.
    { apply map_filter_id. intros id s Hs. by apply (Hno id). }
    by destruct d.
  - apply map_empty_filter. intros id s Hs. simpl. by rewrite (Hno id s Hs).
Qed.

Lemma expirable_settles now p t : expirable now p = true -> expirable now (cancel p t) = false.
Proof. done. Qed.
Lemma stale_settles cutoff r t : stale cutoff r = true -> stale cutoff (time_out r t) = false.
Proof. done. Qed.

(** C32: a maintenance cycle settles things: its report counts the dead sessions, the
    overdue plans and the runs stuck for a quarter of an hour, none of which is left,
    and a second cycle at the same time finds nothing and changes nothing. *)
Theorem maintenance_settles now d t report s' :
  MaintenanceService_Run now (quiet_store d t) = (Ok report, s') ->
  mr_SessionsDeleted report = Z.of_nat (size (filter (fun kv => session_dead (ts_in now) kv.2 = true) (sessions d))) /\
  mr_PlansExpired report = Z.of_nat (size (filter (fun kv => expirable now kv.2 = true) (energy_plans d))) /\
  mr_RunsFailed report = Z.of_nat (size (filter (fun kv => stale (now - 15 * Minute) kv.2 = true) (automation_runs d))) /\
  (forall id s, sessions (db s') !! id = Some s -> session_dead (ts_in now) s = false) /\
  (forall id p, energy_plans (db s') !! id = Some p -> expirable now p = false) /\
  (forall id r, automation_runs (db s') !! id = Some r -> stale (now - 15 * Minute) r = false) /\
  MaintenanceService_Run now s' = (Ok (mkMaintenanceReport 0 0 0), s').
Proof.
  intros Hrun. assert (now <> 0) as Hz by (intros ->; discriminate Hrun).
  rewrite Maintenance_quiet in Hrun by done. cbv zeta in Hrun.
  destruct (update_rows (expirable now) cancel (live now d) t) as [[plans|e] d2] eqn:H2; [|done].
  destruct (update_rows (stale (now - 15 * Minute)) time_out d2 t) as [[runs|e] d3] eqn:H3; [|done].
  injection Hrun as <- <-.
  apply update_rows_settles in H2 as (-> & Hplans & Hd2); [|intros; by apply expirable_settles].
  apply update_rows_settles in H3 as (-> & Hruns & Hd3); [|intros; by apply stale_settles].
  simpl in Hplans, Hruns, Hd2, Hd3.
  assert (forall id s, sessions d3 !! id = Some s -> session_dead (ts_in now) s = false) as Hsess.
  { intros id s. rewrite Hd3, Hd2. simpl. intros Hs. by apply map_lookup_filter_Some in Hs as [_ ?]. }
  assert (forall id p, energy_plans d3 !! id = Some p -> expirable now p = false) as Hplans3.
  { intros id p. rewrite Hd3. simpl. apply Hplans. }
  split; [done|]. split; [done|]. split; [by rewrite Hd2|]. split; [done|]. split; [done|]. split; [done|].
  destruct (live_idle now d3 Hsess) as [Hlive Hdead].
  rewrite Maintenance_quiet, Hlive by done. cbv zeta.
  rewrite (update_rows_idle (expirable now)) by (done || by destruct d3).
  rewrite (update_rows_idle (stale _)) by (done || by destruct d3).
  by rewrite Hdead.
Qed.
End properties.

(** ** Witness *)
Lemma maintenance_settles_witness :
  let _ := exact_postgres in
  let run := mkRun 9 3 "k" RunRunning None (Some 5) None in
  let d := set_automation_runs {[9 := run]} (set_sessions {["u" := mkSession "u" 4 50 None 1]} empty_database) in
  exists s', MaintenanceService_Run (Hour + 60) (quiet_store d 70) = (Ok (mkMaintenanceReport 1 0 1), s') /\
    MaintenanceService_Run (Hour + 60) s' = (Ok (mkMaintenanceReport 0 0 0), s').
Proof.
  intros PG run d.
  assert (MaintenanceService_Run (Hour + 60) (quiet_store d 70) =
    (Ok (mkMaintenanceReport 1 0 1), (MaintenanceService_Run (Hour + 60) (quiet_store d 70)).2)) as Hrun
    by (vm_compute; reflexivity).
  eexists. split; [exact Hrun|].
  exact (proj2 (proj2 (proj2 (proj2 (proj2 (proj2 (maintenance_settles (Hour + 60) d 70 _ _ Hrun))))))).
Defined.
