(* ===== verification/Worker.v ===== *)
(** * package worker: the background workers

    Backoff and retry states, health checks, the guarded runner and the supervisor,
    and one poll of the automation [Runner].  The outbox runner is in [Outbox]; the
    maintenance scheduler calls [Maintenance]. *)
From S2P Require Import Prelude Errors GoStd Model Store Repo Frame Automations Outbox Batch.

(** ** backoff.go *)
Record Backoff := mkBackoff { bo_Base : Duration; bo_Max : Duration }.

Fixpoint double (max d : Duration) (n : nat) : Duration :=
  match n with
  | O => if max <? d then max else d
  | S n' => if Z.quot max 2 <=? d then max else double max (wrap64 (d * 2)) n'
  end.

(** [Backoff.Duration]. *)
Definition Backoff_Duration (b : Backoff) (attempt : Z) : Duration :=
  if attempt <? 1 then bo_Base b else double (bo_Max b) (bo_Base b) (Z.to_nat (attempt - 1)).

(** ** recovery.go: retry states *)
Record RetryState := mkRetryState {
  rt_Attempt : Z; rt_Limit : Z; rt_Next : Time; rt_LastError : string; rt_Permanent : bool }.

Definition RetryState_Validate (s : RetryState) : option error :=
  if (rt_Attempt s <? 0) || (rt_Limit s <? 0) || (rt_Limit s <? rt_Attempt s) then Some (New "invalid retry state")
  else if (0 <? rt_Attempt s) && IsZero (rt_Next s) then Some (New "retry time is required")
  else if rt_Permanent s && (rt_Attempt s <? rt_Limit s) then Some (New "permanent state before retry limit")
  else None.

Definition NextRetry (s : RetryState) (cause : option error) (now : Time) (backoff : Z -> Duration) : RetryState :=
  let attempt := wrap64 (rt_Attempt s + 1) in
  if rt_Limit s <=? attempt then mkRetryState attempt (rt_Limit s) now (errorString cause) true
  else mkRetryState attempt (rt_Limit s) (Add now (backoff attempt)) (errorString cause) (rt_Permanent s).

(** Health checks: [order] is the order the goroutines finish in, [now] their clock
    readings; a nil check is [None].  [sort.Strings] compares bytes. *)
Record Health := mkHealth { hl_Name : string; hl_Healthy : bool; hl_CheckedAt : Time; hl_Error : string }.
Definition zeroHealth : Health := mkHealth "" false zeroTime "".

Definition string_less (a b : string) : bool := String.ltb a b.

Definition quote : string := String (Ascii.ascii_of_nat 34) "".
Definition run_check (checks : gmap string (option (option error))) (name : string) (now : Time) : Health :=
  let err := match checks !! name with
             | Some (Some answer) => answer
             | _ => Some (New ("health check " +:+ quote +:+ name +:+ quote +:+ " is not configured"))
             end in
  mkHealth name (bool_decide (err = None)) now (errorString err).

Definition RunHealthChecks `{SliceSort} (checks : gmap string (option (option error))) (now : nat -> Time)
    (order : list nat) : list Health :=
  let keys := sort_Slice string_less (map fst (map_to_list checks)) in
  write_all (fun i => run_check checks (nth i keys "") (now i)) order (replicate (length keys) zeroHealth).

(** The guarded runner: how [Run] ends. *)
Inductive run_end := Stopped (err : option error) | Panicked (value : string).

Definition GuardedRunner_Serve (run : option run_end) : option error :=
  match run with
  | None => Some (New "runner is not configured")
  | Some (Panicked value) => Some (New ("worker panic: " +:+ value))
  | Some (Stopped None) => None
  | Some (Stopped (Some e)) => if Is e Canceled then None else Some (wrap_prefix "worker stopped" e)
  end.

(** ** supervisor.go: [RunOnce] over jobs acting on the store; and what [Start] starts *)
Record Job := mkJob { jb_Name : string; jb_Run : option (M unit); jb_Interval : Duration }.

Fixpoint RunOnce (jobs : list Job) : M unit :=
  match jobs with
  | [] => mret tt
  | job :: rest =>
      match jb_Run job with
      | None => mfail (New "supervised job is not configured")
      | Some run => _ ← run; RunOnce rest
      end
  end.

(** The jobs that get a ticker, with its period; [Supervisor] has their goroutines. *)
Definition job_interval (j : Job) : Duration := if jb_Interval j <=? 0 then Minute else jb_Interval j.
Definition supervised (jobs : list Job) : list (string * Duration) :=
  omap (fun job => match jb_Run job with
                   | None => None
                   | Some _ => Some (jb_Name job, job_interval job)
                   end) jobs.

(** ** worker.go: one poll of the automation runner

    [ctx] is the state of the context when the run executes, [started] the reading of
    the service's clock and [failed] that of [time.Now] when a failure is recorded. *)
Section runner.
Context `{PG : Postgres}.

Definition effective_workers (n : Z) : Z := if n <? 1 then 1 else n.
Definition effective_interval (d : Duration) : Duration := if d <=? 0 then 100 * Millisecond else d.

Definition Runner_process (ctx : Ctx) (locked : gset Z) (started failed : Time) : M (option AutomationRun) := fun s =>
  match ClaimRun locked s with
  | (Fail _, s) => (Ok None, s)
  | (Ok run, s) =>
      match Execute ctx (r_ID run) started s with
      | (Ok _, s) => (Ok (Some run), s)
      | (Fail err, s) =>
          let persist := if is_ctx_error err then RequeueRun (r_ID run)
                         else FinishRun (r_ID run) RunFailed (Error err) failed in
          (Ok (Some run), (logged (under (persistenceContext ctx) persist) s).2)
      end
  end.
End runner.

(** ** Lemmas *)
Lemma double_spec max d n :
  0 <= d -> 0 <= max <= int64_max -> Z.min max (d * 2 ^ Z.of_nat n) <= double max d n <= max.
Proof.
  revert d. induction n as [|n IH]; intros d Hd Hm; cbn [double].
  - change (2 ^ Z.of_nat 0) with 1. destruct (max <? d) eqn:E; bsimp; lia.
  - destruct (Z.quot max 2 <=? d) eqn:E; bsimp; [lia|].
    rewrite Z.quot_div_nonneg in E by lia.
    assert (d * 2 <= max) by (pose proof (Z.mul_div_le max 2 ltac:(lia)); lia).
    rewrite wrap64_small by (unfold is_int64, int64_min; lia).
    rewrite Nat2Z.inj_succ, Z.pow_succ_r by lia.
    replace (d * (2 * 2 ^ Z.of_nat n)) with (d * 2 * 2 ^ Z.of_nat n) by ring. apply IH; lia.
Qed.

(** A failed attempt keeps a retry state valid until the limit makes it permanent. *)
Lemma NextRetry_valid s cause now backoff :
  RetryState_Validate s = None -> rt_Attempt s < rt_Limit s -> is_int64 (rt_Limit s) ->
  now <> 0 -> (forall n, now + backoff n <> 0) ->
  let s' := NextRetry s cause now backoff in
  RetryState_Validate s' = None /\ rt_Attempt s' = rt_Attempt s + 1 /\
  (rt_Permanent s' = true <-> rt_Attempt s' = rt_Limit s).
Proof.
  intros Hv Hlt Hl Hnow Hb. unfold RetryState_Validate in Hv. guards Hv.
  assert (rt_Permanent s = false) as Hp.
  { destruct (rt_Permanent s); [bcases; try done; lia|done]. }
  cbv zeta. unfold NextRetry, IsZero, Add. rewrite wrap64_small by (unfold is_int64, int64_min, int64_max in *; lia).
  destruct (rt_Limit s <=? rt_Attempt s + 1) eqn:E; bsimp; unfold RetryState_Validate, IsZero; simpl.
  - split; [repeat case_match; bcases; try done; lia|]. split; [done|]. split; [lia|done].
  - specialize (Hb (rt_Attempt s + 1)). rewrite Hp.
    split; [repeat case_match; bcases; try done; lia|]. split; [done|]. split; [done|lia].
Qed.

Section settling.
Context `{PG : Postgres}.

Lemma enqueue_actions_undisturbed h a r t items : undisturbed (enqueue_actions h a r t items).
Proof.
  induction items as [|item items IH]; cbn [enqueue_actions]; [auto with undisturbed|].
  case_match; [auto with undisturbed|]. apply undisturbed_bind; auto with undisturbed.
Qed.

Lemma execute_run_undisturbed id t : undisturbed (execute_run id t).
Proof.
  unfold execute_run. apply undisturbed_bind; [auto with undisturbed|]. intros [aid hid].
  apply undisturbed_bind; [auto with undisturbed|]. intros actions.
  apply undisturbed_bind; [auto with undisturbed|]. intros [].
  apply undisturbed_bind; [apply enqueue_actions_undisturbed|]. intros [].
  apply undisturbed_bind; auto with undisturbed.
Qed.

(** On an undisturbed store an execution either fails and leaves the tables alone, or
    the run has succeeded and the other runs are as before. *)
Lemma Execute_undisturbed ctx id now s r s' :
  schedule s = [] -> Execute ctx id now s = (r, s') ->
  schedule s' = [] /\
  ((exists e, r = Fail e) /\ (exists q, db s' = set_seqs q (db s)) \/
   r = Ok tt /\ exists run, automation_runs (db s) !! id = Some run /\
     automation_runs (db s') = <[id := finish_succeeded now run]> (automation_runs (db s))).
Proof.
  intros Hs Hrun.
  assert (forall e, (r, s') = (Fail e, s) -> schedule s' = [] /\ ((exists e, r = Fail e) /\ (exists q, db s' = set_seqs q (db s)) \/
    r = Ok tt /\ exists run, automation_runs (db s) !! id = Some run /\
      automation_runs (db s') = <[id := finish_succeeded now run]> (automation_runs (db s)))) as Hfail.
  { intros e [= -> ->]. split; [done|]. left. split; [by exists e|]. exists (seqs (db s)). by destruct (db s). }
  unfold Execute in Hrun. destruct (id <=? 0); [by eapply Hfail|].
  destruct (ctx_Err ctx); [by eapply Hfail|].
  change (@ExecuteAutomationRun _) with (@Repo.ExecuteAutomationRun PG) in Hrun.
  unfold Repo.ExecuteAutomationRun in Hrun. destruct (_ || _); [by eapply Hfail|].
  destruct (undisturbed_WithTx _ (execute_run_undisturbed id now) s Hs) as [Hs' _].
  rewrite Hrun in Hs'. split; [done|].
  rewrite (WithTx_undisturbed_run _ s Hs (execute_run_undisturbed id now)) in Hrun.
  destruct (execute_run id now (begin_tx s)) as [[[]|e] s1] eqn:He; injection Hrun as <- <-; [right|left].
  - split; [done|]. apply execute_run_tx in He; [|done].
    destruct He as (run & a & Hr & _ & _ & _ & _ & _ & _ & Hruns & _). by exists run.
  - split; [by eexists|]. by eexists.
Qed.

(** Recording the outcome of a run that is running. *)
Lemma logged_update id to e f (upd : AutomationRun -> Time -> result AutomationRun) s run :
  schedule s = [] -> automation_runs (db s) !! id = Some run -> is_running run = true ->
  upd run (clock s) = Ok to -> r_State to ∈ run_states ->
  automation_runs (db (logged (require_one e (map_err f (statement (update_row id (fun _ => is_running) upd)))) s).2) =
  <[id := to]> (automation_runs (db s)).
Proof.
  intros Hs Hr Hc Hu Hst. unfold logged, require_one. cbn [snd].
  rewrite bind_run, map_err_run, statement_undisturbed_run by done. unfold update_row; simpl.
  by rewrite Hr, Hc, Hu, bool_decide_eq_true_2.
Qed.
End settling.

(** ** Properties *)


Section settles.
Context `{PG : Postgres}.

(** How a poll leaves a claimed run: done, back in the queue when the context ended,
    or failed with the text of its error. *)
Definition settled (failed : Time) (run run' : AutomationRun) : Prop :=
  r_ID run' = r_ID run /\
  (r_State run' = RunSucceeded \/
   (r_State run' = RunQueued /\ r_StartedAt run' = None) \/
   (r_State run' = RunFailed /\ is_Some (r_ErrorText run') /\ r_FinishedAt run' = Some (ts_in failed))).

End settles.

(** Below the first attempt the maximum is not applied. *)
Lemma Backoff_before_first : Backoff_Duration (mkBackoff (10 * Second) Second) 0 = 10 * Second.
Proof. reflexivity. Qed.


Definition queued_run : AutomationRun := mkRun 9 2 "k" RunQueued None None None.

