(* ===== verification/Supervisor.v ===== *)
(** * worker/supervisor.go and [Runner.Run]: goroutines on tickers that are waited for

    [Supervisor.Start] starts a goroutine for every job; each runs its job at the ticks of
    its own ticker until the context is done, and [Supervisor.Wait] returns when all have
    returned.  [Runner.Run] does the same with its polling loops.  [group_step] is the
    life of such a group, from the first line of [Start] to the return of [Wait]. *)
From S2P Require Import Prelude Errors GoStd Model Store Repo Worker.

(** ** The group *)
Inductive phase := Waiting | Running | Returned.
#[export] Instance phase_eq_dec : EqDecision phase.
Proof. solve_decision. Defined.

Record Loop := mkLoop { lp_Name : string; lp_Interval : Duration; lp_phase : phase }.

(** [gp_starting] are the jobs [Start] has not come to, [gp_wg] the counter of the wait
    group, [gp_runs] the loops that took a tick, in order, [gp_logged] the errors that were
    logged and [gp_waited] whether [Wait] has returned. *)
Record Group := mkGroup {
  gp_starting : list Job; gp_loops : list Loop; gp_wg : Z; gp_ctx : Ctx;
  gp_runs : list nat; gp_logged : list (string * error); gp_waited : bool }.

Definition initial (jobs : list Job) : Group := mkGroup jobs [] 0 Live [] [] false.

(** One round of the loop of [Start]. *)
Definition start_job (j : Job) (g : Group) : Group :=
  match jb_Run j with
  | None => mkGroup (tail (gp_starting g)) (gp_loops g) (gp_wg g) (gp_ctx g) (gp_runs g)
      (gp_logged g ++ [(jb_Name j, New "supervised job is not configured")]) (gp_waited g)
  | Some _ => mkGroup (tail (gp_starting g))
      (gp_loops g ++ [mkLoop (jb_Name j) (job_interval j) Waiting])
      (gp_wg g + 1) (gp_ctx g) (gp_runs g) (gp_logged g) (gp_waited g)
  end.

Definition set_phase (p : phase) (l : Loop) : Loop := mkLoop (lp_Name l) (lp_Interval l) p.

(** What a goroutine does at a tick, when its job ends and when it sees the context done. *)
Definition tick (i : nat) (g : Group) : Group :=
  mkGroup (gp_starting g) (alter (set_phase Running) i (gp_loops g)) (gp_wg g) (gp_ctx g)
    (gp_runs g ++ [i]) (gp_logged g) (gp_waited g).
Definition job_ends (i : nat) (name : string) (err : option error) (g : Group) : Group :=
  mkGroup (gp_starting g) (alter (set_phase Waiting) i (gp_loops g)) (gp_wg g) (gp_ctx g) (gp_runs g)
    (gp_logged g ++ match err with Some e => [(name, e)] | None => [] end) (gp_waited g).
Definition loop_returns (i : nat) (g : Group) : Group :=
  mkGroup (gp_starting g) (alter (set_phase Returned) i (gp_loops g)) (gp_wg g - 1) (gp_ctx g)
    (gp_runs g) (gp_logged g) (gp_waited g).
Definition cancel (c : Ctx) (g : Group) : Group :=
  mkGroup (gp_starting g) (gp_loops g) (gp_wg g) c (gp_runs g) (gp_logged g) (gp_waited g).
Definition wait_returns (g : Group) : Group :=
  mkGroup (gp_starting g) (gp_loops g) (gp_wg g) (gp_ctx g) (gp_runs g) (gp_logged g) true.

(** A [select] with both channels ready may take either, so a loop may tick after the
    context is done.  The caller calls [Wait] after [Start].  Jobs return: a panic in one
    would end the process. *)
Inductive group_step : Group -> Group -> Prop :=
| step_start g j rest : gp_starting g = j :: rest -> group_step g (start_job j g)
| step_tick g i l : gp_loops g !! i = Some l -> lp_phase l = Waiting -> group_step g (tick i g)
| step_job_ends g i l err : gp_loops g !! i = Some l -> lp_phase l = Running ->
    group_step g (job_ends i (lp_Name l) err g)
| step_return g i l : gp_loops g !! i = Some l -> lp_phase l = Waiting -> ctx_Err (gp_ctx g) <> None ->
    group_step g (loop_returns i g)
| step_cancel g c : gp_ctx g = Live -> c <> Live -> group_step g (cancel c g)
| step_wait g : gp_starting g = [] -> gp_wg g = 0 -> group_step g (wait_returns g).

(** [Supervisor.Start] and [Wait] on these jobs lead to [g]. *)
Definition supervises (jobs : list Job) (g : Group) : Prop := rtc group_step (initial jobs) g.

(** [Runner.Run]: its loops all poll; the answer once [Wait] has returned. *)
Definition runner_jobs (workers : Z) (interval : Duration) (poll : nat -> M unit) : list Job :=
  map (fun id => mkJob (Sprint (Z.of_nat id)) (Some (poll id)) (effective_interval interval))
    (seq 0 (Z.to_nat (effective_workers workers))).
Definition Runner_Run (configured : bool) (g : Group) : option (option error) :=
  if configured then if gp_waited g then Some (ctx_Err (gp_ctx g)) else None
  else Some (Some (New "automation runner is not configured")).

(** ** Counting loops *)
Definition live (l : Loop) : nat := if bool_decide (lp_phase l = Returned) then 0 else 1.
(** The steps a loop needs to return once the context is done. *)
Definition distance (l : Loop) : nat :=
  match lp_phase l with Running => 2 | Waiting => 1 | Returned => 0 end.

Lemma sum_alter (f : Loop -> nat) p ls i l : ls !! i = Some l ->
  (sum_list_with f (alter (set_phase p) i ls) + f l = sum_list_with f ls + f (set_phase p l))%nat.
Proof.
  revert i. induction ls as [|x ls IH]; intros i; [done|]. destruct i as [|i]; simpl.
  - intros [= ->]. unfold alter. simpl. lia.
  - intros Hl. specialize (IH i Hl). unfold alter in *. simpl. lia.
Qed.

Lemma sum_zero (f : Loop -> nat) ls : sum_list_with f ls = 0%nat -> Forall (fun l => f l = 0%nat) ls.
Proof. induction ls as [|x ls IH]; simpl; intros Hs; constructor; [lia|]. apply IH. lia. Qed.

Lemma live_zero l : live l = 0%nat -> lp_phase l = Returned.
Proof. unfold live. by case_bool_decide. Qed.

Lemma names_alter p i ls :
  map (fun l => (lp_Name l, lp_Interval l)) (alter (set_phase p) i ls) = map (fun l => (lp_Name l, lp_Interval l)) ls.
Proof.
  revert i. induction ls as [|x ls IH]; intros [|i]; try done. unfold alter in *. simpl. by rewrite IH.
Qed.

(** ** The invariant *)
Definition group_inv (jobs : list Job) (g : Group) : Prop :=
  map (fun l => (lp_Name l, lp_Interval l)) (gp_loops g) ++ supervised (gp_starting g) = supervised jobs /\
  gp_wg g = Z.of_nat (sum_list_with live (gp_loops g)) /\
  (gp_ctx g = Live -> Forall (fun l => lp_phase l <> Returned) (gp_loops g)) /\
  (gp_waited g = true -> gp_starting g = [] /\ gp_wg g = 0).

Lemma alter_phase p i l ls : p <> Returned -> ls !! i = Some l ->
  Forall (fun l => lp_phase l <> Returned) ls -> Forall (fun l => lp_phase l <> Returned) (alter (set_phase p) i ls).
Proof.
  intros Hp Hl Hall. apply Forall_lookup. intros j x. destruct (decide (i = j)) as [->|Hne].
  - rewrite list_lookup_alter_eq, Hl. by intros [= <-].
  - rewrite list_lookup_alter_ne by done. intros Hx. exact (Forall_lookup_1 _ _ _ _ Hall Hx).
Qed.

Lemma waited_idle jobs g i l : group_inv jobs g -> gp_waited g = true -> gp_loops g !! i = Some l ->
  lp_phase l = Returned.
Proof.
  intros (_ & Hwg & _ & Hw) Hwait Hl. destruct (Hw Hwait) as [_ Hz].
  assert (sum_list_with live (gp_loops g) = 0%nat) as Hs by lia.
  apply sum_zero in Hs. eapply Forall_lookup_1 in Hs; [|done]. by apply live_zero.
Qed.

Lemma group_inv_kept jobs g g' : group_inv jobs g -> group_step g g' -> group_inv jobs g'.
Proof.
  intros (Hn & Hwg & Hl & Hw) Hstep.
  destruct Hstep as [g j rest Hj|g i l Hi Hp|g i l err Hi Hp|g i l Hi Hp Hc|g c Hc Hc'|g Hs Hz].
  - rewrite Hj in *. assert (gp_waited g <> true) as Hnw by (intros E; by destruct (Hw E)).
    unfold group_inv, start_job, supervised in *; simpl in Hn.
    destruct (jb_Run j); simpl; rewrite ?Hj; simpl; [|by split_and!].
    rewrite map_app, <-app_assoc. simpl. split_and!; [done| | |done].
    + rewrite sum_list_with_app. simpl. lia.
    + intros E. apply Forall_app. split; [by apply Hl|]. by repeat constructor.
  - pose proof (sum_alter live Running _ _ _ Hi) as Hsum. unfold live at 2 4 in Hsum. rewrite Hp in Hsum. simpl in Hsum.
    unfold group_inv; simpl. rewrite names_alter. split_and!; [done|lia| |done].
    intros E. by eapply alter_phase; [|done|apply Hl].
  - pose proof (sum_alter live Waiting _ _ _ Hi) as Hsum. unfold live at 2 4 in Hsum. rewrite Hp in Hsum. simpl in Hsum.
    unfold group_inv; simpl. rewrite names_alter. split_and!; [done|lia| |done].
    intros E. by eapply alter_phase; [|done|apply Hl].
  - pose proof (sum_alter live Returned _ _ _ Hi) as Hsum. unfold live at 2 4 in Hsum. rewrite Hp in Hsum. simpl in Hsum.
    unfold group_inv; simpl. rewrite names_alter. split_and!; [done|lia|intros E; by rewrite E in Hc|].
    intros E. destruct (Hw E). split; [done|]. lia.
  - by unfold group_inv; simpl.
  - by unfold group_inv; simpl.
Qed.

Lemma supervises_inv jobs g : supervises jobs g -> group_inv jobs g.
Proof.
  unfold supervises. apply (rtc_ind_r (group_inv jobs)); [|eauto using group_inv_kept].
  unfold group_inv, initial; simpl. by split_and!.
Qed.

(** ** Properties *)

(** What [Wait] has waited for stays so: no loop takes another tick. *)
Lemma waited_quiet jobs g g' : group_inv jobs g -> gp_waited g = true -> group_step g g' ->
  gp_waited g' = true /\ gp_runs g' = gp_runs g.
Proof.
  intros Hinv Hw Hstep.
  destruct Hstep as [g j rest Hj|g i l Hi Hp|g i l err Hi Hp|g i l Hi Hp Hc|g c Hc Hc'|g Hs Hz]; try done.
  - destruct Hinv as (_ & _ & _ & H). destruct (H Hw). congruence.
  - rewrite (waited_idle _ _ _ _ Hinv Hw Hi) in Hp. done.
Qed.

Lemma drains n : forall g, sum_list_with distance (gp_loops g) = n -> gp_starting g = [] -> gp_ctx g <> Live ->
  exists g', rtc group_step g g' /\ sum_list_with distance (gp_loops g') = 0%nat /\ gp_starting g' = [] /\
    gp_runs g' = gp_runs g.
Proof.
  induction n as [n IH] using lt_wf_ind. intros g Hn Hs Hc.
  destruct (decide (Forall (fun l => distance l = 0%nat) (gp_loops g))) as [Hz|Hnz].
  { exists g. split; [done|]. split; [|done]. clear Hn. induction Hz as [|l ls Hl _ IHl]; simpl; [done|]. by rewrite Hl, IHl. }
  apply not_Forall_Exists, Exists_exists in Hnz as (l & [i Hi]%list_elem_of_lookup & Hl); [|intros ?; apply _].
  simpl in Hl. unfold distance in Hl. destruct (lp_phase l) eqn:Hp; [| |done].
  - pose proof (sum_alter distance Returned _ _ _ Hi) as Hsum. unfold distance at 2 4 in Hsum. rewrite Hp in Hsum. simpl in Hsum.
    destruct (IH (sum_list_with distance (gp_loops (loop_returns i g))) ltac:(simpl; lia) (loop_returns i g) eq_refl Hs Hc)
      as (g' & Hrtc & H). exists g'. split; [|done]. eapply rtc_l; [|done]. eapply step_return; [done..|].
    by destruct (gp_ctx g).
  - pose proof (sum_alter distance Waiting _ _ _ Hi) as Hsum. unfold distance at 2 4 in Hsum. rewrite Hp in Hsum. simpl in Hsum.
    destruct (IH (sum_list_with distance (gp_loops (job_ends i (lp_Name l) None g))) ltac:(simpl; lia)
      (job_ends i (lp_Name l) None g) eq_refl Hs Hc) as (g' & Hrtc & H).
    exists g'. split; [|done]. eapply rtc_l; [|done]. by eapply step_job_ends.
Qed.

Lemma Wait_all_returned jobs g : group_inv jobs g -> gp_waited g = true ->
  map (fun l => (lp_Name l, lp_Interval l)) (gp_loops g) = supervised jobs /\
  Forall (fun l => lp_phase l = Returned) (gp_loops g) /\
  (supervised jobs <> [] -> ctx_Err (gp_ctx g) <> None).
Proof.
  intros Hinv Hwait. pose proof Hinv as (Hn & _ & Hl & Hw). destruct (Hw Hwait) as [Hs _].
  rewrite Hs, app_nil_r in Hn. split; [done|].
  assert (Forall (fun l => lp_phase l = Returned) (gp_loops g)) as Hall.
  { apply Forall_lookup. intros i l. by apply (waited_idle jobs). }
  split; [done|]. intros Hne Hlive. apply Hne. rewrite <-Hn.
  assert (gp_ctx g = Live) as E by by destruct (gp_ctx g).
  specialize (Hl E). destruct (gp_loops g) as [|l ls]; [done|].
  apply Forall_cons in Hl as [? _]. by apply Forall_cons in Hall as [? _].
Qed.

(** C38: the goroutines are accounted for: every configured job has one loop, with its own
    period; when [Wait] returns all of them have returned, which needs the context to be
    done if there is any, and none runs again; and once the context is done [Wait] can
    return without another tick, whatever the loops were doing. *)
Theorem Wait_protocol jobs g :
  supervises jobs g ->
  (gp_waited g = true ->
     map (fun l => (lp_Name l, lp_Interval l)) (gp_loops g) = supervised jobs /\
     Forall (fun l => lp_phase l = Returned) (gp_loops g) /\
     (supervised jobs <> [] -> ctx_Err (gp_ctx g) <> None) /\
     forall g', rtc group_step g g' -> gp_runs g' = gp_runs g) /\
  (gp_starting g = [] -> ctx_Err (gp_ctx g) <> None ->
   exists g', rtc group_step g g' /\ gp_waited g' = true /\ gp_runs g' = gp_runs g).
Proof.
  intros Hsup. pose proof (supervises_inv _ _ Hsup) as Hinv. split; [intros Hwait|intros Hs Hc].
  - destruct (Wait_all_returned _ _ Hinv Hwait) as (Hn & Hall & Hc). split_and!; [done..|].
    intros g' Hrtc. assert (group_inv jobs g' /\ gp_waited g' = true /\ gp_runs g' = gp_runs g) as (_ & _ & H); [|done].
    revert Hrtc. apply (rtc_ind_r (fun g' => group_inv jobs g' /\ gp_waited g' = true /\ gp_runs g' = gp_runs g)); [done|].
    intros g1 g2 _ Hstep (Hi & Hw1 & Hr1). destruct (waited_quiet _ _ _ Hi Hw1 Hstep) as [? ->].
    by split; [eapply group_inv_kept|].
  - destruct (drains _ g eq_refl Hs) as (g1 & Hrtc & Hz & Hs1 & Hr1); [by intros E; rewrite E in Hc|].
    exists (wait_returns g1). split; [|done]. eapply rtc_r; [done|]. apply step_wait; [done|].
    destruct (supervises_inv jobs g1) as (_ & -> & _); [by unfold supervises in *; etransitivity|].
    assert (Forall (fun l => distance l = 0%nat) (gp_loops g1)) as Hall by by apply sum_zero.
    clear -Hall. induction Hall as [|l ls Hd _ IH]; simpl; [done|].
    unfold distance in Hd. unfold live at 1. by destruct (lp_phase l).
Qed.

Lemma runner_supervised workers interval poll :
  supervised (runner_jobs workers interval poll) =
  map (fun id => (Sprint (Z.of_nat id), effective_interval interval)) (seq 0 (Z.to_nat (effective_workers workers))).
Proof.
  assert (forall name run, job_interval (mkJob name run (effective_interval interval)) = effective_interval interval) as Hi.
  { intros name run. unfold job_interval. simpl. destruct (effective_interval interval <=? 0) eqn:E; [|done].
    exfalso. bsimp. unfold effective_interval, Millisecond in E. destruct (interval <=? 0) eqn:E'; bsimp; lia. }
  unfold runner_jobs, supervised. induction (seq 0 _) as [|i l IH]; [done|]. simpl. rewrite Hi. f_equal. exact IH.
Qed.

(** A configured runner polls with as many loops as asked for, at least one, and returns
    only when its context is done, with the context's error. *)
Theorem Runner_Run_returns workers interval poll g e :
  supervises (runner_jobs workers interval poll) g -> Runner_Run true g = Some e ->
  (exists err, e = Some err /\ is_ctx_error err = true) /\
  Z.of_nat (length (gp_loops g)) = Z.max 1 workers /\
  Forall (fun l => lp_Interval l = effective_interval interval /\ lp_phase l = Returned) (gp_loops g).
Proof.
  intros Hsup. unfold Runner_Run. destruct (gp_waited g) eqn:Hw; [|done]. intros [= <-].
  destruct (Wait_all_returned _ _ (supervises_inv _ _ Hsup) Hw) as (Hn & Hall & Hc).
  rewrite runner_supervised in Hn, Hc. split_and!.
  - destruct (ctx_Err (gp_ctx g)) as [err|] eqn:Herr; [exists err; destruct (gp_ctx g); simplify_eq/=; done|].
    exfalso. apply Hc; [|done]. unfold effective_workers. destruct (workers <? 1) eqn:E; [done|]. bsimp.
    destruct (Z.to_nat workers) eqn:E'; [lia|done].
  - apply (f_equal length) in Hn. rewrite !length_map, length_seq in Hn. rewrite Hn. unfold effective_workers.
    destruct (workers <? 1) eqn:E; bsimp; lia.
  - apply Forall_forall. intros l Hl. split; [|exact (proj1 (Forall_forall _ _) Hall l Hl)].
    assert ((lp_Name l, lp_Interval l) ∈ map (fun l => (lp_Name l, lp_Interval l)) (gp_loops g)) as Hin
      by by apply (list_elem_of_fmap_2 (fun l => (lp_Name l, lp_Interval l))).
    rewrite Hn in Hin. apply list_elem_of_fmap in Hin as (? & [= _ ->] & _). done.
Qed.

(** ** Witnesses: two loops and a job without a function; the context is cancelled *)
Definition example_jobs : list Job :=
  [mkJob "sweep" (Some (mret tt)) 0; mkJob "broken" None 5; mkJob "report" (Some (mret tt)) Second].
Definition example_over : Group :=
  mkGroup [] [mkLoop "sweep" Minute Returned; mkLoop "report" Second Returned] 0 CtxCanceled [1%nat]
    [("broken"%string, New "supervised job is not configured"); ("report"%string, New "disk full")] true.

Lemma example_supervises : supervises example_jobs example_over.
Proof.
  eapply rtc_l; [by eapply step_start|]. eapply rtc_l; [by eapply step_start|]. eapply rtc_l; [by eapply step_start|].
  eapply rtc_l; [by eapply (step_tick _ 1)|]. eapply rtc_l; [by apply (step_cancel _ CtxCanceled)|].
  eapply rtc_l; [by eapply (step_return _ 0)|].
  eapply rtc_l; [by eapply (step_job_ends _ 1 _ (Some (New "disk full")))|].
  eapply rtc_l; [by eapply (step_return _ 1)|]. apply rtc_once. by apply step_wait.
Qed.

Lemma Wait_protocol_witness :
  gp_waited example_over = true /\ map (fun l => (lp_Name l, lp_Interval l)) (gp_loops example_over) = supervised example_jobs.
Proof.
  split; [done|]. destruct (Wait_protocol example_jobs example_over example_supervises) as [Hw _].
  destruct (Hw eq_refl) as [Hn _]. exact Hn.
Defined.

Definition runner_over : Group := mkGroup [] [mkLoop "0" (100 * Millisecond) Returned] 0 CtxDeadline [0%nat] [] true.
Lemma Runner_Run_returns_witness :
  Runner_Run true runner_over = Some (Some (Sentinel DeadlineExceeded)) /\
  Z.of_nat (length (gp_loops runner_over)) = Z.max 1 0.
Proof.
  split; [reflexivity|].
  destruct (Runner_Run_returns 0 0 (fun _ => mret tt) runner_over (Some (Sentinel DeadlineExceeded))) as (_ & H & _);
    [|reflexivity|exact H].
  eapply rtc_l; [by eapply step_start|]. eapply rtc_l; [by eapply (step_tick _ 0)|].
  eapply rtc_l; [by eapply (step_job_ends _ 0 _ None)|]. eapply rtc_l; [by apply (step_cancel _ CtxDeadline)|].
  eapply rtc_l; [by eapply (step_return _ 0)|]. apply rtc_once. by apply step_wait.
Defined.
