(* ===== verification/Domain.v ===== *)
(** * The small components of packages domain and service

    Quotas and averages (limits.go), the semaphore and health checks (health.go),
    counters (metrics.go), commands, events and notifications with the services that
    forward to them, pages and the device index (pagination.go of both packages),
    schedule policies and test clocks. *)
From S2P Require Import Prelude Errors GoStd Model Rules Schedule.
From Stdlib Require Import Ascii.

(** ** domain/limits.go *)
Record Quota := mkQuota { qt_Name : string; qt_Limit : Z; qt_Used : Z; qt_ResetAt : Time; qt_HardBlock : bool }.

Definition Quota_Validate (q : Quota) (now : Time) : option error :=
  if bool_decide (TrimSpace (qt_Name q) = "") || (qt_Limit q <? 0) || (qt_Used q <? 0) || (qt_Limit q <? qt_Used q)
     || IsZero (qt_ResetAt q)
  then Some (New "invalid quota")
  else if negb (After (qt_ResetAt q) now) then Some (New "quota reset must be in the future")
  else None.

Definition Remaining (q : Quota) : Z :=
  if qt_Limit q <=? qt_Used q then 0 else wrap64 (qt_Limit q - qt_Used q).

(** The quota comes back either way. *)
Definition Reserve (q : Quota) (n : Z) : Quota * option error :=
  if (n <=? 0) || (Remaining q <? n) || (qt_HardBlock q && (0 <? qt_Used q))
  then (q, Some (New "quota exceeded"))
  else (mkQuota (qt_Name q) (qt_Limit q) (wrap64 (qt_Used q + n)) (qt_ResetAt q) (qt_HardBlock q), None).

Fixpoint finite_sum (sum : float64) (values : list float64) : result float64 :=
  match values with
  | [] => Ok sum
  | v :: rest => if IsNaN v || IsInf v then Fail (New "non-finite value") else finite_sum (fadd sum v) rest
  end.
Definition SafeAverage (values : list float64) : result float64 :=
  match values with
  | [] => Fail (New "empty values")
  | _ => result_bind (finite_sum f0 values) (fun sum => Ok (fdiv sum (of_int (Z.of_nat (length values)))))
  end.

(** ** domain/health.go: checks one after another; [elapsed] is the time each takes *)
Record Check := mkCheck { ck_Name : string; ck_Run : option (Duration -> option error); ck_Timeout : Duration }.
Record Status := mkStatus { st_Name : string; st_Healthy : bool; st_Duration : Duration; st_Error : string }.

Definition dquote : string := String (ascii_of_nat 34) "".
(** A check without a positive timeout gets none (0). *)
Definition run_domain_check (check : Check) (elapsed : Duration) : Status :=
  let err := match ck_Run check with
             | None => Some (New ("health check " +:+ dquote +:+ ck_Name check +:+ dquote +:+ " is not configured"))
             | Some run => run (if 0 <? ck_Timeout check then ck_Timeout check else 0)
             end in
  mkStatus (ck_Name check) (bool_decide (err = None)) elapsed (errorString err).
Fixpoint RunChecks (checks : list Check) (elapsed : nat -> Duration) : list Status :=
  match checks with
  | [] => []
  | check :: rest => run_domain_check check (elapsed 0%nat) :: RunChecks rest (fun i => elapsed (S i))
  end.

(** The semaphore: a buffered channel of [sem_slots] places, [sem_taken] in use.  With
    room and a finished context [select] picks either ([pick]); with neither, [Acquire]
    blocks: [None]. *)
Record Semaphore := mkSemaphore { sem_slots : Z; sem_taken : Z }.
Definition NewSemaphore (n : Z) : Semaphore := mkSemaphore (if n <? 1 then 1 else n) 0.
Definition Acquire (s : Semaphore) (ctx : Ctx) (pick : bool) : option (result unit * Semaphore) :=
  let acquired := (Ok tt, mkSemaphore (sem_slots s) (sem_taken s + 1)) in
  match sem_taken s <? sem_slots s, ctx_Err ctx with
  | true, None => Some acquired
  | true, Some e => Some (if pick then acquired else (Fail (wrap_prefix "acquire semaphore" e), s))
  | false, Some e => Some (Fail (wrap_prefix "acquire semaphore" e), s)
  | false, None => None
  end.
Definition Release (s : Semaphore) : Semaphore :=
  if 0 <? sem_taken s then mkSemaphore (sem_slots s) (sem_taken s - 1) else s.

(** ** domain/metrics.go: int64 counters wrap around *)
Definition Counter := gmap string Z.
Definition Counter_Get (name : string) (c : Counter) : Z := default 0 (c !! name).
Definition Counter_Add (name : string) (delta : Z) (c : Counter) : Counter :=
  <[name := wrap64 (Counter_Get name c + delta)]> c.
Record Timer := mkTimer { tm_Started : Time; tm_Elapsed : Duration }.
Definition StartTimer (now : Time) : Timer := mkTimer now 0.
Definition Timer_Stop (now : Time) (t : Timer) : Timer := mkTimer (tm_Started t) (Sub now (tm_Started t)).
Definition FormatMetric (name : string) (value : Z) : string := name +:+ " " +:+ Sprint value.

(** ** domain/commands.go and service/commands.go *)
Record Command := mkCommand {
  cm_ID : string; cm_DeviceID : Z; cm_Kind : DeviceKind; cm_Action : string; cm_Payload : list (string * json);
  cm_IdempotencyKey : string; cm_CreatedAt : Time }.
Record CommandResult := mkCommandResult {
  cr_Accepted : bool; cr_Retryable : bool; cr_ErrorCode : string; cr_Message : string }.

Definition ValidateCommand (c : Command) : option error :=
  if (cm_DeviceID c <=? 0) || bool_decide (TrimSpace (cm_IdempotencyKey c) = "")
     || negb (CompatibleAction (cm_Kind c) (cm_Action c))
  then Some (Sentinel ErrInvalid) else None.

(** [domain.Dispatch]. *)
Definition DispatchCommand (ctx : Ctx) (executor : option (Command -> result CommandResult)) (c : Command)
    : result CommandResult :=
  check (ValidateCommand c)
    match executor with
    | None => Fail (New "command executor is not configured")
    | Some execute =>
        match ctx_Err ctx with
        | Some e => Fail e
        | None =>
            match execute c with
            | Fail e => Fail (wrap_prefix "dispatch command" e)
            | Ok r =>
                Ok (if negb (cr_Accepted r) && bool_decide (cr_ErrorCode r = "")
                    then mkCommandResult (cr_Accepted r) (cr_Retryable r) "device_rejected" (cr_Message r) else r)
            end
        end
    end.
Definition Retryable (e : error) : bool := is_ctx_error e.

(** [NewCommands] and [CommandService.Dispatch]. *)
Record CommandService := NewCommands { cs_Executor : option (Command -> result CommandResult) }.
Definition CommandService_Dispatch (s : CommandService) (ctx : Ctx) (c : Command) : result CommandResult :=
  DispatchCommand ctx (cs_Executor s) c.

(** [DeviceCommandExecutor]: the commands it has collected. *)
Definition DeviceCommandExecutor_Execute (err : option error) (c : Command) (commands : list Command)
    : result CommandResult * list Command :=
  match err with
  | Some e => (Fail e, commands)
  | None => (Ok (mkCommandResult true false "" "accepted"), commands ++ [c])
  end.

(** ** domain/events.go *)
Record Event := mkEvent {
  ev_Topic : string; ev_HouseholdID : Z; ev_ObjectType : string; ev_ObjectID : string; ev_Action : string;
  ev_RequestID : string; ev_Payload : json; ev_At : Time }.
Definition Event_Validate (e : Event) : option error :=
  if bool_decide (ev_Topic e = "") || (ev_HouseholdID e <=? 0) || bool_decide (ev_ObjectType e = "")
     || bool_decide (ev_ObjectID e = "") || bool_decide (ev_Action e = "") || bool_decide (ev_RequestID e = "")
  then Some (New "event fields required") else None.

(** [Event.JSON]: the fields in the order of the struct. *)
Definition event_json `{TimeFormat} (e : Event) : json := JObject
  [("Topic"%string, JString (ev_Topic e)); ("HouseholdID"%string, JInt (ev_HouseholdID e));
   ("ObjectType"%string, JString (ev_ObjectType e)); ("ObjectID"%string, JString (ev_ObjectID e));
   ("Action"%string, JString (ev_Action e)); ("RequestID"%string, JString (ev_RequestID e));
   ("Payload"%string, ev_Payload e); ("At"%string, JString (RFC3339Nano (ev_At e)))].
Definition Event_JSON `{JSONText} `{TimeFormat} (e : Event) : result string :=
  check (Event_Validate e)
    (check (Marshal_error (ev_Payload e))
       (if year_in_range (ev_At e) then Ok (json_text (event_json e))
        else Fail (New "json: error calling MarshalJSON for type time.Time: Time.MarshalJSON: year outside of range [0,9999]"))).

(** [Fanout.Publish]: the consumers asked, nil ones skipped, and the error. *)
Fixpoint consume_all (e : Event) (consumers : list (option (Event -> option error))) (i : nat) : list nat * option error :=
  match consumers with
  | [] => ([], None)
  | None :: rest => consume_all e rest (S i)
  | Some consume :: rest =>
      match consume e with
      | Some err => ([i], Some err)
      | None => let '(asked, err) := consume_all e rest (S i) in (i :: asked, err)
      end
  end.
Definition Fanout_Publish (e : Event) (consumers : list (option (Event -> option error))) : list nat * option error :=
  match Event_Validate e with Some err => ([], Some err) | None => consume_all e consumers 0 end.

(** ** domain/notifications.go and service/notifications.go *)
Record Notification := mkNotification {
  nt_Recipient : string; nt_Channel : string; nt_Subject : string; nt_Body : string; nt_Metadata : gmap string string }.

Definition ValidateNotification (n : Notification) : option error :=
  if bool_decide (TrimSpace (nt_Recipient n) = "") || bool_decide (TrimSpace (nt_Subject n) = "")
     || bool_decide (TrimSpace (nt_Body n) = "")
  then Some (New "notification fields required")
  else if bool_decide (nt_Channel n ∈ ["email"; "push"; "webhook"]) then None
  else Some (New "unsupported notification channel").

Definition SendNotification (ctx : Ctx) (notifier : option (Notification -> option error)) (msg : Notification) : option error :=
  match ValidateNotification msg, notifier with
  | Some e, _ => Some e
  | None, None => Some (New "notifier is not configured")
  | None, Some send => match ctx_Err ctx with Some e => Some e | None => send msg end
  end.
Definition CollectingNotifier_Send (msg : Notification) (messages : list Notification) : list Notification := messages ++ [msg].

Definition SendAlert (ctx : Ctx) (notifier : option (Notification -> option error)) (recipient code severity : string)
    : option error :=
  SendNotification ctx notifier
    (mkNotification recipient "push" ("Smart home alert: " +:+ code) ("Severity: " +:+ severity) ∅).
Definition SendInvite (ctx : Ctx) (notifier : option (Notification -> option error)) (recipient household : string)
    : option error :=
  SendNotification ctx notifier
    (mkNotification recipient "email" "Household invitation" ("You were invited to " +:+ household) ∅).

(** ** service/policy.go *)
Definition PolicyService_ValidateSchedule `{SliceSort} (ctx : Ctx) (windows : list ScheduleWindow) (limit : float64) : option error :=
  match ctx_Err ctx with
  | Some e => Some e
  | None => if bool_decide (length windows = 0%nat) then Some (New "schedule is empty") else Capacity windows limit
  end.
Definition PolicyService_ValidatePlan (start end_ now : Time) : option error := ValidatePlanWindow start end_ now.

(** ** service/clock.go *)
Record SequenceClock := mkSequenceClock { sq_Values : list Time; sq_Index : Z }.
Definition SequenceClock_Now (c : SequenceClock) : Time * SequenceClock :=
  match sq_Values c with
  | [] => (zeroTime, c)
  | v :: rest =>
      if Z.of_nat (length (v :: rest)) <=? sq_Index c then (List.last (v :: rest) v, c)
      else (nth (Z.to_nat (sq_Index c)) (v :: rest) v, mkSequenceClock (v :: rest) (sq_Index c + 1))
  end.

(** ** domain/pagination.go *)
Record Page := mkPage { pg_Limit : Z; pg_Offset : Z; pg_Sort : string; pg_Query : string }.

Definition NormalizePage (p : Page) : Page :=
  mkPage (if (pg_Limit p <=? 0) || (200 <? pg_Limit p) then 50 else pg_Limit p)
    (if pg_Offset p <? 0 then 0 else pg_Offset p) (TrimSpace (pg_Sort p)) (TrimSpace (pg_Query p)).

Definition ValidatePage (p : Page) : option error :=
  if (pg_Limit p <? 0) || (200 <? pg_Limit p) || (pg_Offset p <? 0)
  then Some (wrap_prefix "invalid page" (New "bounds")) else None.

Record PageResult (T : Type) := mkPageResult { pr_Items : list T; pr_Total : Z; pr_Limit : Z; pr_Offset : Z }.
Arguments mkPageResult {T}.
Arguments pr_Items {T}.
Arguments pr_Total {T}.
Arguments pr_Limit {T}.
Arguments pr_Offset {T}.

(** [domain.NewResult]; nil items become an empty slice. *)
Definition NewResult {T} (items : list T) (total : Z) (p : Page) : PageResult T :=
  let p := NormalizePage p in mkPageResult items total (pg_Limit p) (pg_Offset p).

(** ** service/pagination.go *)
Record PageRequest := mkPageRequest { rq_Limit : Z; rq_Offset : Z; rq_Query : string }.

Definition PageRequest_Normalize (p : PageRequest) : result PageRequest :=
  if (rq_Limit p <? 0) || (rq_Offset p <? 0) || (200 <? rq_Limit p) then Fail (Sentinel ErrInvalid)
  else Ok (mkPageRequest (if rq_Limit p =? 0 then 50 else rq_Limit p) (rq_Offset p) (TrimSpace (rq_Query p))).

(** [values[start:end]]. *)
Definition slice {T} (values : list T) (start end_ : Z) : list T :=
  take (Z.to_nat (end_ - start)) (drop (Z.to_nat start) values).

Definition Paginate {T} (values : list T) (request : PageRequest) : result (PageResult T) :=
  result_bind (PageRequest_Normalize request) (fun request =>
    let n := Z.of_nat (length values) in
    let start := if n <? rq_Offset request then n else rq_Offset request in
    let end_ := wrap64 (start + rq_Limit request) in
    let end_ := if n <? end_ then n else end_ in
    Ok (mkPageResult (slice values start end_) n (rq_Limit request) (rq_Offset request))).

(** The device index; the key of a device is its normalised external id. *)
Record DeviceIndex := mkDeviceIndex { ix_ByID : gmap Z Device; ix_ByExternal : gmap string Z }.

Section index.
Context `{Unicode}.

Definition external_key (d : Device) : string := ToLower (TrimSpace (d_ExternalID d)).

Fixpoint index_devices (index : DeviceIndex) (devices : list Device) : result DeviceIndex :=
  match devices with
  | [] => Ok index
  | d :: rest =>
      if (d_ID d <=? 0) || bool_decide (TrimSpace (d_ExternalID d) = "") then Fail (New "device identity is required")
      else if bool_decide (is_Some (ix_ByExternal index !! external_key d))
      then Fail (New ("duplicate external id " +:+ dquote +:+ external_key d +:+ dquote))
      else index_devices (mkDeviceIndex (<[d_ID d := d]> (ix_ByID index))
                            (<[external_key d := d_ID d]> (ix_ByExternal index))) rest
  end.
Definition BuildDeviceIndex (devices : list Device) : result DeviceIndex :=
  index_devices (mkDeviceIndex ∅ ∅) devices.
Definition DeviceIndex_Get (i : DeviceIndex) (id : Z) : option Device := ix_ByID i !! id.

(** [strings.Contains]. *)
Fixpoint has_prefix (p l : list ascii) : bool :=
  match p, l with
  | [], _ => true
  | a :: p', b :: l' => bool_decide (a = b) && has_prefix p' l'
  | _, [] => false
  end.
Fixpoint contains_bytes (p l : list ascii) : bool :=
  has_prefix p l || match l with [] => false | _ :: l' => contains_bytes p l' end.
Definition Contains (s sub : string) : bool := contains_bytes (bytes sub) (bytes s).

(** [ctx] is the state of the context when the filter starts. *)
Definition FilterDevices (ctx : Ctx) (devices : list Device) (query : string) : result (list Device) :=
  match ctx_Err ctx with
  | Some e => Fail e
  | None =>
      let query := ToLower (TrimSpace query) in
      Ok (stable_sort (less_by d_ID) (List.filter (fun d =>
            bool_decide (query = "") || Contains (ToLower (d_ExternalID d)) query || Contains (ToLower (d_Kind d)) query)
          devices))
  end.
End index.

(** ** Lemmas *)

(** A reservation never exceeds the limit, and refuses nothing that fits, a hard block
    apart. *)
Lemma Reserve_bounds q n q' :
  0 <= qt_Used q <= qt_Limit q -> is_int64 (qt_Limit q) -> Reserve q n = (q', None) ->
  0 < n /\ qt_Used q' = qt_Used q + n /\ qt_Used q' <= qt_Limit q' /\ Remaining q' = Remaining q - n.
Proof.
  intros Hu Hl. assert (forall u, 0 <= u <= qt_Limit q ->
    (if qt_Limit q <=? u then 0 else wrap64 (qt_Limit q - u)) = qt_Limit q - u) as Hrem.
  { intros u Hu'. destruct (qt_Limit q <=? u) eqn:E; bsimp; [lia|].
    apply wrap64_small. unfold is_int64, int64_min, int64_max in *. lia. }
  unfold Reserve, Remaining. rewrite (Hrem (qt_Used q)) by done.
  destruct (_ || _) eqn:E; [done|]. intros [= <-]. bsimp. simpl.
  rewrite wrap64_small by (unfold is_int64, int64_min, int64_max in *; lia).
  rewrite (Hrem (qt_Used q + n)) by lia. lia.
Qed.

(** The semaphore never hands out more than its places. *)
Inductive semaphore_step : Semaphore -> Semaphore -> Prop :=
| step_acquire s ctx pick r s' : Acquire s ctx pick = Some (r, s') -> semaphore_step s s'
| step_release s : semaphore_step s (Release s).

Lemma semaphore_bounds n s : rtc semaphore_step (NewSemaphore n) s ->
  0 <= sem_taken s <= sem_slots s /\ sem_slots s = Z.max 1 n.
Proof.
  intros Hs. refine (rtc_ind_r (fun s => 0 <= sem_taken s <= sem_slots s /\ sem_slots s = Z.max 1 n) _ _ _ s Hs).
  - unfold NewSemaphore; simpl. destruct (n <? 1) eqn:E; bsimp; lia.
  - intros s1 s2 _ Hstep [Hb Hn]. destruct Hstep as [s1 ctx pick r s2 Ha|s1].
    + unfold Acquire in Ha. destruct (sem_taken s1 <? sem_slots s1) eqn:E; bsimp;
        destruct (ctx_Err ctx), pick; simplify_eq; simpl; lia.
    + unfold Release. destruct (0 <? sem_taken s1) eqn:E; bsimp; simpl; lia.
Qed.

(** The index finds every device under its external id, and rejects two devices with
    the same one; of two devices with the same id it keeps the later. *)
Lemma index_devices_spec `{Unicode} devices : forall index out,
  index_devices index devices = Ok out ->
  (forall d, d ∈ devices -> 0 < d_ID d /\ ix_ByExternal out !! external_key d = Some (d_ID d)) /\
  NoDup (external_key <$> devices) /\
  (forall key id, ix_ByExternal index !! key = Some id -> ix_ByExternal out !! key = Some id) /\
  (forall d, d ∈ devices -> ix_ByExternal index !! external_key d = None).
Proof.
  induction devices as [|d rest IH]; intros index out; cbn [index_devices].
  { intros [= <-]. split; [by intros d ?%elem_of_nil|]. split; [by apply NoDup_nil|]. split; [done|by intros d ?%elem_of_nil]. }
  destruct (_ || _) eqn:Hid; [done|]. destruct (bool_decide (is_Some _)) eqn:Hdup; [done|].
  intros (Hin & Hnd & Hold & Hnew)%IH. bsimp. cbn [ix_ByExternal] in *.
  assert (ix_ByExternal index !! external_key d = None) as Hfresh
    by (destruct (_ !! _); [by destruct Hdup|done]).
  split; [|split; [|split]].
  - intros x [->|Hx]%elem_of_cons; [|by apply Hin]. split; [done|]. apply Hold, lookup_insert_eq.
  - cbn [fmap list_fmap]. constructor; [|done]. intros (x & Hk & Hx)%list_elem_of_fmap.
    specialize (Hnew x Hx). by rewrite <-Hk, lookup_insert_eq in Hnew.
  - intros key id Hk. apply Hold. by rewrite lookup_insert_ne by (intros <-; congruence).
  - intros x [->|Hx]%elem_of_cons; [done|]. specialize (Hnew x Hx). by apply lookup_insert_None in Hnew as [? _].
Qed.

(** ** Pages *)
Lemma Paginate_page {T} (values : list T) limit offset query :
  1 <= limit <= 200 -> 0 <= offset -> Z.of_nat (length values) <= int64_max - 200 ->
  Paginate values (mkPageRequest limit offset query) =
  Ok (mkPageResult (take (Z.to_nat limit) (drop (Z.to_nat offset) values)) (Z.of_nat (length values)) limit offset).
Proof.
  intros Hl Ho Hn. unfold Paginate, PageRequest_Normalize; simpl.
  rewrite !(proj2 (Z.ltb_ge _ _)) by lia. rewrite (proj2 (Z.eqb_neq _ _)) by lia. simpl. f_equal. f_equal.
  set (n := Z.of_nat (length values)).
  assert (length values = Z.to_nat n) as Hlen by lia.
  unfold slice. destruct (n <? offset) eqn:E; bsimp.
  - rewrite !wrap64_small by (unfold is_int64, int64_min, int64_max in *; lia).
    rewrite !(drop_ge values) by lia. by rewrite !take_nil.
  - rewrite !wrap64_small by (unfold is_int64, int64_min, int64_max in *; lia).
    destruct (n <? offset + limit) eqn:E2; bsimp; [|f_equal; lia].
    rewrite !take_ge; [done| |]; rewrite length_drop; lia.
Qed.

(** ** Property *)

(** Paging loses and repeats nothing: the pages of any valid size, one after the
    other, are the list in its order; every page but the last is full and reports the
    total. *)
Theorem pages_reassemble {T} (values : list T) limit query pages :
  1 <= limit <= 200 -> Z.of_nat (length values) <= int64_max - 200 ->
  Z.of_nat (length values) <= limit * Z.of_nat pages ->
  exists out, mapM (fun k => match Paginate values (mkPageRequest limit (limit * Z.of_nat k) query) with
                             | Ok p => Some p | Fail _ => None end) (seq 0 pages) = Some out /\
    concat (map pr_Items out) = values /\
    Forall (fun p => pr_Total p = Z.of_nat (length values) /\ (length (pr_Items p) <= Z.to_nat limit)%nat) out.
Proof.
  intros Hl Hn Hp.
  set (page k := mkPageResult (take (Z.to_nat limit) (drop (Z.to_nat (limit * Z.of_nat k)) values))
    (Z.of_nat (length values)) limit (limit * Z.of_nat k)).
  exists (map page (seq 0 pages)). split_and!.
  - generalize (seq 0 pages). intros l. induction l as [|k l IH]; [done|]. cbn [mapM].
    rewrite Paginate_page by lia. by rewrite IH.
  - assert (forall n, concat (map pr_Items (map page (seq 0 n))) = take (Z.to_nat limit * n) values) as Hcat.
    { induction n as [|n IH]; [by rewrite Nat.mul_0_r|].
      rewrite seq_S, !map_app, concat_app, IH. simpl. rewrite app_nil_r.
      replace (Z.to_nat (limit * Z.of_nat n)) with (Z.to_nat limit * n)%nat by lia.
      rewrite take_take_drop. f_equal. lia. }
    rewrite Hcat. apply take_ge. lia.
  - rewrite Forall_map. apply Forall_true. intros k. split; [done|]. simpl. rewrite length_take. lia.
Qed.

Lemma pages_reassemble_witness :
  exists out, mapM (fun k => match Paginate [7; 8; 9] (mkPageRequest 2 (2 * Z.of_nat k) "") with
                             | Ok p => Some p | Fail _ => None end) (seq 0 2) = Some out /\
    concat (map pr_Items out) = [7; 8; 9].
Proof.
  destruct (pages_reassemble [7; 8; 9] 2 "" 2) as (out & Hout & Hcat & _); [lia|by vm_compute|by vm_compute|].
  by exists out.
Defined.

(** ** Events and commands *)

(** An event that can be encoded is one that can be published, and encoding fails only
    for a bad event, a payload JSON has no text for, or a year it has none for. *)
Lemma Event_JSON_spec `{JSONText} `{TimeFormat} e text :
  Event_JSON e = Ok text <->
  Event_Validate e = None /\ Marshal_error (ev_Payload e) = None /\ year_in_range (ev_At e) = true /\
  text = json_text (event_json e).
Proof.
  unfold Event_JSON, check. destruct (Event_Validate e), (Marshal_error (ev_Payload e)), (year_in_range (ev_At e));
    naive_solver.
Qed.

(** What [Fanout.Publish] reports: without an error every consumer there is was asked,
    in order; with one the event was bad or the last consumer asked refused it. *)
Lemma consume_all_spec e consumers i :
  match consume_all e consumers i with
  | (asked, None) => asked = omap (fun '(n, c) => if (c : option _) then Some n else None) (zip (seq i (length consumers)) consumers)
  | (asked, Some err) => exists n consume, last asked = Some n /\ (i <= n)%nat /\
      consumers !! (n - i)%nat = Some (Some consume) /\ consume e = Some err
  end.
Proof.
  revert i. induction consumers as [|[consume|] rest IH]; intros i; simpl; [done| |].
  - destruct (consume e) as [err|] eqn:Hc.
    + exists i, consume. by rewrite Nat.sub_diag.
    + specialize (IH (S i)). destruct (consume_all e rest (S i)) as [asked [err|]]; [|by rewrite IH].
      destruct IH as (n & c & Hl & Hn & Hi & He). exists n, c. split.
      * rewrite last_cons, Hl. done.
      * replace (n - i)%nat with (S (n - S i)) by lia. split; [lia|done].
  - specialize (IH (S i)). destruct (consume_all e rest (S i)) as [asked [err|]]; [|done].
    destruct IH as (n & c & Hl & Hn & Hi & He). exists n, c. split; [done|].
    replace (n - i)%nat with (S (n - S i)) by lia. split; [lia|done].
Qed.
