(* ===== verification/Config.v ===== *)
(** * package config: reading and validating the configuration

    The environment is a function from names to values.  [url.Parse] is that of
    [Transport]; [net.SplitHostPort] and [time.ParseDuration] are parameters. *)
From S2P Require Import Prelude Errors GoStd Transport.

Class Parsing := {
  (** The port of a host:port address. *)
  SplitHostPort : string -> option (string * string);
  ParseDuration : string -> option Duration
}.

(** What [RedactURL] uses of a parsed [url.URL]: the name in its [User], if it has one,
    [User] set to [url.UserPassword name password], and [String].  Setting [User] forgets
    the one before. *)
Class URLUser := {
  URL : Type;
  Parse : string -> result URL;
  Username : URL -> option string;
  UserPassword : string -> string -> URL -> URL;
  URL_String : URL -> string;
  Username_UserPassword name password u : Username (UserPassword name password u) = Some name;
  UserPassword_twice name password name' password' u :
    UserPassword name password (UserPassword name' password' u) = UserPassword name password u
}.

Section config.
Context `{Net} `{Parsing} `{Unicode}.

(** ** validation.go *)
Definition ValidateDatabaseURL (raw : string) : option error :=
  if bool_decide (TrimSpace raw = "") then Some (New "database URL is empty")
  else match ParseURL raw with
       | Fail _ => Some (New "DATABASE_URL must use postgres scheme")
       | Ok (scheme, host) =>
           if negb (bool_decide (scheme = "postgres")) then Some (New "DATABASE_URL must use postgres scheme")
           else if bool_decide (host = "") then Some (New "DATABASE_URL host is missing")
           else None
       end.

Definition validateListenAddr (raw : string) : option error :=
  match SplitHostPort raw with
  | None => Some (New "HTTP_ADDR must be a host:port address")
  | Some (_, port) =>
      match Atoi port with
      | Some value => if (value <? 1) || (65535 <? value)
                      then Some (New "HTTP_ADDR port must be between 1 and 65535") else None
      | None => Some (New "HTTP_ADDR port must be between 1 and 65535")
      end
  end.
Definition ValidateHTTPAddr (addr : string) : option error := validateListenAddr (TrimSpace addr).

Definition ValidateShutdown (timeout : Duration) : option error :=
  if (timeout <? Second) || (5 * Minute <? timeout) then Some (New "shutdown timeout outside supported range") else None.

Definition RedactURL `{URLUser} (raw : string) : string :=
  match Parse raw with
  | Fail _ => "<invalid>"
  | Ok u => URL_String (match Username u with Some name => UserPassword name "redacted" u | None => u end)
  end.

(** ** config.go *)
Record Config := mkConfig {
  cf_DatabaseURL : string; cf_HTTPAddr : string; cf_WorkerCount : Z; cf_RetryLimit : Z;
  cf_OutboxWebhookURL : string; cf_ShutdownTimeout : Duration }.

Definition envOr (env : string -> string) (key fallback : string) : string :=
  if bool_decide (env key = "") then fallback else env key.

Definition boundedIntEnv (env : string -> string) (key : string) (fallback minimum maximum : Z) : result Z :=
  let raw := TrimSpace (env key) in
  if bool_decide (raw = "") then Ok fallback
  else
    let out_of_range := New (key +:+ " must be between " +:+ Sprint minimum +:+ " and " +:+ Sprint maximum) in
    match Atoi raw with
    | Some value => if (value <? minimum) || (maximum <? value) then Fail out_of_range else Ok value
    | None => Fail out_of_range
    end.

Definition check_webhook (raw : string) : option error :=
  if bool_decide (raw = "") then None
  else match ParseURL raw with
       | Ok (scheme, host) =>
           if negb (bool_decide (scheme = "https")) || bool_decide (host = "")
           then Some (New "OUTBOX_WEBHOOK_URL must be an absolute HTTPS URL") else None
       | Fail _ => Some (New "OUTBOX_WEBHOOK_URL must be an absolute HTTPS URL")
       end.

Open Scope go_scope.
Definition FromEnv (env : string -> string) : result Config :=
  let? workerCount := boundedIntEnv env "WORKER_COUNT" 2 1 64 in
  let? retryLimit := boundedIntEnv env "RETRY_LIMIT" 5 1 100 in
  let? shutdownSeconds := boundedIntEnv env "SHUTDOWN_TIMEOUT_SECONDS" 15 1 300 in
  let c := mkConfig (TrimSpace (env "DATABASE_URL"%string)) (TrimSpace (envOr env "HTTP_ADDR" ":8080")) workerCount
             retryLimit (TrimSpace (env "OUTBOX_WEBHOOK_URL"%string)) (wrap64 (shutdownSeconds * Second)) in
  if bool_decide (cf_DatabaseURL c = "") then Fail (New "DATABASE_URL is required")
  else check (ValidateDatabaseURL (cf_DatabaseURL c))
         (check (validateListenAddr (cf_HTTPAddr c))
            (check (check_webhook (cf_OutboxWebhookURL c)) (Ok c))).

(** ** validate.go *)
Record Runtime := mkRuntime {
  rn_DatabaseURL : string; rn_HTTPAddr : string; rn_Shutdown : Duration; rn_WorkerCount : Z; rn_LogLevel : string }.

Definition runtime_workers (raw : string) : result Z :=
  if bool_decide (raw = "") then Ok 2
  else match Atoi raw with
       | Some count => if (count <? 1) || (64 <? count) then Fail (New "WORKER_COUNT must be between 1 and 64") else Ok count
       | None => Fail (New "WORKER_COUNT must be between 1 and 64")
       end.
Definition runtime_shutdown (raw : string) : result Duration :=
  if bool_decide (raw = "") then Ok (10 * Second)
  else match ParseDuration raw with
       | Some d => if (d <=? 0) || (5 * Minute <? d) then Fail (New "SHUTDOWN_TIMEOUT is invalid") else Ok d
       | None => Fail (New "SHUTDOWN_TIMEOUT is invalid")
       end.
Definition runtime_level (level : string) : result string :=
  if bool_decide (level = "") then Ok "info"%string
  else if bool_decide (level ∈ ["debug"; "info"; "warn"; "error"]%string) then Ok level
  else Fail (New "LOG_LEVEL is invalid").
Definition runtime_database (url : string) : option error :=
  if bool_decide (url = "") then Some (New "DATABASE_URL is required")
  else match ParseURL url with
       | Ok (scheme, host) =>
           if negb (bool_decide (scheme = "postgres")) || bool_decide (host = "")
           then Some (New "DATABASE_URL must be a postgres URL") else None
       | Fail _ => Some (New "DATABASE_URL must be a postgres URL")
       end.

Definition LoadRuntime (env : string -> string) : result Runtime :=
  let url := TrimSpace (env "DATABASE_URL"%string) in
  check (runtime_database url)
    (let addr := TrimSpace (env "HTTP_ADDR"%string) in
     let addr := if bool_decide (addr = "") then ":8080"%string else addr in
     check (validateListenAddr addr)
       (let? workers := runtime_workers (TrimSpace (env "WORKER_COUNT"%string)) in
        let? shutdown := runtime_shutdown (TrimSpace (env "SHUTDOWN_TIMEOUT"%string)) in
        let? level := runtime_level (ToLower (TrimSpace (env "LOG_LEVEL"%string))) in
        Ok (mkRuntime url addr shutdown workers level))).

Definition Runtime_Validate (r : Runtime) : option error :=
  if bool_decide (TrimSpace (rn_DatabaseURL r) = "") || bool_decide (TrimSpace (rn_HTTPAddr r) = "")
     || (rn_Shutdown r <=? 0) || (rn_WorkerCount r <=? 0) || bool_decide (rn_LogLevel r = "")
  then Some (New "runtime configuration is incomplete")
  else match ValidateDatabaseURL (rn_DatabaseURL r) with
       | Some e => Some e
       | None => validateListenAddr (rn_HTTPAddr r)
       end.

(** ** Lemmas *)
Lemma check_Ok {A} e (k : result A) a : check e k = Ok a -> e = None /\ k = Ok a.
Proof. by destruct e. Qed.

Lemma boundedIntEnv_range env key fallback minimum maximum n :
  minimum <= fallback <= maximum -> boundedIntEnv env key fallback minimum maximum = Ok n -> minimum <= n <= maximum.
Proof.
  intros Hf. unfold boundedIntEnv. case_bool_decide; [by intros [= <-]|].
  destruct (Atoi _) as [v|]; [|done]. destruct (_ || _) eqn:E; [done|]. intros [= <-]. bsimp. lia.
Qed.

(** A listening address names a TCP port. *)
Definition listens (addr : string) : Prop :=
  exists host port n, SplitHostPort addr = Some (host, port) /\ Atoi port = Some n /\ 1 <= n <= 65535.
Lemma validateListenAddr_spec addr : validateListenAddr addr = None <-> listens addr.
Proof.
  unfold validateListenAddr, listens. split.
  - destruct (SplitHostPort addr) as [[host port]|]; [|done]. destruct (Atoi port) as [n|] eqn:Hn; [|done].
    destruct (_ || _) eqn:E; [done|]. intros _. bsimp. exists host, port, n. by split_and!.
  - intros (host & port & n & -> & -> & Hn). rewrite !(proj2 (Z.ltb_ge _ _)) by lia. done.
Qed.

Definition postgres_url (raw : string) : Prop := exists host, ParseURL raw = Ok ("postgres"%string, host) /\ host <> ""%string.
(** Nothing of the password shows: addresses that differ in it alone are printed alike. *)
Lemma RedactURL_hides `{URLUser} name password password' u raw raw' :
  Parse raw = Ok (UserPassword name password u) -> Parse raw' = Ok (UserPassword name password' u) ->
  RedactURL raw = RedactURL raw'.
Proof.
  intros Hr Hr'. unfold RedactURL. by rewrite Hr, Hr', !Username_UserPassword, !UserPassword_twice.
Qed.

Lemma ValidateDatabaseURL_spec raw : ValidateDatabaseURL raw = None -> postgres_url raw.
Proof.
  unfold ValidateDatabaseURL. case_bool_decide; [done|]. destruct (ParseURL raw) as [[scheme host]|] eqn:Hp; [|done].
  destruct (negb _) eqn:E; [done|]. bsimp. subst. case_bool_decide; [done|]. by exists host.
Qed.

(** ** Properties *)

(** A configuration that loads is one the program can run with: between 1 and 64
    workers, between 1 and 100 delivery attempts, a shutdown time from one second to
    five minutes, a PostgreSQL URL, a port to listen on, and either no webhook or an
    https one. *)
Theorem FromEnv_valid env c :
  FromEnv env = Ok c ->
  1 <= cf_WorkerCount c <= 64 /\ 1 <= cf_RetryLimit c <= 100 /\ ValidateShutdown (cf_ShutdownTimeout c) = None /\
  postgres_url (cf_DatabaseURL c) /\ listens (cf_HTTPAddr c) /\
  (cf_OutboxWebhookURL c = ""%string \/ CheckURL (cf_OutboxWebhookURL c) = None).
Proof.
  unfold FromEnv. intros (w & Hw & (r & Hr & (t & Ht & Hc)%result_bind_Ok)%result_bind_Ok)%result_bind_Ok.
  apply boundedIntEnv_range in Hw, Hr, Ht; [|lia..]. cbv zeta in Hc.
  destruct (bool_decide _); [done|]. apply check_Ok in Hc as [Hdb Hc]. apply check_Ok in Hc as [Haddr Hc].
  apply check_Ok in Hc as [Hhook [= <-]]. cbn [cf_DatabaseURL cf_HTTPAddr cf_WorkerCount cf_RetryLimit
    cf_OutboxWebhookURL cf_ShutdownTimeout] in *.
  split; [done|]. split; [done|]. split; [|split; [|split]].
  - unfold ValidateShutdown. rewrite wrap64_small by (unfold is_int64, int64_min, int64_max, Second; lia).
    rewrite !(proj2 (Z.ltb_ge _ _)) by (unfold Minute, Second in *; lia). done.
  - by apply ValidateDatabaseURL_spec.
  - by apply validateListenAddr_spec.
  - unfold check_webhook in Hhook. case_bool_decide as He; [by left|right]. unfold CheckURL.
    destruct (ParseURL _) as [[scheme host]|]; [|done]. by destruct (_ || _).
Qed.

(** A runtime that loads validates, when its database URL does. *)
Lemma LoadRuntime_valid env r : LoadRuntime env = Ok r -> Runtime_Validate r = None.
Proof.
  unfold LoadRuntime. intros [Hdb Hc]%check_Ok. apply check_Ok in Hc as [Haddr Hc].
  apply result_bind_Ok in Hc as (w & Hw & Hc). apply result_bind_Ok in Hc as (t & Ht & Hc).
  apply result_bind_Ok in Hc as (l & Hl & [= <-]).
  unfold runtime_database in Hdb. destruct (bool_decide (TrimSpace (env "DATABASE_URL"%string) = "")) eqn:Hurl; [done|].
  unfold Runtime_Validate; cbn [rn_DatabaseURL rn_HTTPAddr rn_Shutdown rn_WorkerCount rn_LogLevel].
  assert (0 < t) as Hpos.
  { unfold runtime_shutdown in Ht. case_bool_decide; [by injection Ht as <-|].
    destruct (ParseDuration _); [|done]. destruct (_ || _) eqn:E; [done|]. injection Ht as <-. by bsimp. }
  assert (0 < w) as Hw0.
  { unfold runtime_workers in Hw. case_bool_decide; [by injection Hw as <-|].
    destruct (Atoi _); [|done]. destruct (_ || _) eqn:E; [done|]. injection Hw as <-. bsimp; lia. }
  assert (l <> ""%string) as Hl0.
  { unfold runtime_level in Hl. case_bool_decide; [by injection Hl as <-|]. case_bool_decide; [|done].
    by injection Hl as <-. }
  rewrite TrimSpace_idem, Hurl, (proj2 (Z.leb_gt _ _) Hpos), (proj2 (Z.leb_gt _ _) Hw0), (bool_decide_eq_false_2 _ Hl0).
  assert (TrimSpace (if bool_decide (TrimSpace (env "HTTP_ADDR"%string) = "") then ":8080"%string
                     else TrimSpace (env "HTTP_ADDR"%string)) <> ""%string) as Ha.
  { case_bool_decide as E; [by vm_compute|by rewrite TrimSpace_idem]. }
  rewrite (bool_decide_eq_false_2 _ Ha). cbn [orb].
  unfold ValidateDatabaseURL. rewrite TrimSpace_idem, Hurl.
  destruct (ParseURL _) as [[scheme host]|]; [|done].
  destruct (_ || _) eqn:E in Hdb; [done|]. bsimp. subst scheme. simpl. by rewrite bool_decide_eq_false_2.
Qed.
End config.

Definition plain_parsing : Parsing := {| SplitHostPort _ := Some ("", "8080")%string; ParseDuration _ := None |}.
Definition postgres_net : Net :=
  {| JoinPath base path := Ok base; ParseURL raw := Ok ("postgres", "db")%string; NewRequest_error _ _ := None;
     ParseTime _ := None |}.
Definition example_env (key : string) : string :=
  if bool_decide (key = "DATABASE_URL"%string) then "postgres://db/home"
  else if bool_decide (key = "WORKER_COUNT"%string) then " 8 " else "".

Lemma FromEnv_valid_witness :
  let _ := postgres_net in let _ := plain_parsing in
  exists c, FromEnv example_env = Ok c /\ cf_WorkerCount c = 8 /\ 1 <= cf_RetryLimit c <= 100.
Proof.
  intros N P.
  assert (FromEnv example_env = Ok (mkConfig "postgres://db/home" ":8080" 8 5 "" (15 * Second))) as Hc
    by (vm_compute; reflexivity).
  eexists. split; [exact Hc|]. split; [reflexivity|]. exact (proj1 (proj2 (FromEnv_valid example_env _ Hc))).
Defined.
