(* ===== verification/Queries.v ===== *)
(** * package repo: the reading queries

    [SearchDevices], the counts and lists, the statistics and the health snapshot.
    [ILIKE] and the sum of [NUMERIC]s are the server's. *)
From S2P Require Import Prelude Errors GoStd Model Store Repo Frame.

Class PostgresText := {
  ilike : string -> string -> bool;
  numeric_sum : list float64 -> float64
}.

(** ** queries.go *)
Record DeviceFilter := mkDeviceFilter {
  df_HouseholdID : Z; df_States : list DeviceState; df_Kinds : list DeviceKind; df_Query : string;
  df_Limit : Z; df_Offset : Z }.

Definition DeviceFilter_Normalize (f : DeviceFilter) : result DeviceFilter :=
  if (df_HouseholdID f <=? 0) || (df_Offset f <? 0) || (df_Limit f <? 0) || (200 <? df_Limit f)
  then Fail (Sentinel ErrInvalid)
  else Ok (mkDeviceFilter (df_HouseholdID f) (df_States f) (df_Kinds f) (TrimSpace (df_Query f))
             (if df_Limit f =? 0 then 50 else df_Limit f) (df_Offset f)).

Section queries.
Context `{PG : Postgres} `{PostgresText} `{SliceSort}.

(** The [WHERE] clause built from the filter. *)
Definition device_matches (f : DeviceFilter) (d : Device) : bool :=
  (d_HouseholdID d =? df_HouseholdID f)
  && (bool_decide (df_Query f = "")
      || (let pattern := "%" +:+ df_Query f +:+ "%" in ilike (d_ExternalID d) pattern || ilike (d_Firmware d) pattern))
  && (bool_decide (df_States f = []) || bool_decide (d_State d ∈ df_States f))
  && (bool_decide (df_Kinds f = []) || bool_decide (d_Kind d ∈ df_Kinds f)).

(** [ORDER BY created_at DESC, id DESC]. *)
Definition newest_first (a b : Device) : bool :=
  (d_CreatedAt b <? d_CreatedAt a) || ((d_CreatedAt b =? d_CreatedAt a) && (d_ID b <? d_ID a)).

Definition search_rows (f : DeviceFilter) (d : Database) : list Device :=
  stable_sort newest_first (List.filter (device_matches f) (rows_by_id d)).

Definition SearchDevices (f : DeviceFilter) : M (list Device) :=
  match DeviceFilter_Normalize f with
  | Fail e => mfail e
  | Ok f => statement (fun d _ =>
      (Ok (take (Z.to_nat (df_Limit f)) (drop (Z.to_nat (df_Offset f)) (search_rows f d))), d))
  end.

Definition CountDevices (household : Z) (state : DeviceState) : M Z :=
  if household <=? 0 then mfail (Sentinel ErrInvalid)
  else statement (fun d _ =>
    (Ok (Z.of_nat (length (List.filter (fun r : Device => (d_HouseholdID r =? household)
       && (bool_decide (state = "") || bool_decide (d_State r = state))) (rows_by_id d)))), d)).

(** plans.go: [ORDER BY starts_at DESC] leaves ties open. *)
Definition ListPlans (household : Z) (state : PlanState) : M (list EnergyPlan) :=
  statement (fun d _ =>
    (Ok (sort_Slice (fun a b => p_StartsAt b <? p_StartsAt a)
       (List.filter (fun r : EnergyPlan => (p_HouseholdID r =? household)
          && (bool_decide (state = "") || bool_decide (p_State r = state))) (rows_by_id d))), d)).

Definition PlanTotalWatts (id : Z) : M float64 :=
  statement (fun d _ =>
    (Ok (match map_to_list (filter (fun kv => kv.1.1 = id) (plan_devices d)) with
         | [] => f0
         | rows => numeric_sum (map (fun kv => pd_TargetWatts kv.2) rows)
         end), d)).

(** alerts.go *)
Definition ListAlerts (household : Z) (state : string) : M (list Alert) :=
  statement (fun d _ =>
    (Ok (sort_Slice (fun a b => al_CreatedAt b <? al_CreatedAt a)
       (List.filter (fun r : Alert => (al_HouseholdID r =? household)
          && (bool_decide (state = "") || bool_decide (al_State r = state))) (rows_by_id d))), d)).

(** stats.go: one count after another, on the pool rather than in a transaction. *)
Record Stats := mkStats {
  ss_Households : Z; ss_Members : Z; ss_Devices : Z; ss_Telemetry : Z; ss_Alerts : Z; ss_Plans : Z; ss_Automations : Z }.

Definition count_table (name : string) (count : Database -> nat) : M Z :=
  map_err (wrap_prefix ("count " +:+ name)) (statement (fun d _ => (Ok (Z.of_nat (count d)), d))).

Definition GetStats : M Stats :=
  h ← count_table "households" (fun d => size (households d));
  m ← count_table "members" (fun d => size (members d));
  d ← count_table "devices" (fun d => size (devices d));
  t ← count_table "telemetry" (fun d => size (telemetry d));
  a ← count_table "alerts" (fun d => size (alerts d));
  p ← count_table "energy_plans" (fun d => size (energy_plans d));
  au ← count_table "automations" (fun d => size (automations d));
  mret (mkStats h m d t a p au).

(** [HealthSnapshot]: [ping] is the answer of the server. *)
Definition HealthSnapshot (ping : M unit) : M (string * Stats) :=
  _ ← ping; stats ← GetStats; mret ("ok"%string, stats).

(** ** Lemmas *)
#[export] Instance newest_first_StrictWeak : StrictWeak newest_first.
Proof.
  split; unfold newest_first; intros;
    rewrite ?orb_true_iff, ?orb_false_iff, ?andb_true_iff, ?andb_false_iff, ?Z.ltb_lt, ?Z.ltb_ge, ?Z.eqb_eq, ?Z.eqb_neq in *; lia.
Qed.

(** A search stays inside its household and within 200 rows. *)
Lemma SearchDevices_scope f d t rows s' :
  SearchDevices f (quiet_store d t) = (Ok rows, s') ->
  s' = quiet_store d t /\ (length rows <= 200)%nat /\
  forall r, r ∈ rows -> d_HouseholdID r = df_HouseholdID f /\ exists id, devices d !! id = Some r.
Proof.
  unfold SearchDevices. destruct (DeviceFilter_Normalize f) as [f'|] eqn:Hn; [|done].
  assert (df_HouseholdID f' = df_HouseholdID f /\ df_Limit f' <= 200) as [Hh Hl].
  { unfold DeviceFilter_Normalize in Hn. destruct (_ || _) eqn:E; [done|]. injection Hn as <-. bsimp. simpl.
    destruct (df_Limit f =? 0); lia. }
  rewrite statement_quiet. cbn [fst snd]. intros [= <- <-]. split; [done|]. split; [rewrite length_take; lia|].
  intros r Hr%subseteq_take%subseteq_drop. unfold search_rows in Hr.
  rewrite stable_sort_perm, list_elem_of_In, filter_In, <-list_elem_of_In, rows_by_id_elem in Hr.
  destruct Hr as [Hid Hm]. split; [|done]. unfold device_matches in Hm. bsimp. congruence.
Qed.

(** The lists of a household hold exactly its rows in the asked state, newest first. *)
Lemma ListPlans_exact household state d t :
  exists rows, ListPlans household state (quiet_store d t) = (Ok rows, quiet_store d t) /\
    StronglySorted (fun a b => p_StartsAt b <= p_StartsAt a) rows /\
    forall r, r ∈ rows <-> (exists id, energy_plans d !! id = Some r) /\ p_HouseholdID r = household /\
                          (state = ""%string \/ p_State r = state).
Proof.
  eexists. unfold ListPlans. rewrite statement_quiet. split; [done|]. set (less := fun a b : EnergyPlan => p_StartsAt b <? p_StartsAt a).
  assert (StrictWeak less) as Hsw by (split; unfold less; intros; rewrite ?Z.ltb_lt, ?Z.ltb_ge in *; lia).
  split.
  - assert (forall l, StronglySorted (not_after less) l -> StronglySorted (fun a b => p_StartsAt b <= p_StartsAt a) l) as Himpl.
    { induction 1 as [|a l _ IH Ha]; constructor; [done|]. eapply Forall_impl; [exact Ha|].
      unfold not_after, less. intros b ?. by bsimp. }
    by apply Himpl, sort_Slice_sorted.
  - intros r. rewrite sort_Slice_perm, list_elem_of_In, filter_In, <-list_elem_of_In, rows_by_id_elem.
    rewrite andb_true_iff, orb_true_iff, Z.eqb_eq, !bool_decide_eq_true. done.
Qed.
End queries.
