(* ===== verification/Sql.v ===== *)
(** * Queries that are put together at run time

    [SearchDevices] of repo/queries.go and [ListOutbox] of repo/outbox.go build the text
    of their query and its arguments side by side, numbering the placeholders as they go.
    Here the text is kept as the conditions it consists of ([condition], rendered by
    [condition_text]), which [eval] evaluates on a row under the arguments; [Queries] and
    [Repo] filter the rows directly.  The theorems show that both agree: every
    placeholder has its argument, and the text never depends on what the caller asks
    for, only on which filters are there. *)
From S2P Require Import Prelude Errors GoStd Model Store Repo Frame Queries.

(** ** Conditions over numbered arguments *)
Inductive value := VInt (z : Z) | VText (s : string) | VTime (t : Time).
#[export] Instance value_eq_dec : EqDecision value.
Proof. solve_decision. Defined.

Inductive condition :=
| Equals (column : string) (n : nat)
| UpTo (column : string) (n : nat)
| Contains (columns : list string) (n : nat)
| OneOf (column : string) (ns : list nat).

Definition mark (n : nat) : string := "$" +:+ Sprint (Z.of_nat n).

(** [strings.Join]. *)
Fixpoint Join (parts : list string) (sep : string) : string :=
  match parts with
  | [] => ""
  | [p] => p
  | p :: rest => p +:+ sep +:+ Join rest sep
  end.

Definition condition_text (c : condition) : string :=
  match c with
  | Equals column n => column +:+ "=" +:+ mark n
  | UpTo column n => column +:+ " <= " +:+ mark n
  | Contains columns n => "(" +:+ Join (map (fun column => column +:+ " ILIKE " +:+ mark n) columns) " OR " +:+ ")"
  | OneOf column ns => column +:+ " IN (" +:+ Join (map mark ns) "," +:+ ")"
  end.

Definition placeholders (c : condition) : list nat :=
  match c with
  | Equals _ n | UpTo _ n | Contains _ n => [n]
  | OneOf _ ns => ns
  end.

(** The argument of placeholder [$n]. *)
Definition argument (args : list value) (n : nat) : option value :=
  match n with O => None | S k => args !! k end.

Definition same_value (v w : value) : option bool :=
  match v, w with
  | VInt a, VInt b => Some (a =? b)
  | VText a, VText b => Some (bool_decide (a = b))
  | _, _ => None
  end.

Section sql.
Context `{PG : Postgres} `{PostgresText}.

(** A condition on a row, [None] when an argument is missing or of the wrong type. *)
Definition eval (row : string -> option value) (args : list value) (c : condition) : option bool :=
  match c with
  | Equals column n => v ← row column; w ← argument args n; same_value v w
  | UpTo column n =>
      match row column, argument args n with
      | Some (VTime t), Some (VTime u) => Some (t <=? ts_in u)
      | _, _ => None
      end
  | Contains columns n =>
      match argument args n with
      | Some (VText pattern) =>
          existsb id <$> mapM (fun column => match row column with
                                             | Some (VText s) => Some (ilike s pattern)
                                             | _ => None
                                             end) columns
      | _ => None
      end
  | OneOf column ns =>
      v ← row column; existsb id <$> mapM (fun n => w ← argument args n; same_value v w) ns
  end.
Definition eval_where (row : string -> option value) (args : list value) (cs : list condition)
    : option bool := forallb id <$> mapM (eval row args) cs.

(** ** Building a query *)

(** What the code keeps while it builds: the conditions, the arguments, and the number of
    the next placeholder ([arg], or [len(args)+1]). *)
Record builder := mkBuilder { b_where : list condition; b_args : list value; b_arg : nat }.
Definition add_condition (c : nat -> condition) (vs : list value) (b : builder) : builder :=
  mkBuilder (b_where b ++ [c (b_arg b)]) (b_args b ++ vs) (b_arg b + length vs).

(** *** [SearchDevices] *)
Definition add_one_of (column : string) (texts : list string) (b : builder) : builder :=
  match texts with
  | [] => b
  | texts => add_condition (fun arg => OneOf column (seq arg (length texts))) (map VText texts) b
  end.
Definition device_where (f : DeviceFilter) : builder :=
  let b := mkBuilder [Equals "household_id" 1] [VInt (df_HouseholdID f)] 2 in
  let b := if bool_decide (df_Query f = "") then b
           else add_condition (Contains ["external_id"; "firmware"]%string)
                  [VText ("%" +:+ df_Query f +:+ "%")] b in
  add_one_of "kind" (df_Kinds f) (add_one_of "state" (df_States f) b).
Definition device_args (f : DeviceFilter) : list value :=
  b_args (device_where f) ++ [VInt (df_Limit f); VInt (df_Offset f)].
Definition device_text (f : DeviceFilter) : string :=
  let b := device_where f in
  "SELECT id,household_id,external_id,kind,state,firmware,version,last_seen_at,created_at FROM devices WHERE "
  +:+ Join (map condition_text (b_where b)) " AND "
  +:+ " ORDER BY created_at DESC,id DESC LIMIT " +:+ mark (b_arg b) +:+ " OFFSET " +:+ mark (b_arg b + 1).

Definition device_column (d : Device) (column : string) : option value :=
  if bool_decide (column = "household_id"%string) then Some (VInt (d_HouseholdID d))
  else if bool_decide (column = "external_id"%string) then Some (VText (d_ExternalID d))
  else if bool_decide (column = "firmware"%string) then Some (VText (d_Firmware d))
  else if bool_decide (column = "state"%string) then Some (VText (d_State d))
  else if bool_decide (column = "kind"%string) then Some (VText (d_Kind d))
  else None.

(** *** [ListOutbox], with its own [itoa] *)
Definition itoa (v : Z) : string :=
  match v with
  | 1 => "1" | 2 => "2" | 3 => "3" | 4 => "4" | 5 => "5" | 6 => "6" | 7 => "7" | 8 => "8" | _ => "9"
  end.

Definition outbox_where (f : OutboxFilter) : builder :=
  let b := mkBuilder [] [] 1 in
  let b := if bool_decide (of_Topic f = "") then b
           else add_condition (Equals "topic") [VText (of_Topic f)] b in
  if IsZero (of_Before f) then b else add_condition (UpTo "available_at") [VTime (of_Before f)] b.
Definition outbox_args (f : OutboxFilter) : list value := b_args (outbox_where f) ++ [VInt (outbox_limit f)].
(** The first condition is written with the literal [$1], the others with [itoa]. *)
Definition outbox_text (f : OutboxFilter) : string :=
  let topic := if bool_decide (of_Topic f = "") then [] else [VText (of_Topic f)] in
  let before := if IsZero (of_Before f) then [] else [VTime (of_Before f)] in
  "SELECT id,household_id,topic,payload,attempts,available_at,locked_at,delivered_at,failed_at,failure_reason FROM outbox_messages WHERE delivered_at IS NULL AND failed_at IS NULL"
  +:+ (if bool_decide (of_Topic f = "") then "" else " AND topic=$1")
  +:+ (if IsZero (of_Before f) then "" else " AND available_at <= $" +:+ itoa (Z.of_nat (length topic) + 1))
  +:+ " ORDER BY available_at,id LIMIT $" +:+ itoa (Z.of_nat (length (topic ++ before)) + 1).

Definition message_column (m : OutboxMessage) (column : string) : option value :=
  if bool_decide (column = "topic"%string) then Some (VText (o_Topic m))
  else if bool_decide (column = "available_at"%string) then Some (VTime (o_AvailableAt m))
  else None.

(** ** Lemmas *)
Lemma argument_app args more n v : argument args n = Some v -> argument (args ++ more) n = Some v.
Proof. destruct n as [|n]; [done|]. simpl. apply lookup_app_l_Some. Qed.

Lemma argument_next args v : argument (args ++ [v]) (S (length args)) = Some v.
Proof. simpl. by apply list_lookup_middle. Qed.

Lemma mapM_mono {A B} (f g : A -> option B) l k :
  (forall x y, f x = Some y -> g x = Some y) -> mapM f l = Some k -> mapM g l = Some k.
Proof.
  intros Hfg. rewrite !mapM_Some. intros Hall. eapply Forall2_impl; [done|]. simpl. auto.
Qed.

(** More arguments do not change what a condition says. *)
Lemma eval_app row args more c v : eval row args c = Some v -> eval row (args ++ more) c = Some v.
Proof.
  pose proof (argument_app args more) as Happ.
  destruct c as [column n|column n|columns n|column ns]; simpl.
  - destruct (row column); simpl; [|done]. intros (w & Hw%Happ & Hv)%bind_Some. by rewrite Hw.
  - destruct (row column) as [[]|]; try done. destruct (argument args n) as [u|] eqn:E; [|done].
    by rewrite (Happ _ _ E).
  - destruct (argument args n) as [u|] eqn:E; [|done]. by rewrite (Happ _ _ E).
  - destruct (row column); simpl; [|done]. rewrite !fmap_Some. intros (l & Hl & ->). exists l. split; [|done].
    revert Hl. apply mapM_mono. intros m x (w & Hw%Happ & Hx)%bind_Some. by rewrite Hw.
Qed.

Lemma eval_where_app row args more cs v :
  eval_where row args cs = Some v -> eval_where row (args ++ more) cs = Some v.
Proof.
  unfold eval_where. intros (l & Hl & ->)%fmap_Some. apply fmap_Some. exists l. split; [|done].
  revert Hl. apply mapM_mono. intros c x. apply eval_app.
Qed.

(** [b] says [v] of the row, its next placeholder is the next argument, and its
    conditions use exactly the arguments there are. *)
Definition says (row : string -> option value) (b : builder) (v : bool) : Prop :=
  b_arg b = S (length (b_args b)) /\ eval_where row (b_args b) (b_where b) = Some v /\
  forall n, n ∈ concat (map placeholders (b_where b)) <-> (1 <= n <= length (b_args b))%nat.

Lemma says_add row b v c vs w :
  says row b v -> eval row (b_args b ++ vs) (c (b_arg b)) = Some w ->
  (forall n, n ∈ placeholders (c (b_arg b)) <-> (b_arg b <= n < b_arg b + length vs)%nat) ->
  says row (add_condition c vs b) (v && w).
Proof.
  intros (Ha & He & Hp) Hw Hc. unfold says, add_condition; simpl. rewrite length_app. split; [lia|]. split.
  - unfold eval_where in *. apply fmap_Some in He as (l & Hl & ->). apply fmap_Some. exists (l ++ [w]). split.
    + apply mapM_Some, Forall2_app; [|by repeat constructor]. apply mapM_Some. revert Hl. apply mapM_mono.
      intros c'. apply eval_app.
    + rewrite forallb_app. simpl. by rewrite andb_true_r.
  - intros n. rewrite map_app, concat_app, elem_of_app, Hp. simpl. rewrite app_nil_r, Hc. lia.
Qed.

(** The placeholders of a fresh [IN] list are answered by the values appended for it. *)
Lemma eval_one_of row column s args texts :
  row column = Some (VText s) ->
  eval row (args ++ map VText texts) (OneOf column (seq (S (length args)) (length texts))) =
  Some (bool_decide (s ∈ texts)).
Proof.
  intros Hrow. simpl. rewrite Hrow. simpl. apply fmap_Some. exists (map (fun t => bool_decide (s = t)) texts). split.
  - apply mapM_Some, Forall2_lookup. intros i. rewrite list_lookup_fmap.
    destruct (texts !! i) as [t|] eqn:Ht.
    + rewrite lookup_seq_lt by by eapply lookup_lt_Some. simpl. constructor. simpl.
      rewrite lookup_app_r by lia. replace (length args + i - length args)%nat with i by lia.
      rewrite list_lookup_fmap, Ht. done.
    + rewrite lookup_seq_ge by by apply lookup_ge_None. constructor.
  - apply eq_iff_eq_true. rewrite existsb_exists, bool_decide_eq_true. split.
    + intros Hs. exists true. split; [|done]. apply in_map_iff. exists s. rewrite bool_decide_true by done.
      by rewrite <-list_elem_of_In.
    + intros (b & (t & <- & Ht%list_elem_of_In)%in_map_iff & Hb). apply bool_decide_eq_true in Hb. by subst.
Qed.

(** ** Properties *)

(** Filters that are there or not alike, whatever is asked for. *)
Definition same_shape (f f' : DeviceFilter) : Prop :=
  (df_Query f = "" <-> df_Query f' = "") /\ length (df_States f) = length (df_States f') /\
  length (df_Kinds f) = length (df_Kinds f').

Lemma says_contains d pattern b v :
  says (device_column d) b v ->
  says (device_column d) (add_condition (Contains ["external_id"; "firmware"]%string) [VText pattern] b)
    (v && (ilike (d_ExternalID d) pattern || ilike (d_Firmware d) pattern)).
Proof.
  intros Hb. apply says_add; [done| |].
  - destruct Hb as (-> & _). simpl. rewrite list_lookup_middle by done. simpl. by rewrite orb_false_r.
  - intros n. simpl. set_solver by lia.
Qed.

Lemma says_one_of row column s texts b v :
  row column = Some (VText s) -> says row b v ->
  says row (add_one_of column texts b) (v && (bool_decide (texts = []) || bool_decide (s ∈ texts))).
Proof.
  intros Hrow Hb. destruct texts as [|t texts]; [by rewrite andb_true_r|]. apply says_add; [done| |].
  - destruct Hb as (-> & _). by apply eval_one_of.
  - intros n. rewrite length_map. apply elem_of_seq.
Qed.

Lemma device_where_says f d : says (device_column d) (device_where f) (device_matches f d).
Proof.
  unfold device_where, device_matches. apply says_one_of; [done|]. apply says_one_of; [done|].
  assert (says (device_column d) (mkBuilder [Equals "household_id" 1] [VInt (df_HouseholdID f)] 2)
            (d_HouseholdID d =? df_HouseholdID f)) as Hb.
  { split; [done|]. split; [unfold eval_where; simpl; by rewrite andb_true_r|]. intros n. simpl. set_solver by lia. }
  case_bool_decide; [by rewrite andb_true_r|]. by apply says_contains.
Qed.

(** Builders with the same text to come. *)
Definition alike (b b' : builder) : Prop := b_where b = b_where b' /\ b_arg b = b_arg b'.

Lemma alike_add c vs vs' b b' : alike b b' -> length vs = length vs' ->
  alike (add_condition c vs b) (add_condition c vs' b').
Proof. intros [Hw Ha] Hl. unfold alike, add_condition; simpl. by rewrite Hw, Ha, Hl. Qed.

Lemma alike_add_one_of column texts texts' b b' : alike b b' -> length texts = length texts' ->
  alike (add_one_of column texts b) (add_one_of column texts' b').
Proof.
  intros Hb Hl. destruct texts, texts'; try done. unfold add_one_of. rewrite Hl. apply alike_add; [done|].
  by rewrite !length_map.
Qed.

Lemma device_where_shape f f' : same_shape f f' -> alike (device_where f) (device_where f').
Proof.
  intros (Hq & Hs & Hk). unfold device_where. apply alike_add_one_of; [|done]. apply alike_add_one_of; [|done].
  rewrite (bool_decide_ext _ _ Hq). case_bool_decide; [done|]. by apply alike_add.
Qed.

(** C39: a device search asks the database what the filter says: on every row, the
    conditions of the query under its arguments are the filter; limit and offset are the
    last two arguments; every placeholder from the first to the last has an argument and
    every argument is used; and the text of the query is the same for all filters of the
    same shape, so that nothing a caller writes becomes SQL. *)
Theorem device_query_faithful f :
  let b := device_where f in let args := device_args f in
  (forall d, eval_where (device_column d) args (b_where b) = Some (device_matches f d)) /\
  argument args (b_arg b) = Some (VInt (df_Limit f)) /\ argument args (b_arg b + 1) = Some (VInt (df_Offset f)) /\
  (forall n, n ∈ concat (map placeholders (b_where b)) ++ [b_arg b; b_arg b + 1]%nat <-> (1 <= n <= length args)%nat) /\
  (forall f', same_shape f f' -> device_text f' = device_text f).
Proof.
  intros b args. subst args. unfold device_args. fold b.
  assert (b_arg b = S (length (b_args b)) /\
    forall n, n ∈ concat (map placeholders (b_where b)) <-> (1 <= n <= length (b_args b))%nat) as [Ha Hp].
  { by destruct (device_where_says f (mkDevice 0 0 "" "" "" "" 0 None 0)) as (? & _ & ?). }
  split_and!.
  - intros d. destruct (device_where_says f d) as (_ & He & _). by apply eval_where_app.
  - rewrite Ha. simpl. by rewrite list_lookup_middle.
  - rewrite Ha, Nat.add_1_r. simpl. by rewrite lookup_app_r, Nat.sub_succ_l, Nat.sub_diag by lia.
  - intros n. rewrite elem_of_app, Hp, length_app, Ha. simpl. set_solver by lia.
  - intros f' Hf. unfold device_text. by destruct (device_where_shape f f' Hf) as [-> ->].
Qed.

(** [itoa] knows the numbers up to nine, and no query of [ListOutbox] needs more. *)
Lemma itoa_Sprint v : 1 <= v <= 9 -> itoa v = Sprint v.
Proof.
  intros Hv. assert (v = 1 \/ v = 2 \/ v = 3 \/ v = 4 \/ v = 5 \/ v = 6 \/ v = 7 \/ v = 8 \/ v = 9) as Hd by lia.
  destruct_or! Hd; by subst.
Qed.

Lemma outbox_where_says f m : says (message_column m) (outbox_where f) (outbox_matches f m).
Proof.
  assert (says (message_column m) (mkBuilder [] [] 1) true) as Hb.
  { split; [done|]. split; [done|]. intros n. simpl. set_solver by lia. }
  unfold outbox_where, outbox_matches.
  assert (says (message_column m) (if bool_decide (of_Topic f = "") then mkBuilder [] [] 1
            else add_condition (Equals "topic") [VText (of_Topic f)] (mkBuilder [] [] 1))
    (bool_decide (of_Topic f = "") || bool_decide (o_Topic m = of_Topic f))) as Ht.
  { case_bool_decide; [done|]. by apply (says_add _ _ true _ _ (bool_decide _) Hb); [|intros n; simpl; set_solver by lia]. }
  revert Ht. generalize (bool_decide (of_Topic f = "") || bool_decide (o_Topic m = of_Topic f)).
  generalize (if bool_decide (of_Topic f = "") then mkBuilder [] [] 1
              else add_condition (Equals "topic") [VText (of_Topic f)] (mkBuilder [] [] 1)).
  intros b v Hbv. destruct (IsZero (of_Before f)); [by rewrite andb_true_r|]. apply says_add; [done| |].
  - destruct Hbv as (-> & _). simpl. by rewrite list_lookup_middle.
  - intros n. simpl. set_solver by lia.
Qed.

(** The listing of the outbox asks what its filter says, and the text it sends is that
    of its conditions, numbered like the arguments. *)
Theorem outbox_query_faithful f :
  let b := outbox_where f in
  (forall m, eval_where (message_column m) (outbox_args f) (b_where b) = Some (outbox_matches f m)) /\
  argument (outbox_args f) (b_arg b) = Some (VInt (outbox_limit f)) /\
  outbox_text f =
    "SELECT id,household_id,topic,payload,attempts,available_at,locked_at,delivered_at,failed_at,failure_reason FROM outbox_messages WHERE delivered_at IS NULL AND failed_at IS NULL"
    +:+ Join ("" :: map condition_text (b_where b)) " AND "
    +:+ " ORDER BY available_at,id LIMIT " +:+ mark (b_arg b).
Proof.
  intros b. split_and!.
  - intros m. destruct (outbox_where_says f m) as (_ & He & _). by apply eval_where_app.
  - unfold outbox_args. destruct (outbox_where_says f (mkOutbox 0 0 "" None 0 0 None None None None)) as (Ha & _).
    subst b. rewrite Ha. simpl. by rewrite list_lookup_middle.
  - subst b. unfold outbox_text, outbox_where. case_bool_decide; destruct (IsZero (of_Before f)); vm_compute; reflexivity.
Qed.
End sql.

(** ** Witness: a search text that looks like SQL changes nothing but an argument *)
Lemma device_query_faithful_witness :
  let f q := mkDeviceFilter 1 ["enabled"]%string [] q 50 0 in
  device_text (f "'; DROP TABLE devices; --"%string) = device_text (f "lamp"%string).
Proof.
  pose (PG := exact_postgres).
  pose (PT := {| ilike _ _ := true; numeric_sum _ := f0 |}).
  intros f. destruct (device_query_faithful (f "lamp"%string)) as (_ & _ & _ & _ & Hshape).
  apply Hshape. split; [by split|by split].
Defined.
