(* ===== verification/Migrations.v ===== *)
(** * db/db.go and db/health.go: migrations and health

    [Migrate] holds an advisory lock, so one run at a time: its state is the database
    schema and the versions recorded in [schema_migrations].  What the text of a
    migration does to the schema is a parameter, as is what fails. *)
From S2P Require Import Prelude Errors GoStd.

Section migrations.
Context {Schema : Type} `{SliceSort}.

(** A migration's SQL, in a transaction. *)
Context (apply_sql : string -> Schema -> result Schema).

Record MigrationState := mkMigrationState { ms_schema : Schema; ms_applied : gset string }.

(** What goes wrong with a version in a run: looking it up, reading the file, beginning
    its transaction, recording it, or committing. *)
Record faults := mkFaults {
  ft_lookup : option error; ft_read : option error; ft_begin : option error; ft_record : option error;
  ft_commit : option error }.
Definition no_faults : faults := mkFaults None None None None None.

Definition or_error (e : option error) (k : option error * MigrationState) (st : MigrationState)
    : option error * MigrationState :=
  match e with Some e => (Some e, st) | None => k end.

(** The body of the loop for one version. *)
Definition migrate_one (ft : faults) (version : string) (st : MigrationState) : option error * MigrationState :=
  or_error (ft_lookup ft)
    (if bool_decide (version ∈ ms_applied st) then (None, st)
     else or_error (ft_read ft)
       (or_error (wrap_prefix ("begin migration " +:+ version) <$> ft_begin ft)
          (match apply_sql version (ms_schema st) with
           | Fail e => (Some (wrap_prefix ("migration " +:+ version) e), st)
           | Ok schema =>
               or_error (wrap_prefix ("migration " +:+ version) <$> ft_record ft)
                 (or_error (wrap_prefix ("commit migration " +:+ version) <$> ft_commit ft)
                    (None, mkMigrationState schema ({[version]} ∪ ms_applied st)) st) st
           end) st) st) st.

Fixpoint migrate_all (fts : string -> faults) (versions : list string) (st : MigrationState)
    : option error * MigrationState :=
  match versions with
  | [] => (None, st)
  | version :: rest =>
      match migrate_one (fts version) version st with
      | (None, st) => migrate_all fts rest st
      | failed => failed
      end
  end.

(** [strings.HasSuffix(name, ".sql")]. *)
Definition is_sql (name : string) : bool :=
  match rev (bytes name) with
  | l :: q :: s :: dot :: _ => bool_decide (of_bytes [dot; s; q; l] = ".sql"%string)
  | _ => false
  end.

(** [Migrate]: [entries] are the embedded files with whether each is a directory;
    [setup] the first failure of acquiring the connection, the lock or the table. *)
Definition migration_order (entries : list (string * bool)) : list string :=
  sort_Slice String.ltb (map fst (List.filter (fun e => negb e.2 && is_sql e.1) entries)).
Definition Migrate (setup : option error) (fts : string -> faults) (entries : list (string * bool))
    (st : MigrationState) : option error * MigrationState :=
  or_error setup (migrate_all fts (migration_order entries) st) st.

(** [MigrationVersions]. *)
Definition MigrationVersions (st : MigrationState) : list string :=
  sort_Slice String.ltb (elements (ms_applied st)).

(** ** Lemmas *)
Lemma migrate_one_None ft version st st' : migrate_one ft version st = (None, st') ->
  migrate_one no_faults version st = (None, st') /\ version ∈ ms_applied st' /\ ms_applied st ⊆ ms_applied st' /\
  ms_applied st' ⊆ {[version]} ∪ ms_applied st.
Proof.
  unfold migrate_one, or_error. destruct (ft_lookup ft); [done|]. simpl.
  destruct (bool_decide (version ∈ ms_applied st)) eqn:Hv; [intros [= <-]; bsimp; set_solver|].
  destruct (ft_read ft); [done|]. destruct (ft_begin ft); [done|]. simpl.
  destruct (apply_sql version (ms_schema st)) as [schema|e]; [|done].
  destruct (ft_record ft); [done|]. destruct (ft_commit ft); [done|]. simpl. intros [= <-]. simpl. set_solver.
Qed.

Lemma migrate_one_Some ft version st e st' : migrate_one ft version st = (Some e, st') -> st' = st.
Proof. unfold migrate_one, or_error. intros H'. repeat case_match; congruence. Qed.

Lemma migrate_all_applied versions st :
  (forall v, v ∈ versions -> v ∈ ms_applied st) -> migrate_all (fun _ => no_faults) versions st = (None, st).
Proof.
  revert st. induction versions as [|v versions IH]; intros st Hv; simpl; [done|].
  assert (migrate_one no_faults v st = (None, st)) as ->
    by (unfold migrate_one; simpl; rewrite bool_decide_eq_true_2 by (apply Hv; by left); done).
  apply IH. intros x Hx. apply Hv. by right.
Qed.

Lemma migrate_all_grows fts versions st r st' :
  migrate_all fts versions st = (r, st') -> ms_applied st ⊆ ms_applied st' /\
  (r = None -> forall v, v ∈ versions -> v ∈ ms_applied st').
Proof.
  revert st. induction versions as [|v versions IH]; intros st; simpl.
  { intros [= <- <-]. split; [done|]. by intros _ v ?%elem_of_nil. }
  destruct (migrate_one (fts v) v st) as [[e|] st1] eqn:E.
  - apply migrate_one_Some in E as ->. intros [= <- <-]. done.
  - apply migrate_one_None in E as (_ & Hin & Hsub & _). intros (Hg & Hall)%IH. split; [set_solver|].
    intros Hr x [->|Hx]%elem_of_cons; [set_solver|auto].
Qed.

(** Running again after a failure continues where the first run stopped. *)
Lemma migrate_all_resumes fts versions st r st' :
  migrate_all fts versions st = (r, st') ->
  migrate_all (fun _ => no_faults) versions st' = migrate_all (fun _ => no_faults) versions st.
Proof.
  revert st. induction versions as [|v versions IH]; intros st; simpl; [by intros [= <- <-]|].
  destruct (migrate_one (fts v) v st) as [[e|] st1] eqn:E.
  - apply migrate_one_Some in E as ->. by intros [= <- <-].
  - apply migrate_one_None in E as (-> & Hin & _ & _). intros Hrest. rewrite <-(IH st1 Hrest).
    assert (migrate_one no_faults v st' = (None, st')) as ->; [|done].
    unfold migrate_one; simpl. rewrite bool_decide_eq_true_2; [done|].
    apply migrate_all_grows in Hrest as [Hg _]. set_solver.
Qed.

(** ** Property *)

End migrations.

(** ** Health: the server's answers to the ping and to the version query *)
Record HealthReport := mkHealthReport { hp_Reachable : bool; hp_Latency : Duration; hp_Version : string; hp_At : Time }.

Definition DB_Health (ping : option error) (version : result string) (latency : Duration) (now : Time)
    : HealthReport * option error :=
  match ping with
  | Some e => (mkHealthReport false latency "" now, Some e)
  | None => match version with
            | Fail e => (mkHealthReport false 0 "" zeroTime, Some (wrap_prefix "read server version" e))
            | Ok v => (mkHealthReport true latency v now, None)
            end
  end.

