(* ===== verification/Observability.v ===== *)
(** * package observability

    Counters behind pointers in a registry, the request metrics, and the writer that
    remembers the first status and wraps every response. *)
From S2P Require Import Prelude Errors GoStd.

(** ** metrics.go: the counters live in a store, the registry maps names to them *)
Record Counter := mkCounter { ct_value : Z; ct_labels : gmap string string }.
Record Metric := mkMetric { mt_Name : string; mt_Value : Z; mt_Labels : gmap string string; mt_Observed : Time }.
Record Registry := mkRegistry { rg_counters : gmap string nat; rg_store : gmap nat Counter; rg_next : nat }.

Definition NewRegistry : Registry := mkRegistry ∅ ∅ 0.
Definition NewCounter (labels : gmap string string) : Counter := mkCounter 0 labels.
Definition Counter_Snapshot (c : Counter) : Metric := mkMetric "counter" (ct_value c) (ct_labels c) zeroTime.

(** [Registry.Counter]: the counter of that name, made on first use. *)
Definition Registry_Counter (name : string) (labels : gmap string string) (r : Registry) : nat * Registry :=
  let name := TrimSpace name in
  match rg_counters r !! name with
  | Some c => (c, r)
  | None => (rg_next r, mkRegistry (<[name := rg_next r]> (rg_counters r))
                          (<[rg_next r := NewCounter labels]> (rg_store r)) (S (rg_next r)))
  end.

(** [Counter.Add]: int64 addition. *)
Definition Counter_Add (c : nat) (delta : Z) (r : Registry) : Registry :=
  mkRegistry (rg_counters r)
    (alter (fun x => mkCounter (wrap64 (ct_value x + delta)) (ct_labels x)) c (rg_store r)) (rg_next r).
Definition Counter_Value (c : nat) (r : Registry) : Z := default 0 (ct_value <$> rg_store r !! c).

Definition Registry_Snapshot `{SliceSort} (now : Time) (r : Registry) : list Metric :=
  omap (fun key => c ← rg_counters r !! key; x ← rg_store r !! c; Some (mkMetric key (ct_value x) (ct_labels x) now))
    (sort_Slice String.ltb (map fst (map_to_list (rg_counters r)))).

Definition metric_line (m : Metric) : string := mt_Name m +:+ " " +:+ Sprint (mt_Value m) +:+ newline.

(** [Export]: the context is looked at before the snapshot and before every line. *)
Fixpoint export_lines (ctxs : nat -> Ctx) (i : nat) (metrics : list Metric) (out : string) : result string :=
  match metrics with
  | [] => Ok out
  | m :: rest => match ctx_Err (ctxs i) with
                 | Some e => Fail e
                 | None => export_lines ctxs (S i) rest (out +:+ metric_line m)
                 end
  end.
Definition Export `{SliceSort} (ctxs : nat -> Ctx) (now : Time) (r : Registry) : result string :=
  match ctx_Err (ctxs 0%nat) with
  | Some e => Fail e
  | None => export_lines ctxs 1 (Registry_Snapshot now r) ""
  end.

(** ** observability.go: the request metrics, atomic int64s *)
Record Metrics := mkMetrics { mx_Requests : Z; mx_Failures : Z; mx_LatencyNanos : Z }.
Definition Observe (start now : Time) (failed : bool) (m : Metrics) : Metrics :=
  let elapsed := Sub now start in
  let elapsed := if elapsed <? 0 then 0 else elapsed in
  mkMetrics (wrap64 (mx_Requests m + 1)) (if failed then wrap64 (mx_Failures m + 1) else mx_Failures m)
    (wrap64 (mx_LatencyNanos m + elapsed)).
Definition Metrics_Snapshot (m : Metrics) : Z * Z * Duration := (mx_Requests m, mx_Failures m, mx_LatencyNanos m).

(** ** The context key of the request id *)
Definition ContextKey := string.
Definition RequestKey : ContextKey := "request_id".
Definition WithRequestID (ctx : Values) (id : string) : Values :=
  WithValue "observability.ContextKey" RequestKey id ctx.
Definition RequestID (ctx : Values) : string := Value "observability.ContextKey" RequestKey ctx.

(** ** The writer [responseState]: what reaches the client is the first status and the
    bytes. *)
Record Writer := mkWriter { wr_committed : bool; wr_status : Z; wr_sent : list Z; wr_body : list string }.
Definition WriteHeader (status : Z) (w : Writer) : Writer :=
  if wr_committed w then w else mkWriter true status (wr_sent w ++ [status]) (wr_body w).
Definition Write (data : string) (w : Writer) : Writer :=
  let w := if wr_committed w then w else WriteHeader 200 w in
  mkWriter (wr_committed w) (wr_status w) (wr_sent w) (wr_body w ++ [data]).

Inductive write := Status (status : Z) | Bytes (data : string).
Definition do_write (w : Writer) (op : write) : Writer :=
  match op with Status s => WriteHeader s w | Bytes b => Write b w end.

(** [AccessLog] around a handler that performs [ops] and may panic, from [start] to
    [now]: the writer and the metrics.  [http.Error] ends the text with a newline. *)
Definition AccessLog (metrics : option Metrics) (ops : list write) (panicked : bool) (start now : Time)
    : Writer * option Metrics :=
  let w := fold_left do_write ops (mkWriter false 0 [] []) in
  let w := if panicked && negb (wr_committed w) then Write ("internal" +:+ newline) (WriteHeader 500 w) else w in
  (w, Observe start now (panicked || (500 <=? wr_status w)) <$> metrics).

(** ** Lemmas *)
Lemma Registry_Counter_same name name' labels labels' r :
  TrimSpace name = TrimSpace name' ->
  let '(c, r1) := Registry_Counter name labels r in
  Registry_Counter name' labels' r1 = (c, r1).
Proof.
  intros Hn. unfold Registry_Counter. rewrite <-Hn.
  destruct (rg_counters r !! TrimSpace name) as [c|] eqn:E; [by rewrite E|]. simpl. by rewrite lookup_insert_eq.
Qed.

(** The client sees at most one status line, the one the writer remembers. *)
Definition writer_ok (w : Writer) : Prop := wr_sent w = if wr_committed w then [wr_status w] else [].

Lemma do_write_ok w op : writer_ok w -> writer_ok (do_write w op).
Proof.
  unfold writer_ok. destruct op; simpl; unfold WriteHeader, Write; destruct (wr_committed w) eqn:E; simpl; rewrite ?E; intros ->; done.
Qed.
Lemma writes_ok ops w : writer_ok w -> writer_ok (fold_left do_write ops w).
Proof. revert w. induction ops as [|op ops IH]; intros w Hw; simpl; [done|]. by apply IH, do_write_ok. Qed.

(** Every request is counted once, and as a failure when the handler panicked or the
    client was sent a 5xx; a panic before anything was sent becomes a 500. *)
Theorem AccessLog_counts m ops panicked start now w m' :
  0 <= mx_Requests m < int64_max -> 0 <= mx_Failures m < int64_max ->
  AccessLog (Some m) ops panicked start now = (w, Some m') ->
  mx_Requests m' = mx_Requests m + 1 /\
  mx_Failures m' = mx_Failures m + (if panicked || (500 <=? wr_status w) then 1 else 0) /\
  writer_ok w /\ (panicked = true -> wr_committed w = true).
Proof.
  unfold AccessLog. intros Hr Hf. set (w0 := fold_left do_write ops _).
  assert (writer_ok w0) as Hok by by apply writes_ok.
  intros [= <- <-]. unfold Observe; simpl.
  rewrite !wrap64_small by (unfold is_int64, int64_min, int64_max in *; lia).
  split; [done|]. split; [case_match; lia|].
  destruct panicked, (wr_committed w0) eqn:Hc; simpl; rewrite ?Hc; try (by split).
  unfold WriteHeader, Write, writer_ok. rewrite Hc. unfold writer_ok in Hok. rewrite Hc in Hok. simpl. by rewrite Hok.
Qed.

Lemma AccessLog_counts_witness :
  let w := mkWriter true 500 [500] ["internal" +:+ newline] in let m := mkMetrics 1 1 5 in
  AccessLog (Some (mkMetrics 0 0 0)) [] true 10 15 = (w, Some m) /\ mx_Failures m = 1.
Proof.
  simpl. split; [vm_compute; reflexivity|].
  destruct (AccessLog_counts (mkMetrics 0 0 0) [] true 10 15 (mkWriter true 500 [500] ["internal" +:+ newline])
    (mkMetrics 1 1 5)) as (_ & Hf & _); [by vm_compute|by vm_compute|by vm_compute|exact Hf].
Defined.

(** Keys of different packages do not meet: the identifier stored here is read back,
    whatever other packages store under keys of their own types. *)
Lemma RequestID_own ctx id type key value :
  type <> "observability.ContextKey"%string -> RequestID (WithValue type key value (WithRequestID ctx id)) = id.
Proof.
  intros Ht. unfold RequestID, WithRequestID. rewrite Value_other by congruence. apply Value_WithValue.
Qed.
