(* ===== verification/System.v ===== *)
(** * The whole program against one database

    [operation] is what the running process does with the database: HTTP requests,
    polls of the automation and outbox runners, maintenance cycles.  [reaches] closes
    the interleavings: while an operation runs, other instances of the program may run
    theirs between any two of its statements.  Each operation is first shown to write
    by legal statements only; every history and the schema follow for all of them. *)
From S2P Require Import Prelude Errors GoStd Model Rules Store Repo Frame Devices Plans Automations.
From S2P Require Import Outbox Password Auth Batch Alerts Telemetry Statements Schema Http Maintenance Worker.

Section operations.
Context `{PG : Postgres} `{Unicode} `{Pbkdf2} `{Zones} `{Decoding} `{SliceSort}.

(** [Server.Readiness] as [main] sets it: the ping and the version query of
    [db.Health]. *)
Definition health_check : M unit :=
  _ ← statement (fun d _ => (Ok tt, d));
  map_err (wrap_prefix "read server version") (statement (fun d _ => (Ok tt, d))).

(** The server of [main]: [NewServer], then [Scope] and [Readiness] are set. *)
Definition main_server : Server :=
  let s := NewServer true true in mkServer (sv_Households s) (sv_Auth s) true (Some health_check).

Inductive operation :=
| Request_ (q : Http.Request) (dw : Draw)
| PollRuns (ctx : Ctx) (locked : gset Z) (started failed : Time)
| PollOutbox (ctx : Ctx) (publish : OutboxMessage -> option error) (retryLimit : Z) (locked : gset Z) (now : Time)
| Maintain (now : Time).

Definition perform (op : operation) : M unit :=
  match op with
  | Request_ q dw => _ ← serve main_server q dw; mret tt
  | PollRuns ctx locked started failed => _ ← Runner_process ctx locked started failed; mret tt
  | PollOutbox ctx publish retryLimit locked now => _ ← process ctx publish (effective_limit retryLimit) locked now; mret tt
  | Maintain now => _ ← MaintenanceService_Run now; mret tt
  end.

(** ** Operations write by legal statements only *)
Notation legally := (guarantees (writes legal)).

Lemma guarantees_answer {A} R rid (m : M A) ok : guarantees R m -> guarantees R (answer rid m ok).
Proof. intros Hm s Hs. unfold answer. specialize (Hm s Hs). by destruct (m s) as [[] ?]. Qed.

(** A claim, then something done with what was claimed whose error is only logged. *)
Lemma guarantees_claim {A B} R `{!TwoState R} (m : M A) (k : A -> M unit) (g : A -> B) :
  guarantees R m -> (forall a, guarantees R (k a)) ->
  guarantees R (fun s => match m s with
                         | (Fail _, s) => (Ok None, s)
                         | (Ok a, s) => (Ok (Some (g a)), (logged (k a) s).2)
                         end).
Proof.
  intros Hm Hk s Hs. destruct (Hm s Hs) as [Hr Hs1]. destruct (m s) as [[a|e] s1]; [|done].
  destruct (Hk a s1 Hs1) as [Hr' Hs2]. cbn [logged snd] in *. split; [by etransitivity|done].
Qed.

(** Calls of a repository method behind an interface. *)
Ltac legal_method :=
  first
    [ apply CreateHousehold_writes | apply AddMember_writes | apply CreateHouseholdWithOwner_writes
    | apply FindMember_writes | apply MemberByID_writes | apply CreateSession_writes | apply GetSession_writes
    | apply RevokeSession_writes | apply DeleteExpiredSessions_writes | apply CreateDevice_writes
    | apply GetDevice_writes | apply TransitionDevice_writes | apply TouchDevice_writes
    | apply InsertTelemetry_writes | apply TelemetryWindow_writes | apply CreatePlan_writes | apply GetPlan_writes
    | apply SetPlanState_writes | apply ExpirePlans_writes | apply CreateAutomation_writes
    | apply GetAutomation_writes | apply SetAutomationState_writes | apply QueueRun_writes
    | apply ExecuteAutomationRun_writes | apply FinishStaleRuns_writes | apply resourceHousehold_writes ];
  try exact (fun st H => H).
#[local] Hint Extern 4 (guarantees (writes legal) _) => legal_method : repo.

Lemma Enroll_legal h e k f caps : legally (Enroll h e k f caps).
Proof. unfold Enroll. case_match; [eauto with repo|]. g_bind. case_match; eauto with repo. Qed.
Lemma Pair_legal id : legally (Pair id).
Proof. unfold Pair. g_bind. case_match; [eauto with repo|]. legal_method. by intros _. Qed.
Ltac move_of_state :=
  intros _; bcases; match goal with Hs : d_State _ = _ |- _ => by rewrite Hs end.
Lemma Enable_legal id : legally (Enable id).
Proof. unfold Enable. g_bind. case_match; [eauto with repo|]. legal_method. move_of_state. Qed.
Lemma Disable_legal id : legally (Disable id).
Proof. unfold Disable. g_bind. case_match; [eauto with repo|]. legal_method. move_of_state. Qed.
Lemma Retire_legal id : legally (Retire id).
Proof.
  unfold Retire. g_bind. case_match; [eauto with repo|]. legal_method. intros Hk. bsimp. by apply Retire_allowed.
Qed.
Lemma Touch_legal id now : legally (Touch id now).
Proof. unfold Touch. g_bind. case_match; eauto with repo. Qed.
Lemma Record_legal t now : legally (Record_ t now).
Proof. unfold Record_. repeat case_match; eauto with repo. Qed.
Lemma Window_legal id start end_ : legally (Window id start end_).
Proof. unfold Window. repeat case_match; eauto with repo. Qed.

Lemma Draft_legal p pds now : legally (Draft p pds now).
Proof. unfold Draft. repeat case_match; eauto with repo. Qed.
Lemma Schedule_legal id now : legally (Schedule id now).
Proof. unfold Schedule. g_bind. case_match; [eauto with repo|]. legal_method. mem. Qed.
Lemma Start_legal id now : legally (Start id now).
Proof. unfold Start. g_bind. case_match; [eauto with repo|]. legal_method. mem. Qed.
Lemma Complete_legal id : legally (Complete id).
Proof. unfold Complete. g_bind. case_match; [eauto with repo|]. legal_method. mem. Qed.
Lemma Cancel_legal id : legally (Cancel id).
Proof.
  unfold Cancel. g_bind. case_match; [eauto with repo|]. legal_method. simpl. bcases;
    match goal with Hs : p_State _ = _ |- _ => rewrite Hs; mem end.
Qed.

Lemma check_actions_legal h seen acts : legally (check_actions h seen acts).
Proof.
  revert seen. induction acts as [|a acts IH]; intros seen; cbn [check_actions]; [eauto with repo|].
  case_match; [eauto with repo|]. g_bind. case_match; [eauto with repo|]. case_match; eauto with repo.
Qed.
Lemma Create_legal a acts : legally (Create a acts).
Proof. unfold Create. case_match; [eauto with repo|]. g_bind; [apply check_actions_legal|]. eauto with repo. Qed.
Lemma Queue_legal id key : legally (Queue id key).
Proof. unfold Queue. case_match; [eauto with repo|]. g_bind. case_match; eauto with repo. Qed.
Lemma Activate_legal id : legally (Activate id).
Proof. unfold Activate. case_match; [eauto with repo|]. legal_method. mem. Qed.
Lemma Pause_legal id : legally (Pause id).
Proof. unfold Pause. case_match; [eauto with repo|]. legal_method. mem. Qed.
Lemma Execute_legal ctx id now : legally (Execute ctx id now).
Proof. unfold Execute. repeat case_match; eauto with repo. Qed.

Lemma Login_legal h e p uuid now : legally (Login h e p uuid now).
Proof. unfold Login. g_bind. destruct a as [m hash]. case_match; eauto with repo. Qed.
Lemma Authorize_legal sid r now : legally (Authorize sid r now).
Proof.
  unfold Authorize. case_match; [eauto with repo|]. g_bind. case_match; [eauto with repo|].
  g_bind. case_match; eauto with repo.
Qed.
Lemma Logout_legal sid now : legally (Logout sid now).
Proof. unfold Logout. case_match; eauto with repo. Qed.
Lemma Onboard_legal salt n t b e p : legally (Onboard salt n t b e p).
Proof. unfold Onboard. repeat case_match; eauto with repo. Qed.
Lemma AddMember_legal salt h e p r : legally (HouseholdService_AddMember salt h e p r).
Proof. unfold HouseholdService_AddMember. repeat case_match; eauto with repo. Qed.
Lemma Resolve_legal id now : legally (Resolve id now).
Proof.
  unfold Resolve. case_match; [eauto with repo|]. g_bind; [apply GetAlert_writes|].
  case_match; [eauto with repo|]. apply TransitionAlert_writes. simpl. unfold alert_step. by bsimp.
Qed.
Lemma Maintenance_legal now : legally (MaintenanceService_Run now).
Proof.
  unfold MaintenanceService_Run. case_match; [eauto with repo|].
  change (@VacuumSessions _) with (@Repo.VacuumSessions PG). unfold Repo.VacuumSessions.
  do 3 g_bind. eauto with repo.
Qed.
Lemma Retention_legal age1 age2 now : legally (RetentionService_Run age1 age2 now).
Proof.
  unfold RetentionService_Run. repeat case_match; eauto with repo.
  g_bind; [apply guarantees_map_err, DeleteTelemetryBefore_writes; by intros|]. g_bind. eauto with repo.
Qed.
#[local] Hint Resolve Enroll_legal Pair_legal Enable_legal Disable_legal Retire_legal Touch_legal Record_legal
  Window_legal Draft_legal Schedule_legal Start_legal Complete_legal Cancel_legal Create_legal Queue_legal
  Activate_legal Pause_legal Execute_legal Login_legal Authorize_legal Logout_legal Onboard_legal AddMember_legal
  Resolve_legal Maintenance_legal Retention_legal guarantees_answer : repo.

(** *** HTTP *)
Lemma authorize_legal sv q r now : legally (authorize sv q r now).
Proof. unfold authorize. case_match; eauto with repo. Qed.
#[local] Hint Resolve authorize_legal : repo.
Lemma in_household_legal {A} sv q rid id r now (op : Z -> M A) ok :
  (forall z, legally (op z)) -> legally (in_household sv q rid id r now op ok).
Proof.
  intros Hop. apply guarantees_answer. g_bind. g_bind; [|apply Hop]. unfold authorizeHousehold. g_bind.
  case_match; eauto with repo.
Qed.
Lemma on_resource_legal {A} sv q rid id r lookup now (op : Z -> M A) ok :
  (forall z, legally (lookup z)) -> (forall z, legally (op z)) ->
  legally (on_resource sv q rid id r lookup now op ok).
Proof.
  intros Hl Hop. apply guarantees_answer. g_bind. g_bind; [|apply Hop]. unfold requireResource, authorizeResource.
  apply guarantees_map_err. g_bind; [|eauto with repo]. case_match; [eauto with repo|].
  g_bind. g_bind. case_match; eauto with repo.
Qed.

Lemma health_check_legal : legally health_check.
Proof. unfold health_check. eauto with repo. Qed.

Lemma handle_legal q rid dw r : legally (handle main_server q rid dw r).
Proof.
  destruct r; simpl;
    try (apply on_resource_legal; [intros; legal_method|]; intros; repeat case_match; eauto with repo);
    try (apply in_household_legal; intros; eauto with repo).
  - unfold health. eauto with repo.
  - intros s Hs. unfold ready. cbn [sv_Readiness main_server]. destruct (health_check_legal s Hs). by destruct (health_check s) as [[] ?].
  - unfold createHousehold. apply guarantees_answer. g_bind. case_match; eauto with repo.
  - unfold login. apply guarantees_answer. g_bind. g_bind. case_match; unfold panics; eauto with repo.
  - unfold logout. apply guarantees_answer. repeat case_match; unfold panics; eauto with repo.
Qed.

Lemma serve_legal q dw : legally (serve main_server q dw).
Proof.
  unfold serve. repeat case_match; eauto with repo. g_bind; [apply handle_legal|]. eauto with repo.
Qed.

(** *** Workers *)
Lemma process_legal ctx publish limit locked now : legally (process ctx publish limit locked now).
Proof.
  eapply (guarantees_claim (writes legal) (Repo.ClaimOutbox locked) (fun msg => match publish msg with
    | None => MarkOutbox (o_ID msg) true zeroTime
    | Some pubErr => if limit <=? o_Attempts msg then MarkOutboxFailed (o_ID msg) (Error pubErr)
                     else RescheduleOutbox (o_ID msg) (o_Attempts msg)
                            (Add now (wrap64 (o_Attempts msg * Second))) (Some pubErr) end) id).
  - apply ClaimOutbox_writes. by intros.
  - intros msg. repeat case_match;
      [apply MarkOutboxFailed_writes|apply RescheduleOutbox_writes|apply MarkOutbox_writes]; by intros.
Qed.

Lemma Runner_process_legal ctx locked started failed : legally (Runner_process ctx locked started failed).
Proof.
  intros s Hs. unfold Runner_process, under. cbn [persistenceContext ctx_Err].
  destruct (ClaimRun_writes legal (fun _ H => H) locked s Hs) as [Hr1 Hs1].
  destruct (ClaimRun locked s) as [[run|e] s1]; [|done]. cbn [fst snd] in *.
  destruct (Execute_legal ctx (r_ID run) started s1 Hs1) as [Hr2 Hs2].
  destruct (Execute ctx (r_ID run) started s1) as [[[]|err] s2]; cbn [fst snd] in *.
  { split; [by etransitivity|done]. }
  assert (legally (if is_ctx_error err then RequeueRun (r_ID run)
                   else FinishRun (r_ID run) RunFailed (Error err) failed)) as Hp.
  { case_match; [apply RequeueRun_writes; by intros|apply FinishRun_writes; mem]. }
  destruct (Hp s2 Hs2) as [Hr3 Hs3]. cbn [logged snd]. split; [|done]. by do 2 (etransitivity; [eassumption|]).
Qed.
#[local] Hint Resolve serve_legal process_legal Runner_process_legal : repo.

Lemma perform_legal op : legally (perform op).
Proof. destruct op; simpl; eauto with repo. Qed.

(** ** Interleavings

    [reaches d d']: operations run one after the other from [d] to [d'], and between
    any two statements of each of them whatever the program may do as well. *)
Inductive reaches : Database -> Database -> Prop :=
| reaches_refl d : reaches d d
| reaches_perform op s d' :
    List.Forall (fun ev => forall d, reaches d (ev_env ev d)) (schedule s) ->
    reaches (db (perform op s).2) d' -> reaches (db s) d'.

Lemma reaches_legal d d' : reaches d d' -> writes legal d d'.
Proof.
  revert d d'. fix IH 3. intros d d' Hr. destruct Hr as [d|op s d' Hs Hr]; [reflexivity|].
  assert (rely (writes legal) s) as Hrely.
  { unfold rely. clear Hr. revert Hs. generalize (schedule s) as l.
    fix IHl 2. intros l Hs. destruct Hs as [|ev l He Hs]; constructor; [|by apply IHl].
    intros d0. apply IH, He. }
  etransitivity; [exact (proj1 (perform_legal op s Hrely))|]. apply IH, Hr.
Qed.
End operations.

(** ** What every legal statement respects *)
Section histories.
Context `{PG : Postgres}.

(** Rows that are never changed nor deleted. *)
Definition append_only (R : Type) `{Table R} : Database -> Database -> Prop := evolve (R := R) (fun _ _ => True) eq.
#[export] Instance append_only_TwoState R `{Table R} : TwoState (append_only R).
Proof. apply evolve_TwoState, _. Qed.

(** A statement on other tables. *)
Ltac other_table := apply evolve_same; [apply _|frame].

Lemma legal_device st d now : legal st -> device_history d (exec st d now).
Proof.
  intros Hl. destruct st; cbn [exec legal] in *; try solve [other_table].
  - apply (guarantees_exec device_history), insert_device_history.
  - by apply (guarantees_exec device_history), update_device_state_history.
  - apply update_row_evolve; [apply _|]. intros d0 r r' t _ [= <-]. split; [done|].
    intros _. exists 0%nat. split; [simpl; lia|constructor].
Qed.

Lemma legal_plan st d now : legal st -> plan_history d (exec st d now).
Proof.
  intros Hl. destruct st; cbn [exec legal] in *; try solve [other_table].
  - by apply insert_row_evolve; [apply _|].
  - apply update_row_evolve; [apply _|]. intros d0 r r' t Hc [= <-]. bsimp. apply plan_evolves_step. congruence.
  - apply (guarantees_exec plan_history _ (ExpirePlans_history now0)).
Qed.

Lemma legal_automation st d now : legal st -> automation_history d (exec st d now).
Proof.
  intros Hl. destruct st; cbn [exec legal] in *; try solve [other_table].
  - by apply insert_row_evolve; [apply _|].
  - apply update_row_evolve; [apply _|]. intros d0 r r' t Hc [= <-]. bsimp.
    split; [done|]. apply rtc_once. simpl. congruence.
Qed.

Lemma legal_run st d now : legal st -> run_history d (exec st d now).
Proof.
  intros Hl. destruct st; cbn [exec legal] in *;
    try solve [split; [other_table|unfold keeps; match goal with |- _ -> runs_keyed (rows ?d') =>
      replace (rows (R := AutomationRun) d') with (rows (R := AutomationRun) d) by (symmetry; frame); done end]].
  - apply (guarantees_exec run_history), queue_run_history.
  - apply (guarantees_exec run_history _ (ClaimRun_history locked)).
  - apply (guarantees_exec run_history), runs_update_row. intros d0 r r' t Hc [= <-].
    unfold is_running in Hc. bsimp. apply step_finish; [done|exact (proj1 Hl)].
  - apply (guarantees_exec run_history), runs_update_row. intros d0 r r' t Hc [= <-].
    unfold is_running in Hc. bsimp. by apply step_requeue.
  - apply (guarantees_exec run_history _ (FinishStaleRuns_history cutoff)).
  - apply (guarantees_exec run_history), finish_run_history.
Qed.

Lemma legal_outbox st d now : legal st -> outbox_history d (exec st d now).
Proof.
  intros Hl. destruct st; cbn [exec legal] in *; try solve [other_table].
  - apply (guarantees_exec outbox_history), insert_outbox_history.
  - apply (guarantees_exec outbox_history _ (ClaimOutbox_history locked)).
  - apply (guarantees_exec outbox_history), pending_update_history. intros m m' t Hp Hc [= <-]. by apply step_deliver.
  - apply (guarantees_exec outbox_history), pending_update_history. intros m m' t Hp Hc [= <-].
    apply step_retry; [done|]. simpl in Hc. by bsimp.
  - apply (guarantees_exec outbox_history), pending_update_history. intros m m' t Hp Hc [= <-]. by apply step_fail.
  - apply (guarantees_exec outbox_history), pending_update_history. intros m m' t Hp Hc [= <-].
    apply step_retry; [done|]. simpl in Hc. by bsimp.
Qed.

Lemma legal_alert st d now : legal st -> alert_history d (exec st d now).
Proof.
  intros Hl. destruct st; cbn [exec legal] in *; try solve [other_table].
  - by apply (guarantees_exec alert_history), insert_alert_history.
  - by apply (guarantees_exec alert_history), update_alert_state_history.
Qed.

Lemma legal_audit st d now : legal st -> append_only AuditEvent d (exec st d now).
Proof.
  intros Hl. destruct st; cbn [exec legal] in *; try solve [other_table].
  unfold insert_audit. case_match; [by apply evolve_same; [apply _|]|]. by apply insert_row_evolve; [apply _|].
Qed.
Lemma legal_household st d now : legal st -> append_only Household d (exec st d now).
Proof.
  intros Hl. destruct st; cbn [exec legal] in *; try solve [other_table]. by apply insert_row_evolve; [apply _|].
Qed.
Lemma legal_member st d now : legal st -> append_only MemberRow d (exec st d now).
Proof.
  intros Hl. destruct st; cbn [exec legal] in *; try solve [other_table]; [|done].
  by apply insert_row_evolve; [apply _|].
Qed.
Lemma legal_action st d now : legal st -> append_only AutomationAction d (exec st d now).
Proof.
  intros Hl. destruct st; cbn [exec legal] in *; try solve [other_table]. unfold insert_action.
  destruct (devices d !! _); [|by apply evolve_same; [apply _|]]. destruct (_ && _); [|by apply evolve_same; [apply _|]].
  match goal with |- context [insert_row ?mk ?cs d now] =>
    pose proof (insert_row_evolve (fun _ _ => True) eq mk cs (fun _ _ => I) d now) as Hi; destruct (insert_row mk cs d now) end.
  exact Hi.
Qed.
End histories.

(** ** Properties *)
Section properties.
Context `{PG : Postgres} `{Unicode} `{Pbkdf2} `{Zones} `{Decoding} `{SliceSort}.

Lemma reaches_schema d d' : reaches d d' -> schema d -> schema d'.
Proof.
  intros Hr%reaches_legal. apply (writes_within legal keeps_schema); [apply _| |done].
  intros st d0 now _. apply exec_keeps_schema.
Qed.

Lemma reaches_tenancy d d' : reaches d d' -> tenancy d -> tenancy d'.
Proof.
  intros Hr%reaches_legal. apply (writes_within_seen legal keeps_tenancy); [apply _| |done].
  intros st d0 now _ Hst. intros Hd. by apply exec_tenancy.
Qed.

(** Every operation of the program is made of legal statements: whatever fails, and
    as long as the other clients also write by legal statements only, a request, a poll
    or a maintenance cycle takes the database to one that legal statements reach. *)
Theorem operations_write_legally op s :
  rely (writes legal) s -> writes legal (db s) (db (perform op s).2).
Proof. intros Hs. exact (proj1 (perform_legal op s Hs)). Qed.


(** C5: tenants stay apart in the data: whatever the program does, from a database in
    which the devices of every plan and of every automation belong to its household, it
    only reaches such databases, though no constraint of the schema demands it. *)
Theorem tenancy_kept d d' : reaches d d' -> tenancy d -> tenancy d'.
Proof. apply reaches_tenancy. Qed.

Lemma reaches_accounted d d' : reaches d d' -> accounted d -> accounted d'.
Proof.
  intros Hr%reaches_legal. apply (writes_within_seen legal keeps_accounts); [apply _| |done].
  intros st d0 now Hl Hst Hd. by apply exec_accounted.
Qed.

(** C8: no run succeeds without its work: from a database in which it is so, the program
    only reaches databases in which every run that has succeeded has its commands in the
    outbox, one message each and at least one, each for an action of its automation on a
    device of the automation's household, and their number in the audit; no poll of
    another worker, retry or maintenance cycle takes any of it away. *)
Theorem succeeded_runs_dispatched d d' : reaches d d' -> accounted d -> accounted d'.
Proof. apply reaches_accounted. Qed.

(** C9: the commands of a run arrive: once a run has succeeded, as many polls of the
    outbox as it has due messages, with a publisher that accepts them and nobody else at
    work, deliver every command of the run, each in a message of its own, for an action
    of the automation on a device of its household, unless a message has failed for good
    before. *)
Theorem commands_delivered publish limit d0 d ts rid r :
  reaches d0 d -> accounted d0 -> automation_runs d !! rid = Some r -> r_State r = RunSucceeded ->
  (forall m, publish m = None) -> (forall t, t ∈ ts -> outbox_due d t) -> length ts = size (pending_ids d) ->
  (forall id m, outbox_messages d !! id = Some m -> o_FailedAt m = None) ->
  exists h items ids, at_row a_HouseholdID (r_AutomationID r) h d /\ items <> [] /\
    Forall (item_of (r_AutomationID r) h d) items /\ NoDup ids /\
    Forall2 (fun id item => exists m, outbox_messages (polls publish limit d ts).2 !! id = Some m /\
      message_core m = (h, "device.command"%string, base_fields (Some (command_payload (r_AutomationID r) rid item))) /\
      is_Some (o_DeliveredAt m)) ids items.
Proof.
  intros Hreach Hacc Hr Hs Hpub Hdue Hlen Hfail. apply (reaches_accounted _ _ Hreach) in Hacc.
  destruct (Hacc rid r Hr Hs) as (a & h & items & ids & (r1 & Hr1 & <-) & Ha & Hne & Hit & [Hnd Hq] & _).
  simpl in Hr1. rewrite Hr in Hr1. injection Hr1 as <-.
  exists h, items, ids. split_and!; try done. pose proof (polls_drain publish limit d ts Hpub Hdue Hlen) as Hdr.
  destruct (polls publish limit d ts) as [ms d']. destruct Hdr as (_ & _ & Hdr). simpl.
  eapply Forall2_impl; [exact Hq|]. intros id item (m & Hm & Hcore).
  destruct (Hdr id m Hm) as (m' & Hm' & Hd'). exists m'. split; [done|]. destruct (pending m) eqn:Hp.
  - destruct Hd' as (t & _ & ->). split; [exact Hcore|]. by eexists.
  - subst m'. split; [done|]. unfold pending in Hp. rewrite (Hfail id m Hm) in Hp.
    destruct (o_DeliveredAt m); [by eexists|done].
Qed.

(** C6: along every run of the whole program each table keeps its history: devices, plans,
    automations, runs, messages and alerts only move along their lifecycles, and
    households, members, actions and audit events are never changed nor deleted. *)
Theorem program_keeps_histories d d' :
  reaches d d' ->
  device_history d d' /\ plan_history d d' /\ automations_history d d' /\ outbox_history d d' /\
  alert_history d d' /\ append_only Household d d' /\ append_only MemberRow d d' /\
  append_only AutomationAction d d' /\ append_only AuditEvent d d'.
Proof.
  intros Hr%reaches_legal.
  pose proof (fun R HR Hst => writes_within legal R HR Hst d d' Hr) as Hin.
  split_and!.
  - by apply (Hin device_history _), legal_device.
  - by apply (Hin plan_history _), legal_plan.
  - split; [by apply (Hin automation_history _), legal_automation|by apply (Hin run_history _), legal_run].
  - by apply (Hin outbox_history _), legal_outbox.
  - by apply (Hin alert_history _), legal_alert.
  - by apply (Hin (append_only Household) _), legal_household.
  - by apply (Hin (append_only MemberRow) _), legal_member.
  - by apply (Hin (append_only AutomationAction) _), legal_action.
  - by apply (Hin (append_only AuditEvent) _), legal_audit.
Qed.
End properties.

(** ** Witnesses: a household is created while another instance runs a cycle *)
Definition onboarding_decoding : Decoding :=
  {| read_household _ := Some (mkHouseholdIn "home" "UTC" 500 "ann@example.org" "correct horse", true);
     read_member _ := None; read_login _ := None; read_device _ := None; read_telemetry _ := None;
     read_plan _ := None; read_automation _ := None; read_run _ := None; ParseRFC3339 _ := None |}.
Definition onboarding_request : Http.Request := mkRequest "POST" ["v1"; "households"]%string "" "r-1" "" "" "{}".
Definition onboarding_draw : Draw := mkDraw 100 (Ok (replicate 16 Ascii.zero)) "" "".

Section example.
#[local] Existing Instances exact_postgres ascii_only toy_pbkdf2 onboarding_decoding.
#[local] Instance example_zones : Zones := {| LoadLocation _ := true |}.

Definition another_cycle (d : Database) : Database := db (perform (Maintain 50) (quiet_store d 50)).2.
Definition busy_store : Store := mkStore empty_database 100 false [mkEvent another_cycle 5 NoFault].
Definition onboarding : operation := Request_ onboarding_request onboarding_draw.
Definition onboarded : Database := db (perform onboarding busy_store).2.

Lemma another_cycle_reaches d : reaches d (another_cycle d).
Proof. apply (reaches_perform (Maintain 50) (quiet_store d 50)); [apply List.Forall_nil|apply reaches_refl]. Qed.
Lemma onboarded_reaches : reaches empty_database onboarded.
Proof.
  apply (reaches_perform onboarding busy_store); [|apply reaches_refl].
  apply List.Forall_cons; [|apply List.Forall_nil]. apply another_cycle_reaches.
Qed.

Lemma operations_write_legally_witness : writes legal empty_database onboarded.
Proof.
  apply (operations_write_legally onboarding busy_store).
  apply List.Forall_cons; [|apply List.Forall_nil]. intros d. apply reaches_legal, another_cycle_reaches.
Defined.


Lemma program_keeps_histories_witness :
  reaches onboarded (another_cycle onboarded) /\
  forall id r, members onboarded !! id = Some r -> members (another_cycle onboarded) !! id = Some r.
Proof.
  split; [apply another_cycle_reaches|]. intros id r Hr.
  destruct (program_keeps_histories onboarded (another_cycle onboarded) (another_cycle_reaches onboarded))
    as (_ & _ & _ & _ & _ & _ & Hm & _).
  destruct (evolve_old _ _ _ _ Hm id r Hr) as (r' & Hr' & <-). exact Hr'.
Defined.
End example.

(** A plan over an enabled device is drafted. *)
Section draft_example.
#[local] Existing Instances exact_postgres ascii_only toy_pbkdf2.
#[local] Instance draft_zones : Zones := {| LoadLocation _ := true |}.
#[local] Instance draft_decoding : Decoding :=
  {| read_household _ := None; read_member _ := None; read_login _ := None; read_device _ := None;
     read_telemetry _ := None; read_automation _ := None; read_run _ := None; ParseRFC3339 _ := None;
     read_plan _ := Some (mkPlanIn "night" 100 300 400 [mkPlanDevice 0 9 f0], true) |}.
Definition draft_home : Database :=
  set_devices {[9 := mkDevice 9 1 "lamp" KindLight DeviceEnabled "1" 1 None 5]} example_logged_in.
Definition draft : operation :=
  Request_ (mkRequest "POST" ["v1"; "households"; "1"; "plans"]%string "Bearer u-1" "r-1" "" "" "{}")
    (mkDraw 200 (Ok []) "" "").
Definition drafted : Database := db (perform draft (quiet_store draft_home 200)).2.

Lemma tenancy_kept_witness :
  (exists pd, plan_devices drafted !! (1, 9) = Some pd) /\ tenancy drafted.
Proof.
  split.
  - destruct (plan_devices drafted !! (1, 9)) as [pd|] eqn:E; [by exists pd|by vm_compute in E].
  - apply (tenancy_kept draft_home).
    + apply (reaches_perform draft (quiet_store draft_home 200)); [apply List.Forall_nil|apply reaches_refl].
    + split; intros k r Hr; vm_compute in Hr; destruct k; discriminate.
Defined.
End draft_example.

(** A queued run is polled. *)
Lemma succeeded_runs_dispatched_witness :
  let _ := ascii_only in let _ := toy_pbkdf2 in let _ := onboarding_decoding in let _ := exact_postgres in
  let _ := {| LoadLocation _ := true |} in
  let s := quiet_store (example_runs (example_run RunQueued)) 50 in
  let d := db (perform (PollRuns Live ∅ 51 52) s).2 in
  r_State <$> automation_runs d !! 9 = Some RunSucceeded /\ dispatched 9 d.
Proof.
  intros U PB D PG Zo s d.
  assert (r_State <$> automation_runs d !! 9 = Some RunSucceeded) as E by (vm_compute; reflexivity).
  split; [exact E|]. destruct (automation_runs d !! 9) as [r|] eqn:Hr; [|done]. injection E as E.
  apply (succeeded_runs_dispatched (example_runs (example_run RunQueued)) d) with r; [|
    |exact Hr|exact E].
  - apply (reaches_perform (PollRuns Live ∅ 51 52) s); [apply List.Forall_nil|apply reaches_refl].
  - intros id r0 Hr0 Hs. apply (lookup_singleton_Some 9 id (example_run RunQueued) r0) in Hr0 as [<- <-].
    vm_compute in Hs. discriminate.
Defined.

(** The run is polled, then its command is delivered. *)
Lemma commands_delivered_witness :
  let _ := ascii_only in let _ := toy_pbkdf2 in let _ := onboarding_decoding in let _ := exact_postgres in
  let _ := {| LoadLocation _ := true |} in
  let d0 := example_runs (example_run RunQueued) in
  let d := db (perform (PollRuns Live ∅ 51 52) (quiet_store d0 50)).2 in
  let d' := (polls (fun _ => None) 5 d [60]).2 in
  exists id m, outbox_messages d' !! id = Some m /\ o_Topic m = "device.command"%string /\ is_Some (o_DeliveredAt m).
Proof.
  intros U PB D PG Zo d0 d d'.
  assert (r_State <$> automation_runs d !! 9 = Some RunSucceeded) as E by (vm_compute; reflexivity).
  destruct (automation_runs d !! 9) as [r|] eqn:Hr; [|done]. injection E as E.
  assert (outbox_messages d = {[1 := command_row 1 2 9 51 1 (mkLoaded 3 "on" 0 1 DeviceEnabled)]}) as Hout
    by (vm_compute; reflexivity).
  assert (forall id m, outbox_messages d !! id = Some m ->
    id = 1 /\ m = command_row 1 2 9 51 1 (mkLoaded 3 "on" 0 1 DeviceEnabled)) as Hm
    by (rewrite Hout; intros id m [<- <-]%lookup_singleton_Some; done).
  destruct (commands_delivered (fun _ => None) 5 d0 d [60] 9 r) as (h & items & ids & _ & Hne & _ & _ & Hq);
    [| |exact Hr|exact E|done| |vm_compute; reflexivity| |].
  - apply (reaches_perform (PollRuns Live ∅ 51 52) (quiet_store d0 50)); [apply List.Forall_nil|apply reaches_refl].
  - intros id r0 Hr0 Hs. apply (lookup_singleton_Some 9 id (example_run RunQueued) r0) in Hr0 as [<- <-].
    vm_compute in Hs. discriminate.
  - intros t ->%list_elem_of_singleton id m [-> ->]%Hm. split; [reflexivity|]. split; [by split_and!; simpl; auto|].
    intros _. split; reflexivity.
  - intros id m [-> ->]%Hm. reflexivity.
  - destruct Hq as [|id item ids' items' (m & Hlook & Hcore & Hdel) _]; [done|].
    exists id, m. split; [exact Hlook|]. split; [|exact Hdel]. by injection Hcore.
Defined.
