(* ===== verification/Delivery.v ===== *)
(** * From the queue to the receiver

    What happens to a run when everything goes well: [Statements] and [System] say what
    no execution can do, here the other direction: a queued run whose devices are ready
    is executed by the next poll of the automation runner, and the polls of the outbox
    that follow hand all its commands to the publisher. *)
From S2P Require Import Prelude Errors GoStd Model Store Repo Frame Automations Outbox Password Auth Statements Schema.
From S2P Require Import Http Worker System.

Section delivery.
Context `{PG : Postgres}.

(** A table whose sequence is ahead of its rows, as it is while identifiers only come
    from the sequence. *)
Definition fresh {R} `{Table R} (d : Database) : Prop :=
  forall id, nextval (R := R) d <= id -> rows (R := R) d !! id = None.

Lemma sequenced_fresh {R} `{Table R} d : sequenced (R := R) d -> fresh (R := R) d.
Proof.
  intros [_ Hd] id Hid. destruct (rows d !! id) as [r|] eqn:Hr; [|done].
  destruct (Hd id r Hr) as [_ Hlt]. lia.
Qed.

Lemma insert_row_runs {R} `{Table R} mk constraints d now :
  let row := mk (nextval (R := R) d) now in
  row_check row = true -> rows d !! nextval (R := R) d = None -> constraints d row = None ->
  insert_row mk constraints d now =
  (Ok row, set_rows (<[nextval (R := R) d := row]> (rows d)) (set_seqs (<[seq_name := nextval (R := R) d + 1]> (seqs d)) d)).
Proof.
  intros row Hc Hn Hk. unfold insert_row. fold row. rewrite Hc. cbn [negb].
  rewrite bool_decide_eq_false_2 by (rewrite Hn; by intros []). by rewrite Hk.
Qed.

Lemma enqueue_actions_runs hid aid rid t items : forall s,
  schedule s = [] -> is_Some (households (db s) !! hid) -> Forall (dispatchable hid) items ->
  fresh (R := OutboxMessage) (db s) ->
  exists s', enqueue_actions hid aid rid t items s = (Ok tt, s') /\ schedule s' = [] /\
    seqs (db s') !! "audit_events"%string = seqs (db s) !! "audit_events"%string.
Proof.
  induction items as [|item items IH]; intros s Hs Hh Hall Hf; cbn [enqueue_actions]; [by eexists|].
  apply Forall_cons in Hall as [[Hhid Hst] Hall].
  rewrite Hhid, Hst, Z.eqb_refl, bool_decide_eq_true_2 by done. cbn [negb orb].
  rewrite bind_run, map_err_run, statement_undisturbed_run by done. unfold insert_outbox.
  cbn [not_json command_message o_Payload]. rewrite insert_row_runs; [|reflexivity|by apply Hf|].
  2: { unfold require, exists_row. simpl. by rewrite bool_decide_eq_true_2. }
  cbn [fst snd]. match goal with |- context [with_db s ?d] => set (d1 := d) end.
  destruct (IH (with_db s d1)) as (s' & Hrun & Hs' & Hq); [done|done|done| |].
  - intros id. unfold nextval, d1. simpl. rewrite lookup_insert_eq. simpl. intros Hid.
    rewrite lookup_insert_ne by (intros <-; lia). apply Hf. lia.
  - exists s'. split; [done|]. split; [done|]. rewrite Hq. unfold d1. simpl. by rewrite lookup_insert_ne.
Qed.

(** A running run with ready devices is executed. *)
Lemma execute_run_runs rid t s r a :
  schedule s = [] -> in_tx s = true -> automation_runs (db s) !! rid = Some r -> is_running r = true ->
  automations (db s) !! r_AutomationID r = Some a -> is_Some (households (db s) !! a_HouseholdID a) ->
  loaded_actions (r_AutomationID r) (db s) <> [] ->
  Forall (dispatchable (a_HouseholdID a)) (loaded_actions (r_AutomationID r) (db s)) ->
  fresh (R := OutboxMessage) (db s) -> fresh (R := AuditEvent) (db s) ->
  exists s', execute_run rid t s = (Ok tt, s').
Proof.
  intros Hs Htx Hr Hrun Ha Hh Hne Hall Hfo Hfa. unfold execute_run.
  rewrite bind_run, map_err_run, statement_undisturbed_run by done. unfold lock_run.
  rewrite Hr, Hrun, Ha. cbn [fst snd]. assert (with_db s (db s) = s) as -> by by destruct s.
  rewrite bind_run, map_err_run, statement_undisturbed_run by done. unfold load_actions. cbn [fst snd].
  assert (with_db s (db s) = s) as -> by by destruct s.
  rewrite bind_run, bool_decide_eq_false_2 by done.
  match goal with |- context [guard_fail false ?e s] => change (guard_fail false e s) with (Ok (E := error) tt, s) end.
  cbn match.
  destruct (enqueue_actions_runs (a_HouseholdID a) (r_AutomationID r) rid t _ s Hs Hh Hall Hfo) as (s1 & Hq & Hs1 & Hseq).
  pose proof Hq as (_ & _ & _ & _ & q & Hdb)%enqueue_actions_tx; [|done].
  rewrite bind_run, Hq, bind_run, map_err_run, statement_undisturbed_run by done.
  unfold insert_audit. cbn [not_json dispatched_audit ae_Payload]. rewrite insert_row_runs; [|reflexivity| |].
  - cbn [fst snd]. unfold require_one. rewrite bind_run, map_err_run, statement_undisturbed_run by done.
    unfold complete_run, update_row. cbn [fst snd]. simpl. rewrite Hdb. simpl. rewrite Hr, Hrun. simpl. by eexists.
  - unfold fresh, nextval in *. rewrite Hdb in *. simpl in *. rewrite Hseq. apply Hfa. lia.
  - simpl. unfold require, exists_row. rewrite bool_decide_eq_true_2; [done|]. by rewrite Hdb.
Qed.

(** [rid] is the next run to be claimed: it is queued, and no queued run comes before it. *)
Definition next_run (d : Database) (rid : Z) (r : AutomationRun) : Prop :=
  automation_runs d !! rid = Some r /\ r_State r = RunQueued /\
  forall j x, automation_runs d !! j = Some x -> r_State x = RunQueued -> rid <= j.
(** Its automation [a] has actions, all on enabled devices. *)
Definition ready_run (d : Database) (r : AutomationRun) (a : Automation) : Prop :=
  automations d !! r_AutomationID r = Some a /\ loaded_actions (r_AutomationID r) d <> [] /\
  Forall (fun item => la_state item = DeviceEnabled) (loaded_actions (r_AutomationID r) d).

(** The devices of an automation are of its household, so they may be dispatched to. *)
Lemma ready_dispatchable d r a : tenancy d -> ready_run d r a ->
  Forall (dispatchable (a_HouseholdID a)) (loaded_actions (r_AutomationID r) d).
Proof.
  intros Hten (Ha & _ & Hall). rewrite Forall_forall in Hall |- *. intros item Hitem. split; [|by apply Hall].
  unfold loaded_actions in Hitem. apply list_elem_of_omap in Hitem as (act & Hact & Hi).
  apply fmap_Some in Hi as (dev & Hdev & ->). unfold actions_of in Hact.
  rewrite stable_sort_perm, list_elem_of_In, filter_In, <-list_elem_of_In, rows_by_id_elem in Hact.
  destruct Hact as [[id Hrow] Haid]. bsimp.
  destruct (tn_automations _ Hten id act Hrow) as (a' & dev' & Ha' & Hdev' & E). simpl.
  rewrite Haid, Ha in Ha'. rewrite Hdev in Hdev'. by simplify_eq.
Qed.

Lemma claim_next d rid r t : next_run d rid r ->
  let run := with_run_state RunRunning (r_ErrorText r) (Some t) (r_FinishedAt r) r in
  claim_run ∅ d t = (Ok run, set_automation_runs (<[rid := run]> (automation_runs d)) d).
Proof.
  intros (Hr & Hq & Hfirst) run. unfold claim_run, claim_row.
  pose proof (candidate_spec ∅ (fun r : AutomationRun => bool_decide (r_State r = RunQueued)) d) as Hc.
  destruct (candidate _ _ d) as [[id row]|].
  - destruct Hc as (Hrow & Hqr & _ & Hleast). bsimp.
    assert (id = rid) as ->.
    { apply Z.le_antisymm; [|by eapply Hfirst]. eapply Hleast; [exact Hr| |set_solver]. by apply bool_decide_eq_true. }
    simpl in Hrow. rewrite Hr in Hrow. injection Hrow as <-.
    assert (row_check run = true) as Hck by (apply bool_decide_eq_true; mem). fold run. by rewrite Hck.
  - exfalso. assert (rid ∈ (∅ : gset Z)); [|set_solver]. eapply Hc; [exact Hr|]. by apply bool_decide_eq_true.
Qed.

Lemma process_executes d rid r a t started failed :
  schema d -> tenancy d -> sequenced (R := AutomationRun) d -> sequenced (R := OutboxMessage) d ->
  sequenced (R := AuditEvent) d -> next_run d rid r -> ready_run d r a -> started <> zeroTime ->
  let run := with_run_state RunRunning (r_ErrorText r) (Some t) (r_FinishedAt r) r in
  exists s', Runner_process Live ∅ started failed (quiet_store d t) = (Ok (Some run), s') /\
    executed rid started (set_automation_runs (<[rid := run]> (automation_runs d)) d) (db s').
Proof.
  intros Hsch Hten Hsr Hfo%sequenced_fresh Hfa%sequenced_fresh Hnext Hready Hst run.
  pose proof (ready_dispatchable d r a Hten Hready) as Hall. destruct Hready as (Ha & Hne & _).
  assert (0 < rid) as Hpos by (destruct Hnext as [Hr _]; destruct (proj2 Hsr rid r Hr); done).
  unfold Runner_process, under, ClaimRun. cbn [persistenceContext ctx_Err].
  rewrite statement_quiet, (claim_next _ _ _ _ Hnext). fold run. cbn [fst snd].
  set (d1 := set_automation_runs _ d). pose proof Hnext as (Hr & _).
  assert (r_ID run = rid) as Hid by apply (sc_runs _ Hsch rid r Hr).
  destruct (execute_run_runs rid started (begin_tx (quiet_store d1 t)) run a) as (s2 & Hex); try done.
  { simpl. by rewrite lookup_insert_eq. }
  { apply (fk_automations _ Hsch (r_AutomationID r) a). exact Ha. }
  assert (Execute Live (r_ID run) started (quiet_store d1 t) = (Ok tt, end_tx s2)) as He.
  { unfold Execute. rewrite Hid, (proj2 (Z.leb_gt _ _)) by lia. cbn [ctx_Err].
    change (@ExecuteAutomationRun _) with (@Repo.ExecuteAutomationRun PG). unfold Repo.ExecuteAutomationRun.
    rewrite (proj2 (Z.leb_gt _ _)) by lia. unfold IsZero. rewrite (proj2 (Z.eqb_neq _ _)) by done. cbn [orb].
    rewrite WithTx_undisturbed_run, Hex by (done || apply execute_run_undisturbed). done. }
  rewrite He. exists (end_tx s2). split; [done|]. by apply execute_run_tx in Hex.
Qed.

(** The new commands are due as soon as the clock of the database has reached the
    execution. *)
Lemma commands_due d d' hid aid rid started items t :
  outbox_due d t -> ts_in started <= t ->
  commands_added (command_row hid aid rid started) (nextval (R := OutboxMessage) d) items
    (outbox_messages d) (outbox_messages d') ->
  outbox_due d' t.
Proof.
  intros Hdue Ht [Hnew Hold] id m Hm. set (first := nextval (R := OutboxMessage) d) in *.
  destruct (decide (first <= id < first + Z.of_nat (length items))) as [Hin|Hout].
  - destruct (lookup_lt_is_Some_2 items (Z.to_nat (id - first))) as [item Hitem]; [lia|].
    destruct (Hnew _ _ Hitem) as [_ Hrow]. rewrite Z2Nat.id in Hrow by lia.
    replace (first + (id - first)) with id in Hrow by lia. rewrite Hm in Hrow. injection Hrow as ->.
    split; [done|]. split; [split_and!; simpl; [lia|by left|done|done]|]. intros _. split; [done|].
    unfold claimable, pending, command_row; simpl. rewrite andb_true_r. by apply Z.leb_le.
  - rewrite Hold in Hm by done. by apply Hdue.
Qed.

End delivery.

(** ** What the program reaches from an empty database *)
Section reached.
Context `{PG : Postgres} `{Unicode} `{Pbkdf2} `{Zones} `{Decoding} `{SliceSort}.

Definition reachable (d : Database) : Prop := reaches empty_database d.

Lemma reachable_sequenced {R} `{Table R} d :
  (forall st d now, numbered (R := R) d (exec st d now)) -> rows (R := R) empty_database = ∅ ->
  reachable d -> sequenced (R := R) d.
Proof.
  intros Hexec He Hr%reaches_legal. eapply numbered_sequenced.
  - apply (writes_within legal (numbered (R := R))); [apply _| |exact Hr]. auto.
  - split; [done|]. rewrite He. apply map_Forall_empty.
Qed.

Lemma reachable_messages d : reachable d -> map_Forall (fun id m => o_ID m = id /\ message_wf m) (outbox_messages d).
Proof.
  intros Hr. pose proof (reaches_schema _ _ Hr schema_empty) as Hsch. apply reaches_legal in Hr.
  assert (outbox_history empty_database d) as Hh
    by (apply (writes_within legal outbox_history); [apply _|intros st d0 now; apply legal_outbox|exact Hr]).
  intros id m Hm. split; [by apply (sc_outbox _ Hsch id m Hm)|].
  exact (outbox_history_wf _ _ Hh (map_Forall_empty _) id m Hm).
Qed.

(** The messages that wait may be sent at [t]. *)
Definition all_due (d : Database) (t : Time) : Prop :=
  map_Forall (fun _ m => pending m = true -> o_Attempts m < 2 ^ 31 - 1 /\ claimable m t = true) (outbox_messages d).

End reached.

(** ** Witness: a household is onboarded, its lamp enrolled, an automation run queued *)
Section example.
#[local] Existing Instances exact_postgres ascii_only toy_pbkdf2.
#[local] Instance example_zones : Zones := {| LoadLocation _ := true |}.
#[local] Instance example_decoding : Decoding :=
  {| read_household _ := Some (mkHouseholdIn "home" "UTC" 500 "ann@example.org" "correct horse", true);
     read_member _ := None; read_login _ := Some (mkLoginIn "ann@example.org" "correct horse", true);
     read_device _ := Some (mkDeviceIn "lamp-1" KindLight "1.0" ["power"%string], true); read_telemetry _ := None;
     read_plan _ := None; read_automation _ := Some (mkAutomationIn "night" "clock" [mkAction 0 0 1 "on" 0], true);
     read_run _ := Some (mkRunIn "k", true); ParseRFC3339 _ := None |}.

Definition call (method : string) (path : list string) : operation :=
  Request_ (mkRequest method path "Bearer u-1" "r-1" "" "" "{}") (mkDraw 100 (Ok (replicate 16 Ascii.zero)) "u-1" "").
Definition evening : list operation :=
  [ call "POST" ["v1"; "households"]; call "POST" ["v1"; "households"; "1"; "sessions"];
    call "POST" ["v1"; "households"; "1"; "devices"]; call "POST" ["v1"; "devices"; "1"; "pair"];
    call "POST" ["v1"; "devices"; "1"; "enable"]; call "POST" ["v1"; "households"; "1"; "automations"];
    call "POST" ["v1"; "automations"; "1"; "activate"]; call "POST" ["v1"; "automations"; "1"; "runs"] ]%string.

Definition replay (ops : list operation) (d : Database) : Database :=
  fold_left (fun d op => db (perform op (quiet_store d 100)).2) ops d.
Lemma replay_reaches ops d : reaches d (replay ops d).
Proof.
  revert d. induction ops as [|op ops IH]; intros d; simpl; [apply reaches_refl|].
  apply (reaches_perform op (quiet_store d 100)); [apply List.Forall_nil|]. apply IH.
Qed.

Definition waiting : Database := replay evening empty_database.

End example.
