(* ===== verification/Process.v ===== *)
(** * cmd/server/main.go, the loops of package worker and service/lifecycle.go

    How the process starts, the goroutines it runs on tickers, the publisher that
    delivers outbox messages to a webhook, and how it ends: [process_step] is the
    life of the process from the first request to its exit.  [http.Server] is that of
    net/http: [Shutdown] closes the listener, makes [ListenAndServe] return at once, and
    itself returns when no request is left. *)
From S2P Require Import Prelude Errors GoStd Model Store Repo Frame Statements Schema Outbox Password Auth Batch Gateway.
From S2P Require Import Transport Http Maintenance Worker Config System.

(** ** Ticker loops

    What wakes a [select] over [ctx.Done()] and a ticker.  When both are ready either
    may be taken, so a loop may still tick after its context is done. *)
Inductive wake := Tick | Stop (e : error).

Fixpoint ticker_loop (body : nat -> M unit) (i : nat) (wakes : list wake) : M (option error) := fun s =>
  match wakes with
  | [] => (Ok None, s)
  | Stop e :: _ => (Ok (Some e), s)
  | Tick :: rest => ticker_loop body (S i) rest (logged (body i) s).2
  end.

Lemma ticker_loop_guarantees R `{!TwoState R} body i wakes :
  (forall n, guarantees R (body n)) -> guarantees R (ticker_loop body i wakes).
Proof.
  intros Hb. revert i. induction wakes as [|[|e] wakes IH]; intros i s Hs; [done| |done].
  destruct (Hb i s Hs) as [Hr Hs1]. destruct (IH (S i) _ Hs1) as [Hr' Hs2].
  cbn [ticker_loop logged snd]. split; [by etransitivity|done].
Qed.

(** A loop that is stopped after [n] ticks has run its body [n] times. *)
Fixpoint ticked (body : nat -> M unit) (i n : nat) (s : Store) : Store :=
  match n with O => s | S n' => ticked body (S i) n' (body i s).2 end.
Lemma ticker_loop_stops body i n e rest s :
  ticker_loop body i (replicate n Tick ++ Stop e :: rest) s = (Ok (Some e), ticked body i n s).
Proof. revert i s. induction n as [|n IH]; intros i s; [done|]. apply IH. Qed.

Section loops.
Context `{PG : Postgres} `{Unicode} `{Pbkdf2} `{Zones} `{Decoding} `{SliceSort}.

(** What one poll of the automation runner meets. *)
Record Poll := mkPoll { pl_ctx : Ctx; pl_locked : gset Z; pl_started : Time; pl_failed : Time }.
(** [Runner.loop]. *)
Definition Runner_loop (polls : nat -> Poll) (wakes : list wake) : M (option error) :=
  ticker_loop (fun i => let p := polls i in
    perform (PollRuns (pl_ctx p) (pl_locked p) (pl_started p) (pl_failed p))) 0 wakes.

(** [OutboxRunner.Run] and [Scheduler.Run], on a runner that may lack its parts. *)
Definition OutboxRunner_Run (configured : bool) (ctx : nat -> Ctx) (publish : nat -> OutboxMessage -> option error) (retryLimit : Z)
    (locked : nat -> gset Z) (now : nat -> Time) (wakes : list wake) : M (option error) :=
  if configured
  then ticker_loop (fun i => perform (PollOutbox (ctx i) (publish i) retryLimit (locked i) (now i))) 0 wakes
  else mret (Some (New "outbox runner is not configured")).
Definition Scheduler_Run (configured : bool) (now : nat -> Time) (wakes : list wake) : M (option error) :=
  if configured then ticker_loop (fun i => perform (Maintain (now i))) 0 wakes
  else mret (Some (New "maintenance scheduler is not configured")).
Definition Scheduler_interval (d : Duration) : Duration := if d <=? 0 then Minute else d.

(** Every loop writes by legal statements only, for as long as it runs. *)
Lemma Runner_loop_legal polls wakes : guarantees (writes legal) (Runner_loop polls wakes).
Proof. apply ticker_loop_guarantees; [apply _|]. intros n. apply perform_legal. Qed.
Lemma OutboxRunner_legal configured ctx publish limit locked now wakes :
  guarantees (writes legal) (OutboxRunner_Run configured ctx publish limit locked now wakes).
Proof.
  unfold OutboxRunner_Run. destruct configured; [|eauto with repo].
  apply ticker_loop_guarantees; [apply _|]. intros n. apply perform_legal.
Qed.
Lemma Scheduler_legal configured now wakes : guarantees (writes legal) (Scheduler_Run configured now wakes).
Proof.
  unfold Scheduler_Run. destruct configured; [|eauto with repo].
  apply ticker_loop_guarantees; [apply _|]. intros n. apply perform_legal.
Qed.
End loops.

(** [New]: the number of loops of the runner ([Supervisor.Runner_Run] waits for them). *)
Definition New_workers (n : Z) : Z := if n <? 1 then 1 else n.

(** ** service/lifecycle.go

    [ends] is how long after the call the background function returns ([None]: never);
    [pick] decides when it returns just as the timeout expires. *)
Record Lifecycle := mkLifecycle { lc_cancelled : bool }.
Definition StartLifecycle : Lifecycle := mkLifecycle false.
Definition Lifecycle_Stop (timeout : Duration) (ends : option Duration) (pick : bool) (l : Lifecycle)
    : option error * Lifecycle :=
  let in_time := match ends with
                 | None => false
                 | Some e => (e <? timeout) || ((e =? timeout) && pick)
                 end in
  (if in_time then None else Some (New "lifecycle stop timeout"), mkLifecycle true).

Lemma Lifecycle_Stop_spec timeout ends pick l :
  lc_cancelled (Lifecycle_Stop timeout ends pick l).2 = true /\
  ((Lifecycle_Stop timeout ends pick l).1 = None -> exists e, ends = Some e /\ e <= timeout) /\
  (forall e, ends = Some e -> e < timeout -> (Lifecycle_Stop timeout ends pick l).1 = None).
Proof.
  split; [done|]. unfold Lifecycle_Stop. split.
  - destruct ends as [e|]; simpl; [|done]. destruct (_ || _) eqn:E; [|done]. intros _. exists e. split; [done|].
    bcases; lia.
  - intros e -> He. simpl. by rewrite (proj2 (Z.ltb_lt _ _) He).
Qed.

(** [Sleep] of worker/backoff.go: whether the timer fired before the context was done,
    [done] after the call ([None]: never); [pick] decides a tie. *)
Definition Sleep (d : Duration) (done : option Duration) (pick : bool) : bool :=
  match done with
  | None => true
  | Some c => (Z.max 0 d <? c) || ((Z.max 0 d =? c) && pick)
  end.

(** [MemoryPublisher]: the publisher of tests and demonstrations. *)
Record MemoryPublisher := mkMemoryPublisher { mp_Err : option error; mp_Messages : list OutboxMessage }.
Definition MemoryPublisher_Publish (m : OutboxMessage) (p : MemoryPublisher) : option error * MemoryPublisher :=
  match mp_Err p with
  | Some e => (Some e, p)
  | None => (None, mkMemoryPublisher None (mp_Messages p ++ [m]))
  end.

(** ** The start of [main] *)
Inductive goroutine := AutomationLoop (n : nat) | MaintenanceLoop | OutboxLoop.
#[export] Instance goroutine_eq_dec : EqDecision goroutine.
Proof. solve_decision. Defined.
Inductive start := Exits (code : Z) | Runs (c : Config) (goroutines : list goroutine).

Definition goroutines (c : Config) : list goroutine :=
  map AutomationLoop (seq 0 (Z.to_nat (New_workers (cf_WorkerCount c)))) ++
  [MaintenanceLoop] ++ (if bool_decide (cf_OutboxWebhookURL c = "") then [] else [OutboxLoop]).

(** [db.Open], from the errors of [sql.Open] and of the first ping, and the limits of
    the pool it sets; [DB.Close]. *)
Record Pool := mkPool {
  po_MaxOpenConns : Z; po_MaxIdleConns : Z; po_ConnMaxLifetime : Duration; po_closed : bool }.
Definition Close (p : Pool) : Pool :=
  mkPool (po_MaxOpenConns p) (po_MaxIdleConns p) (po_ConnMaxLifetime p) true.
Definition Open_ (open ping : option error) : result Pool :=
  match open with
  | Some e => Fail (wrap_prefix "open postgres" e)
  | None => match ping with
            | Some e => Fail (wrap_prefix "ping postgres" e)
            | None => Ok (mkPool 20 8 (30 * Minute) false)
            end
  end.

(** [open] and [ping] are the errors [db.Open] meets, [migrated] that of [db.Migrate]. *)
Definition main_start `{Parsing} `{Net} (env : string -> string) (open ping migrated : option error) : start :=
  match FromEnv env with
  | Fail _ => Exits 1
  | Ok cfg =>
      match Open_ open ping with
      | Fail _ => Exits 1
      | Ok _ => match migrated with
                | Some _ => Exits 1
                | None => Runs cfg (goroutines cfg)
                end
      end
  end.

(** A process that starts is one that can do its work: its configuration is valid
    and the database is open and migrated; it runs as many automation loops as
    configured, between 1 and 64, one maintenance loop, and delivers messages exactly
    when a webhook is configured, which then is one that webhooks accept. *)
Theorem main_runs_configured `{Parsing} `{Net} env open ping migrated c gs :
  main_start env open ping migrated = Runs c gs ->
  FromEnv env = Ok c /\ open = None /\ ping = None /\ migrated = None /\ NoDup gs /\
  (forall i, AutomationLoop i ∈ gs <-> Z.of_nat i < cf_WorkerCount c) /\ 1 <= cf_WorkerCount c <= 64 /\
  MaintenanceLoop ∈ gs /\
  (OutboxLoop ∈ gs <-> cf_OutboxWebhookURL c <> ""%string) /\
  (OutboxLoop ∈ gs -> CheckURL (cf_OutboxWebhookURL c) = None).
Proof.
  unfold main_start. destruct (FromEnv env) as [cfg|] eqn:Hc; [|done].
  unfold Open_. destruct open, ping, migrated; try done. intros [= -> <-].
  destruct (FromEnv_valid env c Hc) as (Hw & _ & _ & _ & _ & Hurl).
  assert (OutboxLoop ∈ goroutines c <-> cf_OutboxWebhookURL c <> ""%string) as Hout.
  { unfold goroutines. rewrite !elem_of_app, list_elem_of_fmap, list_elem_of_singleton. case_bool_decide as He.
    - rewrite elem_of_nil. naive_solver.
    - rewrite list_elem_of_singleton. naive_solver. }
  split_and!; try done; try lia.
  - unfold goroutines. rewrite !NoDup_app. split_and!.
    + apply NoDup_fmap_2; [by intros x y [= ->]|apply NoDup_seq].
    + intros x [y [-> _]]%list_elem_of_fmap Hx. apply elem_of_app in Hx as [?%list_elem_of_singleton|Hx]; [done|].
      case_bool_decide; [by apply elem_of_nil in Hx|by apply list_elem_of_singleton in Hx].
    + apply NoDup_singleton.
    + intros x ->%list_elem_of_singleton Hx. case_bool_decide; [by apply elem_of_nil in Hx|by apply list_elem_of_singleton in Hx].
    + case_bool_decide; [constructor|apply NoDup_singleton].
  - intros i. unfold goroutines. rewrite !elem_of_app, list_elem_of_fmap, list_elem_of_singleton.
    unfold New_workers. rewrite (proj2 (Z.ltb_ge _ _)) by lia. split.
    + intros [(j & [= <-] & Hj%elem_of_seq)|[|Hx]]; [lia|done|].
      case_bool_decide; [by apply elem_of_nil in Hx|by apply list_elem_of_singleton in Hx].
    + intros Hi. left. exists i. split; [done|]. apply elem_of_seq. lia.
  - unfold goroutines. rewrite !elem_of_app, list_elem_of_singleton. auto.
  - intros Ho. destruct Hurl as [Hu|Hu]; [|done]. by apply Hout in Ho.
Qed.

(** ** [webhookPublisher]

    The body of a delivery is [encoding/json] on [OutboxMessage]: its payload, a byte
    slice, becomes a base64 string with padding. *)
Section delivery.
Context `{JSONText} `{TimeFormat} `{Net}.

Definition StdEncoding (l : list Ascii.ascii) : string :=
  EncodeToString l +:+ (match Z.of_nat (length l) mod 3 with 1 => "==" | 2 => "=" | _ => "" end).

Definition json_time (t : option Time) : json :=
  match t with Some t => JString (RFC3339Nano t) | None => JNull end.
Definition message_json (m : OutboxMessage) : json :=
  JObject [("ID"%string, JInt (o_ID m)); ("HouseholdID"%string, JInt (o_HouseholdID m));
    ("Topic"%string, JString (o_Topic m));
    ("Payload"%string, match o_Payload m with
                       | Some p => JString (StdEncoding (bytes (json_text p)))
                       | None => JNull
                       end);
    ("Attempts"%string, JInt (o_Attempts m)); ("AvailableAt"%string, JString (RFC3339Nano (o_AvailableAt m)));
    ("LockedAt"%string, json_time (o_LockedAt m)); ("DeliveredAt"%string, json_time (o_DeliveredAt m));
    ("FailedAt"%string, json_time (o_FailedAt m));
    ("FailureReason"%string, match o_FailureReason m with Some r => JString r | None => JNull end)].

Definition delivery_key (m : OutboxMessage) : string := "outbox-" +:+ Sprint (o_ID m).

(** [webhookPublisher.Publish]: the requests it sends and its answer. *)
Definition Publish (w : Webhook) (m : OutboxMessage) (wire : nat -> exchange) (wait : nat -> Duration -> option error)
    : list HTTPRequest * option error :=
  SendWithKey w (Some (message_json m)) (delivery_key m) wire wait.

Lemma delivery_key_inj m m' : delivery_key m = delivery_key m' -> o_ID m = o_ID m'.
Proof. unfold delivery_key, Sprint. intros E. simpl in E. injection E as E. by apply (inj pretty). Qed.
Lemma delivery_key_nonempty m : delivery_key m <> ""%string.
Proof. done. Qed.

End delivery.

(** ** The life of the process

    [pr_cancelled] is the context of [main], [pr_listening] whether [ListenAndServe]
    still accepts, [pr_requests] the requests being handled, [pr_exit] the exit code. *)
Record Process := mkProcess {
  pr_cancelled : bool; pr_listening : bool; pr_shutdown : bool;
  pr_loops : gset nat; pr_requests : gset nat; pr_database : bool; pr_exit : option Z }.

(** [n] loops have just been started. *)
Definition started (n : nat) : Process := mkProcess false true false (set_seq 0 n) ∅ true None.

Inductive process_step : Process -> Process -> Prop :=
| step_signal c l sh ws rs d : process_step (mkProcess c l sh ws rs d None) (mkProcess true l sh ws rs d None)
| step_loop_returns c l sh ws rs d g e : g ∈ ws -> (is_ctx_error e = true -> c = true) ->
    process_step (mkProcess c l sh ws rs d None) (mkProcess (c || negb (Is e Canceled)) l sh (ws ∖ {[g]}) rs d None)
| step_request c sh ws rs d r : ~ (r ∈ rs) ->
    process_step (mkProcess c true sh ws rs d None) (mkProcess c true sh ws ({[r]} ∪ rs) d None)
| step_answer c l sh ws rs d r : r ∈ rs ->
    process_step (mkProcess c l sh ws rs d None) (mkProcess c l sh ws (rs ∖ {[r]}) d None)
| step_shutdown l ws rs d :
    process_step (mkProcess true l false ws rs d None) (mkProcess true false true ws rs d None)
| step_listen_fails c sh ws rs d :
    process_step (mkProcess c true sh ws rs d None) (mkProcess c false sh ws rs d (Some 1))
| step_main_returns c ws rs d :
    process_step (mkProcess c false true ws rs d None) (mkProcess true false true ws rs false (Some 0)).

Definition process_inv (p : Process) : Prop :=
  (pr_shutdown p = true -> pr_cancelled p = true /\ pr_listening p = false) /\
  (pr_listening p = false -> pr_shutdown p = true \/ pr_exit p = Some 1) /\
  (pr_exit p = Some 0 -> pr_shutdown p = true /\ pr_database p = false) /\
  (pr_exit p = None -> pr_database p = true) /\ (pr_exit p = None \/ pr_exit p = Some 0 \/ pr_exit p = Some 1).

Lemma process_inv_reachable n p : rtc process_step (started n) p -> process_inv p.
Proof.
  apply rtc_ind_r.
  - by unfold process_inv; simpl; naive_solver.
  - intros p1 p2 _ Hstep (H1 & H2 & H3 & H4 & H5). destruct Hstep; unfold process_inv in *; simpl in *;
      destruct_or?; naive_solver.
Qed.

(** C25: the process shuts down when told to, without waiting: status 0 means that a
    signal or a failed loop cancelled the context and the listener was closed; once it
    is closed no request is accepted; and once the context is cancelled a running
    process can always exit, whatever its loops and requests are doing. *)
Theorem shutdown_protocol n p :
  rtc process_step (started n) p ->
  (pr_exit p = Some 0 -> pr_cancelled p = true /\ pr_listening p = false /\ pr_database p = false) /\
  (forall p', process_step p p' -> pr_listening p = false -> pr_requests p' ⊆ pr_requests p) /\
  (pr_cancelled p = true -> pr_exit p = None ->
   exists p', rtc process_step p p' /\ pr_exit p' = Some 0 /\ pr_requests p' = pr_requests p).
Proof.
  intros Hp. apply process_inv_reachable in Hp as (H1 & H2 & H3 & H4 & H5). split_and!.
  - intros E. destruct (H3 E) as [Hs Hd]. destruct (H1 Hs). done.
  - intros p' Hstep Hl. destruct Hstep; simpl in *; try done; set_solver.
  - destruct p as [c l sh ws rs d ex]. simpl in *. intros -> ->. destruct sh.
    + destruct (H1 eq_refl) as [_ ->]. eexists. split; [apply rtc_once, step_main_returns|done].
    + eexists. split; [eapply rtc_l; [apply step_shutdown|]; apply rtc_once, step_main_returns|done].
Qed.

(** C26: the shutdown is not graceful: since [main] returns as soon as [ListenAndServe]
    does, and not when [Shutdown] does, the process may exit with status 0, its
    database closed, while a request is being handled and loops are at work. *)
Theorem shutdown_cuts_requests n :
  exists p, rtc process_step (started n) p /\ pr_exit p = Some 0 /\ pr_database p = false /\
    pr_requests p = {[7%nat]} /\ pr_loops p = set_seq 0 n.
Proof.
  eexists. split.
  - eapply rtc_l; [apply (step_request _ _ _ _ _ 7); set_solver|].
    eapply rtc_l; [apply step_signal|]. eapply rtc_l; [apply step_shutdown|].
    apply rtc_once, step_main_returns.
  - simpl. set_solver.
Qed.

(** ** Witnesses *)
Lemma main_runs_configured_witness :
  let _ := postgres_net in let _ := plain_parsing in
  exists c gs, main_start example_env None None None = Runs c gs /\ AutomationLoop 7 ∈ gs /\ ~ (OutboxLoop ∈ gs).
Proof.
  intros N P.
  destruct (main_start example_env None None None) as [code|c gs] eqn:Hrun; [by vm_compute in Hrun|].
  exists c, gs. split; [done|].
  destruct (main_runs_configured example_env None None None c gs Hrun) as (Hc & _ & _ & _ & _ & Ha & _ & _ & Ho & _).
  vm_compute in Hc. injection Hc as <-. split; [by apply Ha|]. intros Hin. by apply Ho in Hin.
Defined.


Lemma shutdown_protocol_witness :
  let p := mkProcess true true false (set_seq 0 3) ∅ true None in
  exists p', rtc process_step p p' /\ pr_exit p' = Some 0.
Proof.
  intros p. assert (rtc process_step (started 3) p) as Hp by apply rtc_once, step_signal.
  destruct (shutdown_protocol 3 p Hp) as (_ & _ & Hexit).
  destruct (Hexit eq_refl eq_refl) as (p' & Hp' & Hcode & _). by exists p'.
Defined.
